(* ===== verification/_CoqProject ===== *)
-Q . S2P
Prelude.v
Machine.v
Uart.v
Printf.v
Format.v
Frames.v
Mm.v
Vm.v
PageTable.v
Mapping.v
VmFree.v
KernelMap.v
Process.v
Queues.v
Scheduler.v
SchedInv.v
SchedOps.v
SchedProps.v
SchedTypes.v
Fairness.v
CString.v
SimpleFs.v
Vfs.v
Testdev.v
Elf.v
Trap.v
Riscv.v
Swtch.v
TrapEntry.v
Boot.v
FirstSwitch.v
Preemption.v
Syscall.v
Plic.v
Shell.v
Kernel.v
Main.v
KernelInv.v
SelfTest.v
Session.v
Interrupts.v
