(* ===== verification/Prelude.v ===== *)
(** * A model of the RISC-V embedded OS kernel and its correctness

    The program is a small supervisor-mode kernel in C (src/kernel,
    src/drivers) with its entry points and its context switch in assembly
    (src/bootloader/boot.S, src/kernel/process/swtch.S) for the QEMU virt machine: a polling console, formatted output,
    a page and a heap allocator, SV39 page tables, a process table with a
    multi-level feedback scheduler, an ELF loader, an in-memory file system, a
    device file system with a test device, traps, system calls, an interrupt
    controller, and [kernel_main], which starts all of it, runs self tests and
    serves a shell.

    ** How the code is modelled

    A C routine is a [K S A] (Machine.v): a function of the objects it can reach
    (the state [S]) and of the world outside (console input still to come, events
    emitted so far).  Its outcome is a returned value, a halt in [panic], endless
    waiting, an access outside an object ([Fault]), or the CPU handed to another
    context ([Switch], [Leave]).  C integers are [Z] with their wrap-around
    written out ([u64], [u32], [s32]); RAM is a finite map of 64-bit words; static
    arrays are lists whose out-of-range accesses fault; pointers into the process
    table are [procref], pointers into RAM are numbers.  Components are put
    together with lenses ([zoom]); no component gets a private copy of what it
    shares with another, in particular the memory manager.

    Assembly is a list of instructions run by a fuelled interpreter of the RV64
    registers, control registers, privilege mode and RAM (Riscv.v), up to a jump
    out, a call of a C routine, a return from a trap or an access fault.  A called
    C routine is known there by the calling convention ([returns]).

    ** Files

    - Prelude: integers, arrays, list lemmas, tactics.  Machine: the monad,
      weakest preconditions [wp] (returns, takes no input, never faults), [wps]
      (may hand the CPU over), the instructions of riscv.h.  Frames: what a
      routine leaves alone.
    - Uart: drivers/uart/uart.c; its module [Device] runs the polling loops on any
      device with the register laws of the class [UartLaws].  Printf:
      kernel/printf.c; Format: a reference rendering of formats.
    - Mm: kernel/mm/mm.c.  Vm: the definitions of kernel/mm/vm.c and vm.h;
      PageTable, Mapping: the tree of tables and what [walk], [mappages],
      [unmappages], [walkaddr], [va2pa] do to the translation; VmFree: [vm_free];
      KernelMap: [kvminit], [vm_init], [kvminithart].
    - Process: kernel/process/process.c.  Queues, Scheduler: the queues and the
      rest of kernel/process/scheduler.c with [swtch] of swtch.S; SchedInv,
      SchedOps: the abstract run queue, the invariant and every operation;
      SchedProps, SchedTypes, Fairness: their properties.
    - CString: the copy and compare loops for names.  SimpleFs:
      kernel/fs/simplefs.c.  Vfs: kernel/fs/vfs.c over any driver that keeps the
      laws of the class [DriverLaws]; Testdev: drivers/testdev/testdev.c, an
      instance.
    - Elf: kernel/process/elf.c.  Trap: kernel/trap/trap.c and the control
      registers of riscv.h.  Riscv: the instructions the assembly uses; Swtch:
      [swtch] of swtch.S against the scheduler's model; TrapEntry: [trap_entry] of
      boot.S, [switch_to_user] and [trap_vector_user] of swtch.S; Boot: [_start] of
      boot.S; FirstSwitch: [_start], the scheduler and [swtch] together;
      Preemption: [trap_entry], the trap handler and [swtch] together.
      Syscall: kernel/syscall/syscall.c.  Plic: drivers/plic/plic.c and
      drivers/rtc/rtc.c over memory-mapped registers.
    - kernel/main.c: Shell (line editor, recogniser), Kernel (the state of the
      whole kernel, the start-up sequence), Main (self tests, commands, the shell
      loop, [kernel_main]), KernelInv (the invariant [kinv] of the running kernel
      and the commands that keep it), SelfTest ([run_tests] keeps it and reports
      success), Session (the shell and [kernel_main] as a whole), Interrupts (an
      interrupt at the prompt, through [trap_entry]).

    ** What is shown

    - The whole kernel: from any contents of RAM [kernel_main] starts every
      component, runs its self tests and serves any typed lines but [reboot]
      without fault or panic, with all invariants in force at each prompt
      (Session.kernel_main_serves, Kernel.kernel_start_ready); its self tests
      report success (SelfTest.self_tests_pass); an interrupt
      at a prompt keeps every invariant and counts its tick, but [trap_entry] loses
      the interrupted [ra] (Interrupts.interrupt_at_prompt); [reboot] faults.
    - Assembly: [_start] clears exactly the static data and calls [kernel_main]
      (Boot.boot_enters_kernel); the instructions of [swtch] carry out the switch
      of the scheduler's model and a suspended context comes back (Swtch); what
      each trap entry preserves, and the registers it loses (TrapEntry); a process
      preempted through [trap_entry] resumes at another one's address (Preemption);
      the cleared memory holds the process tables the model starts with, and the
      first switch to the idle process jumps to address 0 (FirstSwitch).
    - Memory: free pages and owned pages partition RAM, heap blocks are disjoint,
      [mappages] maps exactly the range it is given or fails cleanly, terminates
      on every input, does not disturb other tables, is undone by [unmappages];
      a user table that is created, filled and released gives back every page.
    - Scheduling: the system invariant over every interleaving of operations,
      ticks and resumed calls, for callers that queue and release only processes
      that are neither running nor queued; the ring buffers and the real-time queue refine
      lists; what yield, add, priorities, ticks and ageing do; typing of process
      records; a queue served in turn; nobody lost by a yield.
    - Files: the inode table refines a finite map; names are unique; the device
      layer is safe for any driver that keeps the laws; data survive a close and
      an open of the test device.
    - Console: [printf] calls that pass a static check return and only print;
      [printf] prints what the reference rendering prescribes; the polling driver
      implements the console the other components rely on.
    - Boundaries: the ELF loader accepts exactly the prescribed files; the trap
      handler, the system calls and the interrupt-enable registers behave as
      specified; the line editor stays in its buffer; the recogniser agrees with
      a definition on whole lines.
    - Where the code goes wrong, the error is a theorem too: wrap-around in
      [kmalloc], [sfs_format], [sfs_read], [elf_load] and [testdev_read],
      overlong names, [%lu], the idle process, FIFO processes that yield, the
      unmapped test device, preemption through [trap_entry], the stacks of
      [switch_to_user], static data whose size is no multiple of 8, a process
      queued twice, system calls with pointers the caller cannot access.

    ** Fuel

    Loops that the C code bounds are recursion on that bound.  [mappages_loop]
    has [range_fuel] rounds, proved enough for every input; [boost_loop] has 65,
    one more than a queue can hold; [vm_free] has depth 3, the number of levels;
    [line_loop] takes one byte of input per round and has one round more than
    there are bytes.  [printf_loop] has one round more than the format has bytes.
    [numeral] has 64 digits, enough for 64 bits in every base.  The driver's
    polling loops have the device's own bound on busy reads.  [swtch] takes 33
    steps at most, the trap entries the number of their instructions, [_start]
    11 steps and 4 for each word it clears: the theorems give these numbers.
    [shell_loop] and [scheduler_loop] are endless in C: their theorems hold for
    every amount of fuel.

    ** Assumptions

    [LayoutOk]: what scripts/kernel.ld guarantees of the heap's address.
    [kernel_bss]: the sizes of the static arrays and well-typed process records
    (all zero at boot), one CPU.  [BootSymbols], [ProcLayoutOk]: the addresses of
    linker symbols and of the process tables, aligned, in RAM and disjoint, and
    [TablesInBss]: the tables are in the cleared data.
    [UartLaws], [DriverLaws], [PlicLaws]: the contracts of the console device, of
    a driver and of the enable registers.  [returns]: the calling convention, for
    C routines called from assembly.  Each has an instance.

    ** Not modelled

    The other harts (the code fixes one CPU); [r_satp], which has no caller, and
    the constants of the headers nothing refers to; interrupts in the middle of a
    C routine (a trap is taken between operations: at a prompt, or as a call of
    the handler); the translation of the addresses used by the assembly itself
    (the kernel maps its memory to itself, and [switch_to_user] and
    [trap_vector_user] are modelled on the memory they run on); the byte layout of
    static data other than the process contexts: that the rest of [kernel_bss]
    follows from the memory [_start] clears is not stated. *)

From Stdlib Require Export ZArith Lia.
From stdpp Require Export base numbers list gmap.
#[global] Set Default Goal Selector "!".

Declare Scope kernel_scope.
Delimit Scope kernel_scope with kernel.
#[global] Open Scope Z_scope.

(** ** Machine integers

    A C integer of width [w] is a [Z]; an operation of the source that can
    leave the width is written with the wrap-around explicit. *)

Definition u64 (z : Z) : Z := z mod 18446744073709551616.
Definition u32 (z : Z) : Z := z mod 4294967296.
Definition u8 (z : Z) : Z := z mod 256.

(** Conversion of a 32-bit pattern to [int]: two's complement. *)
Definition s32 (z : Z) : Z :=
  let r := u32 z in if r <? 2147483648 then r else r - 4294967296.

(** Conversion of a 64-bit pattern to [int64_t]. *)
Definition s64 (z : Z) : Z :=
  let r := u64 z in
  if r <? 9223372036854775808 then r else r - 18446744073709551616.

Definition is_u64 (z : Z) : Prop := 0 <= z < 18446744073709551616.
Definition is_u32 (z : Z) : Prop := 0 <= z < 4294967296.

(** Arithmetic on wrapped integers: unfold the wraps and decide. *)
Ltac words :=
  unfold is_u64, is_u32, s32, s64, u64, u32, u8 in *;
  repeat case_match; Z.div_mod_to_equations; lia.

Create HintDb words.

Lemma u64_id z : is_u64 z → u64 z = z.
Proof. unfold is_u64, u64. intros. by apply Z.mod_small. Qed.

Lemma u32_id z : is_u32 z → u32 z = z.
Proof. unfold is_u32, u32. intros. by apply Z.mod_small. Qed.

Lemma u64_range z : is_u64 (u64 z).
Proof. apply Z.mod_pos_bound. lia. Qed.

Lemma u32_range z : is_u32 (u32 z).
Proof. apply Z.mod_pos_bound. lia. Qed.

Lemma s32_range z : -2147483648 <= s32 z < 2147483648.
Proof. words. Qed.

#[export] Hint Resolve u64_range u32_range : words.

(** Clearing the low [k] bits rounds down to a multiple of [2^k]. *)
Lemma land_lnot_ones a k :
  0 <= k → Z.land a (Z.lnot (Z.ones k)) = a - a mod 2 ^ k.
Proof.
  intros Hk. rewrite <- Z.ldiff_land, Z.ldiff_ones_r by done.
  rewrite Z.shiftr_div_pow2, Z.shiftl_mul_pow2 by done.
  pose proof (Z.div_mod a (2 ^ k) ltac:(apply Z.pow_nonzero; lia)). lia.
Qed.

(** A value below [2^k] and a multiple of [2^k] share no bit. *)
Lemma land_low_field a b k :
  0 <= k → 0 <= b < 2 ^ k → Z.land (Z.shiftl a k) b = 0.
Proof.
  intros Hk Hb. apply Z.bits_inj'. intros i Hi. rewrite Z.land_spec, Z.bits_0.
  destruct (decide (i < k)); [by rewrite Z.shiftl_spec_low|].
  rewrite andb_comm, <- (Z.mod_small b (2 ^ k)) by done.
  by rewrite Z.mod_pow2_bits_high by lia.
Qed.

(** Disjoint fields: or-ing a value below [2^k] into a multiple of [2^k]. *)
Lemma lor_low_field a b k :
  0 <= k → 0 <= b < 2 ^ k → Z.lor (Z.shiftl a k) b = a * 2 ^ k + b.
Proof.
  intros Hk Hb. pose proof (land_low_field a b k Hk Hb) as Hland.
  rewrite <- Z.lxor_lor, <- Z.add_nocarry_lxor by done.
  by rewrite Z.shiftl_mul_pow2.
Qed.

(** ** Lists used as fixed-size C arrays *)

(** [take]/[drop] of an update at the boundary. *)
Lemma take_insert_S {A} (l : list A) (i : nat) x :
  (i < length l)%nat → take (S i) (<[i:=x]> l) = take i l ++ [x].
Proof.
  intros Hi. rewrite (take_S_r _ _ x).
  - by rewrite take_insert_ge by lia.
  - by apply list_lookup_insert_eq.
Qed.

(** A duplicate-free list of naturals below [n] has at most [n] elements. *)
Lemma NoDup_bound (l : list nat) (n : nat) :
  NoDup l → (∀ x, x ∈ l → (x < n)%nat) → (length l <= n)%nat.
Proof.
  intros Hnd Hb. rewrite <- (length_seq n 0).
  apply submseteq_length, NoDup_submseteq; [done|].
  intros x Hx. apply elem_of_seq. specialize (Hb x Hx). lia.
Qed.

(** C array accesses: [None] is an index outside the array. *)
Definition arr_get {A} (l : list A) (i : Z) : option A :=
  if 0 <=? i then l !! Z.to_nat i else None.
Definition arr_set {A} (l : list A) (i : Z) (x : A) : option (list A) :=
  if (0 <=? i) && (i <? Z.of_nat (length l)) then Some (<[Z.to_nat i := x]> l) else None.

Lemma arr_get_nat {A} (l : list A) (n : nat) : arr_get l (Z.of_nat n) = l !! n.
Proof. unfold arr_get. destruct (Z.leb_spec 0 (Z.of_nat n)); [by rewrite Nat2Z.id|lia]. Qed.

Lemma arr_get_some {A} (l : list A) i :
  0 <= i < Z.of_nat (length l) → ∃ x, arr_get l i = Some x.
Proof.
  intros Hi. unfold arr_get. destruct (Z.leb_spec 0 i); [|lia].
  apply lookup_lt_is_Some. lia.
Qed.

Lemma arr_set_some {A} (l : list A) i x :
  0 <= i < Z.of_nat (length l) → arr_set l i x = Some (<[Z.to_nat i := x]> l).
Proof.
  intros Hi. unfold arr_set.
  by rewrite (proj2 (Z.leb_le 0 i)), (proj2 (Z.ltb_lt i (Z.of_nat (length l)))) by lia.
Qed.

Lemma arr_get_insert {A} (l : list A) i j x :
  0 <= i < Z.of_nat (length l) → 0 <= j →
  arr_get (<[Z.to_nat i := x]> l) j = if decide (i = j) then Some x else arr_get l j.
Proof.
  intros Hi Hj. unfold arr_get. destruct (Z.leb_spec 0 j); [|lia]. case_decide as Hij.
  - subst. apply list_lookup_insert_eq. lia.
  - apply list_lookup_insert_ne. lia.
Qed.
