(* ===== verification/Machine.v ===== *)
(** The machine interface: what a kernel routine can do besides computing.

    A routine is a [K S A]: a function of the C objects it can reach (the
    state [S]) and of the world outside the kernel (bytes the console will
    deliver, events emitted so far).  It returns, halts in [panic], spins on a
    device that never becomes ready, performs an access the C program has no
    right to make, or hands the CPU to another context: it is resumed later
    with whatever state the other contexts have left, or never when its own
    context was not saved. *)

From S2P Require Import Prelude.

(** ** Observable events *)

Inductive event :=
  | EvPutc (c : Z)              (* byte written to the UART THR *)
  | EvSatp (v : Z)              (* csrw satp *)
  | EvSfence                    (* sfence.vma zero, zero *)
  | EvCsr (csr v : Z)           (* other CSR write *)
  | EvMmio (addr v : Z)         (* 32-bit device store *)
  | EvWfi.                      (* wfi *)

#[export] Instance event_eq_dec : EqDecision event.
Proof. solve_decision. Defined.

(** [w_tr] holds the events newest first. *)
Record world := mkWorld { w_in : list Z; w_tr : list event }.

Definition emits (es : list event) (w : world) : world :=
  mkWorld (w_in w) (rev_append es (w_tr w)).

(** The bytes on the console, oldest first. *)
Definition console (w : world) : list Z :=
  rev (omap (λ e, match e with EvPutc c => Some c | _ => None end) (w_tr w)).

Lemma emits_nil w : emits [] w = w.
Proof. by destruct w. Qed.

Lemma emits_emits es es' w : emits es' (emits es w) = emits (es ++ es') w.
Proof.
  unfold emits; simpl. f_equal.
  rewrite !rev_append_rev, rev_app_distr. by rewrite app_assoc.
Qed.

(** ** Outcomes and the monad *)

Inductive res (S A : Type) :=
  | Ret (a : A) (s : S) (w : world)
  | Halt (s : S) (w : world)
  | Spin (s : S) (w : world)
  | Fault (s : S) (w : world)
  | Switch (s : S) (w : world) (k : S → world → res S A)
  | Leave (s : S) (w : world).
Arguments Ret {S A} a s w.
Arguments Halt {S A} s w.
Arguments Spin {S A} s w.
Arguments Fault {S A} s w.
Arguments Switch {S A} s w k.
Arguments Leave {S A} s w.

Definition K (S A : Type) : Type := S → world → res S A.

Definition ret {S A} (a : A) : K S A := λ s w, Ret a s w.

Fixpoint bind_res {S A B} (r : res S A) (f : A → K S B) : res S B :=
  match r with
  | Ret a s w => f a s w
  | Halt s w => Halt s w
  | Spin s w => Spin s w
  | Fault s w => Fault s w
  | Switch s w k => Switch s w (λ s' w', bind_res (k s' w') f)
  | Leave s w => Leave s w
  end.

Definition bind {S A B} (m : K S A) (f : A → K S B) : K S B :=
  λ s w, bind_res (m s w) f.

(** A routine that returned, and what follows it. *)
Lemma bind_run {S A B} (m : K S A) (f : A → K S B) s w a s' w' : m s w = Ret a s' w' → bind m f s w = f a s' w'.
Proof. unfold bind. by intros ->. Qed.

Notation "'let*' x := m 'in' f" := (bind m (λ x, f))
  (at level 10, x pattern, m at level 100, f at level 200) : kernel_scope.
Notation "m ;; f" := (bind m (λ _, f))
  (at level 100, f at level 200, right associativity) : kernel_scope.
#[global] Open Scope kernel_scope.

Definition get {S} : K S S := λ s w, Ret s s w.
Definition gets {S A} (f : S → A) : K S A := λ s w, Ret (f s) s w.
Definition modify {S} (f : S → S) : K S unit := λ s w, Ret tt (f s) w.
Definition fault {S A} : K S A := λ s w, Fault s w.
Definition emit {S} (es : list event) : K S unit := λ s w, Ret tt s (emits es w).

(** The instructions of [riscv.h] whose effect is outside the kernel's data. *)
Definition w_satp {S} (x : Z) : K S unit := emit [EvSatp x].
Definition sfence_vma {S} : K S unit := emit [EvSfence].
Definition wfi {S} : K S unit := emit [EvWfi].

(** A partial read or update of a C object: [None] is an access outside it. *)
Definition lift_opt {S A} (o : option A) : K S A :=
  match o with Some a => ret a | None => fault end.

(** ** Zooming: a routine of a component run inside a larger state *)

Record lens (S T : Type) := Lens {
  view : T → S;
  put : S → T → T;
  view_put : ∀ s t, view (put s t) = s;
  put_view : ∀ t, put (view t) t = t;
  put_put : ∀ s s' t, put s (put s' t) = put s t }.
Arguments Lens {S T}.
Arguments view {S T}.
Arguments put {S T}.
Arguments view_put {S T}.
Arguments put_view {S T}.
Arguments put_put {S T}.

Fixpoint zoom_res {S T A} (L : lens S T) (r : res S A) (t : T) : res T A :=
  match r with
  | Ret a s w => Ret a (put L s t) w
  | Halt s w => Halt (put L s t) w
  | Spin s w => Spin (put L s t) w
  | Fault s w => Fault (put L s t) w
  | Switch s w k =>
      Switch (put L s t) w (λ t' w', zoom_res L (k (view L t') w') t')
  | Leave s w => Leave (put L s t) w
  end.

Definition zoom {S T A} (L : lens S T) (m : K S A) : K T A :=
  λ t w, zoom_res L (m (view L t) w) t.

(** ** Weakest preconditions

    [wp m Q H s]: started in [s], whatever the world, [m] returns in a state
    satisfying [Q], having taken no input, or halts in one satisfying [H]; it
    never faults, spins or gives up the CPU. *)

Definition wp {S A} (m : K S A) (Q : A → S → Prop) (H : S → Prop) (s : S) : Prop :=
  ∀ w, match m s w with
       | Ret a s' w' => Q a s' ∧ w_in w' = w_in w
       | Halt s' _ => H s'
       | _ => False
       end.

Definition never {S : Type} : S → Prop := λ _, False.

Create HintDb wp.

Section Wp.
Context {S A : Type}.
Implicit Types (m : K S A) (Q : A → S → Prop) (H : S → Prop) (s : S).

Lemma wp_ret (a : A) Q H s : Q a s → wp (ret a) Q H s.
Proof. by intros HQ w. Qed.

Lemma wp_mono m Q Q' H H' s :
  wp m Q H s → (∀ a s', Q a s' → Q' a s') → (∀ s', H s' → H' s') →
  wp m Q' H' s.
Proof.
  intros Hm HQ HH w. specialize (Hm w). destruct (m s w); naive_solver.
Qed.

Lemma wp_conj m Q Q' H s :
  wp m Q H s → wp m Q' H s → wp m (λ a s', Q a s' ∧ Q' a s') H s.
Proof. intros H1 H2 w. specialize (H1 w). specialize (H2 w). destruct (m s w); naive_solver. Qed.

Lemma wp_bind {B} (m : K S B) (f : B → K S A) Q H s :
  wp m (λ b s', wp (f b) Q H s') H s → wp (bind m f) Q H s.
Proof.
  intros Hm w. specialize (Hm w). unfold bind.
  destruct (m s w) as [b s' w'| | | | |]; simpl; try done. destruct Hm as [Hf Hin]. specialize (Hf w').
  rewrite Hin in Hf. exact Hf.
Qed.

Lemma wp_assoc {B C} (m : K S B) (f : B → K S C) (g : C → K S A) Q H s :
  wp (bind (bind m f) g) Q H s → wp (bind m (λ b, bind (f b) g)) Q H s.
Proof. intros Hm w. specialize (Hm w). unfold bind in *. by destruct (m s w). Qed.

Lemma wp_zoom {T} (L : lens S T) m (Q : A → T → Prop) (H : T → Prop) t :
  wp m (λ a s, Q a (put L s t)) (λ s, H (put L s t)) (view L t) →
  wp (zoom L m) Q H t.
Proof.
  intros Hm w. specialize (Hm w). unfold zoom. by destruct (m (view L t) w).
Qed.

Lemma wp_lift_opt (o : option A) a Q H s :
  o = Some a → Q a s → wp (lift_opt o) Q H s.
Proof. by intros -> HQ w. Qed.

(** What [wp] gives about one run. *)
Lemma wp_out m Q H s :
  wp m Q H s → ∀ w, match m s w with Ret a s' _ => Q a s' | Halt s' _ => H s' | _ => False end.
Proof. intros Hm w. specialize (Hm w). by destruct (m s w) as [? ? ?| | | | |]; [destruct Hm|..]. Qed.

Lemma wp_run_in m Q s w :
  wp m Q never s → ∃ a s' w', m s w = Ret a s' w' ∧ Q a s' ∧ w_in w' = w_in w.
Proof. intros Hm. specialize (Hm w). destruct (m s w) as [a s' w'| | | | |]; try done; by exists a, s', w'. Qed.

Lemma wp_run m Q s w :
  wp m Q never s → ∃ a s' w', m s w = Ret a s' w' ∧ Q a s'.
Proof. intros Hm. destruct (wp_run_in _ _ _ w Hm) as (a & s' & w' & Hr & Hq & _). by exists a, s', w'. Qed.

End Wp.

Lemma wp_gets {S A} (f : S → A) (Q : A → S → Prop) H s :
  Q (f s) s → wp (gets f) Q H s.
Proof. by intros HQ w. Qed.

Lemma wp_modify {S} (f : S → S) Q H s : Q tt (f s) → wp (modify f) Q H s.
Proof. by intros HQ w. Qed.

Lemma wp_emit {S} es (Q : unit → S → Prop) H s : Q tt s → wp (emit es) Q H s.
Proof. by intros HQ w. Qed.

(** One symbolic step of a routine. *)
Ltac wp_step :=
  lazymatch goal with
  | |- wp (bind _ _) _ _ _ => apply wp_bind
  | |- wp (ret _) _ _ _ => apply wp_ret
  | |- wp (gets _) _ _ _ => apply wp_gets
  | |- wp (modify _) _ _ _ => apply wp_modify
  | |- wp (emit _) _ _ _ => apply wp_emit
  | |- wp (zoom _ _) _ _ _ => apply wp_zoom
  end; cbn beta.
Ltac wp_steps := repeat wp_step.

(** ** Loops

    [for_up n f]: the C loop [for (i = 0; i < n; i++) f(i)]. *)

Fixpoint for_from {S} (i : Z) (n : nat) (f : Z → K S unit) : K S unit :=
  match n with
  | O => ret tt
  | Datatypes.S n' => f i ;; for_from (i + 1) n' f
  end.

Definition for_up {S} (n : Z) (f : Z → K S unit) : K S unit :=
  for_from 0 (Z.to_nat n) f.

(** Invariant rule for the counted loop. *)
Lemma wp_for_from {S} (I : Z → S → Prop) H (f : Z → K S unit) i n s :
  (∀ j s, i <= j < i + Z.of_nat n → I j s → wp (f j) (λ _, I (j + 1)) H s) →
  I i s → wp (for_from i n f) (λ _, I (i + Z.of_nat n)) H s.
Proof.
  revert i s. induction n as [|n IH]; intros i s Hf Hi; simpl.
  - apply wp_ret. by replace (i + Z.of_nat 0) with i by lia.
  - apply wp_bind. eapply wp_mono; [apply Hf; [lia|done]| |done].
    intros [] s' Hs'. replace (i + Z.of_nat (Datatypes.S n)) with (i + 1 + Z.of_nat n) by lia.
    apply IH; [|done]. intros j s0 Hj. apply Hf. lia.
Qed.

Lemma wp_for_up {S} (I : Z → S → Prop) H (f : Z → K S unit) n s :
  0 <= n →
  (∀ j s, 0 <= j < n → I j s → wp (f j) (λ _, I (j + 1)) H s) →
  I 0 s → wp (for_up n f) (λ _, I n) H s.
Proof.
  intros Hn Hf H0. unfold for_up.
  pose proof (wp_for_from I H f 0 (Z.to_nat n) s) as Hw.
  rewrite Z2Nat.id in Hw by done. apply Hw; [|done].
  intros j s' Hj. apply Hf. lia.
Qed.

(** ** Routines that may give up the CPU

    [wps m Q G R s]: started in [s], [m] returns in a state satisfying [Q] or
    hands the CPU over in a state satisfying [G]; resumed in any state
    satisfying [R] it goes on in the same way.  It never halts, faults or
    spins. *)

Fixpoint res_ok {S A} (Q : A → S → Prop) (G R : S → Prop) (r : res S A) : Prop :=
  match r with
  | Ret a s _ => Q a s
  | Switch s _ k => G s ∧ ∀ s' w', R s' → res_ok Q G R (k s' w')
  | Leave s _ => G s
  | _ => False
  end.

(** A property of the whole outcome, whatever the world. *)
Definition wpr {S A} (m : K S A) (P : res S A → Prop) (s : S) : Prop := ∀ w, P (m s w).

Definition wps {S A} (m : K S A) (Q : A → S → Prop) (G R : S → Prop) (s : S) : Prop :=
  wpr m (res_ok Q G R) s.

Section Wps.
Context {S A : Type}.
Implicit Types (m : K S A) (Q : A → S → Prop) (G R : S → Prop) (s : S).

Lemma wps_of_wp m Q G R s : wp m Q never s → wps m Q G R s.
Proof. intros Hm w. specialize (Hm w). destruct (m s w); naive_solver. Qed.

Lemma res_ok_mono Q Q' G G' R R' (r : res S A) :
  res_ok Q G R r → (∀ a s', Q a s' → Q' a s') → (∀ s', G s' → G' s') → (∀ s', R' s' → R s') →
  res_ok Q' G' R' r.
Proof.
  intros Hr HQ HG HR. induction r as [| | | |s w k IH|]; simpl in *; auto.
  destruct Hr as [Hg Hk]. split; auto.
Qed.

Lemma wps_mono m Q Q' G G' R R' s :
  wps m Q G R s → (∀ a s', Q a s' → Q' a s') → (∀ s', G s' → G' s') → (∀ s', R' s' → R s') →
  wps m Q' G' R' s.
Proof. intros Hm HQ HG HR w. eapply res_ok_mono; eauto. Qed.

Lemma wps_bind {B} (m : K S B) (f : B → K S A) Q G R s :
  wps m (λ b s', wps (f b) Q G R s') G R s → wps (bind m f) Q G R s.
Proof.
  intros Hm w. specialize (Hm w). unfold bind. generalize dependent (m s w). intros r Hr.
  induction r as [| | | |s' w' k IH|]; simpl in *; [by apply Hr|done|done|done| |done].
  destruct Hr as [Hg Hk]. split; [done|]. intros s2 w2 H2. by apply IH, Hk.
Qed.

(** A routine that never hands the CPU over returns. *)
Lemma wps_run m Q s w : wps m Q never never s → ∃ a s' w', m s w = Ret a s' w' ∧ Q a s'.
Proof. intros Hm. specialize (Hm w). destruct (m s w) as [a s' w'| | | | |]; try done; [by exists a, s', w'|by destruct Hm]. Qed.

Lemma wps_ret (a : A) Q G R s : Q a s → wps (ret a) Q G R s.
Proof. by intros HQ w. Qed.
End Wps.

(** A routine of a component inside a larger state: its invariant [P] and a
    property [I] of the rest, kept at every hand-over of the CPU. *)
Lemma wps_zoom {S T A} (L : lens S T) (P : S → Prop) (I : T → Prop) (m : K S A) t :
  (∀ s t, I t → I (put L s t)) → I t → wps m (λ _, P) P P (view L t) →
  wps (zoom L m) (λ _ t', P (view L t') ∧ I t') (λ t', P (view L t') ∧ I t') (λ t', P (view L t') ∧ I t') t.
Proof.
  intros HI Ht Hm w. specialize (Hm w). unfold zoom. generalize dependent (m (view L t) w). intros r.
  revert t Ht. induction r as [a s w'|s w'|s w'|s w'|s w' k IH|s w']; intros t Ht Hr; simpl in *;
    rewrite ?view_put; try by auto.
  destruct Hr as [Hs Hk]. split; [auto|]. intros t' w2 [Hv Hi]. by apply IH, Hk.
Qed.

(** A prefix that keeps the CPU. *)
Lemma wpr_bind_wp {S A B} (m : K S B) (f : B → K S A) P s :
  wp m (λ b s', wpr (f b) P s') never s → wpr (bind m f) P s.
Proof.
  intros Hm w. specialize (Hm w). unfold bind. destruct (m s w); simpl; try done. by apply Hm.
Qed.

Lemma wpr_bind {S A B} (m : K S B) (f : B → K S A) P s :
  wpr m (λ r, P (bind_res r f)) s → wpr (bind m f) P s.
Proof. done. Qed.

(** ** Running up to a given call

    [becomes m m' Q s]: started in [s], [m] comes, without taking input, to the
    call [m' b] in a state satisfying [Q b], and is that call from there on. *)

Definition becomes {S A B} (m : K S A) (m' : B → K S A) (Q : B → S → Prop) (s : S) : Prop :=
  ∀ w, ∃ b s' w', m s w = m' b s' w' ∧ Q b s' ∧ w_in w' = w_in w.

Lemma becomes_here {S A B} (m' : B → K S A) Q s b : Q b s → becomes (m' b) m' Q s.
Proof. intros HQ w. by exists b, s, w. Qed.

Lemma becomes_bind {S A B C} (m : K S C) (f : C → K S A) (m' : B → K S A) Q s :
  wp m (λ a s', becomes (f a) m' Q s') never s → becomes (bind m f) m' Q s.
Proof.
  intros Hm w. destruct (wp_run_in _ _ _ w Hm) as (a & s1 & w1 & Hr & Hb & Hi).
  destruct (Hb w1) as (b & s' & w' & Hr' & HQ & Hi'). exists b, s', w'.
  by rewrite (bind_run _ _ _ _ _ _ _ Hr), Hi'.
Qed.

(** The call reached inside a larger routine. *)
Lemma becomes_then {S A B C} (m : K S C) (f : C → K S A) (m' : B → K S C) Q s :
  becomes m m' Q s → becomes (bind m f) (λ b, bind (m' b) f) Q s.
Proof.
  intros Hm w. destruct (Hm w) as (b & s' & w' & Hr & HQ & Hi). exists b, s', w'.
  split; [|done]. unfold bind. by rewrite Hr.
Qed.

Lemma becomes_trans {S A B C} (m : K S A) (m' : B → K S A) (m'' : C → K S A) Q R s :
  becomes m m' Q s → (∀ b s', Q b s' → becomes (m' b) m'' R s') → becomes m m'' R s.
Proof.
  intros Hm Hn w. destruct (Hm w) as (b & s1 & w1 & -> & HQ & Hi).
  destruct (Hn b s1 HQ w1) as (d & s' & w' & -> & HR & Hi'). exists d, s', w'. by rewrite Hi', Hi.
Qed.

Lemma becomes_mono {S A B} (m : K S A) (m' : B → K S A) Q R s :
  becomes m m' Q s → (∀ b s', Q b s' → R b s') → becomes m m' R s.
Proof. intros Hm HR. apply (becomes_trans _ _ _ _ _ _ Hm). intros b s' HQ. by apply becomes_here, HR. Qed.

Lemma becomes_wp {S A B} (m : K S A) (m' : B → K S A) Q R H s :
  becomes m m' Q s → (∀ b s', Q b s' → wp (m' b) R H s') → wp m R H s.
Proof.
  intros Hm Hn w. destruct (Hm w) as (b & s1 & w1 & -> & HQ & Hi). specialize (Hn b s1 HQ w1).
  by rewrite Hi in Hn.
Qed.
