(* ===== verification/Uart.v ===== *)
(** The UART driver, [drivers/uart/uart.c].

    [Module Device] is the driver as written: busy-wait loops over volatile
    accesses to the registers of a device, which is a parameter with the laws of a
    16550.  The definitions at the top level are the same routines seen from the
    kernel, where a transmitted byte is an event and a received byte comes from
    the world's input.  The refinement [Device.uart_refines] says that the driver
    on such a device does what the kernel relies on. *)

From S2P Require Import Prelude Machine.

Definition LF : Z := 10.
Definition CR : Z := 13.

(** C [char] is unsigned on this target. *)
Definition uart_putc {S} (c : Z) : K S unit := emit [EvPutc (u8 c)].

(** A C string is the bytes from the pointer to the end of its array; running
    off the end is a fault. *)
Fixpoint uart_puts {S} (s : list Z) : K S unit :=
  match s with
  | [] => fault
  | c :: s' =>
      if c =? 0 then ret tt
      else (if c =? LF then uart_putc CR else ret tt) ;; uart_putc c ;; uart_puts s'
  end.

(** Waits until a byte arrives; with no input left the wait never ends. *)
Definition uart_getc {S} : K S Z := λ s w,
  match w_in w with
  | [] => Spin s w
  | c :: r => Ret (u8 c) s (mkWorld r (w_tr w))
  end.

Definition uart_init {S} : K S unit := ret tt.

(** Bytes a string puts on the wire: [CR] before each [LF]. *)
Fixpoint puts_out (s : list Z) : list Z :=
  match s with
  | [] => []
  | c :: s' =>
      if c =? 0 then [] else (if c =? LF then [CR; LF] else [u8 c]) ++ puts_out s'
  end.

Fixpoint terminated (s : list Z) : bool :=
  match s with [] => false | c :: s' => (c =? 0) || terminated s' end.

Lemma uart_puts_run {S} (s : list Z) (st : S) w :
  terminated s = true →
  uart_puts s st w = Ret tt st (emits (map EvPutc (puts_out s)) w).
Proof.
  revert w. induction s as [|c s IH]; intros w Ht; [done|]. simpl in *.
  destruct (Z.eqb_spec c 0) as [->|Hc].
  - by rewrite emits_nil.
  - destruct (Z.eqb_spec c LF) as [->|Hlf]; unfold bind, uart_putc, emit; simpl.
    + rewrite IH by done. by rewrite !emits_emits.
    + rewrite IH by done. by rewrite !emits_emits.
Qed.

Module Device.

(** ** Registers *)

Definition UART_BASE : Z := 0x10000000.
Definition UART_RBR : Z := UART_BASE + 0.
Definition UART_THR : Z := UART_BASE + 0.
Definition UART_LSR : Z := UART_BASE + 5.
Definition UART_LSR_TX_IDLE : Z := Z.shiftl 1 5.
Definition UART_LSR_RX_READY : Z := Z.shiftl 1 0.

(** What a byte access to a register address does to the device. *)
Class Uart (D : Type) := {
  reg_read : Z → D → Z * D;
  reg_write : Z → Z → D → D }.

Definition READ_REG `{Uart D} (addr : Z) (d : D) : Z * D := let (v, d') := reg_read addr d in (u8 v, d').
Definition WRITE_REG `{Uart D} (addr val : Z) (d : D) : D := reg_write addr (u8 val) d.

(** ** The driver *)

Section Driver.
Context {D : Type} {U : Uart D}.

(** [while ((READ_REG(UART_LSR) & bit) == 0);] with at most [fuel] reads. *)
Fixpoint poll (bit : Z) (fuel : nat) (d : D) : option D :=
  match fuel with
  | O => None
  | Datatypes.S fuel' =>
      let (v, d') := READ_REG UART_LSR d in
      if Z.land v bit =? 0 then poll bit fuel' d' else Some d'
  end.

Definition uart_putc (fuel : nat) (c : Z) (d : D) : option D :=
  d' ← poll UART_LSR_TX_IDLE fuel d;
  Some (WRITE_REG UART_THR c d').

Fixpoint uart_puts (fuel : nat) (s : list Z) (d : D) : option D :=
  match s with
  | [] => None
  | c :: s' =>
      if c =? 0 then Some d
      else
        d1 ← (if c =? LF then uart_putc fuel CR d else Some d);
        d2 ← uart_putc fuel c d1;
        uart_puts fuel s' d2
  end.

Definition uart_getc (fuel : nat) (d : D) : option (Z * D) :=
  d' ← poll UART_LSR_RX_READY fuel d;
  Some (READ_REG UART_RBR d').

Definition uart_has_char (d : D) : bool * D :=
  let (v, d') := READ_REG UART_LSR d in (negb (Z.land v UART_LSR_RX_READY =? 0), d').
End Driver.

(** ** The laws of the device

    [sent]: bytes transmitted so far; [pending]: bytes the line will deliver, in
    order.  A status read that finds the transmitter busy, or no byte although one
    is to come, brings the device nearer to being ready; what it reports ready
    stays so until the data register is accessed. *)
Class UartLaws D {U : Uart D} := {
  sent : D → list Z;
  pending : D → list Z;
  tx_ready : D → Prop;
  rx_ready : D → Prop;
  tx_wait : D → nat;
  rx_wait : D → nat;
  max_wait : nat;
  wait_bound d : (tx_wait d < max_wait)%nat ∧ (rx_wait d < max_wait)%nat;
  lsr_quiet d : let (v, d') := READ_REG UART_LSR d in sent d' = sent d ∧ pending d' = pending d;
  lsr_tx d : let (v, d') := READ_REG UART_LSR d in
    if Z.land v UART_LSR_TX_IDLE =? 0 then (tx_wait d' < tx_wait d)%nat else tx_ready d';
  lsr_rx d : let (v, d') := READ_REG UART_LSR d in
    if Z.land v UART_LSR_RX_READY =? 0 then pending d ≠ [] → (rx_wait d' < rx_wait d)%nat else rx_ready d';
  thr_sends d c : tx_ready d →
    sent (WRITE_REG UART_THR c d) = sent d ++ [u8 c] ∧ pending (WRITE_REG UART_THR c d) = pending d;
  rbr_takes d : rx_ready d → ∃ c p, pending d = c :: p ∧
    let (v, d') := READ_REG UART_RBR d in v = u8 c ∧ pending d' = p ∧ sent d' = sent d }.

Section Refinement.
Context {D : Type} {U : Uart D} {UL : UartLaws D}.

(** Polling ends when the awaited bit comes, and moves no data. *)
Lemma poll_tx fuel d : (tx_wait d < fuel)%nat →
  ∃ d', poll UART_LSR_TX_IDLE fuel d = Some d' ∧ tx_ready d' ∧ sent d' = sent d ∧ pending d' = pending d.
Proof.
  revert d. induction fuel as [|fuel IH]; intros d Hf; [lia|]. cbn [poll].
  pose proof (lsr_quiet d) as Hq. pose proof (lsr_tx d) as Ht. destruct (READ_REG UART_LSR d) as [v d1].
  destruct Hq as [Hs Hp]. destruct (_ =? 0); [|by exists d1].
  destruct (IH d1) as (d' & Hr & Hrdy & Hs' & Hp'); [lia|]. exists d'. by rewrite Hs', Hp'.
Qed.

Lemma poll_rx fuel d : (rx_wait d < fuel)%nat → pending d ≠ [] →
  ∃ d', poll UART_LSR_RX_READY fuel d = Some d' ∧ rx_ready d' ∧ sent d' = sent d ∧ pending d' = pending d.
Proof.
  revert d. induction fuel as [|fuel IH]; intros d Hf Hne; [lia|]. cbn [poll].
  pose proof (lsr_quiet d) as Hq. pose proof (lsr_rx d) as Ht. destruct (READ_REG UART_LSR d) as [v d1].
  destruct Hq as [Hs Hp]. destruct (_ =? 0); [|by exists d1]. specialize (Ht Hne).
  destruct (IH d1) as (d' & Hr & Hrdy & Hs' & Hp'); [lia|by rewrite Hp|]. exists d'. by rewrite Hs', Hp'.
Qed.

(** With nothing to come it never ends. *)
Lemma poll_rx_never fuel d : pending d = [] → poll UART_LSR_RX_READY fuel d = None.
Proof.
  revert d. induction fuel as [|fuel IH]; intros d He; [done|]. cbn [poll].
  pose proof (lsr_quiet d) as Hq. pose proof (lsr_rx d) as Ht. destruct (READ_REG UART_LSR d) as [v d1].
  destruct Hq as [_ Hp]. destruct (_ =? 0); [apply IH; congruence|].
  destruct (rbr_takes _ Ht) as (c & p & Hc & _). congruence.
Qed.

Lemma putc_sends c d :
  ∃ d', uart_putc max_wait c d = Some d' ∧ sent d' = sent d ++ [u8 c] ∧ pending d' = pending d.
Proof.
  destruct (poll_tx max_wait d) as (d1 & Hr & Hrdy & Hs & Hp); [apply wait_bound|].
  destruct (thr_sends d1 c Hrdy) as [Hs' Hp']. exists (WRITE_REG UART_THR c d1).
  unfold uart_putc. rewrite Hr. cbn. split; [done|]. by rewrite Hs', Hp', Hs.
Qed.

Lemma puts_sends s d : terminated s = true →
  ∃ d', uart_puts max_wait s d = Some d' ∧ sent d' = sent d ++ puts_out s ∧ pending d' = pending d.
Proof.
  revert d. induction s as [|c s IH]; intros d Ht; [done|]. cbn [uart_puts puts_out terminated] in *.
  destruct (Z.eqb_spec c 0) as [->|Hc]; [exists d; by rewrite app_nil_r|]. cbn [orb] in Ht.
  assert (∃ d1, (if c =? LF then uart_putc max_wait CR d else Some d) = Some d1 ∧
    sent d1 = sent d ++ (if c =? LF then [CR] else []) ∧ pending d1 = pending d) as (d1 & -> & Hs1 & Hp1).
  { destruct (c =? LF); [apply (putc_sends CR)|exists d; by rewrite app_nil_r]. }
  cbn. destruct (putc_sends c d1) as (d2 & -> & Hs2 & Hp2). cbn.
  destruct (IH d2 Ht) as (d' & -> & Hs' & Hp'). exists d'. rewrite Hs', Hs2, Hs1, Hp', Hp2, Hp1.
  split; [done|]. split; [|done]. destruct (Z.eqb_spec c LF) as [->|]; by rewrite <- !app_assoc.
Qed.
End Refinement.

(** ** Refinement *)

(** What the kernel asks of the console; a [getc] answers with a byte. *)
Inductive request := Puts (s : list Z) | Getc.

Definition ask_device `{Uart D} (fuel : nat) (q : request) (d : D) : option (Z * D) :=
  match q with
  | Puts s => d' ← uart_puts fuel s d; Some (0, d')
  | Getc => uart_getc fuel d
  end.

Definition ask_kernel {S} (q : request) : K S Z :=
  match q with
  | Puts s => Uart.uart_puts s ;; ret 0
  | Getc => Uart.uart_getc
  end.

Fixpoint ask_devices `{Uart D} (fuel : nat) (qs : list request) (d : D) : option (list Z * D) :=
  match qs with
  | [] => Some ([], d)
  | q :: qs =>
      rd ← ask_device fuel q d;
      rest ← ask_devices fuel qs (snd rd);
      Some (fst rd :: fst rest, snd rest)
  end.

Fixpoint ask_kernels {S} (qs : list request) : K S (list Z) :=
  match qs with
  | [] => ret []
  | q :: qs => let* r := ask_kernel q in let* rs := ask_kernels qs in ret (r :: rs)
  end.

Definition request_ok (q : request) : Prop :=
  match q with Puts s => terminated s = true | Getc => True end.

(** One request, from a device with the world's input pending. *)
Lemma ask_refines {D} {U : Uart D} {UL : UartLaws D} {S} q (d : D) (s : S) w :
  request_ok q → pending d = w_in w →
  match ask_kernel q s w with
  | Ret r s' w' => s' = s ∧ ∃ d' out, ask_device max_wait q d = Some (r, d') ∧ pending d' = w_in w' ∧
      sent d' = sent d ++ out ∧ w_tr w' = rev_append (map EvPutc out) (w_tr w)
  | Spin _ _ => ∀ fuel, ask_device fuel q d = None
  | _ => False
  end.
Proof.
  intros Hq Hp. destruct q as [str|]; cbn [ask_kernel ask_device request_ok] in *.
  - rewrite (bind_run _ _ _ _ _ _ _ (uart_puts_run str s w Hq)). cbn. split; [done|].
    destruct (puts_sends str d Hq) as (d' & Hr & Hs & Hp'). exists d', (puts_out str). rewrite Hr. cbn.
    by rewrite Hp', Hp.
  - unfold Uart.uart_getc, uart_getc. destruct (w_in w) as [|c r] eqn:Hw; cbn.
    { intros fuel. by rewrite poll_rx_never. }
    split; [done|]. destruct (poll_rx max_wait d) as (d1 & Hr & Hrdy & Hs1 & Hp1); [apply wait_bound|congruence|].
    destruct (rbr_takes d1 Hrdy) as (c' & p & Hc & Hrbr). rewrite Hr. cbn.
    destruct (READ_REG UART_RBR d1) as [v d']. destruct Hrbr as (-> & Hp' & Hs').
    rewrite Hp1, Hp in Hc. injection Hc as <- <-. exists d', []. rewrite app_nil_r. by rewrite Hs', Hs1.
Qed.

(** C22: On any device with the laws of a 16550, the polling driver implements
    the console the kernel relies on: for every sequence of strings to print and
    bytes to read it ends within the device's bound on busy reads, returns the
    bytes of the input in order, and transmits exactly the bytes that are events
    in the kernel's view; where the kernel waits for input that never comes, so
    does the driver. *)
Theorem uart_refines {D} {U : Uart D} {UL : UartLaws D} {S} (qs : list request) (d : D) (s : S) (w : world) :
  Forall request_ok qs → pending d = w_in w →
  match ask_kernels qs s w with
  | Ret rs s' w' => s' = s ∧ ∃ d' out, ask_devices max_wait qs d = Some (rs, d') ∧ pending d' = w_in w' ∧
      sent d' = sent d ++ out ∧ w_tr w' = rev_append (map EvPutc out) (w_tr w)
  | Spin _ _ => ask_devices max_wait qs d = None
  | _ => False
  end.
Proof.
  intros Hqs. revert d w. induction Hqs as [|q qs Hq _ IH]; intros d w Hp.
  { cbn. split; [done|]. exists d, []. by rewrite app_nil_r. }
  cbn [ask_kernels ask_devices]. pose proof (ask_refines q d s w Hq Hp) as H1. unfold bind at 1.
  destruct (ask_kernel q s w) as [r s1 w1| |s1 w1| | |]; cbn [bind_res]; try done; [|by rewrite H1].
  destruct H1 as (-> & d1 & o1 & Hr1 & Hp1 & Hs1 & Ht1). rewrite Hr1. cbn [mbind option_bind fst snd].
  specialize (IH d1 w1 Hp1). unfold bind at 1. destruct (ask_kernels qs s w1) as [rs s2 w2| |s2 w2| | |];
    cbn [bind_res]; try done; [|by rewrite IH].
  destruct IH as (-> & d2 & o2 & Hr2 & Hp2 & Hs2 & Ht2). cbn. split; [done|]. exists d2, (o1 ++ o2). rewrite Hr2.
  split; [done|]. split; [done|]. rewrite Hs2, Hs1, app_assoc. split; [done|].
  by rewrite Ht2, Ht1, !rev_append_rev, map_app, rev_app_distr, app_assoc.
Qed.

(** ** An instance: a device that is busy for two status reads after each byte
    sent, and shows a byte two status reads after the previous one was taken. *)

Inductive phase := Ready | Soon | Later.
Definition nearer (p : phase) : phase := match p with Later => Soon | _ => Ready end.
Definition wait_of (p : phase) : nat := match p with Ready => 0 | Soon => 1 | Later => 2 end.

Record slow := Slow { sl_in : list Z; sl_out : list Z; sl_tx : phase; sl_rx : phase }.

Definition slow_lsr (d : slow) : Z :=
  Z.lor (match sl_tx d with Ready => 32 | _ => 0 end)
    (match sl_in d, sl_rx d with _ :: _, Ready => 1 | _, _ => 0 end).

Definition slow_read (a : Z) (d : slow) : Z * slow :=
  if a =? UART_LSR then (slow_lsr d, Slow (sl_in d) (sl_out d) (nearer (sl_tx d)) (nearer (sl_rx d)))
  else match sl_in d with
       | c :: l => (c, Slow l (sl_out d) (sl_tx d) Later)
       | [] => (0, d)
       end.
Definition slow_write (a v : Z) (d : slow) : slow :=
  if a =? UART_THR then Slow (sl_in d) (sl_out d ++ [v]) Later (sl_rx d) else d.

#[export] Instance slow_uart : Uart slow := { reg_read := slow_read; reg_write := slow_write }.

#[export] Instance slow_laws : UartLaws slow.
Proof.
  refine {| sent := sl_out; pending := sl_in; tx_ready d := sl_tx d = Ready;
    rx_ready d := sl_rx d = Ready ∧ sl_in d ≠ []; tx_wait d := wait_of (sl_tx d); rx_wait d := wait_of (sl_rx d);
    max_wait := 3 |}.
  - intros [l o t r]. cbn. split; [destruct t|destruct r]; cbn; lia.
  - by intros [l o t r].
  - intros [l o [] []]; destruct l; vm_compute; intros; done || lia.
  - intros [l o [] []]; destruct l; vm_compute; intros; done || lia.
  - by intros [l o t r] c.
  - intros [[|c l] o t r] [Hr Hne]; [done|]. exists c, l. done.
Defined.

Lemma uart_refines_witness :
  ∃ d' out, ask_devices max_wait [Puts [72; 10; 0]; Getc; Getc] (Slow [97; 98; 99] [] Ready Later) =
      Some ([0; 97; 98], d') ∧ sent d' = [] ++ out ∧ pending d' = [99] ∧ out = [72; 13; 10].
Proof.
  pose proof (uart_refines [Puts [72; 10; 0]; Getc; Getc] (Slow [97; 98; 99] [] Ready Later) tt
    (mkWorld [97; 98; 99] [])) as H.
  destruct H as (_ & d' & out & Hr & Hp & Hs & Ht); [repeat constructor|reflexivity|].
  exists d', out. split; [exact Hr|]. split; [exact Hs|]. split; [exact Hp|].
  vm_compute in Hr. injection Hr as <-. symmetry. exact Hs.
Defined.
End Device.
