(* ===== verification/Printf.v ===== *)
(** Formatted console output and [panic], [kernel/printf.c].

    Data: a format is the bytes of its array, terminator included; the
    variadic arguments are the 64-bit slots [va_arg] walks over.  [fmt_ok] is
    a static check of a call (each conversion has a slot of its kind, widths
    fit the number buffer, the format does not end inside a conversion), and
    the theorems show what it buys: a checked call returns, and what it prints
    is the decoding-inverse of the numbers it was given. *)

From Stdlib Require Import Ascii String.
From S2P Require Import Prelude Machine Uart.

(** ** C literals *)

Definition ch (a : ascii) : Z := Z.of_N (N_of_ascii a).
Definition chars (s : string) : list Z := map ch (list_ascii_of_string s).
(** The array of a string literal; [ln] appends the newline most messages have. *)
Definition lit (s : string) : list Z := chars s ++ [0].
Definition ln (s : string) : list Z := chars s ++ [LF; 0].

(** ** [print_num] *)

Definition digits : list Z := chars "0123456789abcdef".
Definition digit (d : Z) : Z := nth (Z.to_nat d) digits 0.

(** [while (num > 0) { buf[i++] = digits[num % base]; num /= base; }]: [acc]
    is [buf[i-1], ..., buf[0]] and [room] what is left of the 32 bytes;
    writing past them is [None]. *)
Fixpoint push_digits (room : nat) (num base : Z) (acc : list Z) : option (list Z * nat) :=
  if num =? 0 then Some (acc, room)
  else match room with
       | O => None
       | S room' => push_digits room' (num / base) base (digit (num mod base) :: acc)
       end.

(** [while (i < width) buf[i++] = pad;] *)
Fixpoint push_pad (room : nat) (width pad : Z) (acc : list Z) : option (list Z) :=
  if width <=? Z.of_nat (length acc) then Some acc
  else match room with
       | O => None
       | S room' => push_pad room' width pad (pad :: acc)
       end.

Definition BUF_SIZE : nat := 32.

(** The bytes sent, or [None] when the number buffer overflows. *)
Definition num_bytes (num base width pad : Z) : option (list Z) :=
  '(acc, room) ← (if num =? 0 then Some ([ch "0"], pred BUF_SIZE)
                  else push_digits BUF_SIZE num base []);
  push_pad room width pad acc.

Definition print_num {S} (num base width pad : Z) : K S unit :=
  match num_bytes num base width pad with
  | Some out => emit (map EvPutc out)
  | None => fault
  end.

(** ** [printf] *)

(** A variadic slot: a 64-bit value, or a pointer to the bytes of a string.
    Reading a string slot as a number is not modelled (it faults); reading a
    number as a string is a wild pointer unless the number is 0. *)
Inductive arg := ANum (z : Z) | AStr (s : list Z).

(** The width digits after a ['%']: value and rest of the format. *)
Fixpoint scan_width (fmt : list Z) (width : Z) : Z * list Z :=
  match fmt with
  | c :: fmt' =>
      if (ch "0" <=? c) && (c <=? ch "9")
      then scan_width fmt' (width * 10 + (c - ch "0"))
      else (width, fmt)
  | [] => (width, fmt)
  end.

(** Pad character, width, and the rest of the format at the conversion. *)
Definition scan_spec (fmt : list Z) : Z * Z * list Z :=
  match fmt with
  | c :: fmt' =>
      if c =? ch "0" then let '(w, r) := scan_width fmt' 0 in (ch "0", w, r)
      else let '(w, r) := scan_width fmt 0 in (ch " ", w, r)
  | [] => (ch " ", 0, [])
  end.

Definition va_num {S} (args : list arg) : K S (Z * list arg) :=
  match args with
  | ANum z :: args' => ret (u64 z, args')
  | _ => fault
  end.

(** One conversion: [c] is the character after flags and width. *)
Definition conversion {S} (c width pad : Z) (args : list arg) : K S (list arg) :=
  if c =? ch "d" then
    let* (v, args') := va_num args in
    let num := s64 v in
    (if num <? 0 then uart_putc (ch "-") else ret tt) ;;
    print_num (u64 (if num <? 0 then - num else num)) 10 width pad ;;
    ret args'
  else if c =? ch "u" then
    let* (v, args') := va_num args in print_num v 10 width pad ;; ret args'
  else if c =? ch "x" then
    let* (v, args') := va_num args in print_num v 16 width pad ;; ret args'
  else if c =? ch "p" then
    uart_puts (lit "0x") ;;
    let* (v, args') := va_num args in print_num v 16 16 (ch "0") ;; ret args'
  else if c =? ch "s" then
    match args with
    | AStr s :: args' => uart_puts s ;; ret args'
    | ANum z :: args' =>
        if u64 z =? 0 then uart_puts (lit "(null)") ;; ret args' else fault
    | [] => fault
    end
  else if c =? ch "c" then
    let* (v, args') := va_num args in uart_putc v ;; ret args'
  else if c =? ch "%" then uart_putc (ch "%") ;; ret args
  else uart_putc (ch "%") ;; uart_putc c ;; ret args.

(** The loop of [printf]; every round consumes a byte of the format, so
    [fuel] above its length never runs out. *)
Fixpoint printf_loop {S} (fuel : nat) (fmt : list Z) (args : list arg) : K S unit :=
  match fuel with
  | O => λ s w, Spin s w
  | Datatypes.S fuel' =>
      match fmt with
      | [] => fault
      | c :: rest =>
          if c =? 0 then ret tt
          else if c =? ch "%" then
            let '(pad, width, rest') := scan_spec rest in
            match rest' with
            | [] => fault
            | k :: rest'' =>
                let* args' := conversion k width pad args in
                printf_loop fuel' rest'' args'
            end
          else
            (if c =? LF then uart_putc CR else ret tt) ;;
            uart_putc c ;;
            printf_loop fuel' rest args
      end
  end.

Definition printf {S} (fmt : list Z) (args : list arg) : K S unit :=
  printf_loop (Datatypes.S (length fmt)) fmt args.

(** [while (1) wfi;] *)
Definition halt {S A} : K S A := λ s w, Halt s (emits [EvWfi] w).

Definition panic {S A} (msg : list Z) : K S A :=
  printf (LF :: LF :: ln "*** KERNEL PANIC ***") [] ;;
  printf (ln "%s") [AStr msg] ;;
  printf (ln "System halted.") [] ;;
  halt.

(** ** The static check *)

(** Arguments left after a conversion, or [None] when the call is unsafe. *)
Definition conv_ok (c width : Z) (args : list arg) : option (list arg) :=
  if (c =? ch "d") || (c =? ch "u") || (c =? ch "x") then
    match args with
    | ANum _ :: args' => if width <=? 32 then Some args' else None
    | _ => None
    end
  else if (c =? ch "p") || (c =? ch "c") then
    match args with ANum _ :: args' => Some args' | _ => None end
  else if c =? ch "s" then
    match args with
    | AStr s :: args' => if terminated s then Some args' else None
    | _ => None
    end
  else Some args.

Fixpoint fmt_ok (fuel : nat) (fmt : list Z) (args : list arg) : bool :=
  match fuel with
  | O => false
  | S fuel' =>
      match fmt with
      | [] => false
      | c :: rest =>
          if c =? 0 then true
          else if c =? ch "%" then
            let '(_, width, rest') := scan_spec rest in
            match rest' with
            | [] => false
            | k :: rest'' =>
                match conv_ok k width args with
                | Some args' => fmt_ok fuel' rest'' args'
                | None => false
                end
            end
          else fmt_ok fuel' rest args
      end
  end.

Definition call_ok (fmt : list Z) (args : list arg) : bool :=
  fmt_ok (S (length fmt)) fmt args.

(** ** Routines that only print *)

Definition prints {S A} (m : K S A) (a : A) (out : list Z) : Prop :=
  ∀ s w, m s w = Ret a s (emits (map EvPutc out) w).

Section Prints.
Context {S : Type}.

Lemma prints_ret {A} (a : A) : prints (S:=S) (ret a) a [].
Proof. intros s w. by rewrite emits_nil. Qed.

Lemma prints_putc c : prints (S:=S) (uart_putc c) tt [u8 c].
Proof. done. Qed.

Lemma prints_emit out : prints (S:=S) (emit (map EvPutc out)) tt out.
Proof. done. Qed.

Lemma prints_puts s : terminated s = true → prints (S:=S) (uart_puts s) tt (puts_out s).
Proof. intros Hs st w. by apply uart_puts_run. Qed.

Lemma prints_bind {A B} (m : K S A) (f : A → K S B) a b out out' :
  prints m a out → prints (f a) b out' → prints (bind m f) b (out ++ out').
Proof.
  intros Hm Hf s w. unfold bind. rewrite Hm; simpl. rewrite Hf.
  by rewrite emits_emits, map_app.
Qed.

Lemma prints_if {A} (b : bool) (m1 m2 : K S A) a out1 out2 :
  prints m1 a out1 → prints m2 a out2 →
  prints (if b then m1 else m2) a (if b then out1 else out2).
Proof. by destruct b. Qed.

Lemma wp_prints {A} (m : K S A) a out Q H s :
  prints m a out → Q a s → wp m Q H s.
Proof. intros Hm HQ w. by rewrite Hm. Qed.
End Prints.

Create HintDb prints.
#[export] Hint Resolve prints_ret prints_putc prints_emit prints_puts prints_bind
  prints_if : prints.

(** ** Numbers *)

Definition digit_val (c : Z) : Z := if c <=? ch "9" then c - ch "0" else c - ch "a" + 10.

(** The number a digit string denotes, most significant digit first. *)
Definition value (base : Z) (ds : list Z) : Z :=
  fold_left (λ v c, v * base + digit_val c) ds 0.

Lemma value_snoc base ds c : value base (ds ++ [c]) = value base ds * base + digit_val c.
Proof. unfold value. by rewrite fold_left_app. Qed.

Lemma digit_val_digit d : 0 <= d < 16 → digit_val (digit d) = d.
Proof.
  intros Hd.
  assert (d ∈ seqZ 0 16) as Hin by (apply elem_of_seqZ; lia).
  apply list_elem_of_In in Hin. vm_compute in Hin.
  repeat (destruct Hin as [<-|Hin]; [done|]). done.
Qed.

Lemma push_digits_spec base room num acc :
  2 <= base <= 16 → 0 <= num < base ^ Z.of_nat room →
  ∃ ds, push_digits room num base acc = Some (ds ++ acc, (room - length ds)%nat) ∧
        value base ds = num ∧ (length ds <= room)%nat.
Proof.
  intros Hb. revert num acc. induction room as [|room IH]; intros num acc Hn.
  - exists []. simpl in Hn. assert (num = 0) as -> by lia. done.
  - simpl. destruct (Z.eqb_spec num 0) as [->|Hnz]; [by exists []; split_and!; [| |simpl; lia]|].
    destruct (IH (num / base) (digit (num mod base) :: acc)) as (ds & Hp & Hv & Hl).
    { split; [apply Z.div_pos; lia|]. apply Z.div_lt_upper_bound; [lia|].
      rewrite Nat2Z.inj_succ, Z.pow_succ_r in Hn by lia. lia. }
    pose proof (Z.mod_pos_bound num base ltac:(lia)) as Hm.
    exists (ds ++ [digit (num mod base)]). rewrite Hp, <- app_assoc, length_app; simpl.
    split_and!; [do 2 f_equal; lia| |lia].
    rewrite value_snoc, Hv, digit_val_digit by lia.
    pose proof (Z.div_mod num base ltac:(lia)). lia.
Qed.

Lemma push_pad_spec room width pad acc :
  width <= Z.of_nat (room + length acc) →
  push_pad room width pad acc =
    Some (replicate (Z.to_nat width - length acc) pad ++ acc).
Proof.
  revert acc. induction room as [|room IH]; intros acc Hw; simpl.
  - rewrite (proj2 (Z.leb_le _ _)) by lia.
    by replace (Z.to_nat width - length acc)%nat with 0%nat by lia.
  - destruct (Z.leb_spec width (Z.of_nat (length acc))).
    + by replace (Z.to_nat width - length acc)%nat with 0%nat by lia.
    + rewrite IH by (simpl; lia). simpl. f_equal.
      replace (Z.to_nat width - length acc)%nat
        with (S (Z.to_nat width - S (length acc)))%nat by lia.
      by rewrite replicate_S_end, <- app_assoc.
Qed.

Lemma push_pad_overflow room width pad acc :
  Z.of_nat (room + length acc) < width → push_pad room width pad acc = None.
Proof.
  revert acc. induction room as [|room IH]; intros acc Hw; simpl.
  - by rewrite (proj2 (Z.leb_gt _ _)) by lia.
  - rewrite (proj2 (Z.leb_gt _ _)) by lia. apply IH. simpl. lia.
Qed.

Definition num_base (base : Z) : Prop := base = 10 ∨ base = 16.

(** The digits, before padding: at most 20 of the 32 bytes are used. *)
Lemma num_digits num base :
  num_base base → is_u64 num →
  ∃ ds, (if num =? 0 then Some ([ch "0"], pred BUF_SIZE)
         else push_digits BUF_SIZE num base []) = Some (ds, (BUF_SIZE - length ds)%nat) ∧
        value base ds = num ∧ (length ds <= BUF_SIZE)%nat.
Proof.
  intros Hb Hn. destruct (Z.eqb_spec num 0) as [->|Hnz].
  - exists [ch "0"]. by destruct Hb as [-> | ->]; split_and!; vm_compute; try done; lia.
  - destruct (push_digits_spec base BUF_SIZE num []) as (ds & Hp & Hv & Hl).
    + destruct Hb as [-> | ->]; lia.
    + assert (18446744073709551616 <= base ^ Z.of_nat BUF_SIZE)
        by (destruct Hb as [-> | ->]; vm_compute; done).
      unfold is_u64 in Hn. lia.
    + exists ds. by rewrite Hp, app_nil_r.
Qed.

(** For every 64-bit number, in base 10 or 16 and with a field
    width of at most 32, [print_num] sends the padding followed by a digit
    string that denotes exactly that number; the 32-byte buffer never
    overflows. *)
Theorem print_num_correct {S} (num base width pad : Z) :
  num_base base → is_u64 num → width <= 32 →
  ∃ ds, prints (S:=S) (print_num num base width pad) tt
          (replicate (Z.to_nat width - length ds) pad ++ ds) ∧
        value base ds = num.
Proof.
  intros Hb Hn Hw. destruct (num_digits num base Hb Hn) as (ds & Hd & Hv & Hl).
  exists ds. split; [|done]. unfold print_num, num_bytes. rewrite Hd; simpl.
  rewrite push_pad_spec by (unfold BUF_SIZE in *; lia). apply prints_emit.
Qed.

Lemma print_num_correct_witness :
  ∃ ds, prints (S:=unit) (print_num 48879 16 8 (ch "0")) tt
          (replicate (8 - length ds) (ch "0") ++ ds) ∧ value 16 ds = 48879.
Proof.
  apply (print_num_correct (S:=unit) 48879 16 8 (ch "0")).
  - by right.
  - unfold is_u64. lia.
  - lia.
Defined.

(** With a field width above 32 the padding loop always
    writes past the 32-byte stack buffer, whatever the number. *)
Theorem print_num_overflow {S} (num base width pad : Z) (s : S) (w : world) :
  num_base base → is_u64 num → 32 < width →
  print_num num base width pad s w = Fault s w.
Proof.
  intros Hb Hn Hw. destruct (num_digits num base Hb Hn) as (ds & Hd & Hv & Hl).
  unfold print_num, num_bytes. rewrite Hd; simpl.
  by rewrite push_pad_overflow by (unfold BUF_SIZE in *; lia).
Qed.

Lemma print_num_overflow_witness :
  print_num 7 10 33 (ch " ") tt (mkWorld [] []) = Fault tt (mkWorld [] []).
Proof.
  apply (print_num_overflow 7 10 33 (ch " ") tt (mkWorld [] [])).
  - by left.
  - unfold is_u64. lia.
  - lia.
Defined.

(** ** Formatted output *)

Section Printf.
Context {S : Type}.

Lemma print_num_prints num base width pad :
  num_base base → is_u64 num → width <= 32 →
  ∃ out, prints (S:=S) (print_num num base width pad) tt out.
Proof.
  intros Hb Hn Hw. destruct (num_digits num base Hb Hn) as (ds & Hd & Hv & Hl).
  unfold print_num, num_bytes. rewrite Hd; simpl.
  rewrite push_pad_spec by (unfold BUF_SIZE in *; lia).
  eauto using prints_emit.
Qed.

Lemma va_num_prints z args : prints (S:=S) (va_num (ANum z :: args)) (u64 z, args) [].
Proof. apply prints_ret. Qed.

(** A numeric conversion that fetches its slot and prints one number. *)
Lemma number_prints base width pad z args :
  num_base base → width <= 32 →
  ∃ out, prints (S:=S) (let* (v, args') := va_num (ANum z :: args) in
                        print_num v base width pad ;; ret args') args out.
Proof.
  intros Hb Hw.
  destruct (print_num_prints (u64 z) base width pad Hb (u64_range z) Hw) as [out Hout].
  eexists. eapply prints_bind; [apply va_num_prints|]. simpl.
  eapply prints_bind; [exact Hout|apply prints_ret].
Qed.

Lemma signed_prints width pad z args :
  width <= 32 →
  ∃ out, prints (S:=S) (conversion (ch "d") width pad (ANum z :: args)) args out.
Proof.
  intros Hw. unfold conversion; simpl.
  destruct (print_num_prints
    (u64 (if s64 (u64 z) <? 0 then - s64 (u64 z) else s64 (u64 z))) 10 width pad)
    as [out Hout]; [by left|auto with words|done|].
  eexists. eapply prints_bind; [apply va_num_prints|]. simpl.
  eapply prints_bind; [apply prints_if; [apply prints_putc|apply prints_ret]|].
  eapply prints_bind; [exact Hout|apply prints_ret].
Qed.

Lemma conversion_prints c width pad args args' :
  conv_ok c width args = Some args' →
  ∃ out, prints (S:=S) (conversion c width pad args) args' out.
Proof.
  unfold conv_ok. intros Hok.
  destruct (Z.eqb_spec c (ch "d")) as [->|Hd]; simpl in Hok.
  { destruct args as [|[z|] args]; try done.
    destruct (Z.leb_spec width 32); simplify_eq. by apply signed_prints. }
  unfold conversion. rewrite (proj2 (Z.eqb_neq _ _) Hd).
  destruct (Z.eqb_spec c (ch "u")) as [->|Hu]; simpl in Hok.
  { destruct args as [|[z|] args]; try done.
    destruct (Z.leb_spec width 32); simplify_eq. apply number_prints; [by left|done]. }
  destruct (Z.eqb_spec c (ch "x")) as [->|Hx]; simpl in Hok.
  { destruct args as [|[z|] args]; try done.
    destruct (Z.leb_spec width 32); simplify_eq. apply number_prints; [by right|done]. }
  destruct (Z.eqb_spec c (ch "p")) as [->|Hp]; simpl in Hok.
  { destruct args as [|[z|] args]; simplify_eq.
    destruct (number_prints 16 16 (ch "0") z args') as [out Hout]; [by right|lia|].
    eexists. eapply prints_bind; [by apply prints_puts|exact Hout]. }
  destruct (Z.eqb_spec c (ch "s")) as [->|Hs]; simpl in Hok.
  { destruct args as [|[z|s] args]; try done.
    destruct (terminated s) eqn:Ht; simplify_eq.
    eexists. eapply prints_bind; [by apply prints_puts|apply prints_ret]. }
  destruct (Z.eqb_spec c (ch "c")) as [->|Hc]; simpl in Hok.
  { destruct args as [|[z|] args]; simplify_eq. eexists.
    eapply prints_bind; [apply va_num_prints|]. simpl.
    eapply prints_bind; [apply prints_putc|apply prints_ret]. }
  simplify_eq. destruct (c =? ch "%"); eexists; eauto with prints.
Qed.

Lemma printf_loop_prints fuel fmt args :
  fmt_ok fuel fmt args = true →
  ∃ out, prints (S:=S) (printf_loop fuel fmt args) tt out.
Proof.
  revert fmt args. induction fuel as [|fuel IH]; intros fmt args Hok; [done|].
  simpl in *. destruct fmt as [|c rest]; [done|].
  destruct (c =? 0); [eauto using prints_ret|].
  destruct (c =? ch "%").
  - destruct (scan_spec rest) as [[pad width] rest'].
    destruct rest' as [|k rest'']; [done|].
    destruct (conv_ok k width args) as [args'|] eqn:Hc; [|done].
    destruct (conversion_prints k width pad args args' Hc) as [out Hout].
    destruct (IH _ _ Hok) as [out' Hout']. eauto using prints_bind.
  - destruct (IH _ _ Hok) as [out Hout].
    eexists. eapply prints_bind; [apply prints_if; [apply prints_putc|apply prints_ret]|].
    eapply prints_bind; [apply prints_putc|exact Hout].
Qed.

Lemma printf_prints fmt args :
  call_ok fmt args = true → ∃ out, prints (S:=S) (printf fmt args) tt out.
Proof. apply printf_loop_prints. Qed.

Lemma wp_printf fmt args Q H (s : S) :
  call_ok fmt args = true → Q tt s → wp (printf fmt args) Q H s.
Proof. intros Hok HQ. destruct (printf_prints _ _ Hok) as [out Hout]. by eapply wp_prints. Qed.

Lemma wp_panic {A} msg (Q : A → S → Prop) H s :
  terminated msg = true → H s → wp (panic msg) Q H s.
Proof.
  intros Hm HH. unfold panic.
  apply wp_bind, wp_printf; [done|]. apply wp_bind, wp_printf.
  { cbv -[terminated]. by rewrite Hm. }
  apply wp_bind, wp_printf; [done|]. by intros w.
Qed.
End Printf.

(** A call that passes the static check returns whatever the
    values in its slots, leaves the kernel state alone, and its only effect is
    a sequence of bytes on the console. *)
Theorem printf_total {S} (fmt : list Z) (args : list arg) (s : S) (w : world) :
  call_ok fmt args = true →
  ∃ out, printf fmt args s w = Ret tt s (emits (map EvPutc out) w).
Proof.
  intros Hok. destruct (printf_loop_prints (S:=S) _ _ _ Hok) as [out Hout].
  exists out. apply Hout.
Qed.

Lemma printf_total_witness :
  call_ok (ln "pid %d at %p: %s") [ANum (-3); ANum 2147483648; AStr (lit "sh")] = true ∧
  ∃ out, printf (ln "pid %d at %p: %s") [ANum (-3); ANum 2147483648; AStr (lit "sh")]
           tt (mkWorld [] []) = Ret tt tt (emits (map EvPutc out) (mkWorld [] [])).
Proof. split; [reflexivity|]. apply printf_total. reflexivity. Defined.

(** The length modifier [l] is not implemented: ["%lu"] prints
    the three characters themselves and leaves the argument in place, so every
    later conversion of the same call reads the slot meant for an earlier one. *)
Theorem printf_lu_literal {S} (fuel : nat) (rest : list Z) (args : list arg) (s : S) (w : world) :
  printf_loop (2 + fuel) (chars "%lu" ++ rest) args s w =
  printf_loop fuel rest args s (emits (map EvPutc (chars "%lu")) w).
Proof. reflexivity. Qed.

(** The call at the head of [process_print_stats]: the [%s] takes the pid. *)
Example print_stats_call_unsafe (pid : Z) (name : list Z) :
  call_ok (ln "Process %lu (%s):") [ANum pid; AStr name] = false.
Proof. reflexivity. Qed.

(** Discharging the [printf] calls of a routine. *)
Ltac wp_printf := apply wp_printf; [reflexivity|].
