(* ===== verification/Format.v ===== *)
(** What [printf] of [kernel/printf.c] prints: a reference definition by pieces of
    text and conversions, and its agreement with the loop over format bytes. *)

From Stdlib Require Import Ascii String.
From S2P Require Import Prelude Machine Uart Printf.
Local Open Scope list_scope.
Local Open Scope Z_scope.

(** ** Numbers *)

(** Digits, most significant first, without leading zeros. *)
Fixpoint numeral (fuel : nat) (base n : Z) : list Z :=
  match fuel with
  | O => []
  | S fuel => if n <? base then [digit n] else numeral fuel base (n / base) ++ [digit (n mod base)]
  end.

(** A 64-bit number has at most 64 digits in any base. *)
Definition number (base n : Z) : list Z := numeral 64 base n.

(** A field of [width] bytes, filled on the left. *)
Definition field (width pad : Z) (ds : list Z) : list Z :=
  replicate (Z.to_nat width - length ds) pad ++ ds.

Lemma push_digits_numeral base n f room acc :
  2 <= base → 0 < n < base ^ Z.of_nat f → (f <= room)%nat →
  push_digits room n base acc = Some (numeral f base n ++ acc, (room - length (numeral f base n))%nat) ∧
  (length (numeral f base n) <= f)%nat.
Proof.
  intros Hb. revert n room acc. induction f as [|f IH]; intros n room acc Hn Hf; [simpl in Hn; lia|].
  destruct room as [|room]; [lia|]. cbn [numeral push_digits]. rewrite (proj2 (Z.eqb_neq n 0)) by lia.
  destruct (Z.ltb_spec n base) as [Hlt|Hge].
  - rewrite Z.div_small, Z.mod_small by lia. destruct room; cbn; split; f_equal; f_equal; lia || done.
  - rewrite Nat2Z.inj_succ, Z.pow_succ_r in Hn by lia.
    destruct (IH (n / base) room (digit (n mod base) :: acc)) as [-> Hl]; [|lia|].
    + split; [apply Z.div_str_pos; lia|]. apply Z.div_lt_upper_bound; lia.
    + rewrite length_app, <- app_assoc. cbn [length app]. split; [|lia]. do 2 f_equal. lia.
Qed.

Lemma numeral_more base n f f' :
  2 <= base → 0 <= n < base ^ Z.of_nat f → (0 < f <= f')%nat → numeral f' base n = numeral f base n.
Proof.
  intros Hb. revert n f'. induction f as [|f IH]; intros n f' Hn Hf; [lia|].
  destruct f' as [|f']; [lia|]. cbn [numeral]. destruct (Z.ltb_spec n base) as [Hlt|Hge]; [done|].
  rewrite Nat2Z.inj_succ, Z.pow_succ_r in Hn by lia. destruct f as [|f]; [simpl in Hn; lia|].
  rewrite (IH (n / base) f'); [done| |lia]. split; [apply Z.div_pos; lia|]. apply Z.div_lt_upper_bound; lia.
Qed.

Lemma num_bytes_field base n width pad :
  num_base base → is_u64 n → width <= 32 → num_bytes n base width pad = Some (field width pad (number base n)).
Proof.
  intros Hb Hn Hw. assert (2 <= base ∧ n < base ^ Z.of_nat 32) as [Hb2 Hlt].
  { assert (18446744073709551616 <= base ^ Z.of_nat 32) by (destruct Hb as [-> | ->]; vm_compute; done).
    unfold is_u64 in Hn. destruct Hb as [-> | ->]; lia. }
  unfold number. rewrite (numeral_more base n 32 64) by (unfold is_u64 in Hn; lia).
  unfold num_bytes. change BUF_SIZE with 32%nat. destruct (Z.eqb_spec n 0) as [->|Hnz].
  - cbn [mbind option_bind]. rewrite push_pad_spec by (simpl; lia). cbn [numeral].
    by rewrite (proj2 (Z.ltb_lt _ _)) by lia.
  - destruct (push_digits_numeral base n 32 32 []) as [-> Hl]; [lia|unfold is_u64 in Hn; lia|lia|].
    cbn [mbind option_bind]. rewrite app_nil_r.
    rewrite push_pad_spec by lia. done.
Qed.

(** ** Pieces of a call *)

Inductive radix := Dec | Uns | Hex.

(** A conversion with the argument it takes: [%d], [%u], [%x]; [%p]; [%s] of a
    string and of a null pointer; [%c]; [%%]; and any other letter. *)
Inductive spec :=
  | Number (k : radix) (z : Z)
  | Pointer (z : Z)
  | Str (s : list Z)
  | Null
  | Char (z : Z)
  | Percent
  | Other (c : Z).

(** Plain bytes, and conversions with a flag and the digits of a width. *)
Inductive item :=
  | Text (c : Z)
  | Conv (zero : bool) (width : list Z) (d : spec).

Definition letter (d : spec) : Z :=
  match d with
  | Number Dec _ => ch "d" | Number Uns _ => ch "u" | Number Hex _ => ch "x"
  | Pointer _ => ch "p" | Str _ | Null => ch "s" | Char _ => ch "c" | Percent => ch "%" | Other c => c
  end.

(** Its bytes in the format, its argument slots. *)
Definition fmt_item (i : item) : list Z :=
  match i with
  | Text c => [c]
  | Conv zero width d => ch "%" :: (if zero then [ch "0"] else []) ++ width ++ [letter d]
  end.
Definition args_spec (d : spec) : list arg :=
  match d with
  | Number _ z | Pointer z | Char z => [ANum z]
  | Str s => [AStr s]
  | Null => [ANum 0]
  | Percent | Other _ => []
  end.
Definition args_item (i : item) : list arg :=
  match i with Text _ => [] | Conv _ _ d => args_spec d end.

Definition width_of (ds : list Z) : Z := fold_left (λ v c, v * 10 + (c - ch "0")) ds 0.
Definition pad_of (zero : bool) : Z := if zero then ch "0" else ch " ".

(** What it prints. *)
Definition render_spec (width pad : Z) (d : spec) : list Z :=
  match d with
  | Number Dec z => (if s64 z <? 0 then [ch "-"] else []) ++ field width pad (number 10 (Z.abs (s64 z)))
  | Number Uns z => field width pad (number 10 (u64 z))
  | Number Hex z => field width pad (number 16 (u64 z))
  | Pointer z => chars "0x" ++ field 16 (ch "0") (number 16 (u64 z))
  | Str s => puts_out s
  | Null => chars "(null)"
  | Char z => [u8 z]
  | Percent => [ch "%"]
  | Other c => [ch "%"; c]
  end.
Definition render (i : item) : list Z :=
  match i with
  | Text c => if c =? LF then [CR; LF] else [c]
  | Conv zero width d => render_spec (width_of width) (pad_of zero) d
  end.

Definition is_digit (c : Z) : Prop := ch "0" <= c <= ch "9".

(** The widths that fit: a number is put together in a buffer of 32 bytes, and
    the width itself is an [int]. *)
Definition width_ok (width : Z) (d : spec) : Prop :=
  match d with Number _ _ => width <= 32 | _ => width < 2 ^ 31 end.
Definition spec_ok (d : spec) : Prop :=
  match d with
  | Str s => terminated s = true
  | Other c => 0 < c < 256 ∧ ¬ is_digit c ∧ c ∉ chars "duxpsc%"
  | _ => True
  end.

(** A byte of text is no [%]; a width without the flag does not start with a
    zero, which would be the flag. *)
Definition item_ok (i : item) : Prop :=
  match i with
  | Text c => 0 < c < 256 ∧ c ≠ ch "%"
  | Conv zero width d => Forall is_digit width ∧ (zero = false → head width ≠ Some (ch "0")) ∧
      width_ok (width_of width) d ∧ spec_ok d
  end.

#[export] Instance item_ok_dec i : Decision (item_ok i).
Proof.
  destruct i as [c|zero width d]; [|destruct d]; unfold item_ok, width_ok, spec_ok, is_digit; apply _.
Defined.

(** ** The scanner finds the pieces *)

Lemma scan_width_digits ds k rest v :
  Forall is_digit ds → ¬ is_digit k →
  scan_width (ds ++ k :: rest) v = (fold_left (λ v c, v * 10 + (c - ch "0")) ds v, k :: rest).
Proof.
  intros Hds Hk. revert v. induction Hds as [|d ds Hd _ IH]; intros v; cbn [app scan_width fold_left].
  - rewrite (proj2 (andb_false_iff _ _)); [done|]. unfold is_digit in Hk. rewrite !Z.leb_gt. lia.
  - rewrite (proj2 (andb_true_iff _ _)); [apply IH|]. unfold is_digit in Hd. rewrite !Z.leb_le. lia.
Qed.

Lemma letter_no_digit d : spec_ok d → ¬ is_digit (letter d).
Proof.
  destruct d as [[]| | | | | |c]; cbn [spec_ok letter]; intros Hd; [..|exact (proj1 (proj2 Hd))];
    (intros [H1 H2]; first [by apply H1|by apply H2]).
Qed.

Lemma scan_spec_conv d zero width rest :
  Forall is_digit width → (zero = false → head width ≠ Some (ch "0")) → spec_ok d →
  scan_spec ((if zero then [ch "0"] else []) ++ width ++ letter d :: rest) =
    (pad_of zero, width_of width, letter d :: rest).
Proof.
  intros Hw Hz Hd%letter_no_digit. pose proof (λ ds, scan_width_digits ds (letter d) rest 0) as Hscan.
  destruct zero; cbn [app scan_spec pad_of].
  - rewrite Z.eqb_refl, scan_width_digits by done. done.
  - destruct width as [|x ds]; cbn [app]; unfold scan_spec.
    + destruct (Z.eqb_spec (letter d) (ch "0")) as [He|_]; [by destruct Hd; rewrite He|].
      specialize (Hscan [] Hw Hd). cbn [app] in Hscan. by rewrite Hscan.
    + destruct (Z.eqb_spec x (ch "0")) as [->|_]; [by destruct (Hz eq_refl)|].
      specialize (Hscan (x :: ds) Hw Hd). cbn [app] in Hscan. by rewrite Hscan.
Qed.

(** ** Agreement *)

Section Agreement.
Context {S : Type}.

Lemma prints_num base n width pad :
  num_base base → is_u64 n → width <= 32 →
  prints (S:=S) (print_num n base width pad) tt (field width pad (number base n)).
Proof. intros Hb Hn Hw. unfold print_num. rewrite num_bytes_field by done. apply prints_emit. Qed.

(** One conversion: the arguments that follow it are left for the rest. *)
Lemma prints_number k width pad z args :
  width <= 32 →
  prints (S:=S) (conversion (letter (Number k z)) width pad (ANum z :: args)) args (render_spec width pad (Number k z)).
Proof.
  intros Hw.
  assert (∀ base n, num_base base → is_u64 n →
    prints (S:=S) (print_num n base width pad ;; ret args) args (field width pad (number base n))) as Hn.
  { intros base n Hb Hn. rewrite <- (app_nil_r (field _ _ _)). eapply prints_bind; [by apply prints_num|apply prints_ret]. }
  destruct k; cbn [render_spec letter].
  - change (conversion _ _ _ _) with (let num := s64 (u64 z) in
      ((if num <? 0 then uart_putc (ch "-") else ret tt) ;;
       print_num (u64 (if num <? 0 then - num else num)) 10 width pad ;; ret args) : K S (list arg)).
    cbv zeta. assert (s64 (u64 z) = s64 z) as -> by (unfold s64, u64; by rewrite Z.mod_mod).
    assert (-9223372036854775808 <= s64 z < 9223372036854775808) as Hr by words.
    apply (prints_bind _ _ tt); [destruct (s64 z <? 0); [done|apply prints_ret]|].
    replace (u64 (if s64 z <? 0 then - s64 z else s64 z)) with (Z.abs (s64 z)).
    + apply Hn; [by left|]. unfold is_u64. lia.
    + destruct (Z.ltb_spec (s64 z) 0); symmetry; (rewrite u64_id by (unfold is_u64; lia)); lia.
  - apply Hn; [by left|apply u64_range].
  - apply Hn; [by right|apply u64_range].
Qed.

Lemma prints_other c width pad args :
  0 < c < 256 → c ∉ chars "duxpsc%" →
  prints (S:=S) (conversion c width pad args) args [ch "%"; c].
Proof.
  intros Hc Hn. change (chars "duxpsc%") with [ch "d"; ch "u"; ch "x"; ch "p"; ch "s"; ch "c"; ch "%"] in Hn.
  rewrite !not_elem_of_cons in Hn. destruct Hn as (H1 & H2 & H3 & H4 & H5 & H6 & H7 & _).
  unfold conversion. do 7 (rewrite (proj2 (Z.eqb_neq c _)) by done).
  apply (prints_bind _ _ tt args [ch "%"] [c]); [done|]. apply (prints_bind _ _ tt args [c] []); [|apply prints_ret].
  intros s w. unfold uart_putc, u8. by rewrite Z.mod_small by lia.
Qed.

Lemma prints_spec d width pad args :
  width_ok width d → spec_ok d →
  prints (S:=S) (conversion (letter d) width pad (args_spec d ++ args)) args (render_spec width pad d).
Proof.
  intros Hw Hd. destruct d as [k z|z|str| |z| |c]; cbn [args_spec app width_ok spec_ok] in *.
  - by apply prints_number.
  - apply (prints_bind _ _ tt args (chars "0x")); [by apply (prints_puts (lit "0x"))|].
    cbn [render_spec]. rewrite <- (app_nil_r (field _ _ _)). apply (prints_bind _ _ tt); [|apply prints_ret].
    apply prints_num; [by right|apply u64_range|lia].
  - cbn [render_spec]. rewrite <- (app_nil_r (puts_out str)).
    apply (prints_bind _ _ tt); [by apply prints_puts|apply prints_ret].
  - apply (prints_bind _ _ tt args (chars "(null)") []); [by apply (prints_puts (lit "(null)"))|apply prints_ret].
  - cbn [render_spec]. assert (u8 z = u8 (u64 z)) as ->
      by (unfold u8, u64; apply Znumtheory.Zmod_div_mod; [lia|lia|by exists 72057594037927936]).
    apply (prints_bind _ _ (u64 z, args) args [] [u8 (u64 z)]); [apply prints_ret|].
    by apply (prints_bind _ _ tt args [u8 (u64 z)] []); [|apply prints_ret].
  - by apply (prints_bind _ _ tt args [ch "%"] []); [|apply prints_ret].
  - destruct Hd as (Hc & _ & Hn). by apply prints_other.
Qed.

(** One piece: what follows it in format and arguments is left for the rest. *)
Lemma printf_item i fuel rest args out :
  item_ok i → prints (S:=S) (printf_loop fuel rest args) tt out →
  prints (S:=S) (printf_loop (Datatypes.S fuel) (fmt_item i ++ rest) (args_item i ++ args)) tt (render i ++ out).
Proof.
  intros Hi Hrest. destruct i as [c|zero width d]; cbn [fmt_item args_item render item_ok app] in *.
  - destruct Hi as [Hc Hp]. cbn [printf_loop]. rewrite (proj2 (Z.eqb_neq c 0)), (proj2 (Z.eqb_neq c _)) by (done || lia).
    destruct (Z.eqb_spec c LF) as [->|Hlf].
    + apply (prints_bind _ _ tt tt [CR] (LF :: out)); [done|]. by apply (prints_bind _ _ tt tt [LF]).
    + apply (prints_bind _ _ tt tt [] (c :: out)); [apply prints_ret|].
      apply (prints_bind _ _ tt tt [c]); [|done]. intros s w. unfold uart_putc, u8. by rewrite Z.mod_small by lia.
  - destruct Hi as (Hw & Hz & Hle & Hd). rewrite <- !app_assoc. cbn [app printf_loop].
    change (ch "%" =? 0) with false. change (ch "%" =? ch "%") with true. cbn iota.
    rewrite scan_spec_conv by done. by apply (prints_bind _ _ args); [apply prints_spec|].
Qed.

Lemma printf_items items fuel :
  Forall item_ok items → (length items < fuel)%nat →
  prints (S:=S) (printf_loop fuel (concat (fmt_item <$> items) ++ [0]) (concat (args_item <$> items))) tt
    (concat (render <$> items)).
Proof.
  intros Hok. revert fuel. induction Hok as [|i items Hi _ IH]; intros [|fuel] Hf; [simpl in Hf; lia| |simpl in Hf; lia|].
  - apply prints_ret.
  - cbn [fmap list_fmap concat]. rewrite <- app_assoc. apply printf_item; [done|]. apply IH. simpl in Hf. lia.
Qed.

Lemma length_items items : (length items <= length (concat (fmt_item <$> items)))%nat.
Proof.
  induction items as [|i items IH]; [done|]. rewrite fmap_cons. cbn [concat length]. rewrite length_app.
  assert (0 < length (fmt_item i))%nat by (destruct i; cbn; lia). lia.
Qed.
End Agreement.

(** C21: [printf] prints what a reference definition by pieces prescribes.  For
    every format made of plain bytes and complete conversions ([%d], [%u], [%x],
    [%p], [%s], [%c], [%%] or any other letter, with an optional zero flag and
    width) in which the width of a number is at most 32 and any other width is an
    [int], and for the arguments that go with it, strings terminated, the call
    prints exactly the pieces in order: numbers in canonical digits, signed ones
    with their sign in front of the padding, pointers in 16 digits, a null string
    as [(null)], an unknown conversion as it stands, newlines as CR LF; it
    returns, and changes nothing. *)
Theorem printf_renders {S} (items : list item) :
  Forall item_ok items →
  prints (S:=S) (printf (concat (fmt_item <$> items) ++ [0]) (concat (args_item <$> items))) tt
    (concat (render <$> items)).
Proof.
  intros Hok. apply printf_items; [done|]. pose proof (length_items items). rewrite length_app. lia.
Qed.

Lemma printf_renders_witness :
  prints (S:=unit) (printf (chars "pid %4d: %s 0x%08x %9s%lu" ++ [LF; 0])
      [ANum (-7); AStr (lit "init"); ANum 48879; ANum 0]) tt
    (chars "pid -   7: init 0x0000beef (null)%lu" ++ [CR; LF]).
Proof.
  pose proof (printf_renders (S:=unit)
    ((Text <$> chars "pid ") ++ [Conv false (chars "4") (Number Dec (-7))] ++ (Text <$> chars ": ") ++
     [Conv false [] (Str (lit "init"))] ++ (Text <$> chars " 0x") ++ [Conv true (chars "8") (Number Hex 48879);
     Text (ch " "); Conv false (chars "9") Null; Conv false [] (Other (ch "l")); Text (ch "u"); Text LF])) as H.
  apply H. apply (bool_decide_unpack _). vm_compute. exact I.
Defined.
