(* ===== verification/Frames.v ===== *)
(** What a routine leaves alone, whatever it returns.

    [frames g m]: a run of [m] does not change [g] of the state; [quiet m]: it
    takes no console input. *)

From S2P Require Import Prelude Machine Uart Printf.
Local Open Scope Z_scope.

(** Both: [inp] says whether the input is to be left alone as well. *)
Definition leaves (inp : Prop) {S A B} (g : S → B) (m : K S A) : Prop :=
  ∀ s w, match m s w with
         | Ret _ s' w' | Halt s' w' => g s' = g s ∧ (inp → w_in w' = w_in w)
         | _ => True
         end.

Notation frames := (leaves False).
Notation quiet := (leaves True (λ _, tt)).

Create HintDb frames.

Section Frames.
Context {inp : Prop} {S B : Type} (g : S → B).

Lemma frames_ret {A} (a : A) : leaves inp g (ret a).
Proof. done. Qed.
Lemma frames_gets {A} (f : S → A) : leaves inp g (gets f).
Proof. done. Qed.
Lemma frames_get : leaves inp g get.
Proof. done. Qed.
Lemma frames_emit es : leaves inp g (emit es).
Proof. done. Qed.
Lemma frames_modify f : (∀ s, g (f s) = g s) → leaves inp g (modify f).
Proof. intros Hf s w. split; [apply Hf|done]. Qed.
Lemma frames_spin {A} : leaves inp g (λ s w, Spin s w : res S A).
Proof. done. Qed.
Lemma frames_fault {A} : leaves inp g (fault : K S A).
Proof. done. Qed.
Lemma frames_lift_opt {A} (o : option A) : leaves inp g (lift_opt o).
Proof. by destruct o. Qed.
Lemma frames_bind {A C} (m : K S A) (f : A → K S C) :
  leaves inp g m → (∀ a, leaves inp g (f a)) → leaves inp g (bind m f).
Proof.
  intros Hm Hf s w. specialize (Hm s w). unfold bind. destruct (m s w) as [a s1 w1| | | | |]; simpl; try done.
  specialize (Hf a s1 w1). destruct Hm as [Hs Hw]. destruct (f a s1 w1); simpl; try done; naive_solver congruence.
Qed.
Lemma frames_for_from i n (f : Z → K S unit) : (∀ j, leaves inp g (f j)) → leaves inp g (for_from i n f).
Proof. intros Hf. revert i. induction n as [|n IH]; intros i; simpl; [apply frames_ret|]. by apply frames_bind. Qed.
Lemma frames_for_up n (f : Z → K S unit) : (∀ j, leaves inp g (f j)) → leaves inp g (for_up n f).
Proof. apply frames_for_from. Qed.

(** What is framed can be added to a specification. *)
Lemma wp_frames {A} (m : K S A) Q H s :
  frames g m → wp m Q H s → wp m (λ a s', Q a s' ∧ g s' = g s) H s.
Proof. intros Hf Hm w. specialize (Hf s w). specialize (Hm w). destruct (m s w); naive_solver. Qed.
End Frames.

Lemma frames_zoom {inp : Prop} {S T A B} (L : lens S T) (g : T → B) (h : S → B) (m : K S A) :
  (∀ t, g t = h (view L t)) → leaves inp h m → leaves inp g (zoom L m).
Proof.
  intros Hg Hm t w. specialize (Hm (view L t) w). unfold zoom.
  destruct (m (view L t) w); simpl; rewrite ?Hg, ?view_put; done.
Qed.

(** A routine of another part of the state. *)
Lemma frames_zoom_other {inp : Prop} {S T A B} (L : lens S T) (g : T → B) (m : K S A) :
  (∀ s t, g (put L s t) = g t) → (inp → quiet m) → leaves inp g (zoom L m).
Proof.
  intros Hg Hm t w. unfold zoom.
  assert (∀ r, m (view L t) w = r → match r with
    Ret _ _ w' | Halt _ w' => inp → w_in w' = w_in w | _ => True end) as Hi.
  { intros r <-. pose proof (λ H : inp, Hm H (view L t) w) as Hq. destruct (m (view L t) w); naive_solver. }
  specialize (Hi _ eq_refl). destruct (m (view L t) w); simpl; try done; by split.
Qed.

#[export] Hint Resolve frames_ret frames_gets frames_get frames_emit frames_spin frames_fault frames_lift_opt : frames.
Ltac frames_step :=
  first [by eauto with frames | apply frames_bind; [|intros ?] | apply frames_for_up; intros ? | case_match].
Ltac frames := repeat frames_step.

(** *** Printing changes nothing, whatever the format and the arguments. *)

Section Printing.
Context {inp : Prop} {S B : Type} (g : S → B).

Lemma frames_putc c : leaves inp g (uart_putc c).
Proof. done. Qed.

Lemma frames_puts s : leaves inp g (uart_puts s).
Proof. induction s as [|c s IH]; cbn [uart_puts]; unfold uart_putc; frames. Qed.

Lemma frames_printf fmt args : leaves inp g (printf fmt args).
Proof using Type.
  unfold printf. generalize (Datatypes.S (length fmt)). intros fuel. revert fmt args.
  induction fuel as [|fuel IH]; intros fmt args; cbn [printf_loop]; [done|].
  destruct fmt as [|c fmt]; [done|]. case_match; [done|]. case_match.
  - destruct (scan_spec fmt) as [[pad width] rest']. destruct rest' as [|k rest']; [done|].
    apply frames_bind; [|done]. unfold conversion, va_num, print_num, uart_putc. pose proof frames_puts. frames.
  - unfold uart_putc. frames.
Qed.

Lemma frames_panic {A} msg : leaves inp g (panic msg : K S A).
Proof. unfold panic. pose proof frames_printf. frames. Qed.
End Printing.
#[export] Hint Resolve frames_putc frames_puts frames_printf frames_panic : frames.

(** A routine known to return, or to halt, and to take no input. *)
Lemma wp_of_wpr {S A} (m : K S A) (Q : A → S → Prop) (H : S → Prop) s :
  quiet m → wpr m (λ r, match r with Ret a s' _ => Q a s' | Halt s' _ => H s' | _ => False end) s → wp m Q H s.
Proof. intros Hq Hm w. specialize (Hm w). specialize (Hq s w). destruct (m s w); naive_solver. Qed.
