(* ===== verification/Mm.v ===== *)
(** Physical memory management, [kernel/mm/mm.c]: the page allocator, whose
    free list is threaded through the free pages themselves, and the bump
    allocator of the kernel heap. *)

From Stdlib Require Import String.
From S2P Require Import Prelude Machine Uart Printf.
Local Open Scope string_scope.
Local Open Scope Z_scope.

Definition PAGE_SIZE : Z := 4096.
Definition RAM_BASE : Z := 0x80000000.
(** [0x80000000 + 128MB], the [mem_end] of [mm_init]. *)
Definition RAM_END : Z := 0x88000000.

(** ** Link-time layout

    [scripts/kernel.ld] places a page-aligned 4 MiB heap after image and stack;
    where it starts depends on the size of the compiled image. *)

Class Layout := { heap_start : Z }.

Definition heap_end `{Layout} : Z := heap_start + 0x400000.

Class LayoutOk (L : Layout) : Prop := {
  heap_start_aligned : heap_start mod 4096 = 0;
  heap_start_above_image : 0x80210000 <= heap_start;
  (* the 126 MiB region leaves at least 2 MiB of pages after the heap *)
  heap_end_below_ram_end : heap_start + 0x400000 + 0x200000 <= 0x88000000 }.

(** ** State *)

(** [mem]: the 64-bit words of RAM by byte address; the rest are the static
    variables of [mm.c]. *)
Record mm_state := MM {
  mem : gmap Z Z;
  free_pages : Z;
  num_free_pages : Z;
  heap_current : Z }.

Definition set_mem m s := MM m (free_pages s) (num_free_pages s) (heap_current s).
Definition set_free_pages p s := MM (mem s) p (num_free_pages s) (heap_current s).
Definition set_num_free_pages n s := MM (mem s) (free_pages s) n (heap_current s).
Definition set_heap_current h s := MM (mem s) (free_pages s) (num_free_pages s) h.

(** The word at [a]; RAM never written to holds some value, [0] here. *)
Definition rd (m : gmap Z Z) (a : Z) : Z := default 0 (m !! a).

(** A 64-bit access is legal at an aligned address inside RAM. *)
Definition ram_word (a : Z) : bool :=
  (RAM_BASE <=? a) && (a <? RAM_END) && (a mod 8 =? 0).

Definition load (a : Z) : K mm_state Z := λ s w,
  if ram_word a then Ret (rd (mem s) a) s w else Fault s w.

Definition store (a v : Z) : K mm_state unit := λ s w,
  if ram_word a then Ret tt (set_mem (<[a:=v]> (mem s)) s) w else Fault s w.

(** ** Operations *)

Section Operations.
Context {L : Layout}.

(** [(mem_start + PAGE_SIZE - 1) & ~(PAGE_SIZE - 1)] *)
Definition mem_start : Z := Z.land (u64 (heap_end + PAGE_SIZE - 1)) (Z.lnot (PAGE_SIZE - 1)).

Definition mm_init : K mm_state unit :=
  modify (set_heap_current heap_start) ;;
  printf (ln "[MM] Initializing memory manager") [] ;;
  printf (ln "[MM] Heap: %p - %p") [ANum heap_start; ANum heap_end] ;;
  printf (ln "[MM] Free memory: %p - %p") [ANum mem_start; ANum RAM_END] ;;
  modify (set_free_pages mem_start) ;;
  let n := u64 (RAM_END - mem_start) / PAGE_SIZE in
  modify (set_num_free_pages n) ;;
  for_up n (λ i,
    let page := u64 (mem_start + i * PAGE_SIZE) in
    if i + 1 <? n then store page (u64 (mem_start + (i + 1) * PAGE_SIZE))
    else store page 0) ;;
  printf (ln "[MM] Initialized %u free pages (%u KB)")
    [ANum (u32 n); ANum (u32 (u64 (n * PAGE_SIZE) / 1024))].

Definition alloc_page : K mm_state Z :=
  let* fp := gets free_pages in
  let* n := gets num_free_pages in
  if (fp =? 0) || (n =? 0) then
    printf (ln "[MM] Out of memory!") [] ;; ret 0
  else
    let* next := load fp in
    modify (set_free_pages next) ;;
    modify (set_num_free_pages (u64 (n - 1))) ;;
    for_up (PAGE_SIZE / 8) (λ i, store (u64 (fp + 8 * i)) 0) ;;
    ret fp.

Definition free_page (page : Z) : K mm_state unit :=
  if page =? 0 then ret tt
  else
    let* fp := gets free_pages in
    store page fp ;;
    modify (set_free_pages page) ;;
    let* n := gets num_free_pages in
    modify (set_num_free_pages (u64 (n + 1))).

Definition kmalloc (size : Z) : K mm_state Z :=
  if size =? 0 then ret 0
  else
    let size := Z.land (u64 (size + 7)) (Z.lnot 7) in
    let* hc := gets heap_current in
    if heap_end <? u64 (hc + size) then
      printf (ln "[MM] Heap exhausted!") [] ;; ret 0
    else
      modify (set_heap_current (u64 (hc + size))) ;;
      ret hc.

Definition kfree (ptr : Z) : K mm_state unit := ret tt.
End Operations.

(** ** Words *)

Lemma wp_load a Q H s :
  ram_word a = true → Q (rd (mem s) a) s → wp (load a) Q H s.
Proof. intros Ha HQ w. unfold load. by rewrite Ha. Qed.

Lemma wp_store a v Q H s :
  ram_word a = true → Q tt (set_mem (<[a:=v]> (mem s)) s) → wp (store a v) Q H s.
Proof. intros Ha HQ w. unfold store. by rewrite Ha. Qed.

Lemma rd_insert m a v : rd (<[a:=v]> m) a = v.
Proof. unfold rd. by rewrite lookup_insert_eq. Qed.

Lemma rd_insert_ne m a b v : a ≠ b → rd (<[a:=v]> m) b = rd m b.
Proof. intros Hne. unfold rd. by rewrite lookup_insert_ne. Qed.

Lemma ram_word_true a :
  ram_word a = true ↔ RAM_BASE <= a < RAM_END ∧ a mod 8 = 0.
Proof.
  unfold ram_word. rewrite !andb_true_iff, Z.leb_le, Z.ltb_lt, Z.eqb_eq. tauto.
Qed.

(** ** Pages *)

Create HintDb pages.

Section Pages.
Context {L : Layout} {LO : LayoutOk L}.

(** A page the allocator manages. *)
Definition is_page (p : Z) : Prop :=
  heap_end <= p ∧ p + 4096 <= RAM_END ∧ p mod 4096 = 0.

Definition in_page (p a : Z) : Prop := p <= a < p + 4096.

Lemma mem_start_eq : mem_start = heap_end.
Proof.
  pose proof heap_start_aligned. pose proof heap_start_above_image.
  pose proof heap_end_below_ram_end.
  unfold mem_start, heap_end, PAGE_SIZE in *.
  rewrite u64_id by (unfold is_u64; lia).
  change (4096 - 1) with (Z.ones 12). rewrite land_lnot_ones by lia.
  change (2 ^ 12) with 4096. Z.div_mod_to_equations; lia.
Qed.

Lemma is_page_nonzero p : is_page p → p ≠ 0.
Proof.
  pose proof heap_start_above_image. unfold is_page, heap_end. lia.
Qed.

Lemma is_page_u64 p a : is_page p → in_page p a → is_u64 a.
Proof.
  pose proof heap_start_above_image.
  unfold is_page, in_page, is_u64, heap_end, RAM_END. lia.
Qed.

Lemma page_word p i :
  is_page p → 0 <= i < 512 → ram_word (p + 8 * i) = true.
Proof.
  pose proof heap_start_above_image.
  unfold is_page, heap_end, RAM_END. intros Hp Hi. apply ram_word_true.
  unfold RAM_BASE, RAM_END. Z.div_mod_to_equations; lia.
Qed.

Lemma page_word_0 p : is_page p → ram_word p = true.
Proof.
  intros Hp. pose proof (page_word p 0 Hp ltac:(lia)) as Hw.
  by replace (p + 8 * 0) with p in Hw by lia.
Qed.

(** Distinct pages do not overlap. *)
Lemma pages_disjoint p q a :
  is_page p → is_page q → p ≠ q → in_page p a → ¬ in_page q a.
Proof. unfold is_page, in_page. intros. Z.div_mod_to_equations; lia. Qed.

Lemma in_page_self p : in_page p p.
Proof. unfold in_page. lia. Qed.
End Pages.
#[export] Hint Resolve is_page_nonzero page_word page_word_0 in_page_self : pages.
#[export] Hint Extern 5 (_ <= _ < _) => lia : pages.

(** ** The free list *)

(** The list threaded through memory from [head]. *)
Fixpoint chain (m : gmap Z Z) (head : Z) (l : list Z) : Prop :=
  match l with
  | [] => head = 0
  | p :: l' => head = p ∧ chain m (rd m p) l'
  end.

Lemma chain_frame m m' head l :
  (∀ p, p ∈ l → rd m' p = rd m p) → chain m head l → chain m' head l.
Proof.
  revert head. induction l as [|p l IH]; intros head Hf; [done|]. simpl.
  intros [-> Hc]. split; [done|]. rewrite Hf by set_solver.
  apply IH; [|done]. intros q Hq. apply Hf. set_solver.
Qed.

(** All words of page [p] are zero. *)
Definition zero_page (m : gmap Z Z) (p : Z) : Prop :=
  ∀ i, 0 <= i < 512 → rd m (p + 8 * i) = 0.

(** [m'] agrees with [m] outside page [p]. *)
Definition same_outside (p : Z) (m m' : gmap Z Z) : Prop :=
  ∀ a, ¬ in_page p a → rd m' a = rd m a.

Section FreeList.
Context {L : Layout} {LO : LayoutOk L}.

(** The allocator invariant: the list hanging off [free_pages] is [l], a
    duplicate-free list of managed pages counted by [num_free_pages]. *)
Record freelist (s : mm_state) (l : list Z) : Prop := {
  fl_chain : chain (mem s) (free_pages s) l;
  fl_nodup : NoDup l;
  fl_pages : Forall is_page l;
  fl_num : num_free_pages s = Z.of_nat (length l) }.

Lemma pages_bound l : NoDup l → Forall is_page l → Z.of_nat (length l) <= 32768.
Proof.
  intros Hnd Hp. rewrite Forall_forall in Hp.
  pose proof heap_start_above_image as Hlow. unfold is_page, heap_end, RAM_END in Hp.
  rewrite <- (length_fmap (λ p, Z.to_nat (p / 4096 - 0x80000))).
  rewrite <- (Z2Nat.id 32768) by lia. apply inj_le, NoDup_bound.
  - apply NoDup_fmap_2_strong; [|done]. intros x y Hx Hy Heq.
    pose proof (Hp x Hx). pose proof (Hp y Hy).
    apply Z2Nat.inj in Heq; Z.div_mod_to_equations; lia.
  - intros x (p & -> & Hin)%list_elem_of_fmap. pose proof (Hp p Hin).
    assert (0 <= p / 4096 - 524288 < 32768) by (Z.div_mod_to_equations; lia). lia.
Qed.

Lemma freelist_cons s p l :
  freelist s (p :: l) →
  free_pages s = p ∧ is_page p ∧ chain (mem s) (rd (mem s) p) l ∧
  NoDup (p :: l) ∧ Forall is_page l ∧
  num_free_pages s = Z.of_nat (length l) + 1 ∧ is_u64 (Z.of_nat (length l) + 1).
Proof.
  intros [[Hhd Hc] Hnd Hpg Hnum].
  pose proof (pages_bound _ Hnd Hpg) as Hb. simpl in *.
  apply Forall_cons in Hpg as [? ?]. unfold is_u64. split_and!; try done; lia.
Qed.

(** Writing outside the free pages keeps the invariant. *)
Lemma freelist_frame s m l :
  (∀ p, p ∈ l → rd m p = rd (mem s) p) → freelist s l → freelist (set_mem m s) l.
Proof.
  intros Hf [Hc Hnd Hpg Hnum]. constructor; simpl; try done.
  by eapply chain_frame.
Qed.

Lemma set_mem_mem s : set_mem (mem s) s = s.
Proof. by destruct s. Qed.

(** The clearing loop of [alloc_page]. *)
Lemma wp_clear_page p (Q : unit → mm_state → Prop) H s :
  is_page p →
  (∀ m', zero_page m' p → same_outside p (mem s) m' → Q tt (set_mem m' s)) →
  wp (for_up (PAGE_SIZE / 8) (λ i, store (u64 (p + 8 * i)) 0)) Q H s.
Proof.
  intros Hp HQ. change (PAGE_SIZE / 8) with 512.
  set (I := λ j s', ∃ m', s' = set_mem m' s ∧
    (∀ i, 0 <= i < j → rd m' (p + 8 * i) = 0) ∧ same_outside p (mem s) m').
  apply wp_mono with (Q := λ _, I 512) (H := H); [|by intros [] s' (m' & -> & ? & ?); apply HQ|done].
  apply wp_for_up; [lia| |].
  - intros j s' Hj (m' & -> & Hz & Ho).
    rewrite u64_id by (apply (is_page_u64 p); [done|unfold in_page; lia]).
    apply wp_store; [eauto with pages|]. eexists. split; [done|]. split.
    + intros i Hi. destruct (decide (i = j)) as [->|Hne]; [by rewrite rd_insert|].
      rewrite rd_insert_ne by lia. apply Hz. lia.
    + intros a Ha. rewrite rd_insert_ne; [by apply Ho|]. unfold in_page in Ha. lia.
  - exists (mem s). rewrite set_mem_mem. split_and!; [done|intros; lia|by intros ?].
Qed.

Lemma wp_alloc_page s p l Q H :
  freelist s (p :: l) →
  (∀ s', freelist s' l → heap_current s' = heap_current s →
         zero_page (mem s') p → same_outside p (mem s) (mem s') → Q p s') →
  wp alloc_page Q H s.
Proof.
  intros Hfl HQ. destruct (freelist_cons _ _ _ Hfl)
    as (Hhd & Hp & Hc & Hnd & Hpg & Hnum & Hu).
  unfold alloc_page. wp_steps. rewrite Hhd, Hnum.
  pose proof (is_page_nonzero _ Hp).
  rewrite (proj2 (Z.eqb_neq _ _)) by done. rewrite (proj2 (Z.eqb_neq _ _)) by lia. simpl.
  apply wp_bind, wp_load; [eauto with pages|]. wp_steps.
  apply wp_clear_page; [done|]. intros m' Hz Ho. wp_steps.
  apply HQ; simpl; [|done..]. apply NoDup_cons in Hnd as [Hnin Hnd].
  constructor; simpl; try done.
  - apply chain_frame with (m := mem s); [|done]. intros q Hq. apply Ho.
    rewrite Forall_forall in Hpg.
    apply (pages_disjoint q p); eauto with pages. by intros ->.
  - rewrite u64_id; unfold is_u64 in *; lia.
Qed.

Lemma wp_alloc_page_empty s Q H :
  freelist s [] → Q 0 s → wp alloc_page Q H s.
Proof.
  intros [Hc _ _ Hnum] HQ. simpl in Hc. unfold alloc_page. wp_steps. rewrite Hc.
  simpl. wp_steps. wp_printf. by wp_steps.
Qed.

Lemma wp_free_page s p l Q H :
  freelist s l → is_page p → p ∉ l →
  (freelist (MM (<[p:=free_pages s]> (mem s)) p (num_free_pages s + 1) (heap_current s))
     (p :: l) →
   Q tt (MM (<[p:=free_pages s]> (mem s)) p (num_free_pages s + 1) (heap_current s))) →
  wp (free_page p) Q H s.
Proof.
  intros [Hc Hnd Hpg Hnum] Hp Hnin HQ. unfold free_page.
  rewrite (proj2 (Z.eqb_neq _ _)) by eauto with pages. wp_steps.
  apply wp_store; [eauto with pages|]. wp_steps. simpl.
  assert (NoDup (p :: l)) as Hnd' by by constructor.
  assert (Forall is_page (p :: l)) as Hpg' by by constructor.
  pose proof (pages_bound _ Hnd' Hpg') as Hb. simpl in Hb.
  rewrite u64_id by (rewrite Hnum; unfold is_u64; lia).
  apply HQ. constructor; simpl; try done; [|lia]. split; [done|].
  rewrite rd_insert. eapply chain_frame; [|done]. intros q Hq.
  apply rd_insert_ne. by intros ->.
Qed.
End FreeList.

(** ** Initialisation *)

Section Init.
Context {L : Layout} {LO : LayoutOk L}.

Definition n_pages : Z := (RAM_END - heap_end) / 4096.
Definition nth_page (i : Z) : Z := heap_end + 4096 * i.
(** Every page between the heap and the end of RAM, in address order. *)
Definition all_pages : list Z := nth_page <$> seqZ 0 n_pages.

Lemma n_pages_eq : heap_end + 4096 * n_pages = RAM_END ∧ 512 <= n_pages <= 32768.
Proof.
  pose proof heap_start_aligned. pose proof heap_start_above_image.
  pose proof heap_end_below_ram_end.
  unfold n_pages, heap_end, RAM_END in *. Z.div_mod_to_equations; lia.
Qed.

Lemma nth_page_ok i : 0 <= i < n_pages → is_page (nth_page i).
Proof.
  pose proof n_pages_eq. pose proof heap_start_aligned.
  unfold is_page, nth_page, heap_end in *. intros. Z.div_mod_to_equations; lia.
Qed.

Lemma elem_of_all_pages p : p ∈ all_pages ↔ is_page p.
Proof.
  unfold all_pages. rewrite list_elem_of_fmap. split.
  - intros (i & -> & Hi%elem_of_seqZ). apply nth_page_ok. lia.
  - intros Hp. exists ((p - heap_end) / 4096).
    pose proof n_pages_eq. pose proof heap_start_aligned.
    unfold is_page, nth_page, heap_end in *.
    rewrite elem_of_seqZ. Z.div_mod_to_equations; lia.
Qed.

Lemma all_pages_nodup : NoDup all_pages.
Proof.
  apply NoDup_fmap_2; [|apply NoDup_seqZ].
  intros i j. unfold nth_page. lia.
Qed.

Lemma length_all_pages : Z.of_nat (length all_pages) = n_pages.
Proof.
  pose proof n_pages_eq. unfold all_pages. rewrite length_fmap, length_seqZ. lia.
Qed.

(** What the loop of [mm_init] writes in the first word of page [i]. *)
Definition link (i : Z) : Z := if i + 1 <? n_pages then nth_page (i + 1) else 0.

Lemma chain_pages m (k : nat) i :
  (∀ j, i <= j < n_pages → rd m (nth_page j) = link j) →
  i + Z.of_nat k = n_pages → (0 < k)%nat →
  chain m (nth_page i) (nth_page <$> seqZ i (Z.of_nat k)).
Proof.
  revert i. induction k as [|k IH]; intros i Hm Hik Hk; [lia|].
  rewrite seqZ_cons, fmap_cons by lia.
  replace (Z.pred (Z.of_nat (S k))) with (Z.of_nat k) by lia. split; [done|].
  rewrite Hm by lia. unfold link. destruct k as [|k].
  - by rewrite (proj2 (Z.ltb_ge _ _)) by lia.
  - rewrite (proj2 (Z.ltb_lt _ _)) by lia.
    apply IH; [intros; apply Hm| |]; lia.
Qed.

Lemma wp_mm_init s Q H :
  (∀ s', freelist s' all_pages → heap_current s' = heap_start → Q tt s') →
  wp mm_init Q H s.
Proof.
  intros HQ. pose proof n_pages_eq as [Hn Hnb].
  unfold mm_init. rewrite mem_start_eq. wp_steps. do 3 (wp_printf; wp_steps).
  pose proof heap_start_above_image as Hlow.
  replace (u64 (RAM_END - heap_end) / PAGE_SIZE) with n_pages
    by (rewrite u64_id by (unfold is_u64; unfold heap_end, RAM_END in *; lia); done).
  set (s0 := set_num_free_pages _ _).
  set (I := λ j s', ∃ m', s' = set_mem m' s0 ∧
    ∀ i, 0 <= i < j → rd m' (nth_page i) = link i).
  apply wp_mono with (Q := λ _, I n_pages) (H := H); [apply wp_for_up; [lia| |]| |done].
  - intros j s' Hj (m' & -> & Hm).
    assert (ram_word (nth_page j) = true) by eauto using nth_page_ok with pages.
    change PAGE_SIZE with 4096.
    rewrite (u64_id (heap_end + j * 4096))
      by (unfold is_u64; unfold heap_end, RAM_END in *; lia).
    replace (heap_end + j * 4096) with (nth_page j) by (unfold nth_page; lia).
    enough (∀ v, v = link j → wp (store (nth_page j) v) (λ _, I (j + 1)) H (set_mem m' s0))
      as Hst.
    { destruct (j + 1 <? n_pages) eqn:Hlt; apply Hst; unfold link; rewrite Hlt; [|done].
      rewrite u64_id by (unfold is_u64; unfold heap_end, RAM_END in *; lia).
      unfold nth_page. lia. }
    intros v ->. apply wp_store; [done|]. eexists. split; [done|]. intros i Hi.
    destruct (decide (i = j)) as [->|Hne]; [by rewrite rd_insert|].
    rewrite rd_insert_ne by (unfold nth_page; lia). apply Hm. lia.
  - exists (mem s0). split; [by rewrite set_mem_mem|intros; lia].
  - intros [] s' (m' & -> & Hm). wp_printf. apply HQ; [|done].
    constructor; simpl.
    + replace heap_end with (nth_page 0) by (unfold nth_page; lia).
      unfold all_pages. replace n_pages with (Z.of_nat (Z.to_nat n_pages)) by lia.
      apply chain_pages; [|lia..]. intros j Hj. apply Hm. lia.
    + apply all_pages_nodup.
    + apply Forall_forall. intros p. apply elem_of_all_pages.
    + by rewrite length_all_pages.
Qed.
End Init.

(** ** Clients of the page allocator

    A client owns the pages it was given and has not returned; it may write
    to those, and nowhere else.  [owned] is the set of pages out at clients. *)

Section Clients.
Context {L : Layout} {LO : LayoutOk L}.

Definition client_state : Type := mm_state * gset Z.

Inductive mm_step : client_state → client_state → Prop :=
  | step_alloc s s' O p w w' :
      alloc_page s w = Ret p s' w' → p ≠ 0 → mm_step (s, O) (s', {[p]} ∪ O)
  | step_alloc_fail s s' O w w' :
      alloc_page s w = Ret 0 s' w' → mm_step (s, O) (s', O)
  | step_free s s' O p w w' :
      p ∈ O → free_page p s w = Ret tt s' w' → mm_step (s, O) (s', O ∖ {[p]})
  | step_write s s' O p a v w w' :
      p ∈ O → in_page p a → store a v s w = Ret tt s' w' → mm_step (s, O) (s', O)
  | step_kmalloc s s' O n p w w' :
      kmalloc n s w = Ret p s' w' → mm_step (s, O) (s', O).

(** States reachable from boot: [mm_init] on any memory, then client steps. *)
Definition mm_reachable (c : client_state) : Prop :=
  ∃ s0 s w w', mm_init s0 w = Ret tt s w' ∧ rtc mm_step (s, ∅) c.

(** Free list and owned pages partition the managed pages. *)
Definition partition (c : client_state) : Prop :=
  ∃ l, freelist (fst c) l ∧ l ++ elements (snd c) ≡ₚ all_pages.

Lemma partition_disjoint l (O : gset Z) p :
  l ++ elements O ≡ₚ all_pages → p ∈ O → is_page p ∧ p ∉ l.
Proof.
  intros HP Hp. apply elem_of_elements in Hp. split.
  - apply elem_of_all_pages. rewrite <- HP. set_solver.
  - pose proof all_pages_nodup as Hnd. rewrite <- HP in Hnd.
    apply NoDup_app in Hnd as (_ & Hd & _). intros Hl. by apply (Hd p).
Qed.

Lemma wp_run_ret {S A} (m : K S A) Q s w a s' w' :
  wp m Q never s → m s w = Ret a s' w' → Q a s'.
Proof. intros Hm Hr. pose proof (wp_out _ _ _ _ Hm w) as Hw. by rewrite Hr in Hw. Qed.

Lemma alloc_partition s O w :
  partition (s, O) →
  ∃ p s' w', alloc_page s w = Ret p s' w' ∧
    ((p = 0 ∧ s' = s ∧ (∀ q, is_page q → q ∈ O)) ∨
     (is_page p ∧ (p ∉ O) ∧ partition (s', {[p]} ∪ O) ∧ zero_page (mem s') p ∧
      same_outside p (mem s) (mem s'))).
Proof.
  intros (l & Hfl & HP); simpl in *. destruct l as [|p l].
  - destruct (wp_run alloc_page (λ p s', p = 0 ∧ s' = s) s w) as (p & s' & w' & Hr & -> & ->).
    { by apply wp_alloc_page_empty. }
    exists 0, s, w'. split; [done|]. left. split_and!; [done..|]. intros q Hq.
    apply elem_of_all_pages in Hq. rewrite <- HP in Hq. by apply elem_of_elements.
  - destruct (wp_run alloc_page (λ q s', q = p ∧ freelist s' l ∧ zero_page (mem s') p ∧
      same_outside p (mem s) (mem s')) s w) as (q & s' & w' & Hr & -> & Hfl' & Hz & Ho).
    { by apply (wp_alloc_page _ p l). }
    assert (p ∉ O) as HpO.
    { intros Hp. destruct (partition_disjoint _ _ _ HP Hp). set_solver. }
    exists p, s', w'. split; [done|]. right. split_and!; try done.
    + by apply (freelist_cons _ _ _ Hfl).
    + exists l. split; [done|]. simpl. rewrite elements_union_singleton by done.
      by rewrite <- HP, <- Permutation_middle.
Qed.

Lemma free_partition s O p w :
  partition (s, O) → p ∈ O →
  ∃ s' w', free_page p s w = Ret tt s' w' ∧ partition (s', O ∖ {[p]}).
Proof.
  intros (l & Hfl & HP) Hp; simpl in *.
  destruct (partition_disjoint _ _ _ HP Hp) as [Hpg Hnin].
  destruct (wp_run (free_page p) (λ _ s', freelist s' (p :: l)) s w)
    as ([] & s' & w' & Hr & Hfl'). { by apply (wp_free_page _ _ l). }
  exists s', w'. split; [done|]. exists (p :: l). split; [done|]. simpl.
  rewrite <- HP. rewrite (union_difference_L {[p]} O) at 2 by set_solver.
  rewrite elements_union_singleton by set_solver. by rewrite <- Permutation_middle.
Qed.

Lemma write_partition s O p a v w s' w' :
  partition (s, O) → p ∈ O → in_page p a → store a v s w = Ret tt s' w' →
  partition (s', O).
Proof.
  intros (l & Hfl & HP) Hp Ha Hst; simpl in *.
  destruct (partition_disjoint _ _ _ HP Hp) as [Hpg Hnin].
  unfold store in Hst. destruct (ram_word a); simplify_eq.
  exists l. split; [|done]. apply freelist_frame; [|done]. intros q Hq.
  apply rd_insert_ne. intros ->.
  pose proof (fl_pages _ _ Hfl) as Hall. rewrite Forall_forall in Hall.
  apply (pages_disjoint p q q); eauto with pages. by intros ->.
Qed.

Lemma kmalloc_freelist s n w p s' w' l :
  kmalloc n s w = Ret p s' w' → freelist s l → freelist s' l.
Proof.
  intros Hk [Hc Hnd Hpg Hnum].
  assert (wp (kmalloc n) (λ _ t, freelist t l) never s) as Hw.
  { unfold kmalloc. destruct (n =? 0); wp_steps; [done|].
    destruct (_ <? _); wp_steps; [wp_printf; by wp_steps|by constructor]. }
  exact (wp_run_ret _ _ _ _ _ _ _ Hw Hk).
Qed.

Lemma partition_step c c' : mm_step c c' → partition c → partition c'.
Proof.
  intros Hstep Hpart. destruct Hstep as
    [s s' O p w w' Hr Hp|s s' O w w' Hr|s s' O p w w' Hp Hr
    |s s' O p a v w w' Hp Ha Hr|s s' O n p w w' Hr].
  - destruct (alloc_partition s O w Hpart) as (q & t & w1 & Hr' & Hcase).
    rewrite Hr in Hr'. simplify_eq. by destruct Hcase as [(? & _)|(_ & _ & ? & _)].
  - destruct (alloc_partition s O w Hpart) as (q & t & w1 & Hr' & Hcase).
    rewrite Hr in Hr'. simplify_eq. destruct Hcase as [(_ & -> & _)|(Hpg & _)]; [done|].
    by apply is_page_nonzero in Hpg.
  - destruct (free_partition s O p w Hpart Hp) as (t & w1 & Hr' & Hpart').
    rewrite Hr in Hr'. by simplify_eq.
  - by eapply write_partition.
  - destruct Hpart as (l & Hfl & HP). exists l. split; [|done].
    by eapply kmalloc_freelist.
Qed.

Lemma reachable_partition c : mm_reachable c → partition c.
Proof.
  intros (s0 & s & w & w' & Hinit & Hsteps).
  assert (partition (s, ∅)) as Hp.
  { exists all_pages. split; [|by simpl; rewrite elements_empty, app_nil_r].
    assert (wp mm_init (λ _ t, freelist t all_pages) never s0) as Hw
      by by apply wp_mm_init.
    exact (wp_run_ret _ _ _ _ _ _ _ Hw Hinit). }
  remember (s, ∅) as c0. clear Heqc0 Hinit.
  induction Hsteps; eauto using partition_step.
Qed.
End Clients.

(** ** Properties of the page allocator *)

(** A layout as the linker could produce it, for the concrete instances. *)
Definition sample_layout : Layout := {| heap_start := 0x80220000 |}.

#[export] Instance sample_layout_ok : LayoutOk sample_layout.
Proof. constructor; vm_compute; done. Qed.

Definition boot_mm : mm_state := MM ∅ 0 0 0.
Definition boot_world : world := mkWorld [] [].

(** Whatever RAM contains, [mm_init] returns with the free list
    holding every page from the end of the heap to the end of RAM exactly
    once, in address order, the counter equal to its length, and an empty heap. *)
Theorem mm_init_free_list {L : Layout} {LO : LayoutOk L} (s : mm_state) (w : world) :
  ∃ s' w', mm_init s w = Ret tt s' w' ∧ freelist s' all_pages ∧
           (∀ p, p ∈ all_pages ↔ is_page p) ∧ heap_current s' = heap_start.
Proof.
  destruct (wp_run mm_init (λ _ s', freelist s' all_pages ∧ heap_current s' = heap_start) s w)
    as ([] & s' & w' & Hr & Hfl & Hh); [by apply wp_mm_init|].
  exists s', w'. auto using elem_of_all_pages.
Qed.

Lemma mm_init_free_list_witness :
  ∃ s' w', @mm_init sample_layout boot_mm boot_world = Ret tt s' w' ∧
    @freelist sample_layout s' (@all_pages sample_layout) ∧
    (∀ p, p ∈ @all_pages sample_layout ↔ @is_page sample_layout p) ∧
    heap_current s' = 0x80220000.
Proof. exact (mm_init_free_list (L:=sample_layout) boot_mm boot_world). Defined.

(** On a non-empty free list [alloc_page] returns its head,
    cleared, leaves the rest of the list as the free list and touches no word
    outside the page; on an empty list it returns NULL and changes nothing. *)
Theorem alloc_page_spec {L : Layout} {LO : LayoutOk L} (s : mm_state) (l : list Z) (w : world) :
  freelist s l →
  ∃ p s' w', alloc_page s w = Ret p s' w' ∧
    match l with
    | [] => p = 0 ∧ s' = s
    | q :: l' => p = q ∧ p ≠ 0 ∧ freelist s' l' ∧ zero_page (mem s') p ∧
                 same_outside p (mem s) (mem s') ∧ heap_current s' = heap_current s
    end.
Proof.
  intros Hfl. apply (wp_run alloc_page _ s w). destruct l as [|q l].
  - by apply wp_alloc_page_empty.
  - apply (wp_alloc_page _ q l); [done|].
    pose proof (freelist_cons _ _ _ Hfl) as (_ & Hq & _). eauto 10 with pages.
Qed.

Lemma alloc_page_spec_witness :
  let p := 0x87fff000 in let s := MM {[ p := 0 ]} p 1 0 in
  @freelist sample_layout s [p] ∧
  ∃ p' s' w', @alloc_page s boot_world = Ret p' s' w' ∧
    p' = p ∧ p' ≠ 0 ∧ @freelist sample_layout s' [] ∧ zero_page (mem s') p' ∧
    same_outside p' (mem s) (mem s') ∧ heap_current s' = heap_current s.
Proof.
  intros p s.
  assert (@freelist sample_layout s [p]) as Hfl.
  { constructor; [done|apply NoDup_singleton| |done].
    apply Forall_singleton. unfold is_page; vm_compute. split_and!; done. }
  split; [exact Hfl|].
  exact (alloc_page_spec (L:=sample_layout) s [p] boot_world Hfl).
Defined.

(** C11: in every state clients can reach from boot by
    allocating, freeing and writing to their own pages, the free list and the
    pages out at clients partition the managed pages, and the next
    [alloc_page] either finds every page in use or hands out a cleared page
    that no client owns, without changing any word of the owned pages. *)
Theorem page_ownership {L : Layout} {LO : LayoutOk L} (s : mm_state) (O : gset Z) (w : world) :
  mm_reachable (s, O) →
  partition (s, O) ∧
  num_free_pages s + Z.of_nat (size O) = n_pages ∧
  ∃ p s' w', alloc_page s w = Ret p s' w' ∧
    ((p = 0 ∧ s' = s ∧ (∀ q, is_page q → q ∈ O)) ∨
     (is_page p ∧ (p ∉ O) ∧ zero_page (mem s') p ∧
      ∀ q a, q ∈ O → in_page q a → rd (mem s') a = rd (mem s) a)).
Proof.
  intros Hr. apply reachable_partition in Hr as Hp. split; [done|]. split.
  - destruct Hp as (l & [_ _ _ Hn] & HP); simpl in *.
    apply Permutation_length in HP. rewrite length_app in HP.
    rewrite Hn, <- length_all_pages, <- HP. unfold size, set_size; simpl. lia.
  - destruct (alloc_partition s O w Hp) as (p & s' & w' & Hr' & Hcase).
    exists p, s', w'. split; [done|].
    destruct Hcase as [?|(Hpg & HpO & _ & Hz & Ho)]; [by left|right].
    split_and!; try done. intros q a Hq Ha. apply Ho.
    destruct Hp as (l & _ & HP). destruct (partition_disjoint _ _ _ HP Hq) as [Hqp _].
    apply (pages_disjoint q p); [done..| |done]. by intros ->.
Qed.

(** The first allocation after boot is such a reachable state. *)
Lemma page_ownership_witness :
  ∃ s O, @mm_reachable sample_layout (s, O) ∧ @partition sample_layout (s, O) ∧
    num_free_pages s + Z.of_nat (size O) = @n_pages sample_layout.
Proof.
  destruct (wp_run (@mm_init sample_layout) (λ _ t, True) boot_mm boot_world)
    as ([] & s & w & Hr & _). { by apply (wp_mm_init (L:=sample_layout)). }
  assert (@mm_reachable sample_layout (s, ∅)) as Hreach.
  { exists boot_mm, s, boot_world, w. split; [exact Hr|apply rtc_refl]. }
  exists s, ∅. split; [exact Hreach|].
  destruct (page_ownership (L:=sample_layout) s ∅ w Hreach) as (? & ? & _). auto.
Defined.

(** ** The heap *)

Section Heap.
Context {L : Layout} {LO : LayoutOk L}.

Definition heap_ok (s : mm_state) : Prop :=
  heap_start <= heap_current s <= heap_end ∧ heap_current s mod 8 = 0.

Definition round8 (n : Z) : Z := (n + 7) / 8 * 8.

(** A size whose rounding and end address stay below [2^64]. *)
Definition sane_size (n : Z) : Prop := 0 <= n ∧ n + 7 + heap_end < 2 ^ 64.

Lemma kmalloc_round n : sane_size n → Z.land (u64 (n + 7)) (Z.lnot 7) = round8 n.
Proof.
  intros Hn. pose proof heap_start_above_image.
  unfold sane_size, heap_end, round8 in *.
  rewrite u64_id by (unfold is_u64; lia). change 7 with (Z.ones 3) at 2.
  rewrite land_lnot_ones by lia. change (2 ^ 3) with 8. Z.div_mod_to_equations; lia.
Qed.

Lemma wp_kmalloc s n Q H :
  heap_ok s → sane_size n → n ≠ 0 →
  (if heap_current s + round8 n <=? heap_end
   then Q (heap_current s) (set_heap_current (heap_current s + round8 n) s)
   else Q 0 s) →
  wp (kmalloc n) Q H s.
Proof.
  intros [Hh Ha] Hn Hnz HQ. unfold kmalloc. rewrite (proj2 (Z.eqb_neq _ _)) by done.
  rewrite kmalloc_round by done. wp_steps.
  pose proof heap_start_above_image. pose proof heap_end_below_ram_end.
  rewrite u64_id by (unfold sane_size, is_u64, heap_end, round8 in *;
                     Z.div_mod_to_equations; lia).
  destruct (Z.leb_spec (heap_current s + round8 n) heap_end).
  - rewrite (proj2 (Z.ltb_ge _ _)) by done. by wp_steps.
  - rewrite (proj2 (Z.ltb_lt _ _)) by done. wp_steps. wp_printf. by wp_steps.
Qed.

Lemma heap_ok_bump s n :
  heap_ok s → 0 <= n → heap_current s + round8 n <= heap_end →
  heap_ok (set_heap_current (heap_current s + round8 n) s).
Proof. unfold heap_ok, round8. simpl. intros. Z.div_mod_to_equations; lia. Qed.

(** A sequence of requests: the blocks granted, as (address, size). *)
Fixpoint kmallocs (sizes : list Z) : K mm_state (list (Z * Z)) :=
  match sizes with
  | [] => ret []
  | n :: sizes' =>
      let* p := kmalloc n in
      let* r := kmallocs sizes' in
      ret (if p =? 0 then r else (p, n) :: r)
  end.

(** Blocks in ascending order, 8-aligned, disjoint, from [lo] to [heap_end]. *)
Fixpoint laid_out (lo : Z) (bs : list (Z * Z)) : Prop :=
  match bs with
  | [] => True
  | (p, n) :: bs' => lo <= p ∧ p mod 8 = 0 ∧ p + n <= heap_end ∧ laid_out (p + n) bs'
  end.

Lemma laid_out_le lo lo' bs : lo <= lo' → laid_out lo' bs → laid_out lo bs.
Proof. destruct bs as [|[p n] bs]; simpl; intuition lia. Qed.

Lemma wp_kmallocs s sizes :
  heap_ok s → Forall (λ n, sane_size n ∧ n ≠ 0) sizes →
  wp (kmallocs sizes) (λ bs s', laid_out (heap_current s) bs ∧ heap_ok s') never s.
Proof.
  intros Hs Hall. revert s Hs. induction Hall as [|n sizes [Hn Hnz] Hall IH];
    intros s Hs; simpl; wp_steps; [done|].
  pose proof heap_start_above_image. pose proof Hs as [Hh Ha].
  assert (0 < n <= round8 n)
    by (unfold sane_size, round8 in *; Z.div_mod_to_equations; lia).
  apply wp_kmalloc; [done..|].
  destruct (Z.leb_spec (heap_current s + round8 n) heap_end) as [Hfit|Hfull]; wp_steps.
  - eapply wp_mono; [apply IH, heap_ok_bump; [done|lia|done]| |done].
    intros bs s' [Hlay Hok]. wp_steps. rewrite (proj2 (Z.eqb_neq _ _)) by lia.
    split; [|done]. simpl in *. split_and!; try done; try lia.
    eapply laid_out_le; [|exact Hlay]. lia.
  - eapply wp_mono; [by apply IH| |done]. intros bs s' [Hlay Hok]. by wp_steps.
Qed.
End Heap.

(** C38: any sequence of requests of sane sizes is answered, and the
    blocks granted are 8-aligned, lie inside the heap, and do not overlap. *)
Theorem kmalloc_blocks {L : Layout} {LO : LayoutOk L} (s : mm_state) (sizes : list Z) (w : world) :
  heap_ok s → Forall (λ n, sane_size n ∧ n ≠ 0) sizes →
  ∃ bs s' w', kmallocs sizes s w = Ret bs s' w' ∧
              laid_out (heap_current s) bs ∧ heap_ok s'.
Proof. intros Hs Hn. by apply wp_run, wp_kmallocs. Qed.

Lemma kmalloc_blocks_witness :
  let s := MM ∅ 0 0 0x80220000 in
  ∃ bs s' w', @kmallocs sample_layout [13; 4194304; 8] s boot_world = Ret bs s' w' ∧
    @laid_out sample_layout (heap_current s) bs ∧ @heap_ok sample_layout s'.
Proof.
  intros s. apply (kmalloc_blocks (L:=sample_layout) s [13; 4194304; 8] boot_world).
  - unfold heap_ok; vm_compute. split_and!; done.
  - repeat constructor; vm_compute; done.
Defined.

(** The bound check is done modulo [2^64]: a request of
    [2^64 - 8] bytes passes it and moves the heap pointer back by 8, after
    which an 8-byte request is served from inside a live 16-byte block. *)
Theorem kmalloc_wrap_overlap {L : Layout} {LO : LayoutOk L} (s : mm_state) (w : world) :
  heap_ok s → heap_current s + 16 <= heap_end →
  ∃ s' w', (let* p1 := kmalloc 16 in
            let* p2 := kmalloc (2 ^ 64 - 8) in
            let* p3 := kmalloc 8 in ret (p1, p2, p3)) s w =
           Ret (heap_current s, heap_current s + 16, heap_current s + 8) s' w'.
Proof.
  intros Hs Hroom. pose proof heap_start_above_image as Hlow.
  pose proof heap_end_below_ram_end as Hhi. pose proof Hs as [Hh Ha].
  destruct (wp_run (let* p1 := kmalloc 16 in let* p2 := kmalloc (2 ^ 64 - 8) in
    let* p3 := kmalloc 8 in ret (p1, p2, p3))
    (λ r _, r = (heap_current s, heap_current s + 16, heap_current s + 8)) s w)
    as (? & s' & w' & Hr & ->); [|by eauto].
  wp_steps. apply wp_kmalloc; [done|unfold sane_size, heap_end in *; lia|done|].
  change (round8 16) with 16. rewrite (proj2 (Z.leb_le _ _)) by done.
  apply wp_bind. unfold kmalloc at 1.
  change (2 ^ 64 - 8 =? 0) with false. cbv iota.
  replace (Z.land (u64 (2 ^ 64 - 8 + 7)) (Z.lnot 7)) with (2 ^ 64 - 8) by reflexivity.
  wp_steps. cbn [heap_current set_heap_current].
  replace (u64 (heap_current s + 16 + (2 ^ 64 - 8))) with (heap_current s + 8)
    by (unfold u64, heap_end in *; Z.div_mod_to_equations; lia).
  rewrite (proj2 (Z.ltb_ge _ _)) by lia. wp_steps.
  apply wp_kmalloc; [|unfold sane_size, heap_end in *; lia|done|].
  { unfold heap_ok in *; cbn [heap_current set_heap_current].
    Z.div_mod_to_equations; lia. }
  cbn [heap_current set_heap_current]. change (round8 8) with 8.
  rewrite (proj2 (Z.leb_le _ _)) by lia. by wp_steps.
Qed.

Lemma kmalloc_wrap_overlap_witness :
  let s := MM ∅ 0 0 0x80220000 in
  ∃ s' w', (let* p1 := @kmalloc sample_layout 16 in
            let* p2 := @kmalloc sample_layout (2 ^ 64 - 8) in
            let* p3 := @kmalloc sample_layout 8 in ret (p1, p2, p3)) s boot_world =
           Ret (0x80220000, 0x80220010, 0x80220008) s' w'.
Proof.
  intros s. apply (kmalloc_wrap_overlap (L:=sample_layout) s boot_world).
  - unfold heap_ok; vm_compute. split_and!; done.
  - vm_compute. done.
Defined.
