(* ===== verification/Vm.v ===== *)
(** SV39 virtual memory, [kernel/mm/vm.c] and [kernel/mm/vm.h]: the three-level
    page tables, kept in pages of the allocator and edited through physical
    addresses. *)

From Stdlib Require Import String.
From S2P Require Import Prelude Machine Uart Printf Mm.
Local Open Scope string_scope.
Local Open Scope Z_scope.

(** ** Constants and entry encoding, [vm.h] *)

Definition SATP_SV39 : Z := Z.shiftl 8 60.
Definition PGSIZE : Z := 4096.
Definition MAXVA : Z := Z.shiftl 1 (9 + 9 + 9 + 12 - 1).
Definition KERNBASE : Z := 0x80000000.
Definition PHYSTOP : Z := KERNBASE + 128 * 1024 * 1024.

Definition PTE_V : Z := Z.shiftl 1 0.
Definition PTE_R : Z := Z.shiftl 1 1.
Definition PTE_W : Z := Z.shiftl 1 2.
Definition PTE_X : Z := Z.shiftl 1 3.
Definition PTE_U : Z := Z.shiftl 1 4.

Definition PTE_FLAGS (pte : Z) : Z := Z.land pte 0x3FF.
Definition PA2PTE (pa : Z) : Z := u64 (Z.shiftl (Z.shiftr pa 12) 10).
Definition PTE2PA (pte : Z) : Z := u64 (Z.shiftl (Z.shiftr pte 10) 12).
Definition PTE_VALID (pte : Z) : bool := negb (Z.land pte PTE_V =? 0).

Definition PXMASK : Z := 0x1FF.
Definition PGSHIFT : Z := 12.
Definition PXSHIFT (level : Z) : Z := PGSHIFT + 9 * level.
Definition PX (level va : Z) : Z := Z.land (Z.shiftr va (PXSHIFT level)) PXMASK.

(** ** Operations *)

(** The address [&pagetable[i]]. *)
Definition pte_addr (pagetable i : Z) : Z := u64 (pagetable + 8 * i).

(** The loop of [walk] from [level] down, and its final [&pagetable[PX(0, va)]];
    [0] is NULL. *)
Fixpoint walk_down (level : nat) (pagetable va : Z) (alloc : bool) : K mm_state Z :=
  match level with
  | O => ret (pte_addr pagetable (PX 0 va))
  | S level' =>
      let pte := pte_addr pagetable (PX (Z.of_nat level) va) in
      let* e := load pte in
      if PTE_VALID e then walk_down level' (PTE2PA e) va alloc
      else if negb alloc then ret 0
      else
        let* page := alloc_page in
        if page =? 0 then ret 0
        else
          store pte (Z.lor (PA2PTE page) PTE_V) ;;
          walk_down level' page va alloc
  end.

Definition walk (pagetable va : Z) (alloc : bool) : K mm_state Z :=
  if MAXVA <=? va then ret 0 else walk_down 2 pagetable va alloc.

(** The [for (;;)] of [mappages]; running out of [fuel] is a loop that does
    not end. *)
Fixpoint mappages_loop (fuel : nat) (pagetable a last pa perm : Z) : K mm_state Z :=
  match fuel with
  | O => λ s w, Spin s w
  | S fuel' =>
      let* pte := walk pagetable a true in
      if pte =? 0 then ret (-1)
      else
        let* e := load pte in
        if PTE_VALID e then panic (lit "mappages: remap")
        else
          store pte (Z.lor (Z.lor (PA2PTE pa) (u64 perm)) PTE_V) ;;
          if a =? last then ret 0
          else mappages_loop fuel' pagetable (u64 (a + PGSIZE)) last (u64 (pa + PGSIZE)) perm
  end.

Definition page_down (va : Z) : Z := va / PGSIZE * PGSIZE.

(** Rounds the loop can take: to [last], or, when [last] is below [a], until
    [walk] refuses the address. *)
Definition range_fuel (a last : Z) : nat :=
  if a <=? last then S (Z.to_nat ((last - a) / PGSIZE))
  else S (S (Z.to_nat ((MAXVA - a) / PGSIZE))).

Definition mappages (pagetable va size pa perm : Z) : K mm_state Z :=
  if size =? 0 then panic (lit "mappages: size is zero")
  else
    let a := page_down va in
    let last := page_down (u64 (va + size - 1)) in
    mappages_loop (range_fuel a last) pagetable a last pa perm.

Fixpoint unmappages_loop (fuel : nat) (pagetable a last : Z) : K mm_state unit :=
  match fuel with
  | O => λ s w, Spin s w
  | S fuel' =>
      let* pte := walk pagetable a false in
      let* e := (if pte =? 0 then ret 0 else load pte) in
      if (pte =? 0) || negb (PTE_VALID e) then panic (lit "unmappages: not mapped")
      else
        store pte 0 ;;
        if a =? last then ret tt
        else unmappages_loop fuel' pagetable (u64 (a + PGSIZE)) last
  end.

Definition unmappages (pagetable va size : Z) : K mm_state unit :=
  if size =? 0 then ret tt
  else
    let a := page_down va in
    let last := page_down (u64 (va + size - 1)) in
    unmappages_loop (range_fuel a last) pagetable a last.

Definition walkaddr (pagetable va : Z) : K mm_state Z :=
  if MAXVA <=? va then ret 0
  else
    let* pte := walk pagetable va false in
    if pte =? 0 then ret 0
    else
      let* e := load pte in
      if PTE_VALID e then ret (PTE2PA e) else ret 0.

Definition pa2va (pa : Z) : Z := pa.

Definition va2pa (pagetable va : Z) : K mm_state Z :=
  let* pte := walk pagetable va false in
  if pte =? 0 then ret 0
  else
    let* e := load pte in
    if PTE_VALID e then ret (u64 (PTE2PA e + Z.land va (PGSIZE - 1))) else ret 0.

Definition vm_create_user_pagetable : K mm_state Z :=
  let* pagetable := alloc_page in
  if pagetable =? 0 then ret 0 else ret pagetable.

(** Recursive release of a table; [depth] bounds the recursion. *)
Fixpoint vm_free (depth : nat) (pagetable : Z) : K mm_state unit :=
  match depth with
  | O => λ s w, Spin s w
  | S depth' =>
      for_up 512 (λ i,
        let* pte := load (pte_addr pagetable i) in
        if PTE_VALID pte && (Z.land pte (Z.lor (Z.lor PTE_R PTE_W) PTE_X) =? 0)
        then vm_free depth' (PTE2PA pte)
        else ret tt) ;;
      free_page pagetable
  end.

(** *** The kernel page table *)

Record vm_state := VM { vm_mm : mm_state; kernel_pagetable : Z }.

Definition mm_lens : lens mm_state vm_state.
Proof.
  refine (Lens vm_mm (λ m v, VM m (kernel_pagetable v)) _ _ _); by intros; try destruct t.
Defined.

Definition set_kernel_pagetable (p : Z) (v : vm_state) : vm_state := VM (vm_mm v) p.

(** One [if (mappages(...) != 0) panic(msg);] of [kvminit]. *)
Definition kvm_map (pagetable va size pa perm : Z) (msg : list Z) : K vm_state unit :=
  let* r := zoom mm_lens (mappages pagetable va size pa perm) in
  if r =? 0 then ret tt else panic msg.

Definition kvminit : K vm_state unit :=
  let* p := zoom mm_lens alloc_page in
  modify (set_kernel_pagetable p) ;;
  (if p =? 0 then panic (lit "kvminit: alloc_page failed") else ret tt) ;;
  printf (ln "[VM] Created kernel page table at %p") [ANum p] ;;
  kvm_map p KERNBASE (PHYSTOP - KERNBASE) KERNBASE (Z.lor (Z.lor PTE_R PTE_W) PTE_X)
    (lit "kvminit: mappages failed for kernel") ;;
  kvm_map p 0x10000000 PGSIZE 0x10000000 (Z.lor PTE_R PTE_W)
    (lit "kvminit: mappages failed for UART") ;;
  kvm_map p 0x0C000000 0x4000000 0x0C000000 (Z.lor PTE_R PTE_W)
    (lit "kvminit: mappages failed for PLIC") ;;
  kvm_map p 0x02000000 0x10000 0x02000000 (Z.lor PTE_R PTE_W)
    (lit "kvminit: mappages failed for CLINT") ;;
  printf (ln "[VM] Kernel page table initialized") [].

Definition vm_init : K vm_state unit :=
  printf (ln "[VM] Initializing SV39 virtual memory") [] ;; kvminit.

Definition kvminithart : K vm_state unit :=
  let* p := gets kernel_pagetable in
  w_satp (Z.lor SATP_SV39 (Z.shiftr p 12)) ;;
  sfence_vma ;;
  printf (ln "[VM] Switched to SV39 paging mode") [].

Definition vm_create_kernel_pagetable : K vm_state Z := gets kernel_pagetable.
