(* ===== verification/PageTable.v ===== *)
(** The page-table tree behind [vm.c]: entry encoding, the tables reachable
    from a root, the invariant they satisfy, and the proof that [walk] finds
    and extends that tree while leaving every existing translation alone. *)

From Stdlib Require Import String.
From S2P Require Import Prelude Machine Uart Printf Mm Vm.
Local Open Scope Z_scope.

(** ** Entry encoding *)

Lemma PX_eq level va : 0 <= level → PX level va = va / 2 ^ (12 + 9 * level) mod 512.
Proof.
  intros Hl. unfold PX, PXSHIFT, PGSHIFT, PXMASK. change 0x1FF with (Z.ones 9).
  rewrite Z.land_ones, Z.shiftr_div_pow2 by lia. done.
Qed.

Lemma PX_range level va : 0 <= level → 0 <= PX level va < 512.
Proof. intros Hl. rewrite PX_eq by done. apply Z.mod_pos_bound. lia. Qed.

(** An address below [MAXVA] is determined, up to its page, by its indices. *)
Lemma PX_inj va va' :
  0 <= va < MAXVA → 0 <= va' < MAXVA →
  PX 2 va = PX 2 va' → PX 1 va = PX 1 va' → PX 0 va = PX 0 va' →
  va / 4096 = va' / 4096.
Proof.
  change MAXVA with 274877906944. intros Hv Hv'. rewrite !PX_eq by lia. simpl.
  change (2 ^ 30) with 1073741824. change (2 ^ 21) with 2097152. change (2 ^ 12) with 4096.
  intros. Z.div_mod_to_equations; lia.
Qed.

Lemma PX_page level va : 0 <= level → PX level (va / 4096 * 4096) = PX level va.
Proof.
  intros Hl. rewrite !PX_eq by done. f_equal.
  rewrite Z.pow_add_r by lia. change (2 ^ 12) with 4096.
  rewrite <- !Z.div_div by (try lia; apply Z.pow_pos_nonneg; lia).
  by rewrite Z.div_mul.
Qed.

(** A well-formed set of flags: below the address field. *)
Definition flags_ok (f : Z) : Prop := 0 <= f < 1024.

Lemma PA2PTE_eq pa : is_u64 pa → PA2PTE pa = Z.shiftl (pa / 4096) 10.
Proof.
  intros Hpa. unfold PA2PTE. rewrite Z.shiftr_div_pow2 by lia. change (2 ^ 12) with 4096.
  rewrite u64_id; [done|]. unfold is_u64 in *. rewrite Z.shiftl_mul_pow2 by lia.
  change (2 ^ 10) with 1024. Z.div_mod_to_equations; lia.
Qed.

Lemma lor_V_range f : flags_ok f → flags_ok (Z.lor f PTE_V).
Proof.
  intros Hf. unfold flags_ok in *. change PTE_V with 1. split.
  - apply Z.lor_nonneg. lia.
  - change 1024 with (2 ^ 10). apply Z.log2_lt_cancel.
    destruct (decide (f = 0)) as [->|Hne]; [done|].
    rewrite Z.log2_lor by lia. change (Z.log2 1) with 0.
    rewrite Z.max_l by apply Z.log2_nonneg.
    assert (Z.log2 f < 10) by (apply Z.log2_lt_pow2; lia).
    rewrite Z.log2_pow2; lia.
Qed.

(** An entry built by [mappages] or [walk] is the page number above the flags. *)
Lemma pte_fields pa f :
  is_u64 pa → flags_ok f →
  Z.lor (Z.lor (PA2PTE pa) f) PTE_V = pa / 4096 * 1024 + Z.lor f PTE_V.
Proof.
  intros Hpa Hf. rewrite PA2PTE_eq by done. rewrite <- Z.lor_assoc.
  pose proof (lor_V_range f Hf) as Hr. unfold flags_ok in Hr.
  rewrite lor_low_field by (try lia; exact Hr). done.
Qed.

Lemma PTE_VALID_spec e : PTE_VALID e = Z.odd e.
Proof.
  unfold PTE_VALID. change PTE_V with (Z.ones 1). rewrite Z.land_ones by lia.
  change (2 ^ 1) with 2. rewrite Zmod_odd. by destruct (Z.odd e).
Qed.

Lemma PTE_VALID_0 : PTE_VALID 0 = false.
Proof. done. Qed.

Lemma PTE_VALID_lor x : PTE_VALID (Z.lor x PTE_V) = true.
Proof.
  rewrite PTE_VALID_spec, <- Z.bit0_odd, Z.lor_spec. change (Z.testbit PTE_V 0) with true.
  apply orb_true_r.
Qed.

Lemma PTE2PA_mappage pa f :
  is_u64 pa → flags_ok f →
  PTE2PA (Z.lor (Z.lor (PA2PTE pa) f) PTE_V) = pa / 4096 * 4096.
Proof.
  intros Hpa Hf. rewrite pte_fields by done. unfold PTE2PA.
  pose proof (lor_V_range f Hf) as Hr. unfold flags_ok in Hr.
  rewrite Z.shiftr_div_pow2, Z.shiftl_mul_pow2 by lia.
  change (2 ^ 10) with 1024. change (2 ^ 12) with 4096.
  replace ((pa / 4096 * 1024 + Z.lor f PTE_V) / 1024) with (pa / 4096)
    by (Z.div_mod_to_equations; lia).
  apply u64_id. unfold is_u64 in *. Z.div_mod_to_equations; lia.
Qed.

Lemma PTE2PA_table q :
  is_u64 q → q mod 4096 = 0 → PTE2PA (Z.lor (PA2PTE q) PTE_V) = q.
Proof.
  intros Hq Hm. pose proof (PTE2PA_mappage q 0 Hq ltac:(unfold flags_ok; lia)) as Heq.
  rewrite Z.lor_0_r in Heq. rewrite Heq. Z.div_mod_to_equations; lia.
Qed.

(** An entry that points to a table rather than to a page: no R, W or X bit. *)
Definition points (e : Z) : bool := Z.land e (Z.lor (Z.lor PTE_R PTE_W) PTE_X) =? 0.

Lemma points_pte pa f : points (Z.lor (Z.lor (PA2PTE pa) f) PTE_V) = points f.
Proof.
  unfold points. change (Z.lor (Z.lor PTE_R PTE_W) PTE_X) with 14. rewrite !Z.land_lor_distr_l.
  change (Z.land PTE_V 14) with 0. rewrite Z.lor_0_r.
  assert (Z.land (PA2PTE pa) 14 = 0) as ->; [|done].
  apply Z.bits_inj'. intros n Hn. rewrite Z.land_spec, Z.bits_0. destruct (decide (n < 10)).
  - unfold PA2PTE, u64. change 18446744073709551616 with (2 ^ 64).
    by rewrite Z.mod_pow2_bits_low, Z.shiftl_spec_low by lia.
  - rewrite (Z.bits_above_log2 14 n) by (simpl; lia). apply andb_false_r.
Qed.

Lemma points_table q : points (Z.lor (PA2PTE q) PTE_V) = true.
Proof. pose proof (points_pte q 0) as H. by rewrite Z.lor_0_r in H. Qed.

(** ** The tree *)

Definition entry (m : gmap Z Z) (p i : Z) : Z := rd m (p + 8 * i).

Definition child (m : gmap Z Z) (p i : Z) : option Z :=
  let e := entry m p i in if PTE_VALID e then Some (PTE2PA e) else None.

(** The table reached from [root] along a path of indices, top level first. *)
Fixpoint tbl (m : gmap Z Z) (root : Z) (path : list Z) : option Z :=
  match path with
  | [] => Some root
  | i :: path' => p ← child m root i; tbl m p path'
  end.

(** The path to the leaf table of [va]. *)
Definition vpath (va : Z) : list Z := [PX 2 va; PX 1 va].

(** The leaf entry for [va], if its tables exist. *)
Definition leaf (m : gmap Z Z) (root va : Z) : option Z :=
  t ← tbl m root (vpath va); Some (entry m t (PX 0 va)).

(** The translation the tables define: the valid leaf entry for [va]. *)
Definition xlate (m : gmap Z Z) (root va : Z) : option Z :=
  if MAXVA <=? va then None
  else e ← leaf m root va; if PTE_VALID e then Some e else None.

Definition index (i : Z) : Prop := 0 <= i < 512.

(** Paths to tables: none, one or two indices. *)
Definition tpath (path : list Z) : Prop := (length path <= 2)%nat ∧ Forall index path.

(** Valid entries point to tables at the upper levels and to pages at the last. *)
Definition shaped (m : gmap Z Z) (root : Z) : Prop :=
  ∀ path p i, tpath path → index i → tbl m root path = Some p → PTE_VALID (entry m p i) = true →
    points (entry m p i) = (length path <? 2)%nat.

Lemma tpath_cases path :
  tpath path →
  path = [] ∨ (∃ i, path = [i] ∧ index i) ∨ ∃ i j, path = [i; j] ∧ index i ∧ index j.
Proof.
  intros [Hl Hi]. destruct path as [|i [|j [|? ?]]]; simpl in *; try lia; [by left|..];
    repeat (apply Forall_cons_1 in Hi as [? Hi]); eauto 10.
Qed.

Lemma tpath_va va : tpath (vpath va).
Proof. split; [done|]. repeat constructor; apply PX_range; lia. Qed.

Lemma tbl_app m root path i :
  tbl m root (path ++ [i]) = p ← tbl m root path; child m p i.
Proof.
  revert root. induction path as [|j path IH]; intros root; simpl.
  - by destruct (child m root i).
  - destruct (child m root j) as [p|]; [simpl|done]. apply IH.
Qed.

(** Two memories that agree on the entries of the upper tables of a tree
    have the same tables. *)
Lemma tbl_agree m m' root :
  (∀ path p i, (length path <= 1)%nat → Forall index path → index i →
     tbl m root path = Some p → entry m' p i = entry m p i) →
  ∀ path, tpath path → tbl m' root path = tbl m root path.
Proof.
  intros Hag path Hp.
  assert (∀ path p i, (length path <= 1)%nat → Forall index path → index i →
            tbl m root path = Some p → child m' p i = child m p i) as Hch.
  { intros. unfold child. by erewrite Hag. }
  destruct (tpath_cases _ Hp) as [->|[(i & -> & Hi)|(i & j & -> & Hi & Hj)]]; [done|..]; simpl.
  - by rewrite (Hch [] root i) by done || (simpl; auto).
  - rewrite (Hch [] root i); simpl; auto.
    destruct (child m root i) as [p|] eqn:Hc; [simpl|done].
    rewrite (Hch [i] p j); simpl; auto. by rewrite Hc.
Qed.

(** ** The invariant *)

Section Tree.
Context {L : Layout} {LO : LayoutOk L}.

(** Tables occupy managed pages that are not free, and the structure is a
    tree: no page is reached along two paths. *)
Record pt_inv (m : gmap Z Z) (root : Z) (F : list Z) : Prop := {
  pi_page : ∀ path p, tpath path → tbl m root path = Some p → is_page p ∧ p ∉ F;
  pi_inj : ∀ path path' p, tpath path → tpath path' →
    tbl m root path = Some p → tbl m root path' = Some p → path = path' }.

Lemma entry_addr p i :
  is_page p → index i → pte_addr p i = p + 8 * i ∧ ram_word (p + 8 * i) = true.
Proof.
  intros Hp Hi. split; [|eauto with pages]. unfold pte_addr.
  apply u64_id, (is_page_u64 p); [done|]. unfold in_page, index in *. lia.
Qed.

Lemma entry_same_outside q m m1 p i :
  is_page p → is_page q → p ≠ q → index i → same_outside q m m1 →
  entry m1 p i = entry m p i.
Proof.
  intros Hp Hq Hne Hi Ho. apply Ho. apply (pages_disjoint p q); [done..|].
  unfold in_page, index in *. lia.
Qed.

Lemma entry_insert_ne m p i q j v :
  is_page p → is_page q → index i → index j → (p, i) ≠ (q, j) →
  entry (<[p + 8 * i := v]> m) q j = entry m q j.
Proof.
  intros Hp Hq Hi Hj Hne. apply rd_insert_ne. intros Heq. apply Hne.
  unfold is_page, index in *.
  assert (p = q) as -> by (Z.div_mod_to_equations; lia). f_equal. lia.
Qed.

(** *** Linking a fresh table under a table of the tree *)

Section Install.
Context (m m1 : gmap Z Z) (root : Z) (F : list Z) (path : list Z) (p i q e : Z).
Hypothesis Hinv : pt_inv m root (q :: F).
Hypothesis Hqp : is_page q.
Hypothesis Hlen : (length path <= 1)%nat.
Hypothesis Hidx : Forall index path.
Hypothesis Hi : index i.
Hypothesis Hpath : tbl m root path = Some p.
Hypothesis Hempty : child m p i = None.
Hypothesis Hzero : zero_page m1 q.
Hypothesis Hout : same_outside q m m1.
Hypothesis Hvalid : PTE_VALID e = true.
Hypothesis Hq : PTE2PA e = q.

Let m2 := <[p + 8 * i := e]> m1.

Lemma install_tpath : tpath path ∧ tpath (path ++ [i]).
Proof.
  split; split; rewrite ?length_app; simpl; try lia; [done|].
  by apply Forall_app_2; [|apply Forall_singleton].
Qed.

Lemma install_table path' r :
  tpath path' → tbl m root path' = Some r → is_page r ∧ r ≠ q.
Proof using Hinv.
  intros Hp' Hr. destruct (pi_page _ _ _ Hinv path' r Hp' Hr) as [? Hnin].
  split; [done|]. intros ->. apply Hnin, list_elem_of_here.
Qed.

Lemma install_entry path' r j :
  tpath path' → index j → tbl m root path' = Some r →
  entry m2 r j = if decide (path' = path ∧ j = i) then e else entry m r j.
Proof.
  intros Hp' Hj Hr. destruct install_tpath as [Htp _].
  destruct (install_table _ _ Hp' Hr) as [Hrp Hrq].
  destruct (install_table _ _ Htp Hpath) as [Hpp Hpq].
  case_decide as Hd.
  - destruct Hd as [-> ->]. rewrite Hpath in Hr. simplify_eq. apply rd_insert.
  - unfold m2. rewrite entry_insert_ne; [by apply (entry_same_outside q)|done..|].
    intros [= -> ->]. apply Hd. split; [|done]. by eapply pi_inj.
Qed.

Lemma install_entry_new j : index j → entry m2 q j = 0.
Proof.
  intros Hj. destruct install_tpath as [Htp _].
  destruct (install_table _ _ Htp Hpath) as [Hpp Hpq].
  unfold m2. rewrite entry_insert_ne; [|done..|]; [by apply Hzero|].
  intros [= -> ->]. done.
Qed.

Lemma install_tbl path' :
  tpath path' →
  tbl m2 root path' = if decide (path' = path ++ [i]) then Some q else tbl m root path'.
Proof.
  induction path' as [|j path' IH] using rev_ind; intros Htp.
  { rewrite decide_False; [done|]. by destruct path. }
  assert (tpath path' ∧ index j) as [Htp' Hj].
  { destruct Htp as [Hl Hf]. rewrite length_app in Hl. simpl in Hl.
    apply Forall_app in Hf as [? Hf]. rewrite Forall_singleton in Hf.
    split; [split; [lia|done]|done]. }
  rewrite !tbl_app, IH by done. destruct (decide (path' = path ++ [i])) as [->|Hne].
  - rewrite decide_False by (intros Heq; apply (f_equal length) in Heq;
      rewrite !length_app in Heq; simpl in Heq; lia).
    simpl. unfold child at 1. rewrite install_entry_new by done. simpl.
    rewrite tbl_app, Hpath. simpl. by rewrite Hempty.
  - destruct (tbl m root path') as [r|] eqn:Hr; simpl.
    + unfold child at 1. rewrite (install_entry path') by done.
      destruct (decide (path' = path ∧ j = i)) as [[-> ->]|Hd].
      * rewrite decide_True by done. by rewrite Hvalid, Hq.
      * rewrite decide_False; [done|]. intros [? [= ->]]%app_inj_2; [by apply Hd|done].
    + rewrite decide_False; [done|]. intros [-> _]%app_inj_2; [congruence|done].
Qed.

Lemma install_xlate va : xlate m2 root va = xlate m root va.
Proof.
  unfold xlate, leaf. case_match; [done|]. pose proof (tpath_va va) as Htp.
  rewrite install_tbl by done. case_decide as Hd.
  - rewrite Hd, tbl_app, Hpath. simpl. rewrite Hempty.
    by rewrite install_entry_new by (apply PX_range; lia).
  - destruct (tbl m root (vpath va)) as [r|] eqn:Hr; [simpl|done].
    rewrite (install_entry _ _ _ Htp) by (try done; apply PX_range; lia).
    rewrite decide_False; [done|]. intros [Heq _]. rewrite <- Heq in Hlen. simpl in Hlen. lia.
Qed.

Lemma install_inv : NoDup (q :: F) → pt_inv m2 root F.
Proof.
  intros Hnd. apply NoDup_cons in Hnd as [HqF _]. constructor.
  - intros path' r Htp. rewrite install_tbl by done. case_decide; intros Hr.
    + by simplify_eq.
    + destruct (pi_page _ _ _ Hinv _ _ Htp Hr). set_solver.
  - intros path1 path2 r Ht1 Ht2. rewrite !install_tbl by done.
    repeat case_decide; intros Ha Hb; [congruence|..|by eapply pi_inj].
    + destruct (install_table path2 r) as [_ ?]; congruence.
    + destruct (install_table path1 r) as [_ ?]; congruence.
Qed.

Lemma install_shaped : points e = true → shaped m root → shaped m2 root.
Proof.
  intros He Hs path' r j Htp Hj. rewrite install_tbl by done. case_decide as Hd.
  - intros [= <-]. by rewrite install_entry_new.
  - intros Hr. rewrite (install_entry path') by done. case_decide as Hc; [|by apply Hs].
    destruct Hc as [-> _]. intros _. rewrite He. symmetry. apply Nat.ltb_lt. lia.
Qed.
End Install.
End Tree.

(** ** Walking and extending the tree *)

Section Walk.
Context {L : Layout} {LO : LayoutOk L}.

(** [m'], with free pages [F'], has the tables of [m] under [root] plus new
    ones taken from the free pages [F]; no other word has changed. *)
Record grows (root : Z) (m : gmap Z Z) (F : list Z) (m' : gmap Z Z) (F' : list Z) : Prop := {
  gr_inv : pt_inv m' root F';
  gr_tbl : ∀ path p, tpath path → tbl m root path = Some p → tbl m' root path = Some p;
  gr_new : ∀ path p, tpath path → tbl m' root path = Some p →
    tbl m root path = Some p ∨ p ∈ F;
  gr_free : ∀ p, p ∈ F' → p ∈ F;
  gr_used : ∀ p, p ∈ F → p ∈ F' ∨ ∃ path, tpath path ∧ tbl m' root path = Some p;
  gr_frame : ∀ a, (∀ p, p ∈ F → ¬ in_page p a) →
    (∀ path p, tpath path → tbl m root path = Some p → ¬ in_page p a) →
    rd m' a = rd m a }.

Lemma grows_refl root m F : pt_inv m root F → grows root m F m F.
Proof. intros Hinv. constructor; auto. Qed.

Lemma grows_trans root m F m1 F1 m2 F2 :
  grows root m F m1 F1 → grows root m1 F1 m2 F2 → grows root m F m2 F2.
Proof.
  intros [? Ht1 Hn1 Hf1 Hu1 Hr1] [? Ht2 Hn2 Hf2 Hu2 Hr2]. constructor; auto.
  - intros path p Hp Hm2. destruct (Hn2 path p Hp Hm2) as [?|?]; eauto.
  - intros p Hp. destruct (Hu1 p Hp) as [Hp1|(path & Htp & Hpath)]; [by apply Hu2|]. right. eauto.
  - intros a HF HT. rewrite Hr2; [by apply Hr1|eauto|].
    intros path p Hp Hm1. destruct (Hn1 path p Hp Hm1) as [?|?]; eauto.
Qed.

(** The tree grows and every translation stays. *)
Record extends (root : Z) (m : gmap Z Z) (F : list Z) (m' : gmap Z Z) (F' : list Z) : Prop := {
  ex_grows : grows root m F m' F';
  ex_xlate : ∀ va, xlate m' root va = xlate m root va;
  ex_shaped : shaped m root → shaped m' root }.

Lemma extends_refl root m F : pt_inv m root F → extends root m F m F.
Proof. intros Hinv. constructor; auto using grows_refl. Qed.

Lemma extends_trans root m F m1 F1 m2 F2 :
  extends root m F m1 F1 → extends root m1 F1 m2 F2 → extends root m F m2 F2.
Proof.
  intros [? Hx1 Hs1] [? Hx2 Hs2]. constructor; [by eapply grows_trans| |by auto].
  intros va. by rewrite Hx2.
Qed.

Lemma install_extends root m m1 path p i q e F :
  pt_inv m root (q :: F) → NoDup (q :: F) → is_page q →
  (length path <= 1)%nat → Forall index path → index i →
  tbl m root path = Some p → child m p i = None →
  zero_page m1 q → same_outside q m m1 → PTE_VALID e = true → PTE2PA e = q → points e = true →
  extends root m (q :: F) (<[p + 8 * i := e]> m1) F ∧
  ∀ path', tpath path' → tbl (<[p + 8 * i := e]> m1) root path' =
    if decide (path' = path ++ [i]) then Some q else tbl m root path'.
Proof.
  intros Hinv Hnd Hqp Hlen Hidx Hi Hpath Hemp Hz Ho Hv Hq Hpt.
  assert (∀ path', tpath path' → tbl (<[p + 8 * i := e]> m1) root path' =
    if decide (path' = path ++ [i]) then Some q else tbl m root path') as Htbl
    by by apply (install_tbl m m1 root F path p i q e).
  split; [|done].
  constructor; [|by apply (install_xlate m m1 root F path p i q e)|by apply (install_shaped m m1 root F path p i q e)].
  constructor.
  - by apply (install_inv m m1 root F path p i q e).
  - intros path' r Hp' Hr. rewrite Htbl by done. rewrite decide_False; [done|].
    intros ->. rewrite tbl_app, Hpath in Hr. simpl in Hr. congruence.
  - intros path' r Hp'. rewrite Htbl by done. case_decide; intros ?; simplify_eq; [|by left].
    right. apply list_elem_of_here.
  - intros. by apply list_elem_of_further.
  - intros r [->|Hr]%elem_of_cons; [right|by left]. exists (path ++ [i]).
    assert (tpath (path ++ [i])) by (apply install_tpath; done || lia).
    split; [done|]. by rewrite Htbl, decide_True.
  - intros a HF HT. rewrite rd_insert_ne.
    + apply Ho, HF, list_elem_of_here.
    + intros <-. apply (HT path p); [by split; [lia|]|done|].
      unfold in_page, index in *. lia.
Qed.

(** One level of [walk_down]: [k] is what follows in the next table. *)
Lemma wp_descend root path p i alloc (k : Z → K mm_state Z) l Q H s :
  freelist s l → pt_inv (mem s) root l →
  (length path <= 1)%nat → Forall index path → index i →
  tbl (mem s) root path = Some p →
  (∀ q, tbl (mem s) root (path ++ [i]) = Some q → wp (k q) Q H s) →
  (tbl (mem s) root (path ++ [i]) = None → (alloc = false ∨ l = []) → Q 0 s) →
  (∀ q l' s', tbl (mem s) root (path ++ [i]) = None → alloc = true → l = q :: l' →
     freelist s' l' → heap_current s' = heap_current s →
     extends root (mem s) l (mem s') l' →
     (∀ path', tpath path' → tbl (mem s') root path' =
        if decide (path' = path ++ [i]) then Some q else tbl (mem s) root path') →
     wp (k q) Q H s') →
  wp (let* e := load (pte_addr p i) in
      if PTE_VALID e then k (PTE2PA e)
      else if negb alloc then ret 0
      else let* page := alloc_page in
           if page =? 0 then ret 0
           else store (pte_addr p i) (Z.lor (PA2PTE page) PTE_V) ;; k page) Q H s.
Proof.
  intros Hfl Hinv Hlen Hidx Hi Hpath Hk H0 Hnew.
  destruct (pi_page _ _ _ Hinv path p) as [Hp _]; [by split; [lia|]|done|].
  destruct (entry_addr p i Hp Hi) as [-> Hram].
  rewrite tbl_app, Hpath in *. simpl in *.
  pose proof (eq_refl (child (mem s) p i)) as Hc. unfold child in Hc at 2.
  apply wp_bind, wp_load; [done|]. fold (entry (mem s) p i).
  destruct (PTE_VALID (entry (mem s) p i)) eqn:Hv; [by apply Hk|].
  destruct alloc; simpl; [|wp_steps; auto]. wp_steps.
  destruct l as [|q l]; [apply wp_alloc_page_empty; [done|]; simpl; wp_steps; auto|].
  apply (wp_alloc_page _ q l); [done|]. intros s' Hfl' Hh Hz Ho.
  destruct (freelist_cons _ _ _ Hfl) as (_ & Hq & _ & Hnd & _).
  rewrite (proj2 (Z.eqb_neq _ _)) by eauto with pages. wp_steps.
  apply wp_store; [done|].
  destruct (install_extends root (mem s) (mem s') path p i q
    (Z.lor (PA2PTE q) PTE_V) l) as [Hex Htbl]; try done.
  { apply PTE_VALID_lor. }
  { apply PTE2PA_table; [|apply Hq]. apply (is_page_u64 q); eauto with pages. }
  { apply points_table. }
  apply (Hnew q l); try done.
  apply freelist_frame; [|done]. intros r Hr. apply rd_insert_ne. intros <-.
  pose proof (fl_pages _ _ Hfl') as Hall. rewrite Forall_forall in Hall.
  destruct (pi_page _ _ _ Hinv path p) as [_ Hnin]; [by split; [lia|]|done|].
  apply (pages_disjoint p (p + 8 * i) (p + 8 * i)); eauto with pages.
  - intros Heq. apply Hnin, list_elem_of_further. by rewrite Heq.
  - unfold in_page, index in *. lia.
Qed.

(** What [walk] promises: it only extends the tree, keeps everything when it
    may not allocate or need not, uses at most two pages, and returns the
    address of the leaf entry for [va], or NULL when there is no leaf table
    (having used up the free pages, if it may allocate). *)
Record walked (alloc : bool) (root va : Z) (s : mm_state) (l : list Z)
    (a : Z) (s' : mm_state) (l' : list Z) : Prop := {
  wk_free : freelist s' l';
  wk_ext : extends root (mem s) l (mem s') l';
  wk_heap : heap_current s' = heap_current s;
  wk_keep : alloc = false ∨ is_Some (tbl (mem s) root (vpath va)) → s' = s ∧ l' = l;
  wk_cost : (length l <= length l' + 2)%nat;
  wk_result :
    (a = 0 ∧ tbl (mem s') root (vpath va) = None ∧ (alloc = true → l' = [])) ∨
    (∃ t, tbl (mem s') root (vpath va) = Some t ∧ a = t + 8 * PX 0 va) }.

(** The last level: the table of the second level is known. *)
Lemma wp_walk_low root q va alloc l Q H s :
  freelist s l → pt_inv (mem s) root l →
  tbl (mem s) root [PX 2 va] = Some q →
  (∀ a s' l', walked alloc root va s l a s' l' → (length l <= length l' + 1)%nat → Q a s') →
  wp (walk_down 1 q va alloc) Q H s.
Proof.
  intros Hfl Hinv Hq HQ.
  pose proof (PX_range 0 va ltac:(lia)) as Hi0. pose proof (PX_range 1 va ltac:(lia)) as Hi1.
  pose proof (PX_range 2 va ltac:(lia)) as Hi2. pose proof (tpath_va va) as Htp.
  assert (∀ t s' l', freelist s' l' → pt_inv (mem s') root l' →
    tbl (mem s') root (vpath va) = Some t → pte_addr t (PX 0 va) = t + 8 * PX 0 va) as Haddr.
  { intros t s' l' _ Hinv' Ht. apply entry_addr; [|done].
    by apply (pi_page _ _ _ Hinv' (vpath va)). }
  apply (wp_descend root [PX 2 va] q (PX 1 va) alloc (λ t, walk_down 0 t va alloc) l);
    simpl app; try done.
  - by apply Forall_singleton.
  - intros t Ht. simpl. wp_steps. erewrite Haddr by done. apply (HQ _ s l); [|lia].
    constructor; eauto using extends_refl; lia.
  - intros Hnone Hwhy. apply (HQ _ s l); [|lia].
    constructor; eauto using extends_refl; [lia|]. left. split_and!; [done..|].
    by destruct Hwhy as [->| ->].
  - intros t l' s' Hnone -> -> Hfl' Hh Hex Htbl. simpl. wp_steps.
    assert (tbl (mem s') root (vpath va) = Some t) as Ht by (by rewrite Htbl, decide_True).
    erewrite Haddr by eauto using gr_inv, ex_grows. apply (HQ _ s' l'); [|simpl; lia].
    constructor; eauto; [|simpl; lia].
    intros [?|[? ?]]; [done|unfold vpath in *; congruence].
Qed.

Lemma wp_walk root va alloc l Q H s :
  freelist s l → pt_inv (mem s) root l → 0 <= va < MAXVA →
  (∀ a s' l', walked alloc root va s l a s' l' → Q a s') →
  wp (walk root va alloc) Q H s.
Proof.
  intros Hfl Hinv Hva HQ. unfold walk. rewrite (proj2 (Z.leb_gt _ _)) by lia.
  pose proof (PX_range 2 va ltac:(lia)) as Hi2.
  apply (wp_descend root [] root (PX 2 va) alloc (λ t, walk_down 1 t va alloc) l);
    simpl app; try done; [simpl; lia|..].
  - intros q Hq. apply (wp_walk_low root q va alloc l); [done..|]. intros a s' l' Hw _.
    by apply (HQ a s' l').
  - intros Hnone Hwhy. apply (HQ _ s l).
    constructor; eauto using extends_refl; [lia|]. left. split_and!; [done| |].
    + simpl in *. destruct (child (mem s) root (PX 2 va)); done.
    + by destruct Hwhy as [->| ->].
  - intros q l' s1 Hnone -> -> Hfl1 Hh1 Hex1 Htbl1.
    assert (tpath [PX 2 va]) as Htp by (split; [simpl; lia|by apply Forall_singleton]).
    apply (wp_walk_low root q va true l');
      [done|by eapply gr_inv, ex_grows|by rewrite Htbl1, decide_True|].
    intros a s' l2 [Hfl2 Hex2 Hh2 Hk2 Hc2 Hr2] Hc. apply (HQ a s' l2).
    constructor; eauto using extends_trans; [congruence| |simpl in *; lia].
    intros [?|[t Ht]]; [done|]. simpl in *.
    destruct (child (mem s) root (PX 2 va)); simplify_eq/=.
Qed.
End Walk.
