(* ===== verification/Mapping.v ===== *)
(** Mapping, unmapping and translating: what [mappages], [unmappages],
    [walkaddr] and [va2pa] do to the translation a page table defines. *)

From Stdlib Require Import String.
From S2P Require Import Prelude Machine Uart Printf Mm Vm PageTable.
Local Open Scope Z_scope.

(** The entry [mappages] writes. *)
Definition mk_pte (pa perm : Z) : Z := Z.lor (Z.lor (PA2PTE pa) (u64 perm)) PTE_V.

(** Page numbers: the indices of the page [4096 * v]. *)
Lemma vpath_page v : vpath (4096 * v) = [v / 262144 mod 512; v / 512 mod 512].
Proof.
  unfold vpath. rewrite !PX_eq by lia.
  change (2 ^ (12 + 9 * 2)) with (4096 * 262144). change (2 ^ (12 + 9 * 1)) with (4096 * 512).
  by rewrite !Z.div_mul_cancel_l by lia.
Qed.

Lemma vpath_same v v' : v / 512 = v' / 512 → vpath (4096 * v) = vpath (4096 * v').
Proof.
  intros Heq. rewrite !vpath_page. change 262144 with (512 * 512).
  rewrite <- !Z.div_div by lia. by rewrite Heq.
Qed.

Section Leaf.
Context {L : Layout} {LO : LayoutOk L}.

Section SetLeaf.
Context (s : mm_state) (root va t e : Z) (l : list Z).
Hypothesis Hva : 0 <= va < MAXVA.
Hypothesis Hinv : pt_inv (mem s) root l.
Hypothesis Ht : tbl (mem s) root (vpath va) = Some t.

Context (m' : gmap Z Z).
Hypothesis Hm' : m' = <[t + 8 * PX 0 va := e]> (mem s).

Lemma leaf_page : is_page t ∧ (t ∉ l) ∧ index (PX 0 va) ∧ in_page t (t + 8 * PX 0 va).
Proof using Hinv Ht.
  destruct (pi_page _ _ _ Hinv (vpath va) t (tpath_va va) Ht).
  pose proof (PX_range 0 va ltac:(lia)). unfold in_page, index.
  split_and!; try done; lia.
Qed.

Lemma set_leaf_entry path r j :
  tpath path → index j → tbl (mem s) root path = Some r →
  entry m' r j = if decide (path = vpath va ∧ j = PX 0 va) then e else entry (mem s) r j.
Proof using Hinv Ht LO Hm'.
  intros Hp Hj Hr. destruct leaf_page as (Htp & _ & Hi & _).
  destruct (pi_page _ _ _ Hinv path r Hp Hr) as [Hrp _]. case_decide as Hd.
  - destruct Hd as [-> Heq]. subst j.
    assert (r = t) as -> by congruence. rewrite Hm'. apply rd_insert.
  - rewrite Hm'. apply entry_insert_ne; [done..|]. intros [= Heq <-]. apply Hd. split; [|done].
    rewrite <- Heq in Hr. exact (pi_inj _ _ _ Hinv path (vpath va) t Hp (tpath_va va) Hr Ht).
Qed.

Lemma set_leaf_tbl path : tpath path → tbl m' root path = tbl (mem s) root path.
Proof using Hinv Ht LO Hm'.
  apply tbl_agree. intros path' r j Hl Hf Hj Hr.
  rewrite (set_leaf_entry path') by first [done|split; [lia|done]].
  rewrite decide_False; [done|]. intros [-> _]. simpl in Hl. lia.
Qed.

Lemma set_leaf_xlate va' :
  0 <= va' →
  xlate m' root va' =
    if (va' / 4096 =? va / 4096) then (if PTE_VALID e then Some e else None)
    else xlate (mem s) root va'.
Proof using Hva Hinv Ht LO Hm'.
  intros Hva'. unfold xlate, leaf.
  destruct (Z.leb_spec MAXVA va') as [Hbig|Hsmall].
  { rewrite (proj2 (Z.eqb_neq _ _)); [done|].
    change MAXVA with (4096 * 67108864) in *. Z.div_mod_to_equations; lia. }
  rewrite set_leaf_tbl by apply tpath_va.
  destruct (Z.eqb_spec (va' / 4096) (va / 4096)) as [Heq|Hne].
  - assert (vpath va' = vpath va ∧ PX 0 va' = PX 0 va) as [-> ->].
    { unfold vpath. rewrite <- !(PX_page _ va'), <- !(PX_page _ va) by lia.
      by rewrite Heq. }
    rewrite Ht. simpl.
    rewrite (set_leaf_entry (vpath va)) by first [apply tpath_va|apply PX_range; lia|assumption].
    by rewrite decide_True.
  - destruct (tbl (mem s) root (vpath va')) as [r|] eqn:Hr; [simpl|done].
    rewrite (set_leaf_entry (vpath va')) by first [apply tpath_va|apply PX_range; lia|assumption].
    rewrite decide_False; [done|]. intros [[= H2 H1] H0]. apply Hne. by apply PX_inj.
Qed.

Lemma set_leaf_grows : grows root (mem s) l m' l.
Proof using Hinv Ht LO Hm'.
  constructor.
  - constructor.
    + intros path r Hp. rewrite set_leaf_tbl by done. by apply pi_page.
    + intros path path' r Hp Hp'. rewrite !set_leaf_tbl by done. by eapply pi_inj.
  - intros path r Hp. by rewrite set_leaf_tbl.
  - intros path r Hp. rewrite set_leaf_tbl by done. by left.
  - done.
  - by left.
  - intros b _ Hb. rewrite Hm'. apply rd_insert_ne. intros <-. destruct leaf_page as (_ & _ & _ & Hin).
    by apply (Hb (vpath va) t); [apply tpath_va|..].
Qed.

Lemma set_leaf_shaped : points e = false → shaped (mem s) root → shaped m' root.
Proof using Hinv Ht LO Hm'.
  intros He Hs path r j Hp Hj. rewrite set_leaf_tbl by done. intros Hr.
  rewrite (set_leaf_entry path) by done. case_decide as Hd; [|by apply Hs]. by destruct Hd as [-> _].
Qed.

Lemma set_leaf_freelist : freelist s l → freelist (set_mem m' s) l.
Proof using Hinv Ht LO Hm'.
  intros Hfl. apply freelist_frame; [|done]. intros r Hr.
  rewrite Hm'. apply rd_insert_ne. intros <-.
  destruct leaf_page as (Htp & Hnin & _ & Hin).
  pose proof (fl_pages _ _ Hfl) as Hall. rewrite Forall_forall in Hall.
  apply (pages_disjoint t (t + 8 * PX 0 va) (t + 8 * PX 0 va)); eauto with pages. intros Heq. apply Hnin. by rewrite Heq.
Qed.
End SetLeaf.
End Leaf.

(** ** [mappages] *)

Section MapPages.
Context {L : Layout} {LO : LayoutOk L}.

(** From [s] to [s'] the [n] pages from page number [v], none of which was
    mapped, have been mapped to the frames from [pa]; every other translation is as
    before. *)
Record mapped (root v n pa perm : Z) (s : mm_state) (l : list Z)
    (s' : mm_state) (l' : list Z) : Prop := {
  md_free : freelist s' l';
  md_grows : grows root (mem s) l (mem s') l';
  md_heap : heap_current s' = heap_current s;
  md_xlate : ∀ va, 0 <= va →
    xlate (mem s') root va =
      if (v <=? va / 4096) && (va / 4096 <? v + n)
      then Some (mk_pte (pa + 4096 * (va / 4096 - v)) perm)
      else xlate (mem s) root va;
  md_shaped : points (u64 perm) = false → shaped (mem s) root → shaped (mem s') root;
  md_fresh : ∀ va, 0 <= va → v <= va / 4096 < v + n → xlate (mem s) root va = None }.

(** Pages a mapping of [v .. v + k] can use up: two for each 2 MiB region it
    touches, none for the first if its leaf table exists. *)
Definition map_cost (m : gmap Z Z) (root v k : Z) : Z :=
  2 * ((v + k) / 512 - v / 512) +
  match tbl m root (vpath (4096 * v)) with Some _ => 0 | None => 2 end.

Lemma map_cost_nonneg m root v k : 0 <= k → 0 <= map_cost m root v k.
Proof.
  intros Hk. unfold map_cost.
  assert (v / 512 <= (v + k) / 512) by (apply Z.div_le_mono; lia).
  destruct (tbl _ _ _); lia.
Qed.

Lemma map_cost_next m root v k t :
  0 <= k → tbl m root (vpath (4096 * v)) = Some t →
  map_cost m root (v + 1) k <= 2 * ((v + (k + 1)) / 512 - v / 512).
Proof.
  intros Hk Ht. unfold map_cost. replace (v + 1 + k) with (v + (k + 1)) by lia.
  destruct (decide ((v + 1) / 512 = v / 512)) as [Heq|Hne].
  - rewrite (vpath_same _ _ Heq), Ht, Heq. lia.
  - assert ((v + 1) / 512 = v / 512 + 1) as -> by (Z.div_mod_to_equations; lia).
    clear Ht. destruct (tbl _ _ _); lia.
Qed.

(** The range already had a mapped page. *)
Definition remapped (root v k : Z) (s : mm_state) : Prop :=
  ∃ va, 0 <= va ∧ v <= va / 4096 <= v + k ∧ is_Some (xlate (mem s) root va).

Lemma page_number v : 4096 * v / 4096 = v.
Proof. rewrite Z.mul_comm. by apply Z.div_mul. Qed.

(** A translation depends on the page only, and is its leaf entry if that is valid. *)
Lemma xlate_page m root va va' :
  0 <= va → 0 <= va' → va / 4096 = va' / 4096 → xlate m root va = xlate m root va'.
Proof.
  intros Hva Hva' Heq. unfold xlate, leaf, vpath.
  rewrite <- !(PX_page _ va), <- !(PX_page _ va'), Heq by lia.
  change MAXVA with (4096 * 67108864).
  destruct (Z.leb_spec (4096 * 67108864) va), (Z.leb_spec (4096 * 67108864) va'); (done || (Z.div_mod_to_equations; lia)).
Qed.

Lemma xlate_entry m root va t :
  va < MAXVA → tbl m root (vpath va) = Some t →
  xlate m root va = if PTE_VALID (rd m (t + 8 * PX 0 va)) then Some (rd m (t + 8 * PX 0 va)) else None.
Proof. intros Hmax Ht. unfold xlate, leaf. rewrite (proj2 (Z.leb_gt _ _)), Ht by done. done. Qed.

Lemma mapped_one root v pa perm s l s1 l1 t :
  0 <= v → 4096 * v < MAXVA →
  walked true root (4096 * v) s l (t + 8 * PX 0 (4096 * v)) s1 l1 →
  tbl (mem s1) root (vpath (4096 * v)) = Some t →
  PTE_VALID (rd (mem s1) (t + 8 * PX 0 (4096 * v))) = false →
  mapped root v 1 pa perm s l
    (set_mem (<[t + 8 * PX 0 (4096 * v) := mk_pte pa perm]> (mem s1)) s1) l1.
Proof.
  intros Hv Hmax [Hfl [Hgr Hx Hsh] Hh _ _ _] Ht Hnv.
  pose proof (gr_inv _ _ _ _ _ Hgr) as Hinv.
  set (m' := <[_ := _]> _). pose proof (eq_refl m') as Hm'. unfold m' in Hm' at 2.
  clearbody m'. constructor.
  - eapply set_leaf_freelist; eauto.
  - eapply grows_trans; [exact Hgr|]. eapply set_leaf_grows; eauto.
  - done.
  - intros va Hva. cbn [mem set_mem].
    rewrite (set_leaf_xlate s1 root (4096 * v) t (mk_pte pa perm) l1) by (auto; lia).
    unfold mk_pte at 1. rewrite PTE_VALID_lor, page_number, Hx.
    destruct (Z.eqb_spec (va / 4096) v) as [->|Hne].
    + rewrite (proj2 (Z.leb_le _ _)), (proj2 (Z.ltb_lt _ _)) by lia. simpl.
      by replace (pa + 4096 * (v - v)) with pa by lia.
    + destruct (Z.leb_spec v (va / 4096)), (Z.ltb_spec (va / 4096) (v + 1)); done || lia.
  - intros Hp Hs. apply (set_leaf_shaped s1 root (4096 * v) t (mk_pte pa perm) l1); auto.
    unfold mk_pte. by rewrite points_pte.
  - intros va Hva Hin. rewrite <- Hx, (xlate_page (mem s1) root va (4096 * v)) by (rewrite ?page_number; lia).
    rewrite (xlate_entry _ _ _ t) by done. by rewrite Hnv.
Qed.

Lemma mapped_trans root v n pa perm s l s1 l1 s2 l2 :
  0 <= n →
  mapped root v 1 pa perm s l s1 l1 →
  mapped root (v + 1) n (pa + 4096) perm s1 l1 s2 l2 →
  mapped root v (n + 1) pa perm s l s2 l2.
Proof.
  intros Hn [_ Hg1 Hh1 Hx1 Hs1 Hn1] [Hf2 Hg2 Hh2 Hx2 Hs2 Hn2].
  constructor; [done|by eapply grows_trans|congruence| |by auto|].
  2:{ intros va Hva Hin. destruct (decide (va / 4096 = v)) as [<-|Hne]; [apply Hn1; lia|].
      specialize (Hn2 va Hva ltac:(lia)). rewrite Hx1 in Hn2 by done.
      destruct (Z.leb_spec v (va / 4096)), (Z.ltb_spec (va / 4096) (v + 1)); simpl in Hn2; done || lia. }
  intros va Hva. rewrite Hx2, Hx1 by done.
  destruct (Z.leb_spec (v + 1) (va / 4096)), (Z.ltb_spec (va / 4096) (v + 1 + n)),
    (Z.leb_spec v (va / 4096)), (Z.ltb_spec (va / 4096) (v + 1)),
    (Z.ltb_spec (va / 4096) (v + (n + 1))); simpl; try lia; try done.
  do 2 f_equal. lia.
Qed.

Lemma mapped_none root v pa perm s l s1 l1 a :
  walked true root (4096 * v) s l a s1 l1 → mapped root v 0 pa perm s l s1 l1.
Proof.
  intros [Hfl [Hgr Hx Hsh] Hh _ _ _]. constructor; try done; [|lia]. intros va Hva. rewrite Hx.
  destruct (Z.leb_spec v (va / 4096)), (Z.ltb_spec (va / 4096) (v + 0)); done || lia.
Qed.

Lemma mapped_not_remapped root v k pa perm s l s' l' :
  mapped root v (k + 1) pa perm s l s' l' → ¬ remapped root v k s.
Proof.
  intros Hm (va & Hva & Hin & Hs). rewrite (md_fresh _ _ _ _ _ _ _ _ _ Hm va Hva) in Hs by lia. by destruct Hs.
Qed.

(** What the loop leaves: all [k + 1] pages mapped, or a prefix mapped and no
    page left to allocate for the leaf table that the next page lacks. *)
Definition map_post root v k pa perm s l (r : Z) (s' : mm_state) : Prop :=
  ∃ l' n, mapped root v n pa perm s l s' l' ∧
    Z.of_nat (length l) <= Z.of_nat (length l') + map_cost (mem s) root v k ∧
    ((r = 0 ∧ n = k + 1) ∨
     (r = -1 ∧ (0 <= n <= k ∧ tbl (mem s') root (vpath (4096 * (v + n))) = None) ∧ l' = [])).

(** One round of the loop; [rest] is what follows the store. *)
Lemma wp_map_step root v k pa perm l s (rest : K mm_state Z) :
  freelist s l → pt_inv (mem s) root l → 0 <= v → 0 <= k → 4096 * (v + k) < MAXVA →
  (∀ l1 s1, mapped root v 1 pa perm s l s1 l1 →
     Z.of_nat (length l) <= Z.of_nat (length l1) +
       match tbl (mem s) root (vpath (4096 * v)) with Some _ => 0 | None => 2 end →
     is_Some (tbl (mem s1) root (vpath (4096 * v))) →
     wp rest (map_post root v k pa perm s l) (λ _, remapped root v k s) s1) →
  wp (let* pte := walk root (4096 * v) true in
      if pte =? 0 then ret (-1)
      else
        let* e := load pte in
        if PTE_VALID e then panic (lit "mappages: remap")
        else store pte (Z.lor (Z.lor (PA2PTE pa) (u64 perm)) PTE_V) ;; rest)
    (map_post root v k pa perm s l) (λ _, remapped root v k s) s.
Proof.
  intros Hfl Hinv Hv Hk Hmax Hrest.
  apply wp_bind, (wp_walk root (4096 * v) true l); [done|done|lia|].
  intros a s1 l1 Hw.
  assert (Z.of_nat (length l) <= Z.of_nat (length l1) +
    match tbl (mem s) root (vpath (4096 * v)) with Some _ => 0 | None => 2 end) as Hcost.
  { pose proof (wk_cost _ _ _ _ _ _ _ _ Hw). pose proof (wk_keep _ _ _ _ _ _ _ _ Hw) as Hkeep.
    destruct (tbl (mem s) root (vpath (4096 * v))); [|lia].
    destruct Hkeep as [_ ->]; [by right|lia]. }
  destruct (wk_result _ _ _ _ _ _ _ _ Hw) as [(-> & Hnone & Hl1)|(t & Ht & ->)].
  - apply wp_ret. exists l1, 0. split_and!; [by eapply mapped_none| |].
    + unfold map_cost. assert (v / 512 <= (v + k) / 512) by (apply Z.div_le_mono; lia). lia.
    + right. rewrite Z.add_0_r. split_and!; auto; lia.
  - pose proof (gr_inv _ _ _ _ _ (ex_grows _ _ _ _ _ (wk_ext _ _ _ _ _ _ _ _ Hw))) as Hinv1.
    destruct (leaf_page s1 root (4096 * v) t l1 Hinv1 Ht) as (Htp & _ & Hi & _).
    destruct (entry_addr t _ Htp Hi) as [_ Hram]. pose proof (is_page_nonzero t Htp).
    rewrite (proj2 (Z.eqb_neq _ _)) by (apply ram_word_true in Hram; unfold RAM_BASE in Hram; lia).
    apply wp_bind, wp_load; [done|]. destruct (PTE_VALID _) eqn:Hv1.
    + apply wp_panic; [done|]. exists (4096 * v). rewrite page_number. split_and!; [lia..|].
      rewrite <- (ex_xlate _ _ _ _ _ (wk_ext _ _ _ _ _ _ _ _ Hw)).
      rewrite (xlate_entry _ _ _ t) by (done || lia). by rewrite Hv1.
    + apply wp_bind, wp_store; [done|]. apply (Hrest l1); [|done|].
      * apply mapped_one; [lia..|done|done|done].
      * cbn [mem set_mem]. rewrite (set_leaf_tbl s1 root (4096 * v) t (mk_pte pa perm) l1);
          [by rewrite Ht|done..|apply tpath_va].
Qed.

Lemma wp_mappages_loop root perm (k : nat) v pa l s :
  freelist s l → pt_inv (mem s) root l →
  0 <= v → 4096 * (v + Z.of_nat k) < MAXVA →
  0 <= pa → pa + 4096 * Z.of_nat k < 2 ^ 64 →
  wp (mappages_loop (S k) root (4096 * v) (4096 * (v + Z.of_nat k)) pa perm)
    (map_post root v (Z.of_nat k) pa perm s l)
    (λ _, remapped root v (Z.of_nat k) s) s.
Proof.
  revert v pa l s. induction k as [|k IH]; intros v pa l s Hfl Hinv Hv Hmax Hpa Hpa64.
  - change (Z.of_nat 0) with 0 in *. apply (wp_map_step root v 0 pa perm l); [done|done|lia..|].
    intros l1 s1 Hone Hc Ht. rewrite (proj2 (Z.eqb_eq _ _)) by lia. wp_steps.
    exists l1, 1. split_and!; [done| |auto].
    unfold map_cost. rewrite Z.add_0_r, Z.sub_diag. lia.
  - rewrite Nat2Z.inj_succ in *. set (K := Z.of_nat k) in *. unfold Z.succ in *.
    apply (wp_map_step root v (K + 1) pa perm l); [done|done|lia..|].
    intros l1 s1 Hone Hc [t Ht]. rewrite (proj2 (Z.eqb_neq _ _)) by lia.
    change PGSIZE with 4096. change MAXVA with 274877906944 in Hmax.
    rewrite !u64_id by (unfold is_u64; lia).
    replace (4096 * v + 4096) with (4096 * (v + 1)) by lia.
    replace (v + (K + 1)) with (v + 1 + K) by lia.
    pose proof (map_cost_next (mem s1) root v K t ltac:(lia) Ht) as Hnext.
    eapply wp_mono; [apply (IH (v + 1) (pa + 4096) l1 s1)| |].
    + by eapply md_free.
    + by eapply gr_inv, md_grows.
    + lia.
    + change MAXVA with 274877906944. fold K. lia.
    + lia.
    + fold K. lia.
    + intros r s' (l' & n & Hm & Hc' & Hr). fold K in Hc', Hr.
      exists l', (n + 1). split_and!.
      * eapply mapped_trans; [|done..]. lia.
      * replace (v + (K + 1)) with (v + 1 + K) in * by lia.
        unfold map_cost at 1. replace (v + (K + 1)) with (v + 1 + K) by lia. lia.
      * destruct Hr as [[-> ->]|(-> & [? Hst] & ->)]; [left|right]; split_and!; try done; try lia.
        by replace (v + (n + 1)) with (v + 1 + n) by lia.
    + intros _ (va & Hva & Hrange & Hsome). fold K in Hrange.
      exists va. split_and!; [done|lia|lia|].
      rewrite (md_xlate _ _ _ _ _ _ _ _ _ Hone) in Hsome by done.
      destruct (Z.leb_spec v (va / 4096)), (Z.ltb_spec (va / 4096) (v + 1));
        simpl in Hsome; done || lia.
Qed.

(** Number of pages after the first that a byte range touches. *)
Definition span (va size : Z) : Z := (va + size - 1) / 4096 - va / 4096.

Lemma span_nonneg va size : 0 < size → 0 <= span va size.
Proof.
  intros Hs. unfold span.
  assert (va / 4096 <= (va + size - 1) / 4096) by (apply Z.div_le_mono; lia). lia.
Qed.

(** A byte range below [MAXVA] and the frames for it below [2^64]. *)
Definition range_ok (va size pa : Z) : Prop :=
  0 <= va ∧ 0 < size ∧ va + size <= MAXVA ∧ 0 <= pa ∧ pa + 4096 * span va size < 2 ^ 64.

(** The loop bounds of a range that does not wrap. *)
Lemma range_bounds va size :
  0 <= va → 0 < size → va + size <= MAXVA →
  page_down va = 4096 * (va / 4096) ∧
  page_down (u64 (va + size - 1)) = 4096 * (va / 4096 + span va size) ∧
  range_fuel (page_down va) (page_down (u64 (va + size - 1))) = S (Z.to_nat (span va size)).
Proof.
  intros Hva Hsz Hmax. change MAXVA with 274877906944 in Hmax.
  rewrite u64_id by (unfold is_u64; lia). unfold page_down. change PGSIZE with 4096.
  pose proof (span_nonneg va size Hsz) as Hsp.
  assert ((va + size - 1) / 4096 = va / 4096 + span va size) as Heq by (unfold span; lia).
  rewrite Heq. split_and!; [lia..|]. unfold range_fuel. change PGSIZE with 4096.
  rewrite (proj2 (Z.leb_le _ _)) by lia. do 2 f_equal.
  rewrite <- Z.mul_sub_distr_r, Z.div_mul by lia. lia.
Qed.

Lemma wp_mappages root va size pa perm l s :
  freelist s l → pt_inv (mem s) root l → range_ok va size pa →
  wp (mappages root va size pa perm)
    (map_post root (va / 4096) (span va size) pa perm s l)
    (λ _, remapped root (va / 4096) (span va size) s) s.
Proof.
  intros Hfl Hinv (Hva & Hsz & Hmax & Hpa & Hpa64).
  pose proof (span_nonneg va size Hsz) as Hsp.
  destruct (range_bounds va size Hva Hsz Hmax) as (Ha & Hlast & Hfuel).
  unfold mappages. rewrite (proj2 (Z.eqb_neq _ _)) by lia.
  rewrite Hfuel, Ha, Hlast.
  assert (0 <= va / 4096) by (apply Z.div_pos; lia).
  pose proof (wp_mappages_loop root perm (Z.to_nat (span va size)) (va / 4096) pa l s) as Hw.
  rewrite Z2Nat.id in Hw by done. apply Hw; try done.
  unfold span. change MAXVA with 274877906944 in *. Z.div_mod_to_equations; lia.
Qed.

(** *** Termination without any hypothesis on the range *)

(** Rounds left when the loop is at [a]. *)
Definition rounds (a last : Z) : Z :=
  if a <=? last then (last - a) / 4096
  else if MAXVA <=? a then 0 else (MAXVA - a) / 4096.

Lemma rounds_next a last :
  0 <= a < MAXVA → a mod 4096 = 0 → last mod 4096 = 0 → a ≠ last →
  0 <= rounds (a + 4096) last < rounds a last.
Proof.
  intros Ha Hal Hll Hne. unfold rounds. change MAXVA with 274877906944 in *.
  destruct (Z.leb_spec a last), (Z.leb_spec (a + 4096) last),
    (Z.leb_spec 274877906944 (a + 4096)), (Z.leb_spec 274877906944 a);
    Z.div_mod_to_equations; lia.
Qed.

Lemma wp_mappages_loop_total fuel root a last pa perm l s :
  freelist s l → pt_inv (mem s) root l →
  0 <= a → a mod 4096 = 0 → last mod 4096 = 0 → 0 <= rounds a last < Z.of_nat fuel →
  wp (mappages_loop fuel root a last pa perm)
    (λ r s', (r = 0 ∨ r = -1) ∧ ∃ l', freelist s' l' ∧ pt_inv (mem s') root l')
    (λ _, True) s.
Proof.
  revert a pa l s. induction fuel as [|fuel IH]; intros a pa l s Hfl Hinv Ha Hal Hll Hf; [lia|].
  cbn [mappages_loop]. destruct (Z.leb_spec MAXVA a) as [Hbig|Hsmall].
  { unfold walk. rewrite (proj2 (Z.leb_le _ _)) by done. apply wp_bind, wp_ret, wp_ret. split; [auto|eauto]. }
  apply wp_bind, (wp_walk root a true l); [done|done|lia|]. intros x s1 l1 Hw.
  pose proof (gr_inv _ _ _ _ _ (ex_grows _ _ _ _ _ (wk_ext _ _ _ _ _ _ _ _ Hw))) as Hinv1.
  pose proof (wk_free _ _ _ _ _ _ _ _ Hw) as Hfl1.
  destruct (wk_result _ _ _ _ _ _ _ _ Hw) as [(-> & _)|(t & Ht & ->)].
  { apply wp_ret. split; [auto|eauto]. }
  destruct (leaf_page s1 root a t l1 Hinv1 Ht) as (Htp & _ & Hi & _).
  destruct (entry_addr t _ Htp Hi) as [_ Hram].
  rewrite (proj2 (Z.eqb_neq _ _)) by (apply ram_word_true in Hram; unfold RAM_BASE in Hram; lia).
  apply wp_bind, wp_load; [done|]. destruct (PTE_VALID _); [by apply wp_panic|].
  apply wp_bind, wp_store; [done|].
  set (m2 := <[_ := _]> _). pose proof (eq_refl m2) as Hm2. unfold m2 in Hm2 at 2. clearbody m2.
  assert (freelist (set_mem m2 s1) l1) by (eapply set_leaf_freelist; eauto).
  assert (pt_inv m2 root l1) by (eapply gr_inv, set_leaf_grows; eauto).
  destruct (Z.eqb_spec a last) as [->|Hne]; [wp_steps; split; [auto|eauto]|].
  pose proof (rounds_next a last ltac:(lia) Hal Hll Hne).
  change PGSIZE with 4096. rewrite (u64_id (a + 4096))
    by (change MAXVA with 274877906944 in *; unfold is_u64; lia).
  apply (IH _ _ l1); try done; try lia. Z.div_mod_to_equations; lia.
Qed.

Lemma page_down_aligned x : page_down x mod 4096 = 0.
Proof. unfold page_down. change PGSIZE with 4096. by rewrite Z.mod_mul. Qed.

Lemma range_fuel_rounds a last :
  0 <= a → 0 <= rounds a last < Z.of_nat (range_fuel a last).
Proof.
  intros Ha. unfold rounds, range_fuel. change PGSIZE with 4096.
  change MAXVA with 274877906944.
  destruct (Z.leb_spec a last), (Z.leb_spec 274877906944 a);
    rewrite ?Nat2Z.inj_succ; Z.div_mod_to_equations; lia.
Qed.

Lemma wp_mappages_total root va size pa perm l s :
  freelist s l → pt_inv (mem s) root l → is_u64 va →
  wp (mappages root va size pa perm)
    (λ r s', (r = 0 ∨ r = -1) ∧ ∃ l', freelist s' l' ∧ pt_inv (mem s') root l')
    (λ _, True) s.
Proof.
  intros Hfl Hinv Hva. unfold mappages. destruct (size =? 0); [by apply wp_panic|].
  assert (0 <= page_down va)
    by (unfold page_down, is_u64 in *; change PGSIZE with 4096; Z.div_mod_to_equations; lia).
  apply (wp_mappages_loop_total _ _ _ _ _ _ l); auto using page_down_aligned, range_fuel_rounds.
Qed.
End MapPages.

(** ** Reading translations *)

Section Translate.
Context {L : Layout} {LO : LayoutOk L}.

(** [walk] without allocation reads the entry and changes nothing. *)
Lemma wp_walk_read root va l (k : Z → K mm_state Z) Q H s :
  freelist s l → pt_inv (mem s) root l → 0 <= va → va < MAXVA →
  (leaf (mem s) root va = None → wp (k 0) Q H s) →
  (∀ a, ram_word a = true → leaf (mem s) root va = Some (rd (mem s) a) → wp (k a) Q H s) →
  wp (let* pte := walk root va false in k pte) Q H s.
Proof.
  intros Hfl Hinv Hva Hmax H0 Ha. apply wp_bind, (wp_walk root va false l); [done|done|lia|].
  intros a s' l' Hw. destruct (wk_keep _ _ _ _ _ _ _ _ Hw) as [-> ->]; [by left|].
  destruct (wk_result _ _ _ _ _ _ _ _ Hw) as [(-> & Hnone & _)|(t & Ht & ->)].
  - apply H0. unfold leaf. by rewrite Hnone.
  - destruct (leaf_page s root va t l Hinv Ht) as (Htp & _ & Hi & _).
    destruct (entry_addr t _ Htp Hi) as [_ Hram]. apply Ha; [done|].
    unfold leaf. by rewrite Ht.
Qed.

(** Reading the entry found, common to [walkaddr] and [va2pa]. *)
Lemma wp_read_leaf root va l (f : Z → Z) (Q : Z → mm_state → Prop) H s :
  freelist s l → pt_inv (mem s) root l → 0 <= va → va < MAXVA →
  Q (match xlate (mem s) root va with Some e => f e | None => 0 end) s →
  wp (let* pte := walk root va false in
      if pte =? 0 then ret 0
      else let* e := load pte in if PTE_VALID e then ret (f e) else ret 0) Q H s.
Proof.
  intros Hfl Hinv Hva Hmax HQ. unfold xlate in HQ.
  rewrite (proj2 (Z.leb_gt _ _)) in HQ by done.
  apply (wp_walk_read root va l); [done..| |].
  - intros Hnone. rewrite Hnone in HQ. simpl in *. by wp_steps.
  - intros a Hram Ha. rewrite Ha in HQ. simpl in HQ.
    rewrite (proj2 (Z.eqb_neq _ _)) by (apply ram_word_true in Hram; unfold RAM_BASE in Hram; lia).
    apply wp_bind, wp_load; [done|]. by destruct (PTE_VALID _); wp_steps.
Qed.

Lemma wp_walkaddr root va l (Q : Z → mm_state → Prop) H s :
  freelist s l → pt_inv (mem s) root l → 0 <= va →
  Q (match xlate (mem s) root va with Some e => PTE2PA e | None => 0 end) s →
  wp (walkaddr root va) Q H s.
Proof.
  intros Hfl Hinv Hva HQ. unfold walkaddr. destruct (Z.leb_spec MAXVA va) as [Hb|Hs].
  - unfold xlate in HQ. rewrite (proj2 (Z.leb_le _ _)) in HQ by done. by wp_steps.
  - by apply (wp_read_leaf root va l).
Qed.

Lemma wp_va2pa root va l (Q : Z → mm_state → Prop) H s :
  freelist s l → pt_inv (mem s) root l → 0 <= va →
  Q (match xlate (mem s) root va with
     | Some e => u64 (PTE2PA e + va mod 4096) | None => 0 end) s →
  wp (va2pa root va) Q H s.
Proof.
  intros Hfl Hinv Hva HQ. unfold va2pa.
  replace (Z.land va (PGSIZE - 1)) with (va mod 4096)
    by (change (PGSIZE - 1) with (Z.ones 12); by rewrite Z.land_ones).
  destruct (Z.leb_spec MAXVA va) as [Hb|Hs].
  - unfold xlate in HQ. unfold walk. rewrite (proj2 (Z.leb_le _ _)) in HQ by done.
    rewrite (proj2 (Z.leb_le _ _)) by done. wp_steps. simpl. by wp_steps.
  - by apply (wp_read_leaf root va l (λ e, u64 (PTE2PA e + va mod 4096))).
Qed.

Lemma va2pa_run root va l s w :
  freelist s l → pt_inv (mem s) root l → 0 <= va →
  ∃ w', va2pa root va s w =
    Ret (match xlate (mem s) root va with Some e => u64 (PTE2PA e + va mod 4096) | None => 0 end) s w'.
Proof.
  intros Hfl Hinv Hva.
  destruct (wp_run (va2pa root va) (λ r t, t = s ∧
    r = match xlate (mem s) root va with Some e => u64 (PTE2PA e + va mod 4096) | None => 0 end) s w)
    as (r & t & w' & Hrun & -> & ->); [|by eauto].
  by apply (wp_va2pa root va l).
Qed.
End Translate.

(** ** [unmappages] *)

Section UnmapPages.
Context {L : Layout} {LO : LayoutOk L}.

(** From [s] to [s'] the [n] pages from page number [v] have been unmapped;
    tables and free pages are as before. *)
Record unmapped (root v n : Z) (s : mm_state) (l : list Z) (s' : mm_state) : Prop := {
  um_free : freelist s' l;
  um_grows : grows root (mem s) l (mem s') l;
  um_heap : heap_current s' = heap_current s;
  um_xlate : ∀ va, 0 <= va →
    xlate (mem s') root va =
      if (v <=? va / 4096) && (va / 4096 <? v + n) then None
      else xlate (mem s) root va }.

(** Some page of the range is not mapped. *)
Definition hole (root v k : Z) (s : mm_state) : Prop :=
  ∃ j, v <= j <= v + k ∧ xlate (mem s) root (4096 * j) = None.

Lemma wp_unmap_step root v k l s (rest : K mm_state unit) :
  freelist s l → pt_inv (mem s) root l → 0 <= v → 0 <= k → 4096 * (v + k) < MAXVA →
  (∀ s1, unmapped root v 1 s l s1 →
     wp rest (λ _ s', unmapped root v (k + 1) s l s') (λ _, hole root v k s) s1) →
  wp (let* pte := walk root (4096 * v) false in
      let* e := (if pte =? 0 then ret 0 else load pte) in
      if (pte =? 0) || negb (PTE_VALID e) then panic (lit "unmappages: not mapped")
      else store pte 0 ;; rest)
    (λ _ s', unmapped root v (k + 1) s l s') (λ _, hole root v k s) s.
Proof.
  intros Hfl Hinv Hv Hk Hmax Hrest.
  apply wp_bind, (wp_walk root (4096 * v) false l); [done|done|lia|]. intros a s' l' Hw.
  destruct (wk_keep _ _ _ _ _ _ _ _ Hw) as [-> ->]; [by left|].
  assert (xlate (mem s) root (4096 * v) = e ← leaf (mem s) root (4096 * v);
          if PTE_VALID e then Some e else None) as Hx.
  { unfold xlate. by rewrite (proj2 (Z.leb_gt _ _)) by lia. }
  unfold leaf in Hx.
  destruct (wk_result _ _ _ _ _ _ _ _ Hw) as [(-> & Hnone & _)|(t & Ht & ->)].
  - simpl. wp_steps. apply wp_panic; [done|]. exists v. split; [lia|].
    by rewrite Hx, Hnone.
  - rewrite Ht in Hx. simpl in Hx.
    destruct (leaf_page s root (4096 * v) t l Hinv Ht) as (Htp & _ & Hi & _).
    destruct (entry_addr t _ Htp Hi) as [_ Hram].
    rewrite (proj2 (Z.eqb_neq _ _)) by (apply ram_word_true in Hram; unfold RAM_BASE in Hram; lia).
    apply wp_bind, wp_load; [done|]. fold (entry (mem s) t (PX 0 (4096 * v))).
    destruct (PTE_VALID _) eqn:Hv1; simpl.
    + apply wp_bind, wp_store; [done|]. apply Hrest.
      set (m2 := <[_ := _]> _). pose proof (eq_refl m2) as Hm2. unfold m2 in Hm2 at 2.
      clearbody m2. constructor; [by eapply set_leaf_freelist; eauto
        |by eapply set_leaf_grows; eauto|done|].
      intros va Hva. cbn [mem set_mem].
      rewrite (set_leaf_xlate s root (4096 * v) t 0 l) by (auto; lia).
      rewrite PTE_VALID_0, page_number.
      destruct (Z.eqb_spec (va / 4096) v), (Z.leb_spec v (va / 4096)),
        (Z.ltb_spec (va / 4096) (v + 1)); done || lia.
    + apply wp_panic; [done|]. exists v. split; [lia|done].
Qed.

Lemma wp_unmappages_loop root (k : nat) v l s :
  freelist s l → pt_inv (mem s) root l → 0 <= v → 4096 * (v + Z.of_nat k) < MAXVA →
  wp (unmappages_loop (S k) root (4096 * v) (4096 * (v + Z.of_nat k)))
    (λ _ s', unmapped root v (Z.of_nat k + 1) s l s') (λ _, hole root v (Z.of_nat k) s) s.
Proof.
  revert v s. induction k as [|k IH]; intros v s Hfl Hinv Hv Hmax.
  - change (Z.of_nat 0) with 0 in *. apply wp_unmap_step; [done|done|lia..|].
    intros s1 Hone. rewrite (proj2 (Z.eqb_eq _ _)) by lia. by wp_steps.
  - rewrite Nat2Z.inj_succ in *. unfold Z.succ in *. set (K := Z.of_nat k) in *.
    apply wp_unmap_step; [done|done|lia..|]. intros s1 Hone.
    rewrite (proj2 (Z.eqb_neq _ _)) by lia. change PGSIZE with 4096.
    change MAXVA with 274877906944 in Hmax. rewrite u64_id by (unfold is_u64; lia).
    replace (4096 * v + 4096) with (4096 * (v + 1)) by lia.
    replace (v + (K + 1)) with (v + 1 + K) by lia.
    destruct Hone as [Hfl1 Hg1 Hh1 Hx1]. eapply wp_mono; [apply (IH (v + 1) s1)| |].
    + done.
    + by eapply gr_inv.
    + lia.
    + fold K. change MAXVA with 274877906944. lia.
    + intros [] s' [Hfl2 Hg2 Hh2 Hx2].
      constructor; [done|by eapply grows_trans|congruence|]. intros va Hva.
      rewrite Hx2, Hx1 by done. fold K.
      destruct (Z.leb_spec (v + 1) (va / 4096)), (Z.ltb_spec (va / 4096) (v + 1 + (K + 1))),
        (Z.leb_spec v (va / 4096)), (Z.ltb_spec (va / 4096) (v + 1)),
        (Z.ltb_spec (va / 4096) (v + (K + 1 + 1))); done || lia.
    + intros _ (j & Hj & Hnone). fold K in Hj. exists j. split; [lia|].
      rewrite Hx1, page_number in Hnone by lia.
      destruct (Z.leb_spec v j), (Z.ltb_spec j (v + 1)); simpl in Hnone; done || lia.
Qed.

Lemma wp_unmappages root va size l s :
  freelist s l → pt_inv (mem s) root l → 0 <= va → 0 < size → va + size <= MAXVA →
  wp (unmappages root va size)
    (λ _ s', unmapped root (va / 4096) (span va size + 1) s l s')
    (λ _, hole root (va / 4096) (span va size) s) s.
Proof.
  intros Hfl Hinv Hva Hsz Hmax. pose proof (span_nonneg va size Hsz) as Hsp.
  destruct (range_bounds va size Hva Hsz Hmax) as (Ha & Hlast & Hfuel).
  unfold unmappages. rewrite (proj2 (Z.eqb_neq _ _)) by lia. rewrite Hfuel, Ha, Hlast.
  assert (0 <= va / 4096) by (apply Z.div_pos; lia).
  pose proof (wp_unmappages_loop root (Z.to_nat (span va size)) (va / 4096) l s) as Hw.
  rewrite Z2Nat.id in Hw by done. apply Hw; try done.
  unfold span. change MAXVA with 274877906944 in *. Z.div_mod_to_equations; lia.
Qed.
End UnmapPages.

(** ** Several page tables *)

Section Isolation.
Context {L : Layout} {LO : LayoutOk L}.

(** A cleared page is the root of an empty table. *)
Lemma fresh_tbl m p path :
  zero_page m p → tpath path → tbl m p path = if decide (path = []) then Some p else None.
Proof.
  intros Hz Hp. destruct (tpath_cases _ Hp) as [->|[(i & -> & Hi)|(i & j & -> & Hi & Hj)]];
    [done|..]; simpl; unfold child, entry; rewrite Hz by done; done.
Qed.

Lemma fresh_pt_inv m p F : zero_page m p → is_page p → p ∉ F → pt_inv m p F.
Proof.
  intros Hz Hp HF. constructor.
  - intros path q Htp. rewrite fresh_tbl by done. case_decide; intros; by simplify_eq.
  - intros path path' q Hp1 Hp2. rewrite !fresh_tbl by done.
    repeat case_decide; intros; by simplify_eq.
Qed.

Lemma fresh_xlate m p va : zero_page m p → xlate m p va = None.
Proof.
  intros Hz. unfold xlate, leaf. case_match; [done|].
  by rewrite fresh_tbl by (done || apply tpath_va).
Qed.

(** No table of one tree is a table of the other. *)
Definition separate (m : gmap Z Z) (r1 r2 : Z) : Prop :=
  ∀ path1 path2 p1 p2, tpath path1 → tpath path2 →
    tbl m r1 path1 = Some p1 → tbl m r2 path2 = Some p2 → p1 ≠ p2.

Section TwoTables.
Context (m m' : gmap Z Z) (r1 r2 : Z) (F F' : list Z).
Hypothesis HF : Forall is_page F.
Hypothesis Hinv1 : pt_inv m r1 F.
Hypothesis Hinv2 : pt_inv m r2 F.
Hypothesis Hsep : separate m r1 r2.
Hypothesis Hgr : grows r1 m F m' F'.

Lemma other_entry path p i :
  tpath path → index i → tbl m r2 path = Some p → entry m' p i = entry m p i.
Proof using HF Hinv1 Hinv2 Hsep Hgr LO.
  intros Hp Hi Ht. destruct (pi_page _ _ _ Hinv2 _ _ Hp Ht) as [Hpg HpF].
  assert (in_page p (p + 8 * i)) as Hin by (unfold in_page, index in *; lia).
  apply (gr_frame _ _ _ _ _ Hgr).
  - intros q Hq. rewrite Forall_forall in HF.
    apply (pages_disjoint p q); auto. intros ->. done.
  - intros path1 q Hp1 Hq. destruct (pi_page _ _ _ Hinv1 _ _ Hp1 Hq) as [Hqp _].
    apply (pages_disjoint p q); auto. intros ->. by apply (Hsep path1 path q q).
Qed.

Lemma other_tbl path : tpath path → tbl m' r2 path = tbl m r2 path.
Proof using HF Hinv1 Hinv2 Hsep Hgr LO.
  apply tbl_agree. intros path' p i Hl Hf Hi Ht.
  apply (other_entry path'); [split; [lia|done]|done..].
Qed.

Lemma other_xlate va : xlate m' r2 va = xlate m r2 va.
Proof using HF Hinv1 Hinv2 Hsep Hgr LO.
  unfold xlate, leaf. case_match; [done|]. rewrite other_tbl by apply tpath_va.
  destruct (tbl m r2 (vpath va)) as [t|] eqn:Ht; [simpl|done].
  by rewrite (other_entry (vpath va)) by first [apply tpath_va|apply PX_range; lia|done].
Qed.

Lemma other_inv : pt_inv m' r2 F'.
Proof using HF Hinv1 Hinv2 Hsep Hgr LO.
  constructor.
  - intros path p Hp. rewrite other_tbl by done. intros Ht.
    destruct (pi_page _ _ _ Hinv2 _ _ Hp Ht) as [? HpF]. split; [done|].
    intros Hin. by apply HpF, (gr_free _ _ _ _ _ Hgr).
  - intros path path' p Hp Hp'. rewrite !other_tbl by done. by eapply pi_inj.
Qed.

Lemma other_separate : separate m' r1 r2.
Proof using HF Hinv1 Hinv2 Hsep Hgr LO.
  intros path1 path2 p1 p2 Hp1 Hp2 Ht1. rewrite other_tbl by done. intros Ht2.
  destruct (gr_new _ _ _ _ _ Hgr _ _ Hp1 Ht1) as [Hold|HinF].
  - by apply (Hsep path1 path2).
  - intros ->. by destruct (pi_page _ _ _ Hinv2 _ _ Hp2 Ht2) as [_ ?].
Qed.
End TwoTables.
End Isolation.

(** ** Properties *)

(** Two free pages and an empty page table, under the sample layout. *)
Definition sample_root : Z := 0x87ffd000.
Definition sample_free : list Z := [0x87ffe000; 0x87fff000].
Definition sample_vm : mm_state :=
  MM (<[0x87ffe000 := 0x87fff000]> (<[0x87fff000 := 0]> ∅)) 0x87ffe000 2 0x80220000.

Lemma sample_is_page p :
  0x80620000 <= p → p + 4096 <= 0x88000000 → p mod 4096 = 0 → @is_page sample_layout p.
Proof. intros. split_and!; done. Qed.

Lemma sample_freelist : @freelist sample_layout sample_vm sample_free.
Proof.
  constructor; [vm_compute; done| | |vm_compute; done].
  - apply (bool_decide_unpack _). vm_compute. exact I.
  - repeat constructor; by apply sample_is_page.
Qed.

Lemma sample_zero : zero_page (mem sample_vm) sample_root.
Proof.
  intros i Hi. unfold sample_vm, sample_root. cbn [mem].
  by rewrite !rd_insert_ne by lia.
Qed.

Lemma sample_inv : @pt_inv sample_layout (mem sample_vm) sample_root sample_free.
Proof.
  apply fresh_pt_inv; [apply sample_zero|by apply sample_is_page|].
  apply (bool_decide_unpack _). vm_compute. exact I.
Qed.

(** Three free pages: one more than the two tables the mapping needs. *)
Definition sample_vm3 : mm_state :=
  MM (<[0x87ffc000 := 0x87ffe000]> (mem sample_vm)) 0x87ffc000 3 0x80220000.

Lemma sample3_zero : zero_page (mem sample_vm3) sample_root.
Proof.
  intros i Hi. unfold sample_vm3, sample_root. cbn [mem].
  rewrite rd_insert_ne by lia. by apply sample_zero.
Qed.

Lemma sample3_freelist : @freelist sample_layout sample_vm3 (0x87ffc000 :: sample_free).
Proof.
  constructor; [vm_compute; done| | |vm_compute; done].
  - apply (bool_decide_unpack _). vm_compute. exact I.
  - repeat constructor; by apply sample_is_page.
Qed.

Lemma sample3_inv : @pt_inv sample_layout (mem sample_vm3) sample_root (0x87ffc000 :: sample_free).
Proof.
  apply fresh_pt_inv; [exact sample3_zero|by apply sample_is_page|].
  apply (bool_decide_unpack _). vm_compute. exact I.
Qed.

(** An entry built for frame [pa] with permission bits [perm] decodes to
    the page frame of [pa], carries exactly [perm] plus the valid bit, and is
    valid. *)
Theorem pte_roundtrip (pa perm : Z) :
  is_u64 pa → flags_ok perm →
  PTE2PA (mk_pte pa perm) = pa / 4096 * 4096 ∧
  PTE_FLAGS (mk_pte pa perm) = Z.lor perm PTE_V ∧
  PTE_VALID (mk_pte pa perm) = true.
Proof.
  intros Hpa Hf. unfold mk_pte.
  rewrite (u64_id perm) by (unfold flags_ok, is_u64 in *; lia). split_and!.
  - by apply PTE2PA_mappage.
  - rewrite pte_fields by done. unfold PTE_FLAGS. change 0x3FF with (Z.ones 10).
    rewrite Z.land_ones by lia. change (2 ^ 10) with 1024.
    pose proof (lor_V_range perm Hf) as Hr. unfold flags_ok in Hr.
    rewrite Z.add_comm, Z_mod_plus_full. by apply Z.mod_small.
  - apply PTE_VALID_lor.
Qed.

Lemma pte_roundtrip_witness :
  PTE2PA (mk_pte 0x80100000 22) = 0x80100000 ∧
  PTE_FLAGS (mk_pte 0x80100000 22) = 23 ∧ PTE_VALID (mk_pte 0x80100000 22) = true.
Proof.
  apply (pte_roundtrip 0x80100000 22).
  - unfold is_u64. lia.
  - unfold flags_ok. lia.
Defined.

(** The allocator and the table at [root] are well formed, with free pages [l]. *)
Definition table_ok {L : Layout} (root : Z) (l : list Z) (s : mm_state) : Prop :=
  freelist s l ∧ pt_inv (mem s) root l.

(** On a well-formed table [walk] returns, without faulting, for every
    virtual address below [MAXVA]; it only adds tables taken from the free
    list, keeps every existing translation, and yields the address of the leaf
    entry, or NULL exactly when there is no leaf table (with allocation on,
    only because the free list is used up). *)
Theorem walk_correct {L : Layout} {LO : LayoutOk L} (root va : Z) (alloc : bool)
    (l : list Z) (s : mm_state) (w : world) :
  table_ok root l s → 0 <= va < MAXVA →
  ∃ a s' w' l', walk root va alloc s w = Ret a s' w' ∧ walked alloc root va s l a s' l'.
Proof.
  intros [Hfl Hinv] Hva.
  destruct (wp_run (walk root va alloc) (λ a s', ∃ l', walked alloc root va s l a s' l') s w)
    as (a & s' & w' & Hr & l' & Hw); [|by exists a, s', w', l'].
  apply (wp_walk root va alloc l); eauto.
Qed.

Lemma walk_correct_witness :
  ∃ a s' w' l', walk sample_root 0x1000 true sample_vm boot_world = Ret a s' w' ∧
    @walked sample_layout true sample_root 0x1000 sample_vm sample_free a s' l'.
Proof.
  apply (walk_correct (L:=sample_layout) sample_root 0x1000 true sample_free sample_vm boot_world).
  - exact (conj sample_freelist sample_inv).
  - change MAXVA with 274877906944. lia.
Defined.

(** C3: for a range below [MAXVA] and frames below 2^64 the loop of [mappages]
    terminates in one of three ways.  It returns 0: then no page of the range was mapped before, exactly
    the pages of the range are mapped to consecutive frames now, and every other
    translation is unchanged.  It returns -1: then a prefix of the range, not mapped
    before, is mapped, the free list is used up, and the next page has no leaf
    table.  It panics: then a page of the range was already mapped.  When the free
    list is longer than the mapping can need, it panics exactly when a page of
    the range was mapped, and returns 0 exactly when none was. *)
Theorem mappages_correct {L : Layout} {LO : LayoutOk L} (root va size pa perm : Z)
    (l : list Z) (s : mm_state) (w : world) :
  freelist s l → pt_inv (mem s) root l → range_ok va size pa →
  let v := va / 4096 in
  let k := span va size in
  match mappages root va size pa perm s w with
  | Ret r s' _ =>
      ∃ l' n, mapped root v n pa perm s l s' l' ∧
        (r = 0 ∧ n = k + 1 ∧ ¬ remapped root v k s ∨
         r = -1 ∧ 0 <= n <= k ∧ l' = [] ∧ tbl (mem s') root (vpath (4096 * (v + n))) = None)
  | Halt _ _ => remapped root v k s
  | _ => False
  end ∧
  (map_cost (mem s) root v k < Z.of_nat (length l) →
   ((∃ s' w', mappages root va size pa perm s w = Halt s' w') ↔ remapped root v k s) ∧
   ((∃ s' w', mappages root va size pa perm s w = Ret 0 s' w') ↔ ¬ remapped root v k s)).
Proof.
  intros Hfl Hinv Hr v k.
  pose proof (wp_out _ _ _ _ (wp_mappages root va size pa perm l s Hfl Hinv Hr) w) as Hm.
  destruct (mappages root va size pa perm s w) as [r s' w'|s' w'| | | |]; try done.
  - destruct Hm as (l' & n & Hmap & Hc & Hcase).
    assert (r = 0 → ¬ remapped root v k s) as Hnot.
    { intros ->. destruct Hcase as [[_ ->]|(? & _)]; [|done].
      exact (mapped_not_remapped _ _ _ _ _ _ _ _ _ Hmap). }
    split; [|intros Hlen].
    + exists l', n. split; [done|]. destruct Hcase as [[-> ->]|(-> & [Hn Ht] & ->)]; [left|right]; auto.
    + assert (r = 0) as -> by (destruct Hcase as [[-> _]|(_ & _ & ->)]; [done|unfold v, k in *; simpl in Hc; lia]).
      split; split; [by intros (? & ? & ?)|by intros Hre%Hnot|by auto|by eauto].
  - split; [done|]. intros _. split; split; [done|by eauto|by intros (? & ? & ?)|done].
Qed.

Lemma mappages_correct_witness :
  (∃ s' w', mappages sample_root 0x1000 8192 0x80100000 22 sample_vm3 boot_world = Ret 0 s' w') ↔
  ¬ remapped sample_root (0x1000 / 4096) (span 0x1000 8192) sample_vm3.
Proof.
  destruct (mappages_correct (L:=sample_layout) sample_root 0x1000 8192 0x80100000 22 (0x87ffc000 :: sample_free)
    sample_vm3 boot_world) as [_ Hex].
  - exact sample3_freelist.
  - exact sample3_inv.
  - unfold range_ok; vm_compute; split_and!; done.
  - apply Hex. vm_compute. reflexivity.
Defined.

(** C27: Whatever the 64-bit address, size, frame and
    permissions, wrapping ranges included, the loop of [mappages] ends within
    its bound, returns 0 or -1 (or panics), and leaves allocator and table
    well formed. *)
Theorem mappages_terminates {L : Layout} {LO : LayoutOk L} (root va size pa perm : Z)
    (l : list Z) (s : mm_state) (w : world) :
  table_ok root l s → is_u64 va →
  match mappages root va size pa perm s w with
  | Ret r s' _ => (r = 0 ∨ r = -1) ∧ ∃ l', table_ok root l' s'
  | Halt _ _ => True
  | _ => False
  end.
Proof. intros [Hfl Hinv] Hva. exact (wp_out _ _ _ _ (wp_mappages_total root va size pa perm l s Hfl Hinv Hva) w). Qed.

(** A range that wraps around the address space. *)
Lemma mappages_terminates_witness :
  match mappages sample_root 0x3FFFFFF000 0xFFFFFFC000001000 0 0 sample_vm boot_world with
  | Ret r s' _ => (r = 0 ∨ r = -1) ∧
      ∃ l', @table_ok sample_layout sample_root l' s'
  | Halt _ _ => True
  | _ => False
  end.
Proof.
  apply (mappages_terminates (L:=sample_layout) sample_root 0x3FFFFFF000
           0xFFFFFFC000001000 0 0 sample_free).
  - exact (conj sample_freelist sample_inv).
  - unfold is_u64. lia.
Defined.

(** The address inside a mapped page. *)
Lemma mapped_address va size pa perm x :
  range_ok va size pa → flags_ok perm → va mod 4096 = 0 → pa mod 4096 = 0 → va <= x < va + size →
  u64 (PTE2PA (mk_pte (pa + 4096 * (x / 4096 - va / 4096)) perm) + x mod 4096) = pa + (x - va).
Proof.
  intros (Hva0 & Hsz & Hmax & Hpa0 & Hpa64) Hperm Hva Hpa Hxr. change MAXVA with 274877906944 in Hmax.
  assert (va / 4096 <= x / 4096 < va / 4096 + (span va size + 1)) as Hin
    by (unfold span; Z.div_mod_to_equations; lia).
  unfold mk_pte. rewrite (u64_id perm) by (unfold flags_ok, is_u64 in *; lia).
  assert (pa + 4096 * (x / 4096 - va / 4096) + x mod 4096 = pa + (x - va)) as Heq
    by (Z.div_mod_to_equations; lia).
  assert (is_u64 (pa + 4096 * (x / 4096 - va / 4096) + 4095))
    by (unfold is_u64; Z.div_mod_to_equations; lia).
  rewrite PTE2PA_mappage by (try done; unfold is_u64 in *; lia).
  replace ((pa + 4096 * (x / 4096 - va / 4096)) / 4096 * 4096)
    with (pa + 4096 * (x / 4096 - va / 4096)) by (Z.div_mod_to_equations; lia).
  rewrite u64_id; [done|]. pose proof (Z.mod_pos_bound x 4096). unfold is_u64 in *. lia.
Qed.

(** C2: if the page-aligned range below [MAXVA] is unmapped, its frames are
    below 2^64 and the free list is longer than two pages per 2 MiB region touched, [mappages] returns 0;
    afterwards [va2pa] translates every byte of the range to the same offset
    from [pa], and every other address, in a page outside the range, as before. *)
Theorem map_translate {L : Layout} {LO : LayoutOk L} (root va size pa perm : Z)
    (l : list Z) (s : mm_state) (w : world) :
  freelist s l → pt_inv (mem s) root l → range_ok va size pa → flags_ok perm →
  va mod 4096 = 0 → pa mod 4096 = 0 →
  ¬ remapped root (va / 4096) (span va size) s →
  map_cost (mem s) root (va / 4096) (span va size) < Z.of_nat (length l) →
  ∃ s' w', mappages root va size pa perm s w = Ret 0 s' w' ∧
    (∀ x w1, va <= x < va + size →
      ∃ w2, va2pa root x s' w1 = Ret (pa + (x - va)) s' w2) ∧
    (∀ x w1, 0 <= x → ¬ (va / 4096 <= x / 4096 <= (va + size - 1) / 4096) →
      ∃ y w2 w3, va2pa root x s w1 = Ret y s w2 ∧ va2pa root x s' w1 = Ret y s' w3).
Proof.
  intros Hfl Hinv Hr Hperm Hva Hpa Hfree Hcost.
  pose proof (wp_out _ _ _ _ (wp_mappages root va size pa perm l s Hfl Hinv Hr) w) as Hm.
  destruct (mappages root va size pa perm s w) as [r s' w'| | | | |]; try done.
  destruct Hm as (l' & n & [Hfl' Hgr Hh Hx] & Hc & Hcase).
  destruct Hcase as [[-> ->]|(_ & _ & ->)]; [|simpl in Hc; lia].
  exists s', w'. split; [done|]. destruct (Hr) as (Hva0 & _). split; intros x w1 Hxr.
  - destruct (va2pa_run root x l' s' w1 Hfl' (gr_inv _ _ _ _ _ Hgr) ltac:(lia)) as [w2 ->]. exists w2.
    rewrite Hx by lia. rewrite (proj2 (Z.leb_le _ _)), (proj2 (Z.ltb_lt _ _)) by (unfold span; Z.div_mod_to_equations; lia).
    cbn [andb]. by rewrite (mapped_address va size).
  - intros Hout. destruct (va2pa_run root x l' s' w1 Hfl' (gr_inv _ _ _ _ _ Hgr) Hxr) as [w3 Hrun'].
    destruct (va2pa_run root x l s w1 Hfl Hinv Hxr) as [w2 Hrun].
    rewrite Hx in Hrun' by done. destruct (_ && _) eqn:Hin; [|eauto].
    exfalso. apply Hout. apply andb_true_iff in Hin as [H1%Z.leb_le H2%Z.ltb_lt]. unfold span in *. lia.
Qed.

(** The two free pages are just enough for two pages of the same region. *)
Lemma sample_map_run :
  ∃ s1 w1, mappages sample_root 0x1000 8192 0x80100000 22 sample_vm boot_world = Ret 0 s1 w1.
Proof.
  assert (match mappages sample_root 0x1000 8192 0x80100000 22 sample_vm boot_world with
          | Ret 0 _ _ => true | _ => false end = true) as Hb by (vm_compute; reflexivity).
  destruct (mappages _ _ _ _ _ _ _) as [[| |] s1 w1| | | | |]; try discriminate. by exists s1, w1.
Qed.

Lemma map_translate_witness :
  ∃ s' w', mappages sample_root 0x1000 8192 0x80100000 22 sample_vm3 boot_world = Ret 0 s' w' ∧
    (∀ x w1, 0x1000 <= x < 0x1000 + 8192 →
      ∃ w2, va2pa sample_root x s' w1 = Ret (0x80100000 + (x - 0x1000)) s' w2) ∧
    (∀ x w1, 0 <= x → ¬ (0x1000 / 4096 <= x / 4096 <= (0x1000 + 8192 - 1) / 4096) →
      ∃ y w2 w3, va2pa sample_root x sample_vm3 w1 = Ret y sample_vm3 w2 ∧ va2pa sample_root x s' w1 = Ret y s' w3).
Proof.
  apply (map_translate (L:=sample_layout) sample_root 0x1000 8192 0x80100000 22
           (0x87ffc000 :: sample_free) sample_vm3 boot_world).
  - exact sample3_freelist.
  - exact sample3_inv.
  - unfold range_ok; vm_compute; split_and!; done.
  - unfold flags_ok. lia.
  - reflexivity.
  - reflexivity.
  - intros (va & _ & _ & Hs). rewrite fresh_xlate in Hs by exact sample3_zero. by destruct Hs.
  - vm_compute. reflexivity.
Defined.

(** C28: after a successful [mappages] of a range, [unmappages] of the same range returns and every translation is what it
    was before the mapping. *)
Theorem map_unmap {L : Layout} {LO : LayoutOk L} (root va size pa perm : Z)
    (l : list Z) (s s1 : mm_state) (w w1 : world) :
  freelist s l → pt_inv (mem s) root l → range_ok va size pa →
  mappages root va size pa perm s w = Ret 0 s1 w1 →
  ∃ s2 w2, unmappages root va size s1 w1 = Ret tt s2 w2 ∧
    ∀ x, 0 <= x → xlate (mem s2) root x = xlate (mem s) root x.
Proof.
  intros Hfl Hinv Hr Hrun.
  pose proof (wp_out _ _ _ _ (wp_mappages root va size pa perm l s Hfl Hinv Hr) w) as Hm. rewrite Hrun in Hm.
  destruct Hm as (l' & n & [Hfl1 Hgr Hh Hx _ Hfree] & _ & Hcase).
  assert (n = span va size + 1) as -> by (destruct Hcase as [[_ ?]|(? & _)]; done).
  destruct Hr as (Hva0 & Hsz & Hmax & _ & _).
  assert (0 <= va / 4096) by (apply Z.div_pos; lia).
  pose proof (wp_out _ _ _ _ (wp_unmappages root va size l' s1 Hfl1 (gr_inv _ _ _ _ _ Hgr) Hva0 Hsz Hmax) w1) as Hu.
  destruct (unmappages root va size s1 w1) as [[] s2 w2|? ?| | | |]; try done.
  - exists s2, w2. split; [done|]. intros x Hx0.
    rewrite (um_xlate _ _ _ _ _ _ Hu), Hx by done.
    destruct (_ && _) eqn:Hb; [|done].
    apply andb_true_iff in Hb as [H1%Z.leb_le H2%Z.ltb_lt].
    symmetry. apply Hfree; [done|lia].
  - destruct Hu as (j & Hj & Hnone). rewrite Hx, page_number in Hnone by lia.
    rewrite (proj2 (Z.leb_le _ _)), (proj2 (Z.ltb_lt _ _)) in Hnone by lia. done.
Qed.

Lemma map_unmap_witness :
  ∃ s1 w1 s2 w2,
    mappages sample_root 0x1000 8192 0x80100000 22 sample_vm boot_world = Ret 0 s1 w1 ∧
    unmappages sample_root 0x1000 8192 s1 w1 = Ret tt s2 w2 ∧
    ∀ x, 0 <= x → xlate (mem s2) sample_root x = xlate (mem sample_vm) sample_root x.
Proof.
  destruct sample_map_run as (s1 & w1 & Hrun).
  destruct (map_unmap (L:=sample_layout) sample_root 0x1000 8192 0x80100000 22 sample_free
              sample_vm s1 boot_world w1) as (s2 & w2 & Hu & Hx).
  - exact sample_freelist.
  - exact sample_inv.
  - unfold range_ok; vm_compute; split_and!; done.
  - exact Hrun.
  - exists s1, w1, s2, w2. auto.
Defined.

(** C10: with two page tables that share no table page, mapping pages
    in one leaves every translation of the other unchanged, and both stay well
    formed and separate. *)
Theorem mappages_isolation {L : Layout} {LO : LayoutOk L} (r1 r2 va size pa perm : Z)
    (l : list Z) (s s' : mm_state) (w w' : world) (r : Z) :
  freelist s l → pt_inv (mem s) r1 l → pt_inv (mem s) r2 l → separate (mem s) r1 r2 →
  range_ok va size pa → mappages r1 va size pa perm s w = Ret r s' w' →
  (∀ x, xlate (mem s') r2 x = xlate (mem s) r2 x) ∧
  separate (mem s') r1 r2 ∧
  ∃ l', freelist s' l' ∧ pt_inv (mem s') r1 l' ∧ pt_inv (mem s') r2 l'.
Proof.
  intros Hfl Hinv1 Hinv2 Hsep Hr Hrun.
  pose proof (wp_out _ _ _ _ (wp_mappages r1 va size pa perm l s Hfl Hinv1 Hr) w) as Hm. rewrite Hrun in Hm.
  destruct Hm as (l' & n & [Hfl1 Hgr _ _] & _ & _).
  pose proof (fl_pages _ _ Hfl) as Hall. split_and!.
  - exact (other_xlate (mem s) (mem s') r1 r2 l l' Hall Hinv1 Hinv2 Hsep Hgr).
  - exact (other_separate (mem s) (mem s') r1 r2 l l' Hall Hinv1 Hinv2 Hsep Hgr).
  - exists l'. split_and!; [done|by eapply gr_inv|].
    exact (other_inv (mem s) (mem s') r1 r2 l l' Hall Hinv1 Hinv2 Hsep Hgr).
Qed.

Lemma mappages_isolation_witness :
  let r2 := 0x87ffb000 in
  ∃ s' w', mappages sample_root 0x1000 8192 0x80100000 22 sample_vm boot_world = Ret 0 s' w' ∧
    ∀ x, xlate (mem s') r2 x = xlate (mem sample_vm) r2 x.
Proof.
  intros r2.
  assert (zero_page (mem sample_vm) r2) as Hz.
  { intros i Hi. unfold sample_vm, r2. cbn [mem]. by rewrite !rd_insert_ne by lia. }
  destruct sample_map_run as (s1 & w1 & Hrun).
  exists s1, w1. split; [done|].
  apply (mappages_isolation (L:=sample_layout) sample_root r2 0x1000 8192 0x80100000 22
           sample_free sample_vm s1 boot_world w1 0).
  - exact sample_freelist.
  - exact sample_inv.
  - apply fresh_pt_inv; [exact Hz|by apply sample_is_page|].
    apply (bool_decide_unpack _). vm_compute. exact I.
  - intros p1 p2 q1 q2 Hp1 Hp2.
    rewrite (fresh_tbl _ sample_root), (fresh_tbl _ r2)
      by first [exact Hz|exact sample_zero|assumption].
    destruct (decide (p1 = [])), (decide (p2 = [])); intros [= <-] [= <-].
    unfold sample_root, r2. lia.
  - unfold range_ok; vm_compute; split_and!; done.
  - exact Hrun.
Defined.
