(* ===== verification/VmFree.v ===== *)
(** Releasing a page table: [vm_free] of [kernel/mm/vm.c] returns the pages of
    the tree, and nothing else, to the free list. *)

From Stdlib Require Import String.
From S2P Require Import Prelude Machine Uart Printf Mm Vm PageTable Mapping.
Local Open Scope Z_scope.

(** ** The pages of a tree *)

(** The tables from [p] on, [n] levels above the last, in the order in which
    they are released. *)
Fixpoint tables (n : nat) (m : gmap Z Z) (p : Z) : list Z :=
  match n with
  | O => [p]
  | S n' => (seqZ 0 512 ≫= λ i, match child m p i with Some q => tables n' m q | None => [] end) ++ [p]
  end.

(** The tables below entry [i]. *)
Definition kids (n : nat) (m : gmap Z Z) (p i : Z) : list Z :=
  match n with
  | O => []
  | S n' => match child m p i with Some q => tables n' m q | None => [] end
  end.

Lemma tables_kids n m p : tables n m p = (seqZ 0 512 ≫= kids n m p) ++ [p].
Proof. by destruct n. Qed.

(** Entries point to tables above the last level and to pages on it. *)
Fixpoint shape (n : nat) (m : gmap Z Z) (p : Z) : Prop :=
  ∀ i, index i → PTE_VALID (entry m p i) = true →
    match n with
    | O => points (entry m p i) = false
    | S n' => points (entry m p i) = true ∧ shape n' m (PTE2PA (entry m p i))
    end.

Lemma index_seqZ i : i ∈ seqZ 0 512 ↔ index i.
Proof. rewrite elem_of_seqZ. unfold index. lia. Qed.

Lemma bind_ext_in {A B} (f g : A → list B) (l : list A) : (∀ x, x ∈ l → f x = g x) → l ≫= f = l ≫= g.
Proof.
  induction l as [|x l IH]; intros Hfg; [done|]. rewrite !bind_cons. f_equal; [by apply Hfg, list_elem_of_here|].
  apply IH. intros y Hy. by apply Hfg, list_elem_of_further.
Qed.

Lemma tables_head n m p : p ∈ tables n m p.
Proof. rewrite tables_kids. apply elem_of_app. right. by apply list_elem_of_singleton. Qed.

Lemma tables_child n m p i q x :
  index i → child m p i = Some q → x ∈ tables n m q → x ∈ tables (S n) m p.
Proof.
  intros Hi Hc Hx. cbn [tables]. apply elem_of_app. left. apply list_elem_of_bind. exists i.
  rewrite Hc. split; [done|]. by apply index_seqZ.
Qed.

(** The tree depends only on the entries of its own tables. *)
Lemma tables_agree n m m' p :
  (∀ x i, x ∈ tables n m p → index i → entry m' x i = entry m x i) →
  tables n m' p = tables n m p ∧ (shape n m p → shape n m' p).
Proof.
  revert p. induction n as [|n IH]; intros p Hag.
  { split; [done|]. intros Hs i Hi. rewrite (Hag p i (tables_head 0 m p) Hi). by apply Hs. }
  assert (∀ i, index i → entry m' p i = entry m p i) as Hp by (intros i Hi; exact (Hag p i (tables_head (S n) m p) Hi)).
  assert (∀ i q, index i → child m p i = Some q →
    tables n m' q = tables n m q ∧ (shape n m q → shape n m' q)) as Hq.
  { intros i q Hi Hc. apply IH. intros x j Hx Hj. apply Hag; [exact (tables_child n m p i q x Hi Hc Hx)|done]. }
  split.
  - cbn [tables]. f_equal. apply bind_ext_in. intros i Hi%index_seqZ. unfold child at 1. rewrite Hp by done.
    fold (child m p i). destruct (child m p i) as [q|] eqn:Hc; [|done]. by apply (Hq i).
  - intros Hs i Hi. rewrite Hp by done. intros Hv. destruct (Hs i Hi Hv) as [Hpt Hsh]. split; [done|].
    apply (Hq i); [done| |done]. unfold child. by rewrite Hv.
Qed.

Section Free.
Context {L : Layout} {LO : LayoutOk L}.

(** [m'] is [m] but for the pages [ts]. *)
Definition same_but (ts : list Z) (m m' : gmap Z Z) : Prop :=
  ∀ a, (∀ q, q ∈ ts → ¬ in_page q a) → rd m' a = rd m a.

Lemma same_but_entry ts m m' x i :
  same_but ts m m' → is_page x → Forall is_page ts → x ∉ ts → index i → entry m' x i = entry m x i.
Proof.
  intros Hs Hx Hts Hn Hi. apply Hs. intros q Hq. rewrite Forall_forall in Hts.
  apply (pages_disjoint x q); [done|auto|congruence|]. unfold in_page, index in *. lia.
Qed.

(** What [vm_free] leaves of [s]. *)
Definition freed (ts : list Z) (s : mm_state) (l : list Z) (s' : mm_state) : Prop :=
  freelist s' (reverse ts ++ l) ∧ heap_current s' = heap_current s ∧ same_but ts (mem s) (mem s').

Lemma freed_trans ts1 ts2 s l s1 s2 :
  freed ts1 s l s1 → freed ts2 s1 (reverse ts1 ++ l) s2 → freed (ts1 ++ ts2) s l s2.
Proof.
  intros (_ & Hh1 & Hm1) (Hf2 & Hh2 & Hm2). split_and!; [by rewrite reverse_app, <- app_assoc|congruence|].
  intros a Ha. rewrite Hm2, Hm1; [done|..]; intros q Hq; apply Ha, elem_of_app; auto.
Qed.

(** What [vm_free] does [n] levels above the last. *)
Definition frees (n : nat) : Prop := ∀ p l s (Q : unit → mm_state → Prop) H,
  freelist s l → Forall is_page (tables n (mem s) p) → NoDup (tables n (mem s) p ++ l) → shape n (mem s) p →
  (∀ s', freed (tables n (mem s) p) s l s' → Q tt s') → wp (vm_free (S n) p) Q H s.

(** One entry: the tables [ts] below the earlier ones have been released. *)
Lemma wp_free_entry n p j ts rest l s s1 H :
  (∀ n', n = S n' → frees n') → index j → is_page p →
  Forall is_page (ts ++ kids n (mem s) p j) → NoDup (ts ++ kids n (mem s) p j ++ rest ++ p :: l) →
  shape n (mem s) p → freed ts s l s1 →
  wp (let* pte := load (pte_addr p j) in
      if PTE_VALID pte && (Z.land pte (Z.lor (Z.lor PTE_R PTE_W) PTE_X) =? 0) then vm_free n (PTE2PA pte) else ret tt)
    (λ _, freed (ts ++ kids n (mem s) p j) s l) H s1.
Proof.
  intros IH Hj Hp [Hp1 Hp2]%Forall_app Hnd Hsh Hf1. pose proof Hf1 as (Hfl1 & Hh1 & Hm1).
  assert (p ∉ ts) as Hpn.
  { intros Hin. apply NoDup_app in Hnd as (_ & Hd & _). apply (Hd p Hin). rewrite !elem_of_app. do 2 right.
    apply list_elem_of_here. }
  destruct (entry_addr p j Hp Hj) as [-> Hram]. apply wp_bind, wp_load; [done|].
  change (rd (mem s1) (p + 8 * j)) with (entry (mem s1) p j). rewrite (same_but_entry ts (mem s)) by done.
  fold (points (entry (mem s) p j)).
  assert (kids n (mem s) p j = [] → freed (ts ++ kids n (mem s) p j) s l s1) as Hnone
    by (intros ->; by rewrite app_nil_r).
  destruct (PTE_VALID (entry (mem s) p j)) eqn:Hv; cbn [andb].
  2:{ apply wp_ret, Hnone. destruct n; [done|]. unfold kids, child. by rewrite Hv. }
  destruct n as [|n].
  { pose proof (Hsh j Hj Hv) as Hpt. simpl in Hpt. rewrite Hpt. by apply wp_ret, Hnone. }
  destruct (Hsh j Hj Hv) as [-> Hsh'].
  assert (kids (S n) (mem s) p j = tables n (mem s) (PTE2PA (entry (mem s) p j))) as Hk
    by (unfold kids, child; by rewrite Hv).
  rewrite Hk in *. set (q := PTE2PA _) in *.
  assert (NoDup (tables n (mem s) q ++ reverse ts ++ l)) as Hnd'.
  { enough (NoDup ((tables n (mem s) q ++ reverse ts ++ l) ++ rest ++ [p])) as Hall
      by (by apply NoDup_app in Hall as [? _]).
    eapply NoDup_Permutation_proper; [|exact Hnd]. rewrite reverse_Permutation. solve_Permutation. }
  destruct (tables_agree n (mem s) (mem s1) q) as [Ht Hs].
  { intros x i Hx Hi. rewrite Forall_forall in Hp2. apply (same_but_entry ts); auto.
    intros Hin. apply NoDup_app in Hnd' as (_ & Hnd' & _). apply (Hnd' x Hx). rewrite elem_of_app, elem_of_reverse.
    by left. }
  apply (IH n eq_refl q (reverse ts ++ l)); rewrite ?Ht; auto. intros s2 Hf2. by eapply freed_trans.
Qed.

Lemma wp_vm_free n : frees n.
Proof.
  induction n as [n IH] using lt_wf_ind; intros p l s Q H Hfl Hpg Hnd Hsh HQ.
  rewrite tables_kids in Hpg, Hnd. set (ts := λ j, seqZ 0 j ≫= kids n (mem s) p).
  assert (∀ j, 0 <= j < 512 → ∃ rest, seqZ 0 512 ≫= kids n (mem s) p = ts j ++ kids n (mem s) p j ++ rest) as Hsplit.
  { intros j Hj. exists (seqZ (j + 1) (511 - j) ≫= kids n (mem s) p). unfold ts.
    replace 512 with (j + (1 + (511 - j))) at 1 by lia.
    rewrite !seqZ_app, !bind_app by lia. f_equal. change (seqZ (0 + j) 1) with [0 + j].
    rewrite bind_cons, app_nil_r. by f_equal. }
  apply Forall_app in Hpg as [Hpg Hp]. rewrite Forall_singleton in Hp. rewrite <- app_assoc in Hnd. cbn [vm_free].
  apply wp_bind. eapply wp_mono; [apply (wp_for_up (λ j, freed (ts j) s l)); [done| |]| |done].
  - intros j s1 Hj Hf1. destruct (Hsplit j Hj) as [rest Hrest]. rewrite Hrest in Hpg, Hnd. rewrite <- !app_assoc in Hnd.
    assert (ts (j + 1) = ts j ++ kids n (mem s) p j) as ->.
    { unfold ts. rewrite seqZ_app, bind_app by lia. f_equal. apply app_nil_r. }
    apply (wp_free_entry n p j (ts j) rest); try done.
    + intros n' ->. apply IH. lia.
    + rewrite app_assoc in Hpg. by apply Forall_app in Hpg as [? _].
  - unfold ts, freed. cbn. split_and!; done.
  - intros [] s1 Hf1. pose proof Hf1 as (Hfl1 & Hh1 & Hm1). fold (ts 512) in Hpg, Hnd.
    apply (wp_free_page _ p (reverse (ts 512) ++ l)); [done|done| |].
    { rewrite elem_of_app, elem_of_reverse. apply NoDup_app in Hnd as (_ & Hd & Hnd). apply NoDup_cons in Hnd as [Hpl _].
      intros [Hin|Hin]; [|done]. apply (Hd p Hin), list_elem_of_here. }
    intros Hfl2. apply HQ. rewrite tables_kids. apply (freed_trans _ _ _ _ s1); [done|].
    split_and!; [done|done|]. intros a Ha. cbn [mem]. apply rd_insert_ne. intros <-.
    apply (Ha p); [by apply list_elem_of_singleton|apply in_page_self].
Qed.

(** ** The tree of a well-formed table *)

Lemma tbl_append m root path path' : tbl m root (path ++ path') = p ← tbl m root path; tbl m p path'.
Proof.
  revert root. induction path as [|i path IH]; intros root; simpl; [done|].
  destruct (child m root i) as [p|]; simpl; [apply IH|done].
Qed.

(** The tables are those that paths lead to. *)
Lemma tables_paths n m p x :
  x ∈ tables n m p ↔ ∃ path, (length path <= n)%nat ∧ Forall index path ∧ tbl m p path = Some x.
Proof.
  revert p. induction n as [|n IH]; intros p.
  { split.
    - intros ->%list_elem_of_singleton. by exists [].
    - intros ([|i path] & Hl & _ & Ht); simpl in *; [|lia]. injection Ht as ->. by apply list_elem_of_singleton. }
  cbn [tables]. rewrite elem_of_app, list_elem_of_bind, list_elem_of_singleton. split.
  - intros [(i & Hx & Hi%index_seqZ)| ->]; [|by exists []; split; [simpl; lia|]].
    destruct (child m p i) as [q|] eqn:Hc; [|by apply elem_of_nil in Hx].
    apply IH in Hx as (path & Hl & Hf & Ht). exists (i :: path). simpl. rewrite Hc. split; [lia|]. split; [|done].
    by constructor.
  - intros ([|i path] & Hl & Hf & Ht); simpl in *; [right; congruence|left].
    apply Forall_cons_1 in Hf as [Hi Hf]. exists i. split; [|by apply index_seqZ].
    destruct (child m p i) as [q|]; [|done]. apply IH. exists path. split; [lia|done].
Qed.

Lemma all_tables m root x : x ∈ tables 2 m root ↔ ∃ path, tpath path ∧ tbl m root path = Some x.
Proof. rewrite tables_paths. unfold tpath. naive_solver. Qed.

Lemma tables_nodup_at m root F n path p :
  pt_inv m root F → (length path + n = 2)%nat → Forall index path → tbl m root path = Some p →
  NoDup (tables n m p).
Proof.
  intros Hinv. revert path p. induction n as [|n IH]; intros path p Hl Hf Hp; [apply NoDup_singleton|].
  assert (∀ i q x, index i → child m p i = Some q → x ∈ tables n m q →
    ∃ path', tpath (path ++ i :: path') ∧ tbl m root (path ++ i :: path') = Some x) as Hbelow.
  { intros i q x Hi Hc (path' & Hl' & Hf' & Ht)%tables_paths. exists path'.
    rewrite tbl_append, Hp. simpl. rewrite Hc. split; [|done]. split; [rewrite length_app; simpl; lia|].
    apply Forall_app. split; [done|by constructor]. }
  cbn [tables]. apply NoDup_app. split_and!; [| |apply NoDup_singleton].
  - apply NoDup_bind; [| |apply NoDup_seqZ].
    + intros i j x Hi%index_seqZ Hj%index_seqZ Hxi Hxj.
      destruct (child m p i) as [q|] eqn:Hci; [|by apply elem_of_nil in Hxi].
      destruct (child m p j) as [r|] eqn:Hcj; [|by apply elem_of_nil in Hxj].
      destruct (Hbelow i q x Hi Hci Hxi) as (p1 & Ht1 & H1). destruct (Hbelow j r x Hj Hcj Hxj) as (p2 & Ht2 & H2).
      pose proof (pi_inj _ _ _ Hinv _ _ _ Ht1 Ht2 H1 H2) as Heq. by apply app_inv_head in Heq as [= -> _].
    + intros i Hi%index_seqZ. destruct (child m p i) as [q|] eqn:Hc; [|apply NoDup_nil_2].
      apply (IH (path ++ [i])); [rewrite length_app; simpl; lia| |by rewrite tbl_app, Hp; simpl].
      apply Forall_app. split; [done|by apply Forall_singleton].
  - intros x (i & Hx & Hi%index_seqZ)%list_elem_of_bind ->%list_elem_of_singleton.
    destruct (child m p i) as [q|] eqn:Hc; [|by apply elem_of_nil in Hx].
    destruct (Hbelow i q p Hi Hc Hx) as (p1 & Ht1 & H1).
    assert (path ++ i :: p1 = path) as Heq by (eapply (pi_inj _ _ _ Hinv); [done|split; [lia|done]|done|done]).
    apply (f_equal length) in Heq. rewrite length_app in Heq. simpl in Heq. lia.
Qed.

Lemma shaped_shape m root n path p :
  shaped m root → (length path + n = 2)%nat → Forall index path → tbl m root path = Some p → shape n m p.
Proof.
  intros Hs. revert path p. induction n as [|n IH]; intros path p Hl Hf Hp i Hi Hv;
    (assert (tpath path) as Htp by (split; [lia|done])); pose proof (Hs path p i Htp Hi Hp Hv) as Hpt.
  - rewrite Hpt. apply Nat.ltb_ge. lia.
  - rewrite Hpt. split; [apply Nat.ltb_lt; lia|]. apply (IH (path ++ [i])).
    + rewrite length_app. simpl. lia.
    + apply Forall_app. split; [done|by apply Forall_singleton].
    + rewrite tbl_app, Hp. simpl. unfold child. by rewrite Hv.
Qed.

(** [vm_free] of a whole table. *)
Lemma wp_free_table root l s (Q : unit → mm_state → Prop) H :
  freelist s l → pt_inv (mem s) root l → shaped (mem s) root →
  (∀ s', freed (tables 2 (mem s) root) s l s' → Q tt s') → wp (vm_free 3 root) Q H s.
Proof.
  intros Hfl Hinv Hs HQ.
  assert (∀ x, x ∈ tables 2 (mem s) root → is_page x ∧ x ∉ l) as Hpg.
  { intros x (path & Hp & Ht)%all_tables. by eapply (pi_page _ _ _ Hinv). }
  apply (wp_vm_free 2 root l); [done| | | |done].
  - apply Forall_forall. intros x Hx. by apply Hpg.
  - apply NoDup_app. split_and!; [|intros x Hx; by apply Hpg|apply Hfl]. by apply (tables_nodup_at _ root l 2 []).
  - by apply (shaped_shape _ root 2 []).
Qed.

(** ** The life of a user page table *)

Lemma fresh_shaped m p : zero_page m p → shaped m p.
Proof.
  intros Hz path q i Hp Hi Hq Hv. rewrite (fresh_tbl m p path Hz Hp) in Hq. case_decide; [|done].
  injection Hq as <-. unfold entry in Hv. rewrite (Hz i Hi) in Hv. done.
Qed.

(** A new, empty table, or NULL when there is no page left. *)
Lemma wp_create_table l s (Q : Z → mm_state → Prop) H :
  freelist s l → (l = [] → Q 0 s) →
  (∀ p l1 s1, l = p :: l1 → is_page p → freelist s1 l1 → zero_page (mem s1) p → pt_inv (mem s1) p l1 →
     heap_current s1 = heap_current s → same_but [p] (mem s) (mem s1) → Q p s1) →
  wp vm_create_user_pagetable Q H s.
Proof.
  intros Hfl H0 HQ. unfold vm_create_user_pagetable. apply wp_bind. destruct l as [|p l].
  { apply wp_alloc_page_empty; [done|]. apply wp_ret. auto. }
  destruct (freelist_cons _ _ _ Hfl) as (_ & Hp & _ & Hnd & _). apply NoDup_cons in Hnd as [Hn _].
  apply (wp_alloc_page _ p l); [done|]. intros s1 Hfl1 Hh Hz Ho.
  rewrite (proj2 (Z.eqb_neq _ _)) by eauto with pages. apply wp_ret, (HQ p l); try done.
  - by apply fresh_pt_inv.
  - intros a Ha. apply Ho, Ha. by apply list_elem_of_singleton.
Qed.

(** Mapping in a new table writes to that table and to free pages only. *)
Lemma mapped_fresh_frame p v n pa perm s1 l1 s2 l2 :
  zero_page (mem s1) p → mapped p v n pa perm s1 l1 s2 l2 → same_but (p :: l1) (mem s1) (mem s2).
Proof.
  intros Hz [_ Hg _ _ _] a Ha. apply (gr_frame _ _ _ _ _ Hg).
  - intros q Hq. apply Ha. by right.
  - intros path q Hp. rewrite (fresh_tbl _ p path Hz Hp). case_decide; [|done]. intros [= <-].
    apply Ha, list_elem_of_here.
Qed.

(** Freed after mapping, the pages are all back. *)
Lemma table_pages_back s p l1 s1 v n pa perm s2 l2 s3 :
  freelist s (p :: l1) → zero_page (mem s1) p → same_but [p] (mem s) (mem s1) →
  mapped p v n pa perm s1 l1 s2 l2 → freed (tables 2 (mem s2) p) s2 l2 s3 →
  ∃ l3, freelist s3 l3 ∧ l3 ≡ₚ p :: l1 ∧ same_but (p :: l1) (mem s) (mem s3).
Proof.
  intros Hfl Hz Hs1 Hmap (Hf3 & _ & Hm3). pose proof (md_grows _ _ _ _ _ _ _ _ _ Hmap) as Hg.
  assert (∀ x, x ∈ tables 2 (mem s2) p → x ∈ p :: l1) as Hin.
  { intros x (path & Hp & Ht)%all_tables. destruct (gr_new _ _ _ _ _ Hg path x Hp Ht) as [Ho|Ho]; [|by right].
    rewrite (fresh_tbl _ p path Hz Hp) in Ho. case_decide; [|done]. injection Ho as ->. apply list_elem_of_here. }
  exists (reverse (tables 2 (mem s2) p) ++ l2). split_and!; [done| |].
  - apply NoDup_Permutation; [apply Hf3|apply Hfl|]. intros x. rewrite elem_of_app, elem_of_reverse. split.
    + intros [Hx|Hx]; [by apply Hin|]. right. by apply (gr_free _ _ _ _ _ Hg).
    + intros [->|Hx]%elem_of_cons; [left; apply tables_head|].
      destruct (gr_used _ _ _ _ _ Hg x Hx) as [?|Ht]; [by right|left]. by apply all_tables.
  - intros a Ha. rewrite Hm3 by auto. rewrite (mapped_fresh_frame _ _ _ _ _ _ _ _ _ Hz Hmap) by done.
    apply Hs1. intros q ->%list_elem_of_singleton. apply Ha, list_elem_of_here.
Qed.

(** Creating a table, mapping a range in it and releasing it. *)
Definition table_life (va size pa perm : Z) : K mm_state Z :=
  let* pt := vm_create_user_pagetable in
  if pt =? 0 then ret (-1)
  else let* r := mappages pt va size pa perm in vm_free 3 pt ;; ret r.

Lemma wp_table_life va size pa perm l s :
  freelist s l → range_ok va size pa → points (u64 perm) = false →
  wp (table_life va size pa perm) (λ r s', (r = 0 ∨ r = -1) ∧
    (2 * span va size / 512 + 5 < Z.of_nat (length l) → r = 0) ∧
    ∃ l', freelist s' l' ∧ l' ≡ₚ l ∧ heap_current s' = heap_current s ∧ same_but l (mem s) (mem s')) never s.
Proof.
  intros Hfl Hr Hpt. unfold table_life. apply wp_bind, (wp_create_table l); [done| |].
  { intros ->. apply wp_ret. split_and!; [by right|simpl; pose proof (span_nonneg va size); destruct Hr; Z.div_mod_to_equations; lia|].
    by exists []. }
  intros p l1 s1 -> Hp Hfl1 Hz Hinv Hh Hs1. rewrite (proj2 (Z.eqb_neq _ _)) by eauto with pages.
  apply wp_bind. eapply wp_mono; [by apply (wp_mappages p va size pa perm l1)| |].
  2:{ intros s2 (x & _ & _ & Hx). rewrite (fresh_xlate _ p x Hz) in Hx. by destruct Hx. }
  intros r s2 (l2 & n & Hm & Hc & Hres). apply wp_bind.
  apply (wp_free_table p l2); [apply Hm|apply (gr_inv _ _ _ _ _ (md_grows _ _ _ _ _ _ _ _ _ Hm))| |].
  { apply (md_shaped _ _ _ _ _ _ _ _ _ Hm); [done|by apply fresh_shaped]. }
  intros s3 Hf3. apply wp_ret. split_and!; [destruct Hres as [[-> _]|[-> _]]; [by left|by right]| |].
  - intros Hlen. destruct Hres as [[-> _]|(_ & _ & ->)]; [done|]. exfalso. unfold map_cost in Hc.
    simpl length in *. destruct (tbl _ _ _); Z.div_mod_to_equations; lia.
  - destruct (table_pages_back s p l1 s1 _ _ _ _ s2 l2 s3 Hfl Hz Hs1 Hm Hf3) as (l3 & H1 & H2 & H3).
    exists l3. split_and!; [done|done| |done]. destruct Hf3 as (_ & -> & _). by rewrite (md_heap _ _ _ _ _ _ _ _ _ Hm).
Qed.
End Free.

(** On a well-formed page table whose upper entries point to tables
    and whose last-level entries carry an R, W or X bit, [vm_free] returns within
    its three levels, puts exactly the pages of the tree on the free list (each
    once, so the free list stays well formed), and writes to no other page. *)
Theorem vm_free_returns_pages {L : Layout} {LO : LayoutOk L} (root : Z) (l : list Z) (s : mm_state) (w : world) :
  freelist s l → pt_inv (mem s) root l → shaped (mem s) root →
  ∃ s' w', vm_free 3 root s w = Ret tt s' w' ∧ freelist s' (reverse (tables 2 (mem s) root) ++ l) ∧
    same_but (tables 2 (mem s) root) (mem s) (mem s').
Proof.
  intros Hfl Hinv Hs. destruct (wp_run (vm_free 3 root) (λ _, freed (tables 2 (mem s) root) s l) s w)
    as ([] & s' & w' & Hrun & Hf & _ & Hm); [|by exists s', w'].
  by apply (wp_free_table root l).
Qed.

Lemma vm_free_witness :
  ∃ s' w', vm_free 3 sample_root sample_vm boot_world = Ret tt s' w' ∧
    @freelist sample_layout s' (reverse (tables 2 (mem sample_vm) sample_root) ++ sample_free) ∧
    same_but (tables 2 (mem sample_vm) sample_root) (mem sample_vm) (mem s').
Proof.
  apply (vm_free_returns_pages (L:=sample_layout) sample_root sample_free sample_vm boot_world).
  - exact sample_freelist.
  - exact sample_inv.
  - apply fresh_shaped, sample_zero.
Defined.

(** C24: creating a user page table, mapping any range below [MAXVA] in
    it, to frames below 2^64 and with an R, W or X permission, and releasing it gives back every page, also
    when the mapping runs out of memory halfway: afterwards the free list holds
    the same pages as before, and no page that was in use has changed. With
    enough free pages the mapping succeeds. *)
Theorem table_life_roundtrip {L : Layout} {LO : LayoutOk L} (va size pa perm : Z) (l : list Z) (s : mm_state) (w : world) :
  freelist s l → range_ok va size pa → points (u64 perm) = false →
  ∃ r s' w' l', table_life va size pa perm s w = Ret r s' w' ∧ (r = 0 ∨ r = -1) ∧
    (2 * span va size / 512 + 5 < Z.of_nat (length l) → r = 0) ∧
    freelist s' l' ∧ l' ≡ₚ l ∧ heap_current s' = heap_current s ∧ same_but l (mem s) (mem s').
Proof.
  intros Hfl Hr Hp. destruct (wp_run _ _ s w (wp_table_life va size pa perm l s Hfl Hr Hp))
    as (r & s' & w' & Hrun & Hr0 & Hlen & l' & Hf). by exists r, s', w', l'.
Qed.

Lemma table_life_witness :
  ∃ r s' w' l', table_life 0x1000 8192 0x80100000 22 sample_vm boot_world = Ret r s' w' ∧ (r = 0 ∨ r = -1) ∧
    (2 * span 0x1000 8192 / 512 + 5 < 2 → r = 0) ∧
    @freelist sample_layout s' l' ∧ l' ≡ₚ sample_free ∧ heap_current s' = heap_current sample_vm ∧
    same_but sample_free (mem sample_vm) (mem s').
Proof.
  apply (table_life_roundtrip (L:=sample_layout) 0x1000 8192 0x80100000 22 sample_free sample_vm boot_world).
  - exact sample_freelist.
  - unfold range_ok; vm_compute; split_and!; done.
  - reflexivity.
Defined.
