(* ===== verification/KernelMap.v ===== *)
(** The kernel's address space: [kvminit], [vm_init] and [kvminithart] of
    [kernel/mm/vm.c], from the state [mm_init] leaves. *)

From Stdlib Require Import String.
From S2P Require Import Prelude Machine Uart Printf Mm Vm PageTable Mapping.
Local Open Scope Z_scope.

(** The translation the kernel page table should define, by page number:
    RAM, UART, PLIC and CLINT mapped to themselves, nothing else. *)
Definition kernel_map (v : Z) : option Z :=
  if (0x80000 <=? v) && (v <? 0x88000) then Some (mk_pte (4096 * v) 14)
  else if v =? 0x10000 then Some (mk_pte (4096 * v) 6)
  else if (0xC000 <=? v) && (v <? 0x10000) then Some (mk_pte (4096 * v) 6)
  else if (0x2000 <=? v) && (v <? 0x2010) then Some (mk_pte (4096 * v) 6)
  else None.

Section KernelMap.
Context {L : Layout} {LO : LayoutOk L}.

(** The table at [root] defines the translation [f] on page numbers. *)
Record has_map (root : Z) (f : Z → option Z) (s : mm_state) (l : list Z) : Prop := {
  hm_free : freelist s l;
  hm_inv : pt_inv (mem s) root l;
  hm_xlate : ∀ va, 0 <= va → xlate (mem s) root va = f (va / 4096) }.

Definition add_range (v k pa perm : Z) (f : Z → option Z) (j : Z) : option Z :=
  if (v <=? j) && (j <=? v + k) then Some (mk_pte (pa + 4096 * (j - v)) perm) else f j.

(** Case analysis on the comparisons of page numbers in the goal. *)
Local Ltac by_ranges :=
  repeat match goal with
  | |- context [?a <=? ?b] => destruct (Z.leb_spec a b); try (exfalso; lia)
  | |- context [?a <? ?b] => destruct (Z.ltb_spec a b); try (exfalso; lia)
  | |- context [?a =? ?b] => destruct (Z.eqb_spec a b); try (exfalso; lia)
  end; simpl; try done.

(** One [kvm_map] of the pages [v .. v + k], none of them mapped yet, with
    pages to spare. *)
Lemma wp_kvm_map root f s l va size pa perm msg kp v k cost (Q : unit → vm_state → Prop) H :
  has_map root f s l → range_ok va size pa →
  va / 4096 = v → span va size = k → 2 * ((v + k) / 512 - v / 512) + 2 = cost →
  (∀ j, v <= j <= v + k → f j = None) → cost < Z.of_nat (length l) →
  (∀ s' l', has_map root (add_range v k pa perm f) s' l' →
     Z.of_nat (length l) <= Z.of_nat (length l') + cost → Q tt (VM s' kp)) →
  wp (kvm_map root va size pa perm msg) Q H (VM s kp).
Proof.
  intros [Hfl Hinv Hx] Hr Hv Hk Hc Hnone Hcost HQ. unfold kvm_map. wp_steps.
  assert (map_cost (mem s) root v k <= cost) as Hle
    by (unfold map_cost; destruct (tbl _ _ _); lia).
  pose proof (wp_mappages root va size pa perm l s Hfl Hinv Hr) as Hw. rewrite Hv, Hk in Hw.
  eapply wp_mono; [exact Hw| |].
  - intros r s' (l' & n & [Hfl' Hgr Hh Hx'] & Hc' & Hcase).
    destruct Hcase as [[-> ->]|(_ & _ & ->)]; [|simpl in Hc'; lia].
    rewrite Z.eqb_refl. wp_steps. apply (HQ s' l'); [|lia].
    constructor; [done|by eapply gr_inv|]. intros x Hx0. rewrite Hx', Hx by done.
    unfold add_range. by_ranges.
  - intros s' (x & Hx0 & Hrange & Hs). rewrite Hx, Hnone in Hs by (done || lia).
    by destruct Hs.
Qed.

(** The four ranges of [kvminit], added one after the other. *)
Lemma kernel_map_ranges j :
  add_range 0x2000 15 0x02000000 6
    (add_range 0xC000 16383 0x0C000000 6
      (add_range 0x10000 0 0x10000000 6
        (add_range 0x80000 32767 0x80000000 14 (λ _, None)))) j = kernel_map j.
Proof. unfold add_range, kernel_map. by_ranges; do 2 f_equal; lia. Qed.

Local Ltac kvm_step Hm v k cost :=
  wp_steps; eapply (wp_kvm_map _ _ _ _ _ _ _ _ _ _ v k cost _ _ Hm);
    [vm_compute; split_and!; done|reflexivity|reflexivity|reflexivity
    |intros j Hj; unfold add_range; by_ranges|simpl in *; lia|].

Lemma wp_kvminit v l (Q : unit → vm_state → Prop) H :
  freelist (vm_mm v) l → 200 <= Z.of_nat (length l) →
  (∀ s' root l', has_map root kernel_map s' l' → is_page root →
     Z.of_nat (length l) <= Z.of_nat (length l') + 197 → Q tt (VM s' root)) →
  wp kvminit Q H v.
Proof.
  intros Hfl Hlen HQ. destruct v as [s kp]. simpl in Hfl. unfold kvminit. wp_steps. simpl.
  destruct l as [|root l]; [simpl in Hlen; lia|].
  destruct (freelist_cons _ _ _ Hfl) as (_ & Hroot & _ & Hnd & _).
  apply NoDup_cons in Hnd as [Hnin _].
  apply (wp_alloc_page _ root l); [done|]. intros s1 Hfl1 _ Hz _. wp_steps.
  rewrite (proj2 (Z.eqb_neq _ _)) by eauto with pages. wp_steps. wp_printf.
  assert (has_map root (λ _, None) s1 l) as Hm0.
  { constructor; [done|by apply fresh_pt_inv|]. intros. by apply fresh_xlate. }
  unfold set_kernel_pagetable; simpl in *.
  kvm_step Hm0 0x80000 32767 128. intros s2 l2 Hm1 Hl2.
  kvm_step Hm1 0x10000 0 2. intros s3 l3 Hm2 Hl3.
  kvm_step Hm2 0xC000 16383 64. intros s4 l4 Hm3 Hl4.
  kvm_step Hm3 0x2000 15 2. intros s5 l5 Hm4 Hl5. wp_printf.
  apply (HQ s5 root l5); [|done|simpl in *; lia]. destruct Hm4 as [Hf Hi Hx].
  constructor; [done|done|]. intros va Hva. rewrite Hx by done. apply kernel_map_ranges.
Qed.
End KernelMap.

(** The boot sequence of [kernel_main] up to paging. *)
Definition boot_vm `{Layout} : K vm_state unit :=
  zoom mm_lens mm_init ;; vm_init ;; kvminithart.

Section Boot.
Context {L : Layout} {LO : LayoutOk L}.

Lemma wp_boot_kvm v (Q : unit → vm_state → Prop) H :
  (∀ s' root l', has_map root kernel_map s' l' → is_page root → Q tt (VM s' root)) →
  wp (zoom mm_lens mm_init ;; vm_init) Q H v.
Proof.
  intros HQ. wp_steps. apply wp_mm_init. intros s Hfl Hh. unfold vm_init. wp_steps.
  wp_printf. apply (wp_kvminit _ all_pages); [done| |by intros s' root l' Hm Hp _; by eapply HQ].
  rewrite length_all_pages. pose proof n_pages_eq. lia.
Qed.

Lemma wp_boot_vm v (Q : unit → vm_state → Prop) H :
  (∀ s' root l', has_map root kernel_map s' l' → is_page root → Q tt (VM s' root)) →
  wp boot_vm Q H v.
Proof.
  intros HQ. unfold boot_vm, bind at 1. intros w.
  pose proof (wp_boot_kvm v (λ _ t, wp kvminithart Q H t) H) as Hw.
  assert (wp ((zoom mm_lens mm_init ;; vm_init) ;; kvminithart) Q H v) as Hb.
  { apply wp_bind, Hw. intros s' root l' Hm Hp. unfold kvminithart, w_satp, sfence_vma. wp_steps. wp_printf. eauto. }
  specialize (Hb w). unfold bind in *.
  destruct (zoom mm_lens mm_init v w); done.
Qed.
End Boot.

(** From any RAM contents and any image layout the boot sequence
    [mm_init], [vm_init], [kvminithart] runs to completion, without panic or
    fault, and the kernel page table then translates exactly RAM, UART, PLIC
    and CLINT, each page to itself, RAM with permissions RWX and the devices
    with RW, and translates nothing else. *)
Theorem boot_address_space {L : Layout} {LO : LayoutOk L} (v : vm_state) (w : world) :
  ∃ v' w' l, boot_vm v w = Ret tt v' w' ∧
    freelist (vm_mm v') l ∧ pt_inv (mem (vm_mm v')) (kernel_pagetable v') l ∧
    ∀ va, 0 <= va → xlate (mem (vm_mm v')) (kernel_pagetable v') va = kernel_map (va / 4096).
Proof.
  destruct (wp_run boot_vm (λ _ v', ∃ l, has_map (kernel_pagetable v') kernel_map (vm_mm v') l)
              v w) as ([] & v' & w' & Hr & l & [Hf Hi Hx]).
  { apply wp_boot_vm. intros s' root l' Hm _. by exists l'. }
  by exists v', w', l.
Qed.

Lemma boot_address_space_witness :
  ∃ v' w' l, @boot_vm sample_layout (VM boot_mm 0) boot_world = Ret tt v' w' ∧
    @freelist sample_layout (vm_mm v') l ∧
    @pt_inv sample_layout (mem (vm_mm v')) (kernel_pagetable v') l ∧
    ∀ va, 0 <= va → xlate (mem (vm_mm v')) (kernel_pagetable v') va = kernel_map (va / 4096).
Proof. exact (boot_address_space (L:=sample_layout) (VM boot_mm 0) boot_world). Defined.

(** Addresses the kernel map covers. *)
Definition kernel_va (va : Z) : Prop :=
  0x80000000 <= va < 0x88000000 ∨ 0x10000000 <= va < 0x10001000 ∨
  0x0C000000 <= va < 0x10000000 ∨ 0x02000000 <= va < 0x02010000.

Lemma kernel_map_identity va :
  kernel_va va → ∃ f, flags_ok f ∧ kernel_map (va / 4096) = Some (mk_pte (4096 * (va / 4096)) f).
Proof.
  intros Hva. unfold kernel_va, kernel_map in *.
  assert (va / 4096 * 4096 <= va < va / 4096 * 4096 + 4096) by (Z.div_mod_to_equations; lia).
  repeat match goal with
  | |- context [?a <=? ?b] => destruct (Z.leb_spec a b)
  | |- context [?a <? ?b] => destruct (Z.ltb_spec a b)
  | |- context [?a =? ?b] => destruct (Z.eqb_spec a b)
  end; simpl; try (exfalso; lia).
  all: first [by exists 14|by exists 6].
Qed.

(** After boot, [va2pa] with the kernel page table is the identity
    on all of RAM and on the device registers the kernel uses. *)
Theorem kernel_identity_map {L : Layout} {LO : LayoutOk L} (v v' : vm_state) (w w' w1 : world) (va : Z) :
  boot_vm v w = Ret tt v' w' → kernel_va va →
  ∃ w2, va2pa (kernel_pagetable v') va (vm_mm v') w1 = Ret va (vm_mm v') w2.
Proof.
  intros Hrun Hva.
  assert (wp boot_vm (λ _ v', ∃ l, has_map (kernel_pagetable v') kernel_map (vm_mm v') l) never v)
    as Hw by (apply wp_boot_vm; eauto).
  apply (wp_run_ret _ _ _ _ _ _ _ Hw) in Hrun as (l & [Hf Hi Hx]).
  destruct (kernel_map_identity va Hva) as (f & Hflags & Hmap).
  assert (0 <= va < 2 ^ 32) as Hb by (unfold kernel_va in Hva; lia).
  destruct (wp_run (va2pa (kernel_pagetable v') va) (λ r t, t = vm_mm v' ∧ r = va) (vm_mm v') w1)
    as (r & t & w2 & Hr & -> & ->); [|by eauto].
  apply (wp_va2pa _ va l); [done|done|lia|]. split; [done|]. rewrite Hx, Hmap by lia.
  unfold mk_pte. rewrite (u64_id f) by (unfold flags_ok, is_u64 in *; lia).
  rewrite PTE2PA_mappage by (try done; unfold is_u64; Z.div_mod_to_equations; lia).
  replace (4096 * (va / 4096) / 4096 * 4096 + va mod 4096) with va
    by (rewrite page_number; Z.div_mod_to_equations; lia).
  apply u64_id. unfold is_u64. lia.
Qed.

Lemma kernel_identity_map_witness :
  ∃ v' w2, va2pa (kernel_pagetable v') 0x10000005 (vm_mm v') boot_world
             = Ret 0x10000005 (vm_mm v') w2.
Proof.
  destruct (wp_run (@boot_vm sample_layout) (λ _ _, True) (VM boot_mm 0) boot_world)
    as ([] & v' & w' & Hrun & _). { by apply (wp_boot_vm (L:=sample_layout)). }
  exists v'. apply (kernel_identity_map (L:=sample_layout) (VM boot_mm 0) v' boot_world w').
  - exact Hrun.
  - right. left. lia.
Defined.

(** The QEMU test device at [0x100000], which the shell's
    [reboot] stores to, and the RTC at [0x101000] are not in the kernel page
    table: after boot an access to them has no translation. *)
Theorem test_device_unmapped {L : Layout} {LO : LayoutOk L} (v v' : vm_state) (w w' : world) :
  boot_vm v w = Ret tt v' w' →
  xlate (mem (vm_mm v')) (kernel_pagetable v') 0x100000 = None ∧
  xlate (mem (vm_mm v')) (kernel_pagetable v') 0x101000 = None.
Proof.
  intros Hrun.
  assert (wp boot_vm (λ _ v', ∃ l, has_map (kernel_pagetable v') kernel_map (vm_mm v') l) never v)
    as Hw by (apply wp_boot_vm; eauto).
  apply (wp_run_ret _ _ _ _ _ _ _ Hw) in Hrun as (l & [Hf Hi Hx]).
  by rewrite !Hx.
Qed.

Lemma test_device_unmapped_witness :
  ∃ v', xlate (mem (vm_mm v')) (kernel_pagetable v') 0x100000 = None ∧
        xlate (mem (vm_mm v')) (kernel_pagetable v') 0x101000 = None.
Proof.
  destruct (wp_run (@boot_vm sample_layout) (λ _ _, True) (VM boot_mm 0) boot_world)
    as ([] & v' & w' & Hrun & _). { by apply (wp_boot_vm (L:=sample_layout)). }
  exists v'. exact (test_device_unmapped (L:=sample_layout) (VM boot_mm 0) v' boot_world w' Hrun).
Defined.

(** The mode (bits 63-60) and the rest of a [satp] value. *)
Definition satp_mode (satp : Z) : Z := satp / 2 ^ 60.
Definition satp_root (satp : Z) : Z := satp mod 2 ^ 60.

(** [kvminithart] writes [satp] before it fences, with mode 8 (SV39)
    in the top four bits, address-space id 0 and the page number of the kernel
    page table in the low 44 bits. *)
Theorem kvminithart_satp (v : vm_state) (w : world) :
  0 <= kernel_pagetable v < 2 ^ 56 →
  ∃ satp out, kvminithart v w =
      Ret tt v (emits ([EvSatp satp; EvSfence] ++ map EvPutc out) w) ∧
    satp_mode satp = 8 ∧ satp_root satp = kernel_pagetable v / 4096.
Proof.
  intros Hp. set (p := kernel_pagetable v) in *.
  destruct (printf_loop_prints (S:=vm_state) (S (length (ln "[VM] Switched to SV39 paging mode")))
    (ln "[VM] Switched to SV39 paging mode") [] eq_refl) as [out Hout].
  exists (Z.lor SATP_SV39 (Z.shiftr p 12)), out. split.
  - unfold kvminithart, bind, gets, emit; simpl bind_res. fold p.
    unfold printf. rewrite Hout. by rewrite emits_emits.
  - unfold satp_mode, satp_root, SATP_SV39. rewrite Z.shiftr_div_pow2 by lia. change (2 ^ 12) with 4096.
    change (2 ^ 56) with (2 ^ 44 * 4096) in Hp.
    assert (0 <= p / 4096 < 2 ^ 44) by (Z.div_mod_to_equations; lia).
    rewrite lor_low_field by lia. split.
    + rewrite Z.div_add_l, Z.div_small by lia. lia.
    + rewrite Z.add_comm, Z.mod_add by lia. apply Z.mod_small. lia.
Qed.

Lemma kvminithart_satp_witness :
  ∃ satp out, kvminithart (VM boot_mm 0x80620000) boot_world =
      Ret tt (VM boot_mm 0x80620000) (emits ([EvSatp satp; EvSfence] ++ map EvPutc out) boot_world) ∧
    satp_mode satp = 8 ∧ satp_root satp = 0x80620000 / 4096.
Proof. apply (kvminithart_satp (VM boot_mm 0x80620000) boot_world). simpl. lia. Defined.
