(* ===== verification/Process.v ===== *)
(** Processes, [kernel/process/process.h] and [kernel/process/process.c]: the
    process structure, the process table and the tick counter. *)

From Stdlib Require Import String.
From S2P Require Import Prelude Machine Uart Printf.
Local Open Scope string_scope.
Local Open Scope Z_scope.

(** ** Data, [process.h] *)

Inductive proc_state :=
  PROC_UNUSED | PROC_RUNNABLE | PROC_RUNNING | PROC_SLEEPING | PROC_ZOMBIE.

Inductive sched_policy := SCHED_NORMAL | SCHED_FIFO | SCHED_RR | SCHED_IDLE.

#[export] Instance proc_state_eq_dec : EqDecision proc_state.
Proof. solve_decision. Defined.
#[export] Instance sched_policy_eq_dec : EqDecision sched_policy.
Proof. solve_decision. Defined.

(** The C values of the enumerators, as [printf] shows them. *)
Definition state_code (s : proc_state) : Z :=
  match s with
  | PROC_UNUSED => 0 | PROC_RUNNABLE => 1 | PROC_RUNNING => 2
  | PROC_SLEEPING => 3 | PROC_ZOMBIE => 4
  end.
Definition policy_code (p : sched_policy) : Z :=
  match p with SCHED_NORMAL => 0 | SCHED_FIFO => 1 | SCHED_RR => 2 | SCHED_IDLE => 3 end.

Definition PRIORITY_MIN : Z := 0.
Definition PRIORITY_MAX : Z := 139.
Definition PRIORITY_DEFAULT : Z := 100.
Definition PRIORITY_RT_MAX : Z := 99.
Definition PRIORITY_NORMAL_MIN : Z := 100.
Definition MAX_PROCESSES : Z := 64.

(** Callee-saved registers. *)
Record context := Context_ {
  c_ra : Z; c_sp : Z; c_s0 : Z; c_s1 : Z; c_s2 : Z; c_s3 : Z; c_s4 : Z; c_s5 : Z;
  c_s6 : Z; c_s7 : Z; c_s8 : Z; c_s9 : Z; c_s10 : Z; c_s11 : Z }.
Definition context_zero : context := Context_ 0 0 0 0 0 0 0 0 0 0 0 0 0 0.

Record proc_stats := Stats {
  cpu_time : Z; context_switches : Z; start_time : Z; last_run : Z }.

Record process := Process_ {
  p_pid : Z; p_state : proc_state; p_pagetable : Z; p_context : context;
  p_kernel_sp : Z; p_user_sp : Z; p_name : list Z;
  p_priority : Z; p_dynamic_priority : Z; p_policy : sched_policy; p_queue_level : Z;
  p_time_slice : Z; p_cpu_affinity : Z; p_cpu_id : Z; p_stats : proc_stats }.

Definition set_state v p := Process_ (p_pid p) v (p_pagetable p) (p_context p) (p_kernel_sp p)
  (p_user_sp p) (p_name p) (p_priority p) (p_dynamic_priority p) (p_policy p)
  (p_queue_level p) (p_time_slice p) (p_cpu_affinity p) (p_cpu_id p) (p_stats p).
Definition set_context v p := Process_ (p_pid p) (p_state p) (p_pagetable p) v (p_kernel_sp p)
  (p_user_sp p) (p_name p) (p_priority p) (p_dynamic_priority p) (p_policy p)
  (p_queue_level p) (p_time_slice p) (p_cpu_affinity p) (p_cpu_id p) (p_stats p).
Definition set_priorities v d p := Process_ (p_pid p) (p_state p) (p_pagetable p) (p_context p)
  (p_kernel_sp p) (p_user_sp p) (p_name p) v d (p_policy p)
  (p_queue_level p) (p_time_slice p) (p_cpu_affinity p) (p_cpu_id p) (p_stats p).
Definition set_policy v p := Process_ (p_pid p) (p_state p) (p_pagetable p) (p_context p)
  (p_kernel_sp p) (p_user_sp p) (p_name p) (p_priority p) (p_dynamic_priority p) v
  (p_queue_level p) (p_time_slice p) (p_cpu_affinity p) (p_cpu_id p) (p_stats p).
Definition set_queue_level v p := Process_ (p_pid p) (p_state p) (p_pagetable p) (p_context p)
  (p_kernel_sp p) (p_user_sp p) (p_name p) (p_priority p) (p_dynamic_priority p) (p_policy p)
  v (p_time_slice p) (p_cpu_affinity p) (p_cpu_id p) (p_stats p).
Definition set_time_slice v p := Process_ (p_pid p) (p_state p) (p_pagetable p) (p_context p)
  (p_kernel_sp p) (p_user_sp p) (p_name p) (p_priority p) (p_dynamic_priority p) (p_policy p)
  (p_queue_level p) v (p_cpu_affinity p) (p_cpu_id p) (p_stats p).
Definition set_cpu_id v p := Process_ (p_pid p) (p_state p) (p_pagetable p) (p_context p)
  (p_kernel_sp p) (p_user_sp p) (p_name p) (p_priority p) (p_dynamic_priority p) (p_policy p)
  (p_queue_level p) (p_time_slice p) (p_cpu_affinity p) v (p_stats p).
Definition set_stats v p := Process_ (p_pid p) (p_state p) (p_pagetable p) (p_context p)
  (p_kernel_sp p) (p_user_sp p) (p_name p) (p_priority p) (p_dynamic_priority p) (p_policy p)
  (p_queue_level p) (p_time_slice p) (p_cpu_affinity p) (p_cpu_id p) v.

(** [x++] on the counters. *)
Definition inc_switches (p : process) : process :=
  let t := p_stats p in
  set_stats (Stats (cpu_time t) (u64 (context_switches t + 1)) (start_time t) (last_run t)) p.
Definition inc_cpu_time (p : process) : process :=
  let t := p_stats p in
  set_stats (Stats (u64 (cpu_time t + 1)) (context_switches t) (start_time t) (last_run t)) p.
Definition set_last_run (v : Z) (p : process) : process :=
  let t := p_stats p in
  set_stats (Stats (cpu_time t) (context_switches t) (start_time t) v) p.

(** ** Storage

    A [process_t *] that is not NULL points into the process table or into the
    per-CPU idle processes of the scheduler. *)

Inductive procref := PProc (i : nat) | PIdle (c : nat).
#[export] Instance procref_eq_dec : EqDecision procref.
Proof. solve_decision. Defined.

Record pstate := PState {
  proc_table : list process;
  idle_processes : list process;
  next_pid : Z;
  global_ticks : Z }.

Definition lookup_proc (p : procref) (t : pstate) : option process :=
  match p with
  | PProc i => proc_table t !! i
  | PIdle c => idle_processes t !! c
  end.

Definition update_proc (p : procref) (f : process → process) (t : pstate) : pstate :=
  match p with
  | PProc i => PState (alter f i (proc_table t)) (idle_processes t) (next_pid t) (global_ticks t)
  | PIdle c => PState (proc_table t) (alter f c (idle_processes t)) (next_pid t) (global_ticks t)
  end.

Lemma lookup_update p q f t :
  lookup_proc q (update_proc p f t) =
    if decide (p = q) then f <$> lookup_proc q t else lookup_proc q t.
Proof.
  destruct p as [i|i], q as [j|j]; simpl; try done;
    rewrite list_lookup_alter; repeat case_decide; congruence.
Qed.

(** Storing a whole process structure: the form that updates of one process
    are brought to. *)
Definition put_proc (r : procref) (p : process) (t : pstate) : pstate := update_proc r (λ _, p) t.

Lemma update_put r f t p :
  lookup_proc r t = Some p → update_proc r f t = put_proc r (f p) t.
Proof.
  unfold put_proc. destruct r as [i|i]; simpl; intros Hp; f_equal;
    apply list_alter_ext; intros; simplify_eq/=; congruence.
Qed.

Lemma put_put r p p' t : put_proc r p (put_proc r p' t) = put_proc r p t.
Proof.
  unfold put_proc. destruct r as [i|i]; simpl; f_equal;
    by rewrite list_alter_alter_eq.
Qed.

Lemma lookup_put r p t q :
  is_Some (lookup_proc r t) →
  lookup_proc q (put_proc r p t) = if decide (r = q) then Some p else lookup_proc q t.
Proof.
  intros [p0 Hp0]. unfold put_proc. rewrite lookup_update.
  case_decide; [|done]. subst. by rewrite Hp0.
Qed.

Lemma put_proc_shape r p t :
  length (proc_table (put_proc r p t)) = length (proc_table t) ∧
  length (idle_processes (put_proc r p t)) = length (idle_processes t) ∧
  next_pid (put_proc r p t) = next_pid t ∧ global_ticks (put_proc r p t) = global_ticks t.
Proof. destruct r; simpl; rewrite length_alter; done. Qed.

(** A process table slot of the BSS: all zero. *)
Definition process_zero : process :=
  Process_ 0 PROC_UNUSED 0 context_zero 0 0 (replicate 32 0) 0 0 SCHED_NORMAL 0 0 0 0
    (Stats 0 0 0 0).

(** ** Operations, [process.c] *)

Definition get_ticks (t : pstate) : Z := global_ticks t.

Definition tick_increment (t : pstate) : pstate :=
  PState (proc_table t) (idle_processes t) (next_pid t) (u64 (global_ticks t + 1)).

Definition clear_slot (p : process) : process :=
  Process_ 0 PROC_UNUSED (p_pagetable p) (p_context p) (p_kernel_sp p)
    (p_user_sp p) (p_name p) (p_priority p) (p_dynamic_priority p) (p_policy p)
    (p_queue_level p) (p_time_slice p) (p_cpu_affinity p) (p_cpu_id p) (p_stats p).

Definition process_init (t : pstate) : pstate :=
  PState (clear_slot <$> proc_table t) (idle_processes t) (next_pid t) (global_ticks t).

(** The assignments of [process_alloc] to a free slot. *)
Definition fresh_process (pid ticks : Z) (p : process) : process :=
  Process_ pid PROC_RUNNABLE (p_pagetable p) (p_context p) (p_kernel_sp p) (p_user_sp p)
    (<[0%nat := 0]> (p_name p)) PRIORITY_DEFAULT PRIORITY_DEFAULT SCHED_NORMAL 0 0
    0xFFFFFFFFFFFFFFFF (-1) (Stats 0 0 ticks 0).

(** [for (i = 0; ...) if (proc_table[i].state == PROC_UNUSED)]: first free slot. *)
Fixpoint first_unused (l : list process) : option nat :=
  match l with
  | [] => None
  | p :: l' =>
      if decide (p_state p = PROC_UNUSED) then Some 0%nat else S <$> first_unused l'
  end.

Definition process_alloc (t : pstate) : option procref * pstate :=
  match first_unused (proc_table t) with
  | Some i =>
      (Some (PProc i),
       PState (alter (fresh_process (next_pid t) (global_ticks t)) i (proc_table t))
         (idle_processes t) (u64 (next_pid t + 1)) (global_ticks t))
  | None => (None, t)
  end.

Definition freed_process (p : process) : process :=
  Process_ 0 PROC_UNUSED (p_pagetable p) (p_context p) (p_kernel_sp p) (p_user_sp p)
    (p_name p) 0 0 (p_policy p) 0 0 (p_cpu_affinity p) (-1)
    (Stats 0 0 (start_time (p_stats p)) (last_run (p_stats p))).

Definition process_free (p : option procref) (t : pstate) : pstate :=
  match p with Some r => update_proc r freed_process t | None => t end.

(** The copy into [*stats]; [None] is a NULL pointer on either side. *)
Definition process_get_stats (p : option process) (stats : option proc_stats) : option proc_stats :=
  match p, stats with
  | Some q, Some _ => Some (p_stats q)
  | _, _ => stats
  end.

(** [arg] of an [int]: sign-extended to the 64-bit slot. *)
Definition process_print_stats (r : option procref) : K pstate unit := λ t w,
  match (r ≫= λ p, lookup_proc p t) with
  | None => match r with None => Ret tt t w | Some _ => Fault t w end
  | Some p =>
      if decide (p_state p = PROC_UNUSED) then Ret tt t w
      else
        let uptime := u64 (global_ticks t - start_time (p_stats p)) in
        (printf (ln "Process %lu (%s):") [ANum (p_pid p); AStr (p_name p)] ;;
         printf (ln "  State: %d, Priority: %d, Policy: %d")
           [ANum (state_code (p_state p)); ANum (p_priority p); ANum (policy_code (p_policy p))] ;;
         printf (ln "  CPU Time: %lu ticks") [ANum (cpu_time (p_stats p))] ;;
         printf (ln "  Context Switches: %lu") [ANum (context_switches (p_stats p))] ;;
         printf (ln "  Uptime: %lu ticks") [ANum uptime] ;;
         if 0 <? uptime then
           printf (ln "  CPU Usage: %lu%%")
             [ANum (u64 (cpu_time (p_stats p) * 100) / uptime)]
         else ret tt) t w
  end.

(** ** Allocation *)

Lemma first_unused_spec l :
  match first_unused l with
  | Some i => ∃ p, l !! i = Some p ∧ p_state p = PROC_UNUSED ∧
      (∀ j q, (j < i)%nat → l !! j = Some q → p_state q ≠ PROC_UNUSED)
  | None => Forall (λ q, p_state q ≠ PROC_UNUSED) l
  end.
Proof.
  induction l as [|p l IH]; simpl; [constructor|]. case_decide as Hp.
  - exists p. split_and!; [done|done|]. intros. lia.
  - destruct (first_unused l) as [i|]; simpl; [|by constructor].
    destruct IH as (q & Hq & Hs & Hlow). exists q. split_and!; [done|done|].
    intros [|j] q' Hj Hq'; [by injection Hq' as <-|]. eapply Hlow; [|done]. lia.
Qed.

Lemma first_unused_state l i :
  (p_state <$> l) !! i = Some PROC_UNUSED →
  (∀ j, (j < i)%nat → (p_state <$> l) !! j ≠ Some PROC_UNUSED) → first_unused l = Some i.
Proof.
  revert i. induction l as [|p l IH]; intros i Hi Hlow; [done|]. cbn [fmap list_fmap] in Hi, Hlow. cbn [first_unused].
  destruct i as [|i]; cbn in Hi.
  - injection Hi as Hp. by rewrite decide_True.
  - rewrite decide_False by (intros Hp; apply (Hlow 0%nat); [lia|]; cbn; by rewrite Hp).
    rewrite (IH i Hi); [done|]. intros j Hj. apply (Hlow (S j)). lia.
Qed.

Lemma process_alloc_some t i :
  first_unused (proc_table t) = Some i →
  ∃ p, lookup_proc (PProc i) t = Some p ∧ p_state p = PROC_UNUSED ∧
    process_alloc t = (Some (PProc i),
      let t' := put_proc (PProc i) (fresh_process (next_pid t) (global_ticks t) p) t in
      PState (proc_table t') (idle_processes t') (u64 (next_pid t + 1)) (global_ticks t')).
Proof.
  intros Hf. pose proof (first_unused_spec (proc_table t)) as Hs. rewrite Hf in Hs.
  destruct Hs as (p & Hp & Hst & _). exists p. split_and!; [done|done|].
  unfold process_alloc. rewrite Hf. do 2 f_equal. simpl. apply list_alter_ext; [|done].
  intros q Hq. congruence.
Qed.

(** A slot is in use. *)
Definition used (t : pstate) (i : nat) (p : process) : Prop :=
  proc_table t !! i = Some p ∧ p_state p ≠ PROC_UNUSED.

(** Process identifiers: positive, already handed out, and distinct. *)
Record pids_ok (t : pstate) : Prop := {
  pid_next : 1 <= next_pid t;
  pid_range : ∀ i p, used t i p → 1 <= p_pid p < next_pid t;
  pid_unique : ∀ i j p q, used t i p → used t j q → p_pid p = p_pid q → i = j }.

Inductive proc_op := OAlloc | OFree (r : option procref).

Definition proc_step (t : pstate) (o : proc_op) : pstate :=
  match o with OAlloc => snd (process_alloc t) | OFree r => process_free r t end.

Lemma pids_ok_alloc t :
  pids_ok t → next_pid t + 1 < 18446744073709551616 → pids_ok (snd (process_alloc t)).
Proof.
  intros [Hn Hr Hu] Hb. destruct (first_unused (proc_table t)) as [i|] eqn:Hf.
  2:{ unfold process_alloc. rewrite Hf. by constructor. }
  destruct (process_alloc_some t i Hf) as (p & Hp & Hst & ->). simpl in Hp |- *.
  rewrite u64_id by (unfold is_u64; lia).
  set (f := fresh_process (next_pid t) (global_ticks t) p).
  assert (∀ j q, alter (λ _, f) i (proc_table t) !! j = Some q →
    (j = i ∧ q = f) ∨ (j ≠ i ∧ proc_table t !! j = Some q)) as Hlk.
  { intros j q. rewrite list_lookup_alter. case_decide; [subst; rewrite Hp; simpl|]; naive_solver. }
  assert (p_pid f = next_pid t) as Hpid by done.
  constructor; unfold used; simpl.
  - lia.
  - intros j q [Hq Hqs]. apply Hlk in Hq as [[-> ->]|[Hne Hq]]; [rewrite Hpid; lia|].
    specialize (Hr j q (conj Hq Hqs)). lia.
  - intros j k q q' [Hq Hqs] [Hq' Hqs'] He.
    apply Hlk in Hq as [[-> ->]|[Hne Hq]], Hq' as [[-> ->]|[Hne' Hq']]; [done| | |by eapply Hu].
    + specialize (Hr k q' (conj Hq' Hqs')). lia.
    + specialize (Hr j q (conj Hq Hqs)). lia.
Qed.

Lemma pids_ok_free t r : pids_ok t → pids_ok (process_free r t).
Proof.
  intros [Hn Hr Hu]. destruct r as [[i|c]|]; [|by constructor|by constructor].
  assert (∀ j q, used (process_free (Some (PProc i)) t) j q → used t j q) as Hsub.
  { unfold used, process_free; simpl. intros j q [Hq Hqs]. rewrite list_lookup_alter in Hq.
    case_decide; [|done]. subst. by apply fmap_Some in Hq as (p & _ & ->). }
  constructor; [done|eauto|eauto].
Qed.

(** [process_alloc] returns NULL and changes nothing exactly
    when no slot of the table is unused; otherwise it takes the first unused
    slot, makes it a runnable normal process of the default priority with the
    next identifier and empty accounts, and leaves every other process as it
    was. *)
Theorem process_alloc_spec (t : pstate) :
  match process_alloc t with
  | (None, t') => t' = t ∧ ∀ i p, lookup_proc (PProc i) t = Some p → p_state p ≠ PROC_UNUSED
  | (Some r, t') =>
      ∃ i p p', r = PProc i ∧ lookup_proc r t = Some p ∧ p_state p = PROC_UNUSED ∧
        (∀ j q, (j < i)%nat → lookup_proc (PProc j) t = Some q → p_state q ≠ PROC_UNUSED) ∧
        lookup_proc r t' = Some p' ∧ p_pid p' = next_pid t ∧ p_state p' = PROC_RUNNABLE ∧
        p_policy p' = SCHED_NORMAL ∧ p_priority p' = PRIORITY_DEFAULT ∧ p_queue_level p' = 0 ∧
        p_stats p' = Stats 0 0 (global_ticks t) 0 ∧
        (∀ q, q ≠ r → lookup_proc q t' = lookup_proc q t)
  end.
Proof.
  pose proof (first_unused_spec (proc_table t)) as Hs.
  destruct (first_unused (proc_table t)) as [i|] eqn:Hf.
  - destruct (process_alloc_some t i Hf) as (p & Hp & Hst & ->).
    destruct Hs as (p0 & Hp0 & _ & Hlow). set (f := fresh_process _ _ p).
    exists i, p, f. split_and!; try done.
    + change (lookup_proc (PProc i) (put_proc (PProc i) f t) = Some f).
      by rewrite lookup_put, decide_True by eauto.
    + intros q Hq. transitivity (lookup_proc q (put_proc (PProc i) f t)); [by destruct q|].
      rewrite lookup_put, decide_False by (eauto || congruence). done.
  - unfold process_alloc. rewrite Hf. split; [done|]. intros i p Hp.
    rewrite Forall_forall in Hs. by eapply Hs, list_elem_of_lookup_2.
Qed.

(** C32: from [process_init] on any table, after any sequence of fewer than
    [2^64 - 2] allocations and releases the processes in use have distinct
    positive identifiers. *)
Theorem pids_distinct (t0 : pstate) (ops : list proc_op) :
  next_pid t0 = 1 → Z.of_nat (length ops) < 18446744073709551614 →
  pids_ok (fold_left proc_step ops (process_init t0)).
Proof.
  intros Hn Hlen.
  assert (∀ t, pids_ok t → next_pid t + Z.of_nat (length ops) < 18446744073709551615 →
    pids_ok (fold_left proc_step ops t)) as Hgen.
  { clear. induction ops as [|o ops IH]; intros t Ht Hb; simpl in *; [done|].
    assert (next_pid (proc_step t o) <= next_pid t + 1) as Hnx.
    { destruct o as [|r]; simpl.
      - destruct (first_unused (proc_table t)) as [i|] eqn:Hf.
        + destruct (process_alloc_some t i Hf) as (p & _ & _ & ->). simpl.
          pose proof (pid_next t Ht). rewrite u64_id by (unfold is_u64; lia). lia.
        + unfold process_alloc. rewrite Hf. simpl. lia.
      - destruct r as [[]|]; simpl; lia. }
    apply IH; [|lia]. destruct o; simpl; [apply pids_ok_alloc; [done|lia]|by apply pids_ok_free]. }
  apply Hgen; [|simpl; lia]. constructor; simpl; [lia| |];
    unfold used; simpl; intros *; rewrite list_lookup_fmap;
    intros [Hp Hst]; apply fmap_Some in Hp as (q0 & _ & ->); by destruct Hst.
Qed.

Definition boot_table : pstate := PState (replicate 64 process_zero) (replicate 8 process_zero) 1 0.

Lemma pids_distinct_witness :
  pids_ok (fold_left proc_step [OAlloc; OAlloc; OFree (Some (PProc 0)); OAlloc] (process_init boot_table)).
Proof.
  apply (pids_distinct boot_table [OAlloc; OAlloc; OFree (Some (PProc 0)); OAlloc]).
  - reflexivity.
  - simpl. lia.
Defined.

(** [process_print_stats] of a live process never returns: its
    ["Process %lu (%s)"] makes [%s] take the process identifier for the name
    pointer, and the load through it faults. *)
Theorem print_stats_faults (t : pstate) (w : world) (i : nat) (p : process) :
  used t i p → 0 < p_pid p < 18446744073709551616 →
  ∃ w', process_print_stats (Some (PProc i)) t w = Fault t w'.
Proof.
  intros [Hp Hst] Hpid. unfold process_print_stats. simpl. rewrite Hp.
  rewrite decide_False by done. unfold bind.
  assert (∃ w', printf (ln "Process %lu (%s):") [ANum (p_pid p); AStr (p_name p)] t w = Fault t w') as [w' ->];
    [|by exists w'].
  assert (u64 (p_pid p) ≠ 0) as Hz by (rewrite u64_id by (unfold is_u64; lia); lia).
  generalize dependent (p_pid p). intros pid _ Hz. generalize (p_name p). intros name.
  cbv -[u64]. destruct (u64 pid); [done|eexists; reflexivity|eexists; reflexivity].
Qed.

Lemma print_stats_faults_witness :
  let t := snd (process_alloc (process_init boot_table)) in
  ∃ w', process_print_stats (Some (PProc 0)) t (mkWorld [] []) = Fault t w'.
Proof.
  intros t. apply (print_stats_faults t (mkWorld [] []) 0 (fresh_process 1 0 (clear_slot process_zero))).
  - split; [reflexivity|discriminate].
  - simpl. lia.
Defined.
