(* ===== verification/Queues.v ===== *)
(** The run queues of [kernel/process/scheduler.c]: the ring buffers of the
    multi-level feedback queue and the sorted array of the real-time queue,
    with the abstract queues they implement. *)

From Stdlib Require Import Sorted.
From S2P Require Import Prelude Machine Process.

(** ** Ring buffers, [mlfq_t] *)

Record mlfq := Mlfq { q_queue : list (option procref); q_head : Z; q_tail : Z; q_size : Z }.

Definition mlfq_init (q : mlfq) : mlfq := Mlfq (q_queue q) 0 0 0.

(** [None]: an index outside [queue]. *)
Definition mlfq_enqueue (q : mlfq) (proc : option procref) : option mlfq :=
  if bool_decide (proc = None) || (MAX_PROCESSES <=? q_size q) then Some q
  else
    queue' ← arr_set (q_queue q) (q_tail q) proc;
    Some (Mlfq queue' (q_head q) (Z.rem (q_tail q + 1) MAX_PROCESSES) (q_size q + 1)).

Definition mlfq_dequeue (q : mlfq) : option (option procref * mlfq) :=
  if q_size q =? 0 then Some (None, q)
  else
    proc ← arr_get (q_queue q) (q_head q);
    Some (proc, Mlfq (q_queue q) (Z.rem (q_head q + 1) MAX_PROCESSES) (q_tail q) (q_size q - 1)).

(** ** Sorted array, [rt_queue_t] *)

Record rt_queue := RtQueue { rt_slots : list (option procref); rt_size : Z }.

Definition priority_of (t : pstate) (p : option procref) : option Z :=
  r ← p; p_priority <$> lookup_proc r t.
#[global] Arguments priority_of : simpl never.

(** The loop of [rt_enqueue] from index [i] down: the insertion point and the
    shifted array. *)
Fixpoint rt_shift (t : pstate) (pr : Z) (i : nat) (slots : list (option procref)) :
    option (nat * list (option procref)) :=
  match i with
  | O => Some (O, slots)
  | S i' =>
      x ← slots !! i';
      pr' ← priority_of t x;
      if pr' <=? pr then Some (i, slots)
      else
        slots' ← arr_set slots (Z.of_nat i) x;
        rt_shift t pr i' slots'
  end.

Definition rt_enqueue (t : pstate) (q : rt_queue) (proc : option procref) : option rt_queue :=
  if bool_decide (proc = None) || (MAX_PROCESSES <=? rt_size q) then Some q
  else
    pr ← priority_of t proc;
    '(i, slots) ← rt_shift t pr (Z.to_nat (rt_size q)) (rt_slots q);
    slots' ← arr_set slots (Z.of_nat i) proc;
    Some (RtQueue slots' (rt_size q + 1)).

(** [for (i = ...; i < size; i++) queue[i] = queue[i+1]], [n] iterations left. *)
Fixpoint rt_close (i n : nat) (slots : list (option procref)) : option (list (option procref)) :=
  match n with
  | O => Some slots
  | S n' =>
      x ← arr_get slots (Z.of_nat i + 1);
      slots' ← arr_set slots (Z.of_nat i) x;
      rt_close (S i) n' slots'
  end.

Definition rt_dequeue (q : rt_queue) : option (option procref * rt_queue) :=
  if rt_size q =? 0 then Some (None, q)
  else
    proc ← arr_get (rt_slots q) 0;
    slots' ← rt_close 0 (Z.to_nat (rt_size q - 1)) (rt_slots q);
    Some (proc, RtQueue slots' (rt_size q - 1)).

(** ** The bounded FIFO that a ring implements *)

Record ring (q : mlfq) (l : list procref) : Prop := {
  ring_len : length (q_queue q) = 64%nat;
  ring_head : 0 <= q_head q < 64;
  ring_tail : q_tail q = (q_head q + q_size q) mod 64;
  ring_size : q_size q = Z.of_nat (length l);
  ring_cap : (length l <= 64)%nat;
  ring_slots : ∀ (i : nat) p, l !! i = Some p →
    arr_get (q_queue q) ((q_head q + Z.of_nat i) mod 64) = Some (Some p) }.

Lemma ring_init q : length (q_queue q) = 64%nat → ring (mlfq_init q) [].
Proof. intros Hl. constructor; simpl; try done; lia. Qed.

Definition fifo_enqueue (l : list procref) (p : option procref) : list procref :=
  match p with
  | Some r => if decide (length l < 64)%nat then l ++ [r] else l
  | None => l
  end.
Definition fifo_dequeue (l : list procref) : option procref * list procref :=
  match l with [] => (None, []) | p :: l' => (Some p, l') end.

Lemma mlfq_enqueue_ring q l p :
  ring q l → ∃ q', mlfq_enqueue q p = Some q' ∧ ring q' (fifo_enqueue l p).
Proof.
  intros [Hlen Hh Ht Hs Hc Hsl]. unfold mlfq_enqueue, fifo_enqueue, MAX_PROCESSES.
  destruct p as [p|]; simpl; [|by eexists; split; [done|constructor]].
  destruct (Z.leb_spec 64 (q_size q)) as [Hfull|Hroom]; case_decide; try lia.
  { by eexists; split; [done|constructor]. }
  assert (0 <= q_tail q < 64) as Htr by (rewrite Ht; apply Z.mod_pos_bound; lia).
  rewrite arr_set_some by (rewrite Hlen; lia). simpl. eexists; split; [done|].
  constructor; simpl; try done.
  - by rewrite length_insert.
  - rewrite Z.rem_mod_nonneg by lia. rewrite Ht, Zplus_mod_idemp_l. f_equal. lia.
  - rewrite length_app. simpl. lia.
  - rewrite length_app. simpl. lia.
  - intros i r Hi. rewrite arr_get_insert by (rewrite ?Hlen; try lia; apply Z.mod_pos_bound; lia).
    apply lookup_app_Some in Hi as [Hi|[Hi1 Hi2]].
    + rewrite decide_False; [by apply Hsl|]. apply lookup_lt_Some in Hi.
      rewrite Ht, Hs. intros He. Z.div_mod_to_equations. lia.
    + apply list_lookup_singleton_Some in Hi2 as [Hi2 <-].
      rewrite decide_True; [done|]. rewrite Ht, Hs. f_equal. lia.
Qed.

Lemma mlfq_dequeue_ring q l :
  ring q l → ∃ q', mlfq_dequeue q = Some (fst (fifo_dequeue l), q') ∧ ring q' (snd (fifo_dequeue l)).
Proof.
  intros Hr. destruct Hr as [Hlen Hh Ht Hs Hc Hsl]. unfold mlfq_dequeue, MAX_PROCESSES.
  destruct l as [|p l]; simpl in *.
  { rewrite Hs. simpl. eexists; split; [done|]. by constructor. }
  destruct (Z.eqb_spec (q_size q) 0) as [|_]; [lia|].
  pose proof (Hsl 0%nat p eq_refl) as H0. rewrite Z.add_0_r, Z.mod_small in H0 by lia.
  rewrite H0. simpl. eexists; split; [done|].
  rewrite Z.rem_mod_nonneg by lia. constructor; simpl; try done; try lia.
  - apply Z.mod_pos_bound; lia.
  - rewrite Ht, Zplus_mod_idemp_l. f_equal. lia.
  - intros i r Hi. rewrite <- (Hsl (S i) r Hi), Zplus_mod_idemp_l. do 2 f_equal. lia.
Qed.

(** ** The list that the sorted array holds *)

Record rt_repr (q : rt_queue) (l : list procref) : Prop := {
  rt_len : length (rt_slots q) = 64%nat;
  rt_size_eq : rt_size q = Z.of_nat (length l);
  rt_cap : (length l <= 64)%nat;
  rt_elems : take (length l) (rt_slots q) = Some <$> l }.

Section Sorted.
Context (t : pstate).

Definition prio (r : procref) : Z := default 0 (p_priority <$> lookup_proc r t).
Definition valid (r : procref) : Prop := is_Some (lookup_proc r t).

Lemma priority_of_valid r : valid r → priority_of t (Some r) = Some (prio r).
Proof. intros [p Hp]. unfold priority_of, prio; simpl. by rewrite Hp. Qed.

(** [l'] is [l] with [p] put after the last element that is at least as
    urgent. *)
Definition inserted (p : procref) (l l' : list procref) : Prop :=
  ∃ la lb, l = la ++ lb ∧ l' = la ++ p :: lb ∧
    Forall (λ x, prio p < prio x) lb ∧ (∀ x, last la = Some x → prio x <= prio p).

Lemma rt_shift_spec p i slots l :
  length l = i → (i < length slots)%nat → take i slots = Some <$> l → Forall valid l →
  ∃ la lb slots',
    rt_shift t (prio p) i slots = Some (length la, slots') ∧ l = la ++ lb ∧
    Forall (λ x, prio p < prio x) lb ∧ (∀ x, last la = Some x → prio x <= prio p) ∧
    length slots' = length slots ∧ take (length la) slots' = Some <$> la ∧
    (∀ k x, lb !! k = Some x → slots' !! (S (length la + k)) = Some (Some x)) ∧
    (∀ k, (i < k)%nat → slots' !! k = slots !! k).
Proof.
  revert slots l. induction i as [|i IH]; intros slots l Hl Hlt Htk Hv.
  - apply nil_length_inv in Hl as ->. exists [], [], slots. simpl.
    split_and!; try done.
  - destruct (exists_last (l := l)) as (l1 & x & ->); [by intros ->|].
    rewrite length_app in Hl; simpl in Hl. apply Forall_app in Hv as [Hv1 Hvx].
    rewrite Forall_singleton in Hvx.
    rewrite fmap_app in Htk; simpl in Htk.
    assert (slots !! i = Some (Some x)) as Hx.
    { rewrite <- (lookup_take_lt slots (S i) i), Htk by lia.
      rewrite lookup_app_r by (rewrite length_fmap; lia).
      rewrite length_fmap. by replace (i - length l1)%nat with 0%nat by lia. }
    simpl. rewrite Hx. cbn [mbind option_bind]. rewrite priority_of_valid by exact Hvx. cbn [mbind option_bind].
    destruct (Z.leb_spec (prio x) (prio p)) as [Hle|Hgt].
    + exists (l1 ++ [x]), [], slots. rewrite app_nil_r, length_app. simpl.
      replace (length l1 + 1)%nat with (S i) by lia. split_and!; try done.
      * intros y. rewrite last_snoc. by intros [= <-].
      * by rewrite fmap_app.
    + rewrite arr_set_some by lia. replace (Z.to_nat (Z.of_nat (S i))) with (S i) by lia. simpl.
      destruct (IH (<[S i:=Some x]> slots) l1) as
        (la & lb & slots' & Hrun & Hsp & Hlb & Hla & Hlen & Htk' & Hk1 & Hk2); try done.
      * lia.
      * rewrite length_insert. lia.
      * rewrite take_insert_ge by lia. apply (f_equal (take i)) in Htk.
        rewrite take_take, take_app_length' in Htk by (rewrite length_fmap; lia).
        by replace (i `min` S i)%nat with i in Htk by lia.
      * exists la, (lb ++ [x]), slots'. rewrite length_insert in Hlen. split_and!; try done.
        -- by rewrite Hsp, app_assoc.
        -- apply Forall_app. split; [done|]. by apply Forall_singleton.
        -- intros k y Hk. apply lookup_app_Some in Hk as [Hk|[Hk Hy]]; [by apply Hk1|].
           apply list_lookup_singleton_Some in Hy as [Hy <-].
           assert (length la + length lb = i)%nat by (rewrite <- length_app, <- Hsp; lia).
           replace (S (length la + k)) with (S i) by lia.
           rewrite Hk2 by lia. apply list_lookup_insert_eq. lia.
        -- intros k Hk. rewrite Hk2 by lia. apply list_lookup_insert_ne. lia.
Qed.

Lemma rt_enqueue_repr q l p :
  rt_repr q l → Forall valid l → valid p → (length l < 64)%nat →
  ∃ q' l', rt_enqueue t q (Some p) = Some q' ∧ rt_repr q' l' ∧ inserted p l l'.
Proof.
  intros [Hlen Hs Hc He] Hv Hp Hroom. unfold rt_enqueue, MAX_PROCESSES.
  destruct (Z.leb_spec 64 (rt_size q)) as [|_]; [lia|]. rewrite bool_decide_false by done. cbn [orb].
  rewrite priority_of_valid by done. simpl. rewrite Hs, Nat2Z.id.
  destruct (rt_shift_spec p (length l) (rt_slots q) l) as
    (la & lb & slots' & Hrun & Hsp & Hlb & Hla & Hlen' & Htk & Hk1 & Hk2); try done; [lia|].
  rewrite Hrun. simpl. assert (length la + length lb = length l)%nat by (by rewrite <- length_app, <- Hsp).
  rewrite arr_set_some, Nat2Z.id by lia. simpl.
  eexists _, (la ++ p :: lb). split; [done|]. split; [|by exists la, lb].
  constructor; simpl; rewrite ?length_insert, ?length_app; simpl; try lia.
  apply list_eq. intros k. destruct (decide (k < length la + S (length lb))%nat) as [Hk|Hk].
  - rewrite lookup_take_lt, list_lookup_fmap by done.
    destruct (decide (k = length la)) as [->|Hne].
    + rewrite list_lookup_insert_eq by lia. by rewrite list_lookup_middle.
    + rewrite list_lookup_insert_ne by done. destruct (decide (k < length la)%nat) as [Hlt|Hge].
      * rewrite lookup_app_l, <- list_lookup_fmap, <- Htk by done. by rewrite lookup_take_lt.
      * rewrite lookup_app_r by lia. destruct (k - length la)%nat as [|j] eqn:Hj; [lia|]. simpl.
        destruct (lookup_lt_is_Some_2 lb j) as [x Hx]; [lia|]. rewrite Hx.
        replace k with (S (length la + j)) by lia. by apply Hk1.
  - rewrite lookup_take_ge by lia. symmetry. apply lookup_ge_None. rewrite length_fmap, length_app. simpl. lia.
Qed.

Lemma rt_close_spec i n slots :
  (i + n < length slots)%nat →
  ∃ slots', rt_close i n slots = Some slots' ∧ length slots' = length slots ∧
    (∀ k, (k < i)%nat → slots' !! k = slots !! k) ∧
    (∀ k, (i <= k < i + n)%nat → slots' !! k = slots !! S k).
Proof.
  revert i slots. induction n as [|n IH]; intros i slots Hlt; simpl.
  - exists slots. split_and!; try done; lia.
  - destruct (lookup_lt_is_Some_2 slots (S i)) as [x Hx]; [lia|].
    replace (Z.of_nat i + 1) with (Z.of_nat (S i)) by lia. rewrite arr_get_nat, Hx. simpl.
    rewrite arr_set_some, Nat2Z.id by lia. simpl.
    destruct (IH (S i) (<[i:=x]> slots)) as (slots' & Hrun & Hlen & Hlo & Hhi);
      [rewrite length_insert; lia|].
    exists slots'. rewrite length_insert in Hlen. split_and!; try done.
    + intros k Hk. rewrite Hlo by lia. apply list_lookup_insert_ne. lia.
    + intros k Hk. destruct (decide (k = i)) as [->|Hne].
      * rewrite Hlo, list_lookup_insert_eq by lia. done.
      * rewrite Hhi by lia. apply list_lookup_insert_ne. lia.
Qed.

Lemma rt_dequeue_repr q l :
  rt_repr q l →
  ∃ q', rt_dequeue q = Some (fst (fifo_dequeue l), q') ∧ rt_repr q' (snd (fifo_dequeue l)).
Proof.
  intros Hr. destruct Hr as [Hlen Hs Hc He]. unfold rt_dequeue. destruct l as [|p l]; simpl in *.
  { rewrite Hs. simpl. eexists; split; [done|]. by constructor. }
  destruct (Z.eqb_spec (rt_size q) 0) as [|_]; [lia|].
  assert (∀ k, (k < S (length l))%nat → rt_slots q !! k = (Some <$> (p :: l)) !! k) as Hget.
  { intros k Hk. rewrite <- (lookup_take_lt _ (S (length l))) by done. by rewrite He. }
  change 0 with (Z.of_nat 0). rewrite arr_get_nat, Hget by lia. simpl.
  replace (Z.to_nat (rt_size q - 1)) with (length l) by lia.
  destruct (rt_close_spec 0 (length l) (rt_slots q)) as (slots' & Hrun & Hlen' & _ & Hhi); [lia|].
  rewrite Hrun. simpl. eexists; split; [done|]. constructor; simpl; try lia.
  apply list_eq. intros k. destruct (decide (k < length l)%nat) as [Hk|Hk].
  - rewrite lookup_take_lt, Hhi, Hget by lia. done.
  - rewrite lookup_take_ge by lia. symmetry. apply lookup_ge_None. rewrite length_fmap. lia.
Qed.

(** Order: most urgent (lowest number) first. *)
Definition sorted (l : list procref) : Prop := StronglySorted (λ x y, prio x <= prio y) l.

Lemma sorted_app_inv la lb :
  sorted (la ++ lb) → sorted la ∧ sorted lb ∧ (∀ x y, x ∈ la → y ∈ lb → prio x <= prio y).
Proof.
  unfold sorted. induction la as [|a la IH]; simpl.
  - intros Hs. split_and!; [constructor|done|]. intros x y Hx. by apply elem_of_nil in Hx.
  - intros Hs. apply StronglySorted_inv in Hs as [Hs Hf].
    destruct (IH Hs) as (Ha & Hb & Hab). rewrite Forall_forall in Hf.
    split_and!; [|done|].
    + constructor; [done|]. apply Forall_forall. intros x Hx. apply Hf. set_solver.
    + intros x y [->|Hx]%elem_of_cons Hy; [apply Hf; set_solver|by apply Hab].
Qed.

Lemma sorted_app la lb :
  sorted la → sorted lb → (∀ x y, x ∈ la → y ∈ lb → prio x <= prio y) → sorted (la ++ lb).
Proof.
  unfold sorted. intros Ha Hb Hab. induction la as [|a la IH]; simpl; [done|].
  apply StronglySorted_inv in Ha as [Ha Hf]. constructor.
  - apply IH; [done|]. intros x y Hx. apply Hab. set_solver.
  - apply Forall_app. split; [done|]. apply Forall_forall. intros y Hy. apply Hab; set_solver.
Qed.

Lemma sorted_last_le la x p :
  sorted la → (∀ y, last la = Some y → prio y <= p) → x ∈ la → prio x <= p.
Proof.
  intros Hs Hlast Hx. destruct la as [|z la _] using rev_ind; [by apply elem_of_nil in Hx|].
  specialize (Hlast z). rewrite last_snoc in Hlast. specialize (Hlast eq_refl).
  apply sorted_app_inv in Hs as (_ & _ & Hab).
  apply elem_of_app in Hx as [Hx| ->%list_elem_of_singleton]; [|done].
  specialize (Hab x z Hx ltac:(set_solver)). lia.
Qed.

Lemma inserted_sorted p l l' : sorted l → inserted p l l' → sorted l'.
Proof.
  intros Hs (la & lb & -> & -> & Hlb & Hla). apply sorted_app_inv in Hs as (Ha & Hb & Hab).
  rewrite Forall_forall in Hlb. apply sorted_app; [done| |].
  - constructor; [done|]. apply Forall_forall. intros y Hy. specialize (Hlb y Hy). lia.
  - intros x y Hx [->|Hy]%elem_of_cons; [|by apply Hab]. by apply (sorted_last_le la).
Qed.
End Sorted.

(** ** Runs of queue operations *)

Inductive qop := Enq (p : option procref) | Deq.

(** The answers of the dequeues, in order, and the final queue; [enq] and [deq]
    are the operations of an implementation that may fault. *)
Fixpoint run_queue {Q} (enq : Q → option procref → option Q)
    (deq : Q → option (option procref * Q)) (ops : list qop) (q : Q) :
    option (list (option procref) * Q) :=
  match ops with
  | [] => Some ([], q)
  | Enq p :: ops' => q' ← enq q p; run_queue enq deq ops' q'
  | Deq :: ops' =>
      '(x, q') ← deq q; '(xs, q'') ← run_queue enq deq ops' q'; Some (x :: xs, q'')
  end.

(** The same for an abstract queue, a list. *)
Fixpoint run_spec (enq : list procref → option procref → list procref)
    (deq : list procref → option procref * list procref) (ops : list qop) (l : list procref) :
    list (option procref) * list procref :=
  match ops with
  | [] => ([], l)
  | Enq p :: ops' => run_spec enq deq ops' (enq l p)
  | Deq :: ops' =>
      let '(x, l') := deq l in let '(xs, l'') := run_spec enq deq ops' l' in (x :: xs, l'')
  end.

(** Simulation of one queue by the other lifts to runs. *)
Lemma run_queue_refines {Q} (R : Q → list procref → Prop) (ok : option procref → Prop)
    enq deq senq sdeq ops (q : Q) l :
  (∀ q l p, ok p → R q l → ∃ q', enq q p = Some q' ∧ R q' (senq l p)) →
  (∀ q l, R q l → ∃ q', deq q = Some (fst (sdeq l), q') ∧ R q' (snd (sdeq l))) →
  Forall (λ o, match o with Enq p => ok p | Deq => True end) ops → R q l →
  ∃ q', run_queue enq deq ops q = Some (fst (run_spec senq sdeq ops l), q') ∧
    R q' (snd (run_spec senq sdeq ops l)).
Proof.
  intros He Hd. revert q l. induction ops as [|o ops IH]; intros q l Hok HR; simpl.
  { by exists q. }
  apply Forall_cons_1 in Hok as [Ho Hok]. destruct o as [p|].
  - destruct (He q l p Ho HR) as (q1 & -> & HR1). simpl. by apply IH.
  - destruct (Hd q l HR) as (q1 & -> & HR1). simpl.
    destruct (IH q1 _ Hok HR1) as (q2 & -> & HR2). simpl.
    destruct (sdeq l) as [x l1]; simpl in *.
    destruct (run_spec senq sdeq ops l1) as [xs l2]; simpl in *. by exists q2.
Qed.

(** ** The stable priority queue that the sorted array implements

    A list in arrival order: dequeue takes, among the most urgent entries, the
    one that came first. *)
Section Priority.
Context (t : pstate).

Fixpoint first_min (a : list procref) : option procref :=
  match a with
  | [] => None
  | x :: a' =>
      match first_min a' with
      | None => Some x
      | Some y => if prio t x <=? prio t y then Some x else Some y
      end
  end.

Fixpoint remove1 (y : procref) (a : list procref) : list procref :=
  match a with
  | [] => []
  | x :: a' => if decide (x = y) then a' else x :: remove1 y a'
  end.

Definition pq_dequeue (a : list procref) : option procref * list procref :=
  match first_min a with None => (None, a) | Some x => (Some x, remove1 x a) end.

Definition same_prio (k : Z) (l : list procref) : list procref := filter (λ x, prio t x = k) l.

Lemma first_min_spec a :
  match first_min a with
  | None => a = []
  | Some y => (∀ z, z ∈ a → prio t y <= prio t z) ∧ head (same_prio (prio t y) a) = Some y
  end.
Proof.
  unfold same_prio. induction a as [|x a IH]; simpl; [done|].
  destruct (first_min a) as [y|].
  - destruct IH as [Hmin Hhd]. destruct (Z.leb_spec (prio t x) (prio t y)).
    + split; [|by rewrite filter_cons_True].
      intros z [->|Hz]%elem_of_cons; [lia|]. specialize (Hmin z Hz). lia.
    + split; [|rewrite filter_cons_False by lia; done].
      intros z [->|Hz]%elem_of_cons; [lia|]. by apply Hmin.
  - subst a. split; [|by rewrite filter_cons_True].
    intros z [->|Hz]%elem_of_cons; [lia|]. by apply elem_of_nil in Hz.
Qed.

Lemma remove1_same_prio k y a :
  same_prio k (remove1 y a) = if decide (prio t y = k) then remove1 y (same_prio k a) else same_prio k a.
Proof.
  unfold same_prio. induction a as [|x a IH]; simpl.
  { by case_decide. }
  destruct (decide (x = y)) as [->|Hne].
  - case_decide; [|by rewrite filter_cons_False].
    rewrite filter_cons_True by done. simpl. by rewrite decide_True.
  - rewrite !filter_cons. destruct (decide (prio t x = k)); rewrite IH; [|done].
    case_decide; simpl; [by rewrite decide_False|done].
Qed.

Lemma remove1_perm y a : y ∈ a → a ≡ₚ y :: remove1 y a.
Proof.
  induction a as [|x a IH]; intros Hy; [by apply elem_of_nil in Hy|]. simpl.
  case_decide as Hxy; [by subst|]. apply elem_of_cons in Hy as [->|Hy]; [done|].
  rewrite Permutation_swap. by rewrite <- IH.
Qed.

(** [l] is [a] sorted by urgency, ties in arrival order. *)
Record stable_sort (a l : list procref) : Prop := {
  ss_sorted : sorted t l;
  ss_perm : l ≡ₚ a;
  ss_stable : ∀ k, same_prio k l = same_prio k a }.

Lemma stable_sort_insert p a l l' :
  stable_sort a l → inserted t p l l' → stable_sort (a ++ [p]) l'.
Proof.
  intros [Hs Hp Hst] Hi. pose proof (inserted_sorted t p l l' Hs Hi) as Hs'.
  destruct Hi as (la & lb & -> & -> & Hlb & Hla). constructor; [done| |].
  - rewrite <- Hp, <- Permutation_middle. by rewrite Permutation_cons_append.
  - intros k. unfold same_prio in *. rewrite (filter_app _ a), <- Hst, !filter_app, !filter_cons.
    rewrite filter_nil. case_decide as Hk; [|by rewrite app_nil_r].
    assert (filter (λ x, prio t x = k) lb = []) as ->; [|by rewrite app_nil_r].
    clear -Hlb Hk. induction Hlb as [|x lb Hx Hlb IH]; [done|]. by rewrite filter_cons_False by lia.
Qed.

Lemma stable_sort_dequeue a l :
  stable_sort a l →
  fst (pq_dequeue a) = fst (fifo_dequeue l) ∧
  stable_sort (snd (pq_dequeue a)) (snd (fifo_dequeue l)).
Proof.
  intros [Hs Hp Hst]. unfold pq_dequeue. pose proof (first_min_spec a) as Hm.
  destruct (first_min a) as [y|].
  2:{ subst a. rewrite Permutation_nil_r in Hp; subst l. by repeat constructor. }
  destruct Hm as [Hmin Hhd]. rewrite <- Hst in Hhd.
  destruct l as [|x l]; [done|]. simpl.
  apply StronglySorted_inv in Hs as [Hs Hx]. rewrite Forall_forall in Hx.
  assert (x ∈ a) as Hxa by (rewrite <- Hp; set_solver).
  assert (prio t y = prio t x) as Hyx.
  { pose proof (Hmin x Hxa). destruct (decide (prio t x = prio t y)) as [|Hne]; [done|].
    unfold same_prio in Hhd. rewrite filter_cons_False in Hhd by done.
    apply head_Some_elem_of, list_elem_of_filter in Hhd as [_ Hyl]. specialize (Hx y Hyl). lia. }
  unfold same_prio in Hhd. rewrite filter_cons_True in Hhd by done. injection Hhd as <-.
  split; [done|]. constructor; [done| |].
  - apply (Permutation_cons_inv (a := x)). rewrite Hp. by apply remove1_perm.
  - intros k. rewrite remove1_same_prio, <- Hst. unfold same_prio. rewrite filter_cons.
    case_decide; [|done]. simpl. by rewrite decide_True.
Qed.

Lemma rt_enqueue_stable q a p :
  (∃ l, rt_repr q l ∧ stable_sort a l ∧ Forall (valid t) l) →
  (∀ r, p = Some r → valid t r) →
  ∃ q', rt_enqueue t q p = Some q' ∧
    ∃ l, rt_repr q' l ∧ stable_sort (fifo_enqueue a p) l ∧ Forall (valid t) l.
Proof.
  intros (l & Hr & Hst & Hv) Hp. pose proof (Permutation_length (ss_perm _ _ Hst)) as Hlen.
  pose proof (rt_size_eq _ _ Hr) as Hs. unfold fifo_enqueue. destruct p as [p|].
  2:{ exists q. split; [done|]. by exists l. }
  case_decide as Hc.
  - destruct (rt_enqueue_repr t q l p Hr Hv (Hp p eq_refl)) as (q' & l' & Hrun & Hr' & Hi); [lia|].
    exists q'. split; [done|]. exists l'. split; [done|].
    split; [by eapply stable_sort_insert|].
    destruct Hi as (la & lb & -> & -> & _ & _). apply Forall_app in Hv as [Hva Hvb].
    apply Forall_app. split; [done|]. constructor; [by apply Hp|done].
  - exists q. split; [|by exists l]. unfold rt_enqueue, MAX_PROCESSES.
    destruct (Z.leb_spec 64 (rt_size q)); [by rewrite orb_true_r|lia].
Qed.

Lemma rt_dequeue_stable q a :
  (∃ l, rt_repr q l ∧ stable_sort a l ∧ Forall (valid t) l) →
  ∃ q', rt_dequeue q = Some (fst (pq_dequeue a), q') ∧
    ∃ l, rt_repr q' l ∧ stable_sort (snd (pq_dequeue a)) l ∧ Forall (valid t) l.
Proof.
  intros (l & Hr & Hst & Hv). destruct (rt_dequeue_repr q l Hr) as (q' & Hrun & Hr').
  destruct (stable_sort_dequeue a l Hst) as [-> Hst'].
  exists q'. split; [done|]. exists (snd (fifo_dequeue l)). split_and!; [done|done|].
  destruct Hv; [constructor|done].
Qed.
End Priority.

(** ** Properties *)

(** C19: from [mlfq_init] on any array of 64 slots, every sequence of
    enqueues and dequeues of the ring buffer stays inside the array and
    answers as a first-in-first-out queue of capacity 64 (NULL is not stored,
    an enqueue on a full queue is dropped, a dequeue of an empty queue gives
    NULL). *)
Theorem mlfq_refines_fifo (q0 : mlfq) (ops : list qop) :
  length (q_queue q0) = 64%nat →
  ∃ q, run_queue mlfq_enqueue mlfq_dequeue ops (mlfq_init q0) =
         Some (fst (run_spec fifo_enqueue fifo_dequeue ops []), q) ∧
       ring q (snd (run_spec fifo_enqueue fifo_dequeue ops [])).
Proof.
  intros Hlen. apply (run_queue_refines ring (λ _, True)).
  - intros q l p _. apply mlfq_enqueue_ring.
  - apply mlfq_dequeue_ring.
  - apply Forall_true. by intros [].
  - by apply ring_init.
Qed.

Definition sample_slots : list (option procref) := replicate 64 None.

Lemma mlfq_refines_fifo_witness :
  ∃ q, run_queue mlfq_enqueue mlfq_dequeue [Enq (Some (PProc 3)); Enq (Some (PProc 1)); Deq; Deq; Deq]
         (mlfq_init (Mlfq sample_slots 7 9 5)) =
         Some ([Some (PProc 3); Some (PProc 1); None], q) ∧ ring q [].
Proof.
  exact (mlfq_refines_fifo (Mlfq sample_slots 7 9 5)
    [Enq (Some (PProc 3)); Enq (Some (PProc 1)); Deq; Deq; Deq] eq_refl).
Defined.

(** C18: whatever priorities the processes have, the real-time
    array answers every sequence of enqueues and dequeues as a priority queue
    of capacity 64: the lowest priority number first, and first come first
    served among equal priorities. *)
Theorem rt_queue_refines_priority (t : pstate) (slots : list (option procref)) (ops : list qop) :
  length slots = 64%nat →
  Forall (λ o, match o with Enq (Some r) => is_Some (lookup_proc r t) | _ => True end) ops →
  ∃ q, run_queue (rt_enqueue t) rt_dequeue ops (RtQueue slots 0) =
         Some (fst (run_spec fifo_enqueue (pq_dequeue t) ops []), q) ∧
       ∃ l, rt_repr q l ∧ stable_sort t (snd (run_spec fifo_enqueue (pq_dequeue t) ops [])) l.
Proof.
  intros Hlen Hok.
  destruct (run_queue_refines (λ q a, ∃ l, rt_repr q l ∧ stable_sort t a l ∧ Forall (valid t) l)
    (λ p, ∀ r, p = Some r → valid t r) (rt_enqueue t) rt_dequeue fifo_enqueue (pq_dequeue t) ops
    (RtQueue slots 0) []) as (q & Hrun & l & Hr & Hst & _).
  - intros q a p Hp HR. by apply rt_enqueue_stable.
  - intros q a HR. by apply rt_dequeue_stable.
  - eapply Forall_impl; [exact Hok|]. intros [[r|]|] Ho; simpl in *; [|done|done].
    by intros ? [= <-].
  - exists []. split; [by constructor; simpl; [| |lia|]|]. split; [|by constructor].
    by repeat constructor.
  - exists q. split; [done|]. by exists l.
Qed.

(** Priorities 100, 20 and 100 in arrival order: 20 is served first, then the
    two 100s as they came. *)
Definition sample_table : pstate :=
  PState [set_priorities 100 100 process_zero; set_priorities 20 20 process_zero;
          set_priorities 100 100 process_zero] [] 1 0.

Lemma rt_queue_refines_priority_witness :
  ∃ q, run_queue (rt_enqueue sample_table) rt_dequeue
         [Enq (Some (PProc 2)); Enq (Some (PProc 1)); Enq (Some (PProc 0)); Deq; Deq; Deq]
         (RtQueue sample_slots 0) =
         Some ([Some (PProc 1); Some (PProc 2); Some (PProc 0)], q) ∧
       ∃ l, rt_repr q l ∧ stable_sort sample_table [] l.
Proof.
  apply (rt_queue_refines_priority sample_table sample_slots
    [Enq (Some (PProc 2)); Enq (Some (PProc 1)); Enq (Some (PProc 0)); Deq; Deq; Deq]).
  - reflexivity.
  - repeat constructor; eexists; reflexivity.
Defined.
