(* ===== verification/Scheduler.v ===== *)
(** The scheduler, [kernel/process/scheduler.c] (definitions): run queues,
    per-CPU data, routing of ready processes, context switches, the timer tick
    with ageing; and [swtch] of [kernel/process/swtch.S]. *)

From Stdlib Require Import String.
From S2P Require Import Prelude Machine Uart Printf Process Queues.
Local Open Scope string_scope.
Local Open Scope Z_scope.

(** ** State *)

Definition NUM_QUEUE_LEVELS : Z := 4.
Definition MAX_CPUS : Z := 8.
Definition queue_time_slices : list Z := [5; 10; 20; 40].

Record cpu_sched := CpuSched {
  current : option procref; idle : option procref; cs_cpu_id : Z;
  cs_ticks : Z; cs_idle_ticks : Z }.

(** The static data of [scheduler.c] and [process.c], and the callee-saved
    registers of the CPU. *)
Record sstate := SState {
  ps : pstate; ready_queues : list mlfq; rtq : rt_queue; cpu_data : list cpu_sched;
  num_cpus : Z; current_cpu : Z; regs : context }.

Definition set_ps v s := SState v (ready_queues s) (rtq s) (cpu_data s) (num_cpus s)
  (current_cpu s) (regs s).
Definition set_ready_queues v s := SState (ps s) v (rtq s) (cpu_data s) (num_cpus s)
  (current_cpu s) (regs s).
Definition set_rtq v s := SState (ps s) (ready_queues s) v (cpu_data s) (num_cpus s)
  (current_cpu s) (regs s).
Definition set_cpu_data v s := SState (ps s) (ready_queues s) (rtq s) v (num_cpus s)
  (current_cpu s) (regs s).
Definition set_regs v s := SState (ps s) (ready_queues s) (rtq s) (cpu_data s) (num_cpus s)
  (current_cpu s) v.

(** ** Accesses through pointers and arrays *)

Definition deref (r : procref) : K sstate process :=
  let* t := gets ps in lift_opt (lookup_proc r t).
Definition upd (r : procref) (f : process → process) : K sstate unit :=
  deref r ;; modify (λ s, set_ps (update_proc r f (ps s)) s).
Definition get_cpu (i : Z) : K sstate cpu_sched :=
  let* l := gets cpu_data in lift_opt (arr_get l i).
Definition upd_cpu (i : Z) (f : cpu_sched → cpu_sched) : K sstate unit :=
  let* l := gets cpu_data in
  let* c := lift_opt (arr_get l i) in
  let* l' := lift_opt (arr_set l i (f c)) in
  modify (set_cpu_data l').
Definition get_queue (level : Z) : K sstate mlfq :=
  let* qs := gets ready_queues in lift_opt (arr_get qs level).
Definition put_queue (level : Z) (q : mlfq) : K sstate unit :=
  let* qs := gets ready_queues in
  let* qs' := lift_opt (arr_set qs level q) in
  modify (set_ready_queues qs').
Definition enqueue_level (level : Z) (proc : option procref) : K sstate unit :=
  let* q := get_queue level in
  let* q' := lift_opt (mlfq_enqueue q proc) in
  put_queue level q'.
Definition dequeue_level (level : Z) : K sstate (option procref) :=
  let* q := get_queue level in
  let* r := lift_opt (mlfq_dequeue q) in
  put_queue level (snd r) ;; ret (fst r).

(** ** Initialisation *)

(** The assignments of [init_idle_process] to [*idle]. *)
Definition idle_process (cpu_id ticks : Z) (p : process) : process :=
  Process_ (u64 (-1 - cpu_id)) PROC_RUNNABLE (p_pagetable p) (p_context p) (p_kernel_sp p)
    (p_user_sp p) (list_inserts 0 (lit "idle") (p_name p)) PRIORITY_MAX (p_dynamic_priority p)
    SCHED_IDLE (NUM_QUEUE_LEVELS - 1) (p_time_slice p) (u64 (Z.shiftl 1 cpu_id)) cpu_id
    (Stats 0 0 ticks 0).

Definition init_idle_process (cpu_id : Z) : K sstate unit :=
  let r := PIdle (Z.to_nat cpu_id) in
  let* ticks := gets (λ s, get_ticks (ps s)) in
  upd r (idle_process cpu_id ticks) ;;
  upd_cpu cpu_id (λ c, CpuSched (current c) (Some r) (cs_cpu_id c) (cs_ticks c) (cs_idle_ticks c)).

Definition scheduler_init : K sstate unit :=
  printf (ln "[SCHED] Initializing advanced scheduler") [] ;;
  printf (ln "[SCHED] Multi-level feedback queue (MLFQ) with %d levels") [ANum NUM_QUEUE_LEVELS] ;;
  printf (ln "[SCHED] Real-time scheduling support enabled") [] ;;
  let* n := gets num_cpus in
  printf (ln "[SCHED] SMP support: %d CPU(s)") [ANum n] ;;
  for_up NUM_QUEUE_LEVELS (λ i,
    let* q := get_queue i in
    put_queue i (mlfq_init q) ;;
    let* sl := lift_opt (arr_get queue_time_slices i) in
    printf (ln "[SCHED] Queue %d: time slice = %lu ticks") [ANum i; ANum sl]) ;;
  modify (λ s, set_rtq (RtQueue (rt_slots (rtq s)) 0) s) ;;
  for_up n (λ i,
    upd_cpu i (λ c, CpuSched None (idle c) i 0 0) ;;
    init_idle_process i) ;;
  printf (ln "[SCHED] Scheduler initialized") [].

(** ** Ready processes *)

Definition sched_add (proc : option procref) : K sstate unit :=
  match proc with
  | None => ret tt
  | Some r =>
      upd r (set_state PROC_RUNNABLE) ;;
      let* p := deref r in
      match p_policy p with
      | SCHED_FIFO | SCHED_RR =>
          let* t := gets ps in
          let* q := gets rtq in
          let* q' := lift_opt (rt_enqueue t q proc) in
          modify (set_rtq q')
      | SCHED_IDLE => ret tt
      | SCHED_NORMAL =>
          let level := p_queue_level p in
          let level := if level <? 0 then 0 else level in
          let level := if NUM_QUEUE_LEVELS <=? level then NUM_QUEUE_LEVELS - 1 else level in
          enqueue_level level proc
      end
  end.

(** The loop of [sched_next] over the levels, [n] of them left, and what
    follows it. *)
Fixpoint next_level (n : nat) (level cpu_id : Z) : K sstate (option procref) :=
  match n with
  | O => let* c := get_cpu cpu_id in ret (idle c)
  | S n' =>
      let* q := get_queue level in
      if 0 <? q_size q then
        let* proc := dequeue_level level in
        match proc with
        | Some r =>
            let* sl := lift_opt (arr_get queue_time_slices level) in
            upd r (set_time_slice sl) ;; ret proc
        | None => next_level n' (level + 1) cpu_id
        end
      else next_level n' (level + 1) cpu_id
  end.

Definition sched_next (cpu_id : Z) : K sstate (option procref) :=
  let* q := gets rtq in
  let* proc :=
    if 0 <? rt_size q then
      let* r := lift_opt (rt_dequeue q) in
      modify (set_rtq (snd r)) ;; ret (fst r)
    else ret None in
  match proc with
  | Some _ => ret proc
  | None => next_level (Z.to_nat NUM_QUEUE_LEVELS) 0 cpu_id
  end.

Definition current_proc : K sstate (option procref) :=
  let* i := gets current_cpu in let* c := get_cpu i in ret (current c).

Definition sched_cpu_id : K sstate Z := gets current_cpu.

(** ** Priorities *)

(** [((priority - PRIORITY_NORMAL_MIN) * NUM_QUEUE_LEVELS) / range], clamped. *)
Definition priority_level (priority : Z) : Z :=
  let range := PRIORITY_MAX - PRIORITY_NORMAL_MIN + 1 in
  let level := Z.quot ((priority - PRIORITY_NORMAL_MIN) * NUM_QUEUE_LEVELS) range in
  if NUM_QUEUE_LEVELS <=? level then NUM_QUEUE_LEVELS - 1 else level.

Definition sched_set_priority (proc : option procref) (priority : Z) : K sstate unit :=
  match proc with
  | None => ret tt
  | Some r =>
      let priority := if priority <? PRIORITY_MIN then PRIORITY_MIN else priority in
      let priority := if PRIORITY_MAX <? priority then PRIORITY_MAX else priority in
      upd r (set_priorities priority priority) ;;
      if priority <=? PRIORITY_RT_MAX then upd r (set_policy SCHED_RR)
      else upd r (set_queue_level (priority_level priority))
  end.

Definition sched_set_policy (proc : option procref) (policy : sched_policy) : K sstate unit :=
  match proc with
  | None => ret tt
  | Some r => upd r (set_policy policy)
  end.

(** ** Context switches *)

(** [swtch.S]: save the callee-saved registers unless [old] is NULL, load those
    of [new] and return into it.  The call itself returns when somebody
    switches back to the saved context; with no context saved, never. *)
Definition swtch (old new : option procref) : K sstate unit :=
  match old with
  | Some r => let* rg := gets regs in upd r (set_context rg)
  | None => ret tt
  end ;;
  match new with
  | Some r =>
      let* p := deref r in
      modify (set_regs (p_context p)) ;;
      λ s w, match old with
             | Some _ => Switch s w (λ s' w', Ret tt s' w')
             | None => Leave s w
             end
  | None => ret tt
  end.

(** First half of [context_switch]: statistics and re-queueing of [old]. *)
Definition retire (cpu_id : Z) (old : option procref) : K sstate unit :=
  match old with
  | None => ret tt
  | Some r =>
      let* p := deref r in
      if decide (p_state p = PROC_RUNNING) then
        upd r inc_switches ;;
        let* c := get_cpu cpu_id in
        if decide (old = idle c) then upd r (set_state PROC_RUNNABLE)
        else
          match p_policy p with
          | SCHED_NORMAL =>
              (if (p_time_slice p =? 0) && (p_queue_level p <? NUM_QUEUE_LEVELS - 1)
               then upd r (set_queue_level (p_queue_level p + 1)) else ret tt) ;;
              upd r (set_state PROC_RUNNABLE) ;;
              sched_add old
          | SCHED_RR => upd r (set_state PROC_RUNNABLE) ;; sched_add old
          | SCHED_FIFO | SCHED_IDLE => ret tt
          end
      else ret tt
  end.

(** Second half, up to [swtch]: make [r] the running process. *)
Definition dispatch (cpu_id : Z) (r : procref) : K sstate unit :=
  upd r (set_state PROC_RUNNING) ;;
  let* ticks := gets (λ s, get_ticks (ps s)) in
  upd r (set_last_run ticks) ;;
  upd r inc_switches ;;
  upd r (set_cpu_id cpu_id) ;;
  upd_cpu cpu_id (λ c, CpuSched (Some r) (idle c) (cs_cpu_id c) (cs_ticks c) (cs_idle_ticks c)) ;;
  let* p := deref r in
  if p_pagetable p =? 0 then ret tt
  else w_satp (Z.lor (Z.shiftl 8 60) (Z.shiftr (p_pagetable p) 12)) ;; sfence_vma.

Definition context_switch (old new : option procref) : K sstate unit :=
  if decide (old = new) then ret tt
  else
    let* cpu_id := gets current_cpu in
    retire cpu_id old ;;
    match new with
    | None => ret tt
    | Some r => dispatch cpu_id r ;; swtch old new
    end.

Definition sched_yield : K sstate unit :=
  let* cpu_id := gets current_cpu in
  let* c := get_cpu cpu_id in
  let old := current c in
  let* new := sched_next cpu_id in
  match new with
  | Some _ => context_switch old new
  | None => ret tt
  end.

(** ** The timer tick *)

(** [while (ready_queues[level].size > 0) ...] of the ageing code. *)
Fixpoint boost_loop (fuel : nat) (level : Z) : K sstate unit :=
  match fuel with
  | O => λ s w, Spin s w
  | S fuel' =>
      let* q := get_queue level in
      if 0 <? q_size q then
        let* proc := dequeue_level level in
        match proc with
        | Some r =>
            let* p := deref r in
            if decide (p_policy p = SCHED_NORMAL) then
              upd r (set_queue_level 0) ;;
              let* sl := lift_opt (arr_get queue_time_slices 0) in
              upd r (set_time_slice sl) ;;
              enqueue_level 0 proc
            else ret tt
        | None => ret tt
        end ;;
        boost_loop fuel' level
      else ret tt
  end.

(** [for (level = 1; level < NUM_QUEUE_LEVELS; level++)]; a queue holds at most
    64 processes, so 65 tests of the loop condition are enough. *)
Definition boost : K sstate unit :=
  boost_loop 65 1 ;; boost_loop 65 2 ;; boost_loop 65 3.

(** What [sched_tick] does after a possible preemption. *)
Definition ageing : K sstate unit :=
  let* ticks := gets (λ s, get_ticks (ps s)) in
  if ticks mod 100 =? 0 then boost else ret tt.

Definition sched_tick : K sstate unit :=
  let* cpu_id := gets current_cpu in
  let* c := get_cpu cpu_id in
  let proc := current c in
  modify (λ s, set_ps (tick_increment (ps s)) s) ;;
  upd_cpu cpu_id (λ c, CpuSched (current c) (idle c) (cs_cpu_id c) (u64 (cs_ticks c + 1)) (cs_idle_ticks c)) ;;
  match proc with
  | None => ret tt
  | Some r =>
      upd r inc_cpu_time ;;
      let* c := get_cpu cpu_id in
      (if decide (proc = idle c) then
         upd_cpu cpu_id (λ c, CpuSched (current c) (idle c) (cs_cpu_id c) (cs_ticks c)
                                (u64 (cs_idle_ticks c + 1)))
       else ret tt) ;;
      let* p := deref r in
      (if 0 <? p_time_slice p then upd r (set_time_slice (p_time_slice p - 1)) else ret tt) ;;
      let* p := deref r in
      (if p_time_slice p =? 0 then
         match p_policy p with
         | SCHED_NORMAL | SCHED_RR => sched_yield
         | SCHED_FIFO | SCHED_IDLE => ret tt
         end
       else ret tt) ;;
      ageing
  end.

(** ** Reporting and the scheduler loop *)

Definition sched_print_stats : K sstate unit :=
  printf (LF :: ln "[SCHED] Scheduler Statistics:") [] ;;
  printf (ln "========================================") [] ;;
  let* n := gets num_cpus in
  for_up n (λ cpu_id,
    printf (ln "CPU %d:") [ANum cpu_id] ;;
    let* c := get_cpu cpu_id in
    printf (ln "  Total ticks: %lu") [ANum (cs_ticks c)] ;;
    printf (ln "  Idle ticks: %lu") [ANum (cs_idle_ticks c)] ;;
    (if 0 <? cs_ticks c then
       let busy_ticks := u64 (cs_ticks c - cs_idle_ticks c) in
       let usage := u64 (busy_ticks * 100) / cs_ticks c in
       printf (ln "  CPU Usage: %lu%%") [ANum usage]
     else ret tt) ;;
    match current c with
    | Some r =>
        let* p := deref r in
        printf (ln "  Current process: %s (PID %lu)") [AStr (p_name p); ANum (p_pid p)]
    | None => ret tt
    end) ;;
  printf (LF :: ln "Queue Status:") [] ;;
  let* q := gets rtq in
  printf (ln "  RT Queue: %d processes") [ANum (rt_size q)] ;;
  for_up NUM_QUEUE_LEVELS (λ i,
    let* q := get_queue i in
    let* sl := lift_opt (arr_get queue_time_slices i) in
    printf (ln "  Queue %d: %d processes (time slice: %lu)") [ANum i; ANum (q_size q); ANum sl]) ;;
  printf (ln "========================================") [].

(** One iteration of [while (1)] in [scheduler]. *)
Definition scheduler_iter (cpu_id : Z) : K sstate unit :=
  let* proc := sched_next cpu_id in
  match proc with
  | Some _ => context_switch None proc ;; wfi
  | None => wfi
  end.

Fixpoint scheduler_loop (fuel : nat) (cpu_id : Z) : K sstate unit :=
  match fuel with
  | O => λ s w, Spin s w
  | S fuel' => scheduler_iter cpu_id ;; scheduler_loop fuel' cpu_id
  end.

Definition scheduler (fuel : nat) : K sstate unit :=
  printf (ln "[SCHED] Starting scheduler") [] ;;
  let* cpu_id := gets current_cpu in
  scheduler_loop fuel cpu_id.
