(* ===== verification/SchedInv.v ===== *)
(** The scheduler's contract: the abstract run queue that the rings and the
    sorted array hold, and what each operation of [Scheduler] does to it. *)

From Stdlib Require Import String.
From S2P Require Import Prelude Machine Uart Printf Process Queues Scheduler.
Local Open Scope Z_scope.

(** ** Accesses *)

Lemma wp_deref r p Q H s :
  lookup_proc r (ps s) = Some p → Q p s → wp (deref r) Q H s.
Proof. intros Hp HQ w. unfold deref, bind, gets; simpl. by rewrite Hp. Qed.

Lemma wp_upd r p f Q H s :
  lookup_proc r (ps s) = Some p → Q tt (set_ps (put_proc r (f p) (ps s)) s) →
  wp (upd r f) Q H s.
Proof.
  intros Hp HQ. unfold upd. apply wp_bind, (wp_deref r p); [done|]. apply wp_modify.
  by rewrite (update_put r f _ p).
Qed.

Lemma lookup_put_eq r p p0 t :
  lookup_proc r t = Some p0 → lookup_proc r (put_proc r p t) = Some p.
Proof. intros Hp. by rewrite lookup_put, decide_True by eauto. Qed.

(** Two updates of the same process in a row. *)
Lemma set_ps_put_put r p p' s :
  set_ps (put_proc r p (ps (set_ps (put_proc r p' (ps s)) s))) (set_ps (put_proc r p' (ps s)) s) =
  set_ps (put_proc r p (ps s)) s.
Proof. unfold set_ps; simpl. by rewrite put_put. Qed.

Lemma wp_get_cpu i c Q H s :
  arr_get (cpu_data s) i = Some c → Q c s → wp (get_cpu i) Q H s.
Proof. intros Hc HQ w. unfold get_cpu, bind, gets; simpl. by rewrite Hc. Qed.

Lemma wp_upd_cpu i f c Q H s :
  0 <= i → arr_get (cpu_data s) i = Some c →
  Q tt (set_cpu_data (<[Z.to_nat i := f c]> (cpu_data s)) s) → wp (upd_cpu i f) Q H s.
Proof.
  intros Hi Hc HQ w. unfold upd_cpu, bind, gets; simpl. rewrite Hc. simpl.
  rewrite arr_set_some; [done|]. unfold arr_get in Hc.
  destruct (Z.leb_spec 0 i); [|done]. apply lookup_lt_Some in Hc. lia.
Qed.

(** ** The abstract run queue *)

Record runq := RunQ { levels : list (list procref); rts : list procref }.

(** Everything that waits for the CPU. *)
Definition queued (a : runq) : list procref := rts a ++ concat (levels a).

(** The concrete queues hold [a]. *)
Record qrepr (qs : list mlfq) (q : rt_queue) (a : runq) : Prop := {
  qr_levels : Forall2 ring qs (levels a);
  qr_four : length (levels a) = 4%nat;
  qr_rt : rt_repr q (rts a) }.

Lemma qrepr_level qs q a (i : nat) l :
  qrepr qs q a → levels a !! i = Some l →
  ∃ r, arr_get qs (Z.of_nat i) = Some r ∧ ring r l ∧ (i < length qs)%nat.
Proof.
  intros [Hl _ _] Hi. destruct (Forall2_lookup_r _ _ _ _ _ Hl Hi) as (r & Hr & Hring).
  exists r. rewrite arr_get_nat. split_and!; [done|done|]. by eapply lookup_lt_Some.
Qed.

Lemma qrepr_insert qs q a (i : nat) r l :
  qrepr qs q a → ring r l → qrepr (<[i:=r]> qs) q (RunQ (<[i:=l]> (levels a)) (rts a)).
Proof.
  intros [Hl H4 Hr] Hring. constructor; simpl; [|by rewrite length_insert|done].
  by apply Forall2_insert.
Qed.

Lemma wp_enqueue_level (i : nat) l r a Q H s :
  qrepr (ready_queues s) (rtq s) a → levels a !! i = Some l → (length l < 64)%nat →
  (∀ qs', qrepr qs' (rtq s) (RunQ (<[i:=l ++ [r]]> (levels a)) (rts a)) →
     Q tt (set_ready_queues qs' s)) →
  wp (enqueue_level (Z.of_nat i) (Some r)) Q H s.
Proof.
  intros Hq Hl Hlt HQ. destruct (qrepr_level _ _ _ _ _ Hq Hl) as (m & Hm & Hring & Hi).
  destruct (mlfq_enqueue_ring m l (Some r) Hring) as (m' & Hrun & Hring').
  unfold fifo_enqueue in Hring'. rewrite decide_True in Hring' by done.
  intros w. unfold enqueue_level, get_queue, put_queue, bind, gets; simpl.
  rewrite Hm. simpl. rewrite Hrun. simpl. rewrite arr_set_some by lia. rewrite Nat2Z.id. simpl.
  split; [|done]. apply HQ. by apply qrepr_insert.
Qed.

Lemma wp_dequeue_level (i : nat) x l a Q H s :
  qrepr (ready_queues s) (rtq s) a → levels a !! i = Some (x :: l) →
  (∀ qs', qrepr qs' (rtq s) (RunQ (<[i:=l]> (levels a)) (rts a)) →
     Q (Some x) (set_ready_queues qs' s)) →
  wp (dequeue_level (Z.of_nat i)) Q H s.
Proof.
  intros Hq Hl HQ. destruct (qrepr_level _ _ _ _ _ Hq Hl) as (m & Hm & Hring & Hi).
  destruct (mlfq_dequeue_ring m _ Hring) as (m' & Hrun & Hring'). simpl in *.
  intros w. unfold dequeue_level, get_queue, put_queue, bind, gets; simpl.
  rewrite Hm. simpl. rewrite Hrun. simpl. rewrite arr_set_some by lia. rewrite Nat2Z.id. simpl.
  split; [|done]. apply HQ. by apply qrepr_insert.
Qed.

Lemma wp_get_queue (i : nat) l a Q H s :
  qrepr (ready_queues s) (rtq s) a → levels a !! i = Some l →
  (∀ q, ring q l → Q q s) → wp (get_queue (Z.of_nat i)) Q H s.
Proof.
  intros Hq Hl HQ w. destruct (qrepr_level _ _ _ _ _ Hq Hl) as (m & Hm & Hring & _).
  unfold get_queue, bind, gets; simpl. rewrite Hm. split; [by apply HQ|done].
Qed.

(** *** Admission *)

(** The level that [sched_add] puts a normal process on. *)
Definition clamp_level (level : Z) : nat := Z.to_nat (Z.max 0 (Z.min 3 level)).

(** [admits t r a a']: with the process table [t], [a'] is [a] with [r] queued
    where its policy says. *)
Definition admits (t : pstate) (r : procref) (p : process) (a a' : runq) : Prop :=
  match p_policy p with
  | SCHED_NORMAL =>
      ∃ l, levels a !! clamp_level (p_queue_level p) = Some l ∧
        a' = RunQ (<[clamp_level (p_queue_level p) := l ++ [r]]> (levels a)) (rts a)
  | SCHED_FIFO | SCHED_RR =>
      levels a' = levels a ∧ inserted t r (rts a) (rts a')
  | SCHED_IDLE => a' = a
  end.

Lemma concat_insert_perm (lv : list (list procref)) i l l' x :
  lv !! i = Some l → l' ≡ₚ x :: l → concat (<[i:=l']> lv) ≡ₚ x :: concat lv.
Proof.
  intros Hi Hp. assert (i < length lv)%nat by (by eapply lookup_lt_Some).
  rewrite insert_take_drop by done.
  rewrite <- (take_drop_middle lv i l Hi) at 3. rewrite !concat_app. simpl.
  rewrite Hp. simpl. symmetry. apply Permutation_middle.
Qed.

Lemma concat_remove_perm (lv : list (list procref)) i l x :
  lv !! i = Some (x :: l) → concat lv ≡ₚ x :: concat (<[i:=l]> lv).
Proof.
  intros Hi. rewrite <- (concat_insert_perm (<[i:=l]> lv) i l (x :: l) x); [|apply list_lookup_insert_eq|done].
  - by rewrite list_insert_insert_eq, list_insert_id.
  - by eapply lookup_lt_Some.
Qed.

Lemma length_level (lv : list (list procref)) i l :
  lv !! i = Some l → (length l <= length (concat lv))%nat.
Proof.
  intros Hi. rewrite <- (take_drop_middle lv i l Hi), concat_app. simpl.
  rewrite !length_app. lia.
Qed.

Lemma inserted_perm t r l l' : inserted t r l l' → l' ≡ₚ r :: l.
Proof. intros (la & lb & -> & -> & _ & _). by rewrite Permutation_middle. Qed.

Lemma admits_queued t r p a a' :
  admits t r p a a' → p_policy p ≠ SCHED_IDLE → queued a' ≡ₚ r :: queued a.
Proof.
  unfold admits, queued. intros Ha Hp. destruct (p_policy p); [| | |done].
  - destruct Ha as (l & Hl & ->). simpl.
    rewrite (concat_insert_perm _ _ l _ r Hl); [symmetry; apply Permutation_middle|].
    symmetry. apply Permutation_cons_append.
  - destruct Ha as [-> Hi]. by rewrite (inserted_perm _ _ _ _ Hi).
  - destruct Ha as [-> Hi]. by rewrite (inserted_perm _ _ _ _ Hi).
Qed.

(** *** Selection *)

(** [picked a x lvl a']: [x] is the next to run, taken from the real-time queue
    or, when that is empty, from level [lvl], the first that is not. *)
Inductive picked (a : runq) : procref → option nat → runq → Prop :=
  | picked_rt x rt : rts a = x :: rt → picked a x None (RunQ (levels a) rt)
  | picked_level (i : nat) x l :
      rts a = [] → levels a !! i = Some (x :: l) →
      (∀ k, (k < i)%nat → levels a !! k = Some []) →
      picked a x (Some i) (RunQ (<[i:=l]> (levels a)) []).

Lemma picked_queued a x lvl a' : picked a x lvl a' → queued a ≡ₚ x :: queued a'.
Proof.
  unfold queued. destruct 1 as [x rt Hrt|i x l Hrt Hi Hlow]; simpl.
  - by rewrite Hrt.
  - rewrite Hrt. by apply concat_remove_perm.
Qed.

(** ** What the operations do *)

(** Insertion into the real-time queue. *)
Lemma wp_rt_enqueue r a H s :
  rt_repr (rtq s) (rts a) → (∀ x, x ∈ rts a → valid (ps s) x) → valid (ps s) r → (length (rts a) < 64)%nat →
  wp (let* t := gets ps in let* q := gets rtq in let* q' := lift_opt (rt_enqueue t q (Some r)) in
      modify (set_rtq q'))
    (λ _ s2, ∃ q' l', s2 = set_rtq q' s ∧ rt_repr q' l' ∧ inserted (ps s) r (rts a) l') H s.
Proof.
  intros Hq Hv Hr Hlen. destruct (rt_enqueue_repr (ps s) (rtq s) (rts a) r) as (q' & l' & Hrun & Hq' & Hi);
    [done|by apply Forall_forall|done|lia|].
  do 2 (apply wp_bind, wp_gets). apply wp_bind, (wp_lift_opt _ q'); [done|]. apply wp_modify. by exists q', l'.
Qed.

(** The bounds check on the queue level. *)
Lemma clamp_level_code z :
  (let level := if z <? 0 then 0 else z in
   if NUM_QUEUE_LEVELS <=? level then NUM_QUEUE_LEVELS - 1 else level) = Z.of_nat (clamp_level z).
Proof.
  unfold clamp_level, NUM_QUEUE_LEVELS. simpl.
  destruct (Z.ltb_spec z 0), (Z.leb_spec 4 z); try (destruct (Z.leb_spec 4 0)); lia.
Qed.

Lemma wp_sched_add r p a Q H s :
  let t' := put_proc r (set_state PROC_RUNNABLE p) (ps s) in
  qrepr (ready_queues s) (rtq s) a → lookup_proc r (ps s) = Some p →
  (∀ x, x ∈ rts a → valid (ps s) x) → (length (queued a) < 64)%nat →
  (∀ qs' q' a', qrepr qs' q' a' → admits t' r p a a' →
     Q tt (set_rtq q' (set_ready_queues qs' (set_ps t' s)))) →
  wp (sched_add (Some r)) Q H s.
Proof.
  intros t' Hq Hp Hv Hlen HQ. unfold sched_add. apply wp_bind, (wp_upd r p); [done|]. fold t'.
  assert (lookup_proc r t' = Some (set_state PROC_RUNNABLE p)) as Hp' by (by eapply lookup_put_eq).
  apply wp_bind, (wp_deref r (set_state PROC_RUNNABLE p)); [done|]. cbn [p_policy set_state].
  unfold queued in Hlen. rewrite length_app in Hlen.
  pose proof (wp_rt_enqueue r a H (set_ps t' s) (qr_rt _ _ _ Hq)) as Hrt. cbn [ps set_ps rtq] in Hrt.
  assert (p_policy p = SCHED_FIFO ∨ p_policy p = SCHED_RR →
    wp (let* t := gets ps in let* q := gets rtq in let* q' := lift_opt (rt_enqueue t q (Some r)) in
        modify (set_rtq q')) Q H (set_ps t' s)) as Hreal.
  { intros Hpol. eapply wp_mono; [apply Hrt; [|by eexists|lia]| |done].
    - intros x Hx. unfold valid, t'. rewrite lookup_put by eauto. specialize (Hv x Hx). case_decide; [eauto|done].
    - intros [] s2 (q' & l' & -> & Hr & Hi).
      apply (HQ (ready_queues s) q' (RunQ (levels a) l')); [by destruct Hq; constructor|].
      unfold admits. by destruct Hpol as [-> | ->]. }
  destruct (p_policy p) eqn:Hpol; [|by apply Hreal; left|by apply Hreal; right|].
  - change (p_queue_level (set_state PROC_RUNNABLE p)) with (p_queue_level p).
    pose proof (clamp_level_code (p_queue_level p)) as Hlvl. cbn beta zeta in Hlvl |- *. rewrite Hlvl.
    destruct (lookup_lt_is_Some_2 (levels a) (clamp_level (p_queue_level p))) as [l Hl].
    { rewrite (qr_four _ _ _ Hq). unfold clamp_level. lia. }
    apply (wp_enqueue_level _ l r a); [done|done| |].
    + apply length_level in Hl. lia.
    + intros qs' Hq'. apply (HQ qs' (rtq s) _ Hq'). unfold admits. rewrite Hpol. by exists l.
  - apply wp_ret. apply (HQ (ready_queues s) (rtq s) a Hq). unfold admits. by rewrite Hpol.
Qed.

(** [proc->time_slice = queue_time_slices[level]]. *)
Definition refill (x : procref) (lvl : option nat) (t : pstate) : pstate :=
  match lvl with
  | Some i => update_proc x (set_time_slice (default 0 (queue_time_slices !! i))) t
  | None => t
  end.

Lemma wp_next_level n j c a Q H s :
  (j + n = 4)%nat → qrepr (ready_queues s) (rtq s) a → rts a = [] →
  arr_get (cpu_data s) 0 = Some c → (∀ x, x ∈ queued a → valid (ps s) x) →
  (∀ k, (k < j)%nat → levels a !! k = Some []) →
  (∀ x lvl a' qs' q', picked a x lvl a' → qrepr qs' q' a' →
     Q (Some x) (set_rtq q' (set_ready_queues qs' (set_ps (refill x lvl (ps s)) s)))) →
  (queued a = [] → Q (idle c) s) →
  wp (next_level n (Z.of_nat j) 0) Q H s.
Proof.
  intros Hn Hq Hrt Hc Hv Hlow HQ Hidle. revert j Hn Hlow. induction n as [|n IH]; intros j Hn Hlow; simpl.
  - apply wp_bind, (wp_get_cpu 0 c); [done|]. apply wp_ret, Hidle.
    unfold queued. rewrite Hrt. simpl. apply concat_nil_Forall, Forall_lookup_2.
    intros k l Hk. assert (k < 4)%nat by (rewrite <- (qr_four _ _ _ Hq); by eapply lookup_lt_Some).
    rewrite Hlow in Hk by lia. by injection Hk as <-.
  - destruct (lookup_lt_is_Some_2 (levels a) j) as [l Hl]; [rewrite (qr_four _ _ _ Hq); lia|].
    apply wp_bind, (wp_get_queue j l a); [done|done|]. intros q Hring.
    pose proof (ring_size _ _ Hring) as Hsz. destruct l as [|x l]; simpl in Hsz.
    + rewrite Hsz. simpl. replace (Z.of_nat j + 1) with (Z.of_nat (S j)) by lia.
      apply IH; [lia|]. intros k Hk. destruct (decide (k = j)) as [->|]; [done|apply Hlow; lia].
    + destruct (Z.ltb_spec 0 (q_size q)); [|lia].
      apply wp_bind, (wp_dequeue_level j x l a); [done|done|]. intros qs' Hq'.
      assert (valid (ps s) x) as Hx.
      { apply Hv. unfold queued. rewrite Hrt. simpl. apply list_elem_of_In, in_concat.
        exists (x :: l). split; [|by left]. by eapply list_elem_of_In, list_elem_of_lookup_2. }
      assert (arr_get queue_time_slices (Z.of_nat j) = Some (default 0 (queue_time_slices !! j))) as Hsl.
      { rewrite arr_get_nat. destruct j as [|[|[|[|j]]]]; [done|done|done|done|lia]. }
      apply wp_bind. eapply wp_lift_opt; [exact Hsl|].
      destruct Hx as [px Hpx]. apply wp_bind, (wp_upd x px); [done|]. apply wp_ret.
      rewrite Hrt in Hq'. rewrite <- (update_put x (set_time_slice (default 0 (queue_time_slices !! j))) _ px Hpx). apply (HQ x (Some j) (RunQ (<[j:=l]> (levels a)) []) qs' (rtq s)); [|exact Hq'].
      by apply picked_level.
Qed.

Lemma wp_sched_next c a Q H s :
  qrepr (ready_queues s) (rtq s) a →
  arr_get (cpu_data s) 0 = Some c → (∀ x, x ∈ queued a → valid (ps s) x) →
  (∀ x lvl a' qs' q', picked a x lvl a' → qrepr qs' q' a' →
     Q (Some x) (set_rtq q' (set_ready_queues qs' (set_ps (refill x lvl (ps s)) s)))) →
  (queued a = [] → Q (idle c) s) →
  wp (sched_next 0) Q H s.
Proof.
  intros Hq Hc Hv HQ Hidle. unfold sched_next. apply wp_bind, wp_gets.
  pose proof (rt_size_eq _ _ (qr_rt _ _ _ Hq)) as Hsz.
  destruct (rts a) as [|x rt] eqn:Hrt; simpl in Hsz.
  - rewrite Hsz. simpl. apply wp_bind, wp_ret. apply (wp_next_level 4 0 c a); try done. intros k Hk. lia.
  - destruct (Z.ltb_spec 0 (rt_size (rtq s))); [|lia].
    destruct (rt_dequeue_repr (rtq s) (x :: rt)) as (q' & Hrun & Hr').
    { rewrite <- Hrt. apply Hq. }
    apply wp_bind, wp_bind. eapply wp_lift_opt; [exact Hrun|]. simpl.
    apply wp_bind, wp_modify, wp_ret, wp_ret.
    apply (HQ x None (RunQ (levels a) rt) (ready_queues s) q'); [by apply picked_rt|].
    destruct Hq. by constructor.
Qed.

(** *** Handing over the CPU *)

Definition demote (p : process) : process :=
  if (p_time_slice p =? 0) && (p_queue_level p <? NUM_QUEUE_LEVELS - 1)
  then set_queue_level (p_queue_level p + 1) p else p.

(** The outgoing process after [retire]. *)
Definition retired (is_idle : bool) (p : process) : process :=
  if is_idle then set_state PROC_RUNNABLE (inc_switches p)
  else
    match p_policy p with
    | SCHED_NORMAL => set_state PROC_RUNNABLE (demote (inc_switches p))
    | SCHED_RR => set_state PROC_RUNNABLE (inc_switches p)
    | SCHED_FIFO | SCHED_IDLE => inc_switches p
    end.

(** Only normal and round-robin processes go back to a queue. *)
Definition rejoins (is_idle : bool) (t : pstate) (r : procref) (p : process) (a a' : runq) : Prop :=
  if is_idle then a' = a
  else
    match p_policy p with
    | SCHED_NORMAL | SCHED_RR => admits t r (retired false p) a a'
    | SCHED_FIFO | SCHED_IDLE => a' = a
    end.

(** A process that goes back to a queue, [p1] being its record by then. *)
Lemma wp_readd r p p1 a Q H s :
  let t' := put_proc r (retired false p) (ps s) in
  qrepr (ready_queues s) (rtq s) a → lookup_proc r (ps s) = Some p →
  (∀ x, x ∈ rts a → valid (ps s) x) → (length (queued a) < 64)%nat →
  set_state PROC_RUNNABLE p1 = retired false p → p_policy p = SCHED_NORMAL ∨ p_policy p = SCHED_RR →
  (∀ qs' q' a', qrepr qs' q' a' → rejoins false t' r p a a' →
     Q tt (set_rtq q' (set_ready_queues qs' (set_ps t' s)))) →
  wp (sched_add (Some r)) Q H (set_ps (put_proc r p1 (ps s)) s).
Proof.
  intros t' Hq Hp Hv Hlen Heq Hor HQ. apply (wp_sched_add r p1 a); [done|by eapply lookup_put_eq| |done|].
  - intros x Hx. unfold valid. cbn [ps set_ps]. rewrite lookup_put by eauto. case_decide; [eauto|by apply Hv].
  - cbn [ps set_ps]. rewrite put_put, Heq. intros qs' q' a' Hq' Ha. apply (HQ qs' q' a' Hq').
    unfold rejoins, admits in Ha |- *. fold t' in Ha.
    change (p_policy p1) with (p_policy (set_state PROC_RUNNABLE p1)) in Ha.
    change (p_queue_level p1) with (p_queue_level (set_state PROC_RUNNABLE p1)) in Ha. rewrite Heq in Ha.
    by destruct Hor as [-> | ->].
Qed.

Lemma wp_retire r p c a Q H s :
  let b := bool_decide (Some r = idle c) in
  let t' := put_proc r (retired b p) (ps s) in
  qrepr (ready_queues s) (rtq s) a → lookup_proc r (ps s) = Some p → p_state p = PROC_RUNNING →
  arr_get (cpu_data s) 0 = Some c →
  (∀ x, x ∈ rts a → valid (ps s) x) → (length (queued a) < 64)%nat →
  (∀ qs' q' a', qrepr qs' q' a' → rejoins b t' r p a a' →
     Q tt (set_rtq q' (set_ready_queues qs' (set_ps t' s)))) →
  wp (retire 0 (Some r)) Q H s.
Proof.
  intros b t' Hq Hp Hst Hc Hv Hlen HQ. unfold retire.
  apply wp_bind, (wp_deref r p); [done|]. rewrite decide_True by done.
  apply wp_bind, (wp_upd r p); [done|]. apply wp_bind, (wp_get_cpu 0 c); [done|].
  assert (∀ p1, lookup_proc r (put_proc r p1 (ps s)) = Some p1) as Hl by (intros; by eapply lookup_put_eq).
  destruct (decide (Some r = idle c)) as [Hidle|Hidle].
  { assert (b = true) as Hb by (by apply bool_decide_true). unfold t' in HQ. rewrite Hb in HQ. simpl in HQ.
    apply (wp_upd r (inc_switches p)); [apply Hl|]. rewrite set_ps_put_put.
    apply (HQ (ready_queues s) (rtq s) a); done. }
  assert (b = false) as Hb by (by apply bool_decide_false). unfold t' in HQ. rewrite Hb in HQ. clear t' Hb b.
  destruct (p_policy p) eqn:Hpol.
  - assert (retired false p = set_state PROC_RUNNABLE (demote (inc_switches p))) as Hr
      by (unfold retired; by rewrite Hpol).
    apply wp_bind. eapply (wp_mono _ (λ _ s', s' = set_ps (put_proc r (demote (inc_switches p)) (ps s)) s));
      [| |done].
    + unfold demote. cbn [p_time_slice p_queue_level inc_switches set_stats].
      case_match; [|by apply wp_ret].
      apply (wp_upd r (inc_switches p)); [apply Hl|]. by rewrite set_ps_put_put.
    + intros [] s' ->. apply wp_bind, (wp_upd r (demote (inc_switches p))); [apply Hl|].
      rewrite set_ps_put_put. by apply (wp_readd r p _ a); auto.
  - apply wp_ret. unfold retired in HQ. rewrite Hpol in HQ.
    apply (HQ (ready_queues s) (rtq s) a Hq). unfold rejoins. by rewrite Hpol.
  - apply wp_bind, (wp_upd r (inc_switches p)); [apply Hl|]. rewrite set_ps_put_put.
    apply (wp_readd r p _ a); auto. unfold retired. by rewrite Hpol.
  - apply wp_ret. unfold retired in HQ. rewrite Hpol in HQ.
    apply (HQ (ready_queues s) (rtq s) a Hq). unfold rejoins. by rewrite Hpol.
Qed.

(** The incoming process after [dispatch]. *)
Definition dispatched (ticks : Z) (p : process) : process :=
  set_cpu_id 0 (inc_switches (set_last_run ticks (set_state PROC_RUNNING p))).

Definition with_current (x : procref) (c : cpu_sched) : cpu_sched :=
  CpuSched (Some x) (idle c) (cs_cpu_id c) (cs_ticks c) (cs_idle_ticks c).

Lemma wp_dispatch x p c Q H s :
  lookup_proc x (ps s) = Some p → arr_get (cpu_data s) 0 = Some c →
  Q tt (set_cpu_data (<[0%nat := with_current x c]> (cpu_data s))
         (set_ps (put_proc x (dispatched (global_ticks (ps s)) p) (ps s)) s)) →
  wp (dispatch 0 x) Q H s.
Proof.
  intros Hp Hc HQ. unfold dispatch.
  assert (∀ p1, lookup_proc x (put_proc x p1 (ps s)) = Some p1) as Hl
    by (intros; by eapply lookup_put_eq).
  apply wp_bind, (wp_upd x p); [done|]. apply wp_bind, wp_gets.
  assert (get_ticks (ps (set_ps (put_proc x (set_state PROC_RUNNING p) (ps s)) s)) =
    global_ticks (ps s)) as -> by apply put_proc_shape.
  do 3 (apply wp_bind; eapply wp_upd; [apply Hl|]; rewrite set_ps_put_put).
  apply wp_bind, (wp_upd_cpu 0 _ c); [done|done|].
  apply wp_bind. eapply wp_deref; [apply Hl|]. cbn [p_pagetable set_cpu_id inc_switches set_stats
    set_last_run set_state].
  case_match; [by apply wp_ret|by apply wp_bind, wp_emit, wp_emit].
Qed.

(** The CPU leaves the caller: a call by a process is resumed later, a call by
    code whose registers are not saved is not. *)
Definition handed (old : option procref) (s : sstate) (w : world) : res sstate unit :=
  match old with
  | Some _ => Switch s w (λ s' w', Ret tt s' w')
  | None => Leave s w
  end.

(** The outgoing process's registers saved, those of the incoming one loaded. *)
Lemma wpr_swtch old x px (P : res sstate unit → Prop) s :
  lookup_proc x (ps s) = Some px → old ≠ Some x →
  (∀ w, match old with
   | None => P (handed old (set_regs (p_context px) s) w)
   | Some r => ∃ p, lookup_proc r (ps s) = Some p ∧
       P (handed old (set_regs (p_context px)
            (set_ps (put_proc r (set_context (regs s) p) (ps s)) s)) w)
   end) →
  wpr (swtch old (Some x)) P s.
Proof.
  intros Hx Hne HP w. specialize (HP w). unfold swtch. destruct old as [r|].
  - destruct HP as (p & Hp & HP). unfold bind, gets, upd, deref, bind, gets, modify; simpl.
    rewrite Hp. simpl. rewrite (update_put _ _ _ p Hp).
    rewrite lookup_put, decide_False, Hx by (eauto || congruence). exact HP.
  - unfold bind, gets, deref, bind, gets, modify; simpl. rewrite Hx. exact HP.
Qed.

(** [x] is chosen to run: from the queues, or the idle process. *)
Inductive chosen (a : runq) (c : cpu_sched) : procref → option nat → runq → Prop :=
  | chosen_queued x lvl a1 : picked a x lvl a1 → chosen a c x lvl a1
  | chosen_idle x : queued a = [] → idle c = Some x → chosen a c x None a.

(** What becomes of the outgoing process: [t1] is the process table and [a1]
    the queues after the choice of [x]; [t2] and [a2] at the hand-over. *)
Definition outgoing (s : sstate) (c : cpu_sched) (x : procref) (px : process) (t1 : pstate)
    (a1 a2 : runq) (t2 : pstate) : Prop :=
  let run t := put_proc x (dispatched (global_ticks t1) px) t in
  match current c with
  | None => a2 = a1 ∧ t2 = run t1
  | Some r =>
      let b := bool_decide (Some r = idle c) in
      ∃ p, lookup_proc r t1 = Some p ∧
        rejoins b (put_proc r (retired b p) t1) r p a1 a2 ∧
        t2 = put_proc r (set_context (regs s) (retired b p))
               (run (put_proc r (retired b p) t1))
  end.

(** The state at the moment the CPU changes hands. *)
Record handover (s : sstate) (a : runq) (c : cpu_sched) (x : procref) (lvl : option nat)
    (px : process) (a1 a2 : runq) (s' : sstate) : Prop := {
  ho_chosen : chosen a c x lvl a1;
  ho_other : current c ≠ Some x;
  ho_px : lookup_proc x (refill x lvl (ps s)) = Some px;
  ho_out : outgoing s c x px (refill x lvl (ps s)) a1 a2 (ps s');
  ho_queues : qrepr (ready_queues s') (rtq s') a2;
  ho_cpu : cpu_data s' = <[0%nat := with_current x c]> (cpu_data s);
  ho_cpus : num_cpus s' = num_cpus s ∧ current_cpu s' = current_cpu s;
  ho_regs : regs s' = p_context px }.

(** ** The invariant *)

Definition running (c : cpu_sched) : list procref :=
  match current c with Some (PProc i) => [PProc i] | _ => [] end.

Record sched_inv (s : sstate) (a : runq) (c : cpu_sched) : Prop := {
  si_queues : qrepr (ready_queues s) (rtq s) a;
  si_table : length (proc_table (ps s)) = 64%nat;
  si_one_cpu : num_cpus s = 1 ∧ current_cpu s = 0;
  si_cpu : cpu_data s !! 0%nat = Some c;
  si_idle : idle c = Some (PIdle 0);
  si_idle_policy : ∃ p, lookup_proc (PIdle 0) (ps s) = Some p ∧ p_policy p = SCHED_IDLE;
  si_current : ∀ r, current c = Some r →
    (r = PIdle 0 ∨ ∃ i, r = PProc i) ∧
    ∃ p, lookup_proc r (ps s) = Some p ∧ p_state p = PROC_RUNNING;
  si_queued : ∀ r, r ∈ queued a →
    ∃ i p, r = PProc i ∧ lookup_proc r (ps s) = Some p ∧ p_state p = PROC_RUNNABLE;
  si_nodup : NoDup (running c ++ queued a) }.

Lemma si_arr s a c : sched_inv s a c → arr_get (cpu_data s) 0 = Some c.
Proof. intros Hi. exact (si_cpu _ _ _ Hi). Qed.

Lemma si_valid s a c x : sched_inv s a c → x ∈ queued a → valid (ps s) x.
Proof. intros Hi Hx. destruct (si_queued _ _ _ Hi x Hx) as (i & p & -> & Hp & _). by eexists. Qed.

Lemma si_not_queued s a c r : sched_inv s a c → current c = Some r → (r ∉ queued a).
Proof.
  intros Hi Hc Hr. destruct (si_queued _ _ _ Hi r Hr) as (i & p & -> & _ & _).
  pose proof (si_nodup _ _ _ Hi) as Hnd. unfold running in Hnd. rewrite Hc in Hnd.
  simpl in Hnd. apply NoDup_cons in Hnd as [Hnd _]. done.
Qed.

(** At most 64 processes, none twice: no queue is ever full. *)
Lemma procs_bound (l : list procref) (n : nat) :
  NoDup l → (∀ r, r ∈ l → ∃ i, r = PProc i ∧ (i < n)%nat) → (length l <= n)%nat.
Proof.
  intros Hnd Hl. set (f := λ r, match r with PProc i => i | PIdle _ => 0%nat end).
  rewrite <- (length_fmap f l). apply NoDup_bound.
  - apply NoDup_fmap_2_strong; [|done]. intros x y Hx Hy Hf.
    destruct (Hl x Hx) as (i & -> & _), (Hl y Hy) as (j & -> & _). simpl in Hf. by subst.
  - intros k Hk. apply list_elem_of_fmap in Hk as (r & -> & Hr).
    by destruct (Hl r Hr) as (i & -> & Hi).
Qed.

Lemma si_length s a c : sched_inv s a c → (length (queued a) <= 64)%nat.
Proof.
  intros Hi. apply procs_bound; [apply (NoDup_app (running c)), Hi|]. intros r Hr.
  destruct (si_queued _ _ _ Hi r Hr) as (j & p & -> & Hp & _). exists j. split; [done|].
  rewrite <- (si_table _ _ _ Hi). by eapply lookup_lt_Some.
Qed.

Lemma si_room s a c (i : nat) :
  sched_inv s a c → (i < 64)%nat → (PProc i ∉ queued a) → (length (queued a) < 64)%nat.
Proof.
  intros Hi Hlt Hni. apply (procs_bound (PProc i :: queued a) 64).
  - constructor; [done|]. apply (NoDup_app (running c)), Hi.
  - intros r [->|Hr]%elem_of_cons; [by exists i|].
    destruct (si_queued _ _ _ Hi r Hr) as (j & p & -> & Hp & _). exists j. split; [done|].
    rewrite <- (si_table _ _ _ Hi). by eapply lookup_lt_Some.
Qed.

(** *** [context_switch] and [sched_yield] *)

Lemma wpr_context_switch c x px a1 (P : res sstate unit → Prop) s :
  current c ≠ Some x → lookup_proc x (ps s) = Some px →
  qrepr (ready_queues s) (rtq s) a1 → arr_get (cpu_data s) 0 = Some c → current_cpu s = 0 →
  (∀ r, current c = Some r → ∃ p, lookup_proc r (ps s) = Some p ∧ p_state p = PROC_RUNNING) →
  (∀ y, y ∈ rts a1 → valid (ps s) y) → (length (queued a1) < 64)%nat →
  (∀ s' a2 w, outgoing s c x px (ps s) a1 a2 (ps s') → qrepr (ready_queues s') (rtq s') a2 →
     cpu_data s' = <[0%nat := with_current x c]> (cpu_data s) →
     num_cpus s' = num_cpus s ∧ current_cpu s' = current_cpu s →
     regs s' = p_context px → P (handed (current c) s' w)) →
  wpr (context_switch (current c) (Some x)) P s.
Proof.
  intros Hne Hx Hq Hc Hcpu Hcur Hv Hlen HP. unfold context_switch.
  rewrite decide_False by done. apply wpr_bind_wp, wp_gets. rewrite Hcpu.
  destruct (current c) as [r|] eqn:Hr.
  - destruct (Hcur r eq_refl) as (p & Hp & Hst). apply wpr_bind_wp.
    apply (wp_retire r p c a1); try done. intros qs' q' a2 Hq' Hrj.
    set (b := bool_decide (Some r = idle c)) in *. set (t' := put_proc r (retired b p) (ps s)) in *.
    assert (lookup_proc x t' = Some px) as Hx'.
    { unfold t'. rewrite lookup_put, decide_False by (eauto || congruence). done. }
    apply wpr_bind_wp, (wp_dispatch x px c); [done|done|]. cbn [ps set_ps set_rtq set_ready_queues].
    assert (global_ticks t' = global_ticks (ps s)) as -> by apply put_proc_shape.
    set (d := dispatched (global_ticks (ps s)) px).
    assert (lookup_proc r (put_proc x d t') = Some (retired b p)) as Hr'.
    { rewrite lookup_put, decide_False by (eauto || congruence). unfold t'. by eapply lookup_put_eq. }
    apply (wpr_swtch (Some r) x d); [by eapply lookup_put_eq|done|].
    intros w. exists (retired b p). split; [done|]. apply (HP _ a2); try done.
    unfold outgoing. rewrite Hr. exists p. done.
  - apply wpr_bind_wp, wp_ret. apply wpr_bind_wp, (wp_dispatch x px c); [done|done|].
    apply (wpr_swtch None x (dispatched (global_ticks (ps s)) px)); [by eapply lookup_put_eq|done|].
    intros w. apply (HP _ a1); try done. unfold outgoing. by rewrite Hr.
Qed.

Lemma lookup_refill_ne x y lvl t : x ≠ y → lookup_proc y (refill x lvl t) = lookup_proc y t.
Proof. intros Hne. destruct lvl; simpl; [|done]. by rewrite lookup_update, decide_False. Qed.

Lemma lookup_refill x lvl t p :
  lookup_proc x t = Some p →
  ∃ p', lookup_proc x (refill x lvl t) = Some p' ∧ p_policy p' = p_policy p ∧
    p_context p' = p_context p ∧ p_state p' = p_state p.
Proof.
  intros Hp. destruct lvl; simpl; [|by exists p].
  rewrite lookup_update, decide_True, Hp by done. by eexists.
Qed.

Lemma refill_shape x lvl t :
  length (proc_table (refill x lvl t)) = length (proc_table t) ∧
  global_ticks (refill x lvl t) = global_ticks t.
Proof. destruct lvl, x; simpl; rewrite ?length_alter; done. Qed.

Lemma wpr_yield s a c (P : res sstate unit → Prop) :
  sched_inv s a c →
  (∀ w, queued a = [] → current c = Some (PIdle 0) → P (Ret tt s w)) →
  (∀ x lvl px a1 a2 s' w, handover s a c x lvl px a1 a2 s' → P (handed (current c) s' w)) →
  wpr sched_yield P s.
Proof.
  intros Hi Hstay HP. unfold sched_yield. destruct (si_one_cpu _ _ _ Hi) as [_ Hcpu].
  apply wpr_bind_wp, wp_gets. rewrite Hcpu.
  apply wpr_bind_wp, (wp_get_cpu 0 c); [by eapply si_arr|].
  apply wpr_bind_wp, (wp_sched_next c a); [apply Hi|by eapply si_arr|by intros; eapply si_valid| |].
  - intros x lvl a1 qs' q' Hpk Hq'. pose proof (picked_queued _ _ _ _ Hpk) as Hperm.
    assert (x ∈ queued a) as Hxa by (rewrite Hperm; set_solver).
    destruct (si_queued _ _ _ Hi x Hxa) as (i & p & -> & Hp & _).
    assert (current c ≠ Some (PProc i)) as Hne.
    { intros Hc. by apply (si_not_queued _ _ _ _ Hi Hc). }
    destruct (lookup_refill _ lvl _ _ Hp) as (px & Hpx & _).
    apply (wpr_context_switch c (PProc i) px a1); try done.
    + exact (si_arr _ _ _ Hi).
    + intros r Hr. destruct (si_current _ _ _ Hi r Hr) as (_ & pr & Hpr & Hst). exists pr.
      split; [|done]. cbn [ps set_ps set_rtq set_ready_queues]. rewrite lookup_refill_ne; congruence.
    + intros y Hy. assert (y ∈ queued a) as Hya.
      { rewrite Hperm. apply elem_of_cons. right. unfold queued. set_solver. }
      destruct (si_valid _ _ _ _ Hi Hya) as [py Hpy]. unfold valid. simpl.
      destruct (decide (PProc i = y)) as [<-|Hny]; [by eexists|]. rewrite lookup_refill_ne by done. by eexists.
    + pose proof (si_length _ _ _ Hi) as H64. rewrite Hperm in H64. simpl in H64. lia.
    + intros s' a2 w Ho Hq2 Hcd Hn Hrg. apply (HP (PProc i) lvl px a1 a2). constructor; try done.
      by apply chosen_queued.
  - intros Hempty. rewrite (si_idle _ _ _ Hi).
    destruct (decide (current c = Some (PIdle 0))) as [Hc|Hc].
    { rewrite Hc. unfold context_switch. rewrite decide_True by done. intros w. by apply Hstay. }
    destruct (si_idle_policy _ _ _ Hi) as (p & Hp & _).
    apply (wpr_context_switch c (PIdle 0) p a); try done.
    + apply Hi.
    + by eapply si_arr.
    + intros r Hr. by destruct (si_current _ _ _ Hi r Hr) as (_ & pr).
    + intros y Hy. eapply si_valid; [done|]. unfold queued. set_solver.
    + rewrite Hempty. simpl. lia.
    + intros s' a2 w Ho Hq2 Hcd Hn Hrg. apply (HP (PIdle 0) None p a a2). constructor; try done.
      apply chosen_idle; [done|]. apply Hi.
Qed.

(** *** The hand-over keeps the invariant *)

Definition rejoined (b : bool) (r : procref) (p : process) : list procref :=
  if b then []
  else match p_policy p with SCHED_NORMAL | SCHED_RR => [r] | SCHED_FIFO | SCHED_IDLE => [] end.

Lemma retired_fields b p :
  p_policy (retired b p) = p_policy p ∧ p_context (retired b p) = p_context p ∧
  (rejoined b (PProc 0) p ≠ [] → p_state (retired b p) = PROC_RUNNABLE).
Proof. unfold retired, rejoined, demote. repeat case_match; done. Qed.

Lemma rejoins_queued b t r p a a' :
  rejoins b t r p a a' → queued a' ≡ₚ rejoined b r p ++ queued a.
Proof.
  unfold rejoins, rejoined. destruct b; [by intros ->|].
  destruct (retired_fields false p) as (Hpol & _).
  destruct (p_policy p) eqn:Hp; intros Ha; try (by subst a');
    by apply admits_queued in Ha; [|rewrite Hpol].
Qed.

(** The outgoing process, if it goes back to a queue. *)
Definition requeued (s : sstate) (c : cpu_sched) : list procref :=
  match current c with
  | Some r => match lookup_proc r (ps s) with
              | Some p => rejoined (bool_decide (Some r = idle c)) r p
              | None => []
              end
  | None => []
  end.

Section Handover.
Context (s : sstate) (a : runq) (c : cpu_sched).
Context (x : procref) (lvl : option nat) (px : process) (a1 a2 : runq) (s' : sstate).
Hypothesis Hi : sched_inv s a c.
Hypothesis Ho : handover s a c x lvl px a1 a2 s'.

Lemma ho_incoming :
  (∃ i, x = PProc i ∧ queued a ≡ₚ x :: queued a1) ∨ (x = PIdle 0 ∧ queued a = [] ∧ a1 = a).
Proof.
  destruct (ho_chosen _ _ _ _ _ _ _ _ _ Ho) as [y l b Hpk|y Hemp Hid].
  - left. pose proof (picked_queued _ _ _ _ Hpk) as Hp.
    destruct (si_queued _ _ _ Hi y) as (i & p & -> & _); [rewrite Hp; set_solver|]. eauto.
  - right. rewrite (si_idle _ _ _ Hi) in Hid. injection Hid as <-. done.
Qed.

Lemma ho_queued : queued a2 ≡ₚ requeued s c ++ queued a1.
Proof.
  pose proof (ho_out _ _ _ _ _ _ _ _ _ Ho) as Hout. unfold outgoing in Hout. unfold requeued.
  pose proof (ho_other _ _ _ _ _ _ _ _ _ Ho) as Hne.
  destruct (current c) as [r|] eqn:Hr; [|by destruct Hout as [-> _]].
  destruct Hout as (p & Hp & Hrj & _). rewrite lookup_refill_ne in Hp by congruence.
  rewrite Hp. by eapply rejoins_queued.
Qed.

(** Only the incoming and the outgoing process change. *)
Lemma ho_lookup y :
  lookup_proc y (ps s') =
    if decide (current c = Some y) then
      (λ p, set_context (regs s) (retired (bool_decide (Some y = idle c)) p)) <$> lookup_proc y (ps s)
    else if decide (y = x) then Some (dispatched (global_ticks (ps s)) px)
    else lookup_proc y (ps s).
Proof.
  pose proof (ho_out _ _ _ _ _ _ _ _ _ Ho) as Hout. unfold outgoing in Hout.
  pose proof (ho_other _ _ _ _ _ _ _ _ _ Ho) as Hne.
  pose proof (ho_px _ _ _ _ _ _ _ _ _ Ho) as Hpx.
  pose proof (refill_shape x lvl (ps s)) as [_ Htk]. rewrite Htk in Hout.
  destruct (current c) as [r|] eqn:Hr.
  - assert (r ≠ x) as Hrx by congruence.
    destruct Hout as (p & Hp & _ & ->). pose proof Hp as Hp0.
    rewrite lookup_refill_ne in Hp0 by congruence.
    assert (∀ q, lookup_proc x (put_proc r q (refill x lvl (ps s))) = Some px) as Hx1.
    { intros q. rewrite lookup_put, decide_False by (eauto || done). done. }
    assert (∀ q, lookup_proc r (put_proc r q (refill x lvl (ps s))) = Some q) as Hr1
      by (intros q; by eapply lookup_put_eq).
    rewrite lookup_put.
    2:{ rewrite lookup_put, decide_False by (eauto || congruence). eauto. }
    rewrite lookup_put by eauto. rewrite lookup_put by eauto.
    destruct (decide (r = y)) as [->|Hy]; [by rewrite decide_True, Hp0|].
    rewrite (decide_False (P := Some r = Some y)) by congruence.
    destruct (decide (x = y)) as [->|Hxy]; [by rewrite decide_True|].
    rewrite decide_False by congruence. by rewrite lookup_refill_ne.
  - destruct Hout as [_ ->]. rewrite lookup_put by eauto.
    rewrite (decide_False (P := None = Some y)) by done.
    destruct (decide (x = y)) as [->|Hxy]; [by rewrite decide_True|].
    rewrite decide_False by congruence. by rewrite lookup_refill_ne.
Qed.

Lemma ho_shape : length (proc_table (ps s')) = length (proc_table (ps s)).
Proof.
  pose proof (ho_out _ _ _ _ _ _ _ _ _ Ho) as Hout. unfold outgoing in Hout.
  destruct (refill_shape x lvl (ps s)) as [<- _].
  destruct (current c) as [r|]; [destruct Hout as (p & _ & _ & ->)|destruct Hout as [_ ->]];
    by repeat rewrite (proj1 (put_proc_shape _ _ _)).
Qed.

Lemma ho_policy y : p_policy <$> lookup_proc y (ps s') = p_policy <$> lookup_proc y (ps s).
Proof.
  rewrite ho_lookup. destruct (decide (current c = Some y)); [|destruct (decide (y = x)); [|done]].
  - destruct (lookup_proc y (ps s)) as [p|]; [|done]. simpl. f_equal.
    apply (retired_fields (bool_decide (Some y = idle c)) p).
  - subst y. assert (∃ p, lookup_proc x (ps s) = Some p) as [p Hp].
    { destruct ho_incoming as [(i & -> & Hp)|(-> & _)].
      - apply (si_valid _ _ _ _ Hi). rewrite Hp. set_solver.
      - destruct (si_idle_policy _ _ _ Hi) as (p & Hp & _). eauto. }
    destruct (lookup_refill _ lvl _ _ Hp) as (p' & Hp' & Hpol & _).
    rewrite (ho_px _ _ _ _ _ _ _ _ _ Ho) in Hp'. injection Hp' as ->. rewrite Hp.
    simpl. by rewrite <- Hpol.
Qed.

Lemma requeued_cases : requeued s c = [] ∨ (requeued s c = running c ∧
  ∃ i p, current c = Some (PProc i) ∧ running c = [PProc i] ∧ lookup_proc (PProc i) (ps s) = Some p ∧
    p_state (retired (bool_decide (Some (PProc i) = idle c)) p) = PROC_RUNNABLE).
Proof.
  unfold requeued, running. destruct (current c) as [r|] eqn:Hr; [|by left].
  destruct (si_current _ _ _ Hi r Hr) as (Hcase & p & Hp & _). rewrite Hp.
  unfold rejoined. case_bool_decide as Hb; [by left|].
  destruct Hcase as [->|[i ->]]; [by rewrite (si_idle _ _ _ Hi) in Hb|].
  destruct (p_policy p) eqn:Hpol; try (by left); right; (split; [done|]); exists i, p;
    split_and!; try done; unfold retired; rewrite Hpol; by case_match.
Qed.

Lemma handover_nodup : NoDup (running (with_current x c) ++ queued a2).
Proof.
  pose proof (si_nodup _ _ _ Hi) as Hnd. rewrite ho_queued.
  assert (NoDup (requeued s c ++ queued a)) as Hrq.
  { destruct requeued_cases as [-> | [-> _]]; [|done]. simpl. apply (NoDup_app (running c)), Hi. }
  unfold running; simpl. destruct ho_incoming as [(i & -> & Hp)|(-> & Hemp & ->)]; [|done].
  rewrite Hp in Hrq. simpl. by rewrite Permutation_middle.
Qed.

Lemma handover_inv : sched_inv s' a2 (with_current x c).
Proof.
  destruct (ho_cpus _ _ _ _ _ _ _ _ _ Ho) as [Hn Hcc].
  constructor.
  - apply (ho_queues _ _ _ _ _ _ _ _ _ Ho).
  - rewrite ho_shape. apply Hi.
  - rewrite Hn, Hcc. apply Hi.
  - rewrite (ho_cpu _ _ _ _ _ _ _ _ _ Ho). apply list_lookup_insert_eq.
    eapply lookup_lt_Some, Hi.
  - apply Hi.
  - destruct (si_idle_policy _ _ _ Hi) as (p & Hp & Hpol). pose proof (ho_policy (PIdle 0)) as Hl.
    rewrite Hp in Hl. destruct (lookup_proc (PIdle 0) (ps s')) as [p'|]; [|done].
    injection Hl as Hl. exists p'. split; [done|congruence].
  - simpl. intros r [= <-]. split.
    + destruct ho_incoming as [(i & -> & _)|(-> & _)]; [right; by exists i|by left].
    + rewrite ho_lookup. rewrite decide_False by apply (ho_other _ _ _ _ _ _ _ _ _ Ho).
      rewrite decide_True by done. by eexists.
  - intros y Hy. rewrite ho_queued in Hy. apply elem_of_app in Hy as [Hy|Hy].
    + destruct requeued_cases as [Hnil|(Heq & i & p & Hc & Hrun & Hp & Hst)].
      * rewrite Hnil in Hy. by apply elem_of_nil in Hy.
      * rewrite Heq, Hrun in Hy. apply list_elem_of_singleton in Hy as ->.
        eexists i, _. split; [done|]. rewrite ho_lookup, decide_True, Hp by done. split; [done|]. exact Hst.
    + pose proof handover_nodup as Hnd.
      assert (y ∈ queued a) as Hya.
      { destruct ho_incoming as [(i & -> & Hp)|(-> & Hemp & Ha)]; [rewrite Hp; set_solver|by rewrite <- Ha]. }
      assert (y ≠ x) as Hyx.
      { intros Heq. rewrite Heq in Hy, Hya. destruct ho_incoming as [(i & Hxi & Hp)|(_ & Hemp & Ha)].
        - assert (NoDup (queued a)) as Hnda by apply (NoDup_app (running c)), Hi.
          rewrite Hp in Hnda. apply NoDup_cons in Hnda as [Hnda _]. done.
        - rewrite Ha, Hemp in Hy. by apply elem_of_nil in Hy. }
      destruct (si_queued _ _ _ Hi y Hya) as (i & p & -> & Hp & Hst).
      exists i, p. split; [done|]. rewrite ho_lookup, decide_False.
      * by rewrite decide_False.
      * intros Hc. by apply (si_not_queued _ _ _ _ Hi Hc).
  - apply handover_nodup.
Qed.
End Handover.
