(* ===== verification/SchedOps.v ===== *)
(** The scheduler's invariant under every operation: admission, priorities,
    the timer tick with ageing, initialisation. *)

From Stdlib Require Import String.
From S2P Require Import Prelude Machine Uart Printf Process Queues Scheduler SchedInv.
Local Open Scope Z_scope.

(** ** Re-establishing the invariant *)

(** What the scheduler relies on in the process table is kept from [t] to
    [t'], for the processes it knows about. *)
Record keeps (known : list procref) (t t' : pstate) : Prop := {
  kp_table : length (proc_table t') = length (proc_table t);
  kp_state : ∀ y, y = PIdle 0 ∨ y ∈ known →
    p_state <$> lookup_proc y t' = p_state <$> lookup_proc y t;
  kp_idle : p_policy <$> lookup_proc (PIdle 0) t' = p_policy <$> lookup_proc (PIdle 0) t }.

Lemma keeps_refl k t : keeps k t t.
Proof. by constructor. Qed.

Lemma keeps_trans k t1 t2 t3 : keeps k t1 t2 → keeps k t2 t3 → keeps k t1 t3.
Proof.
  intros [A1 B1 C1] [A2 B2 C2]. constructor; [congruence| |congruence].
  intros y Hy. by rewrite B2, B1.
Qed.

Lemma keeps_put k r p p' t :
  lookup_proc r t = Some p → p_state p' = p_state p → (r = PIdle 0 → p_policy p' = p_policy p) →
  keeps k t (put_proc r p' t).
Proof.
  intros Hp Hst Hpol. constructor.
  - apply put_proc_shape.
  - intros y _. rewrite lookup_put by eauto. case_decide; [|done]. subst. rewrite Hp. simpl. congruence.
  - rewrite lookup_put by eauto. case_decide; [|done]. subst. rewrite Hp. simpl. f_equal. auto.
Qed.

Lemma keeps_put_unknown k i p p' t :
  lookup_proc (PProc i) t = Some p → (PProc i ∉ k) → keeps k t (put_proc (PProc i) p' t).
Proof.
  intros Hp Hk. constructor.
  - apply put_proc_shape.
  - intros y Hy. rewrite lookup_put, decide_False; [done| |by eauto].
    intros <-. by destruct Hy.
  - rewrite lookup_put by eauto. by rewrite decide_False.
Qed.

Lemma sched_inv_keeps s s' a a' c c' :
  sched_inv s a c → qrepr (ready_queues s') (rtq s') a' →
  keeps (running c ++ queued a) (ps s) (ps s') →
  num_cpus s' = num_cpus s → current_cpu s' = current_cpu s →
  cpu_data s' !! 0%nat = Some c' → idle c' = idle c → current c' = current c →
  queued a' ⊆+ queued a → sched_inv s' a' c'.
Proof.
  intros Hi Hq [Hlen Hst Hpol] Hn Hcc Hcd Hid Hcur Hsub.
  assert (running c' = running c) as Hrun by (unfold running; by rewrite Hcur).
  assert (∀ y p, y = PIdle 0 ∨ y ∈ running c ++ queued a → lookup_proc y (ps s) = Some p →
    ∃ p', lookup_proc y (ps s') = Some p' ∧ p_state p' = p_state p) as Hget.
  { intros y p Hy Hp. specialize (Hst y Hy). rewrite Hp in Hst.
    destruct (lookup_proc y (ps s')) as [p'|]; [|done]. injection Hst as Hst. eauto. }
  constructor.
  - done.
  - rewrite Hlen. apply Hi.
  - rewrite Hn, Hcc. apply Hi.
  - done.
  - rewrite Hid. apply Hi.
  - destruct (si_idle_policy _ _ _ Hi) as (p & Hp & Hpp). rewrite Hp in Hpol.
    destruct (lookup_proc (PIdle 0) (ps s')) as [p'|]; [|done]. injection Hpol as Hpol.
    exists p'. split; [done|congruence].
  - rewrite Hcur. intros r Hr. destruct (si_current _ _ _ Hi r Hr) as (Hcase & p & Hp & Hps).
    split; [done|]. destruct (Hget r p) as (p' & Hp' & Hst'); [|done|exists p'; split; congruence].
    destruct Hcase as [->|[i ->]]; [by left|]. right. unfold running. rewrite Hr. set_solver.
  - intros r Hr. assert (r ∈ queued a) as Hra by (by eapply elem_of_submseteq).
    destruct (si_queued _ _ _ Hi r Hra) as (i & p & -> & Hp & Hps).
    destruct (Hget (PProc i) p) as (p' & Hp' & Hst'); [right; set_solver|done|].
    exists i, p'. split_and!; [done|done|congruence].
  - rewrite Hrun. apply submseteq_Permutation in Hsub as [k Hk].
    pose proof (si_nodup _ _ _ Hi) as Hnd. rewrite Hk, app_assoc in Hnd. by apply NoDup_app in Hnd as [Hnd _].
Qed.

(** ** Ageing *)

Definition boosted (p : process) : process := set_time_slice 5 (set_queue_level 0 p).

Definition is_normal (t : pstate) (r : procref) : Prop :=
  p_policy <$> lookup_proc r t = Some SCHED_NORMAL.

#[global] Instance is_normal_dec t r : Decision (is_normal t r).
Proof. unfold is_normal. apply _. Defined.

(** Processes of [l] that ageing moves to the top level. *)
Definition normals (t : pstate) (l : list procref) : list procref := filter (is_normal t) l.

(** [t'] is [t] with the normal processes of [l] boosted. *)
Definition boosts (l : list procref) (t t' : pstate) : Prop :=
  global_ticks t' = global_ticks t ∧
  ∀ y, lookup_proc y t' =
    (if decide (y ∈ normals t l) then boosted <$> lookup_proc y t else lookup_proc y t).

Lemma boosts_normal l t t' y : boosts l t t' → is_normal t' y ↔ is_normal t y.
Proof.
  intros [_ Hb]. unfold is_normal. rewrite Hb. case_decide; [|done].
  by destruct (lookup_proc y t).
Qed.

Lemma boosts_nil t : boosts [] t t.
Proof. split; [done|]. intros y. case_decide as Hy; [|done]. by apply elem_of_nil in Hy. Qed.

Lemma boosts_app l1 l2 t t1 t2 :
  NoDup (l1 ++ l2) → boosts l1 t t1 → boosts l2 t1 t2 → boosts (l1 ++ l2) t t2.
Proof.
  intros Hnd H1 [Htk2 H2]. pose proof (λ y, boosts_normal _ _ _ y H1) as Hn.
  destruct H1 as [Htk1 H1]. apply NoDup_app in Hnd as (_ & Hx & _).
  assert (∀ y, y ∈ normals t1 l2 ↔ is_normal t y ∧ y ∈ l2) as Hl1.
  { intros y. unfold normals. by rewrite list_elem_of_filter, Hn. }
  split; [congruence|]. intros y. rewrite H2, H1. specialize (Hx y). unfold normals in *.
  destruct (decide (y ∈ filter (is_normal t) (l1 ++ l2))) as [Hy|Hy];
    rewrite list_elem_of_filter, elem_of_app in Hy.
  - destruct Hy as [Hyn [Hyl|Hyl]].
    + rewrite (decide_False (P := y ∈ filter (is_normal t1) l2)) by (rewrite Hl1; tauto).
      rewrite decide_True; [done|]. rewrite list_elem_of_filter. tauto.
    + rewrite (decide_True (P := y ∈ filter (is_normal t1) l2)) by (rewrite Hl1; tauto).
      rewrite decide_False; [done|]. rewrite list_elem_of_filter. tauto.
  - rewrite (decide_False (P := y ∈ filter (is_normal t1) l2)) by (rewrite Hl1; tauto).
    rewrite decide_False; [done|]. rewrite list_elem_of_filter. tauto.
Qed.

(** Moving level [j] of [a] to the end of level 0. *)
Record aged (j : nat) (l0 l : list procref) (a : runq) (t : pstate) (a' : runq) : Prop := {
  ag_levels : levels a' = <[0%nat := l0 ++ normals t l]> (<[j := []]> (levels a));
  ag_rts : rts a' = rts a }.

Lemma boost_step_inv s a c j x l l0 :
  sched_inv s a c → j ≠ 0%nat → levels a !! j = Some (x :: l) → levels a !! 0%nat = Some l0 →
  let a1 := RunQ (<[j:=l]> (levels a)) (rts a) in
  let a2 := RunQ (<[0%nat:=l0 ++ [x]]> (<[j:=l]> (levels a))) (rts a) in
  (length l0 < 64)%nat ∧ (levels a1 !! 0%nat = Some l0) ∧ queued a ≡ₚ x :: queued a1 ∧ queued a2 ≡ₚ queued a.
Proof.
  intros Hi Hj Hl Hl0 a1 a2.
  assert (levels a1 !! 0%nat = Some l0) as H0 by (simpl; by rewrite list_lookup_insert_ne).
  assert (queued a ≡ₚ x :: queued a1) as Hp1.
  { unfold queued, a1; simpl. rewrite (concat_remove_perm _ _ _ _ Hl).
    symmetry. apply Permutation_middle. }
  assert (queued a2 ≡ₚ queued a) as Hp2.
  { rewrite Hp1. unfold queued, a2; simpl.
    rewrite (concat_insert_perm (<[j:=l]> (levels a)) 0 l0 (l0 ++ [x]) x H0); [symmetry; apply Permutation_middle|].
    symmetry. apply Permutation_cons_append. }
  split_and!; [|done|done|done].
  apply length_level in H0. pose proof (si_length _ _ _ Hi) as H64.
  rewrite Hp1 in H64. unfold queued in H64. simpl in H64. rewrite length_app in H64.
  unfold a1 in H0; simpl in H0. lia.
Qed.

Lemma boosts_normals l l' t t' : boosts l t t' → normals t' l' = normals t l'.
Proof. intros Hb. apply list_filter_iff. intros y. by eapply boosts_normal. Qed.

(** What the [while] loop has done when level [j] is empty. *)
Record boost_post (j : nat) (l0 l : list procref) (s : sstate) (a : runq) (c : cpu_sched)
    (s' : sstate) (a' : runq) : Prop := {
  bp_inv : sched_inv s' a' c;
  bp_aged : aged j l0 l a (ps s) a';
  bp_procs : boosts l (ps s) (ps s');
  bp_cpu : cpu_data s' = cpu_data s;
  bp_regs : regs s' = regs s }.

(** One turn of the loop on the process [x] at the head of level [j]. *)
Lemma boost_post_cons j x l l0 l0' s a c s1 a1 s' a' :
  NoDup (x :: l) → j ≠ 0%nat → (0 < length (levels a))%nat →
  levels a1 = <[0%nat := l0']> (<[j := l]> (levels a)) → rts a1 = rts a →
  l0' = l0 ++ normals (ps s) [x] → boosts [x] (ps s) (ps s1) →
  cpu_data s1 = cpu_data s → regs s1 = regs s →
  boost_post j l0' l s1 a1 c s' a' → boost_post j l0 (x :: l) s a c s' a'.
Proof.
  intros Hnd Hj Hlen Hlv Hrt Hl0 Hb Hcd Hrg [Hi [Hlv' Hrt'] Hp Hcd' Hrg'].
  constructor; [done| |by eapply (boosts_app [x])|congruence|congruence].
  constructor; [|congruence]. rewrite Hlv', Hlv, (boosts_normals _ _ _ _ Hb).
  rewrite (list_insert_insert_ne _ j 0), list_insert_insert_eq, list_insert_insert_eq by done.
  f_equal. rewrite Hl0, <- app_assoc. f_equal. unfold normals. by rewrite <- filter_app.
Qed.

(** The effect of one turn on the process table. *)
Lemma boosts_one i p t :
  lookup_proc (PProc i) t = Some p → p_policy p = SCHED_NORMAL →
  normals t [PProc i] = [PProc i] ∧ boosts [PProc i] t (put_proc (PProc i) (boosted p) t).
Proof.
  intros Hp Hn. assert (is_normal t (PProc i)) as Hin by (unfold is_normal; rewrite Hp; simpl; by f_equal).
  assert (normals t [PProc i] = [PProc i]) as Heq by (unfold normals; by rewrite filter_cons_True).
  split; [done|]. split; [apply put_proc_shape|]. intros y. rewrite lookup_put, Heq by eauto.
  destruct (decide (PProc i = y)) as [<-|Hy].
  - rewrite decide_True by set_solver. by rewrite Hp.
  - by rewrite decide_False by set_solver.
Qed.

Lemma boosts_none i p t :
  lookup_proc (PProc i) t = Some p → p_policy p ≠ SCHED_NORMAL →
  normals t [PProc i] = [] ∧ boosts [PProc i] t t.
Proof.
  intros Hp Hn. assert (¬ is_normal t (PProc i)) as Hin by (unfold is_normal; rewrite Hp; simpl; congruence).
  assert (normals t [PProc i] = []) as Heq by (unfold normals; by rewrite filter_cons_False).
  split; [done|]. split; [done|]. intros y. rewrite Heq. by rewrite decide_False by set_solver.
Qed.

Lemma level_nodup s a c j l : sched_inv s a c → levels a !! j = Some l → NoDup l.
Proof.
  intros Hi Hl. assert (NoDup (concat (levels a))) as Hn.
  { apply (NoDup_app (rts a)). apply (NoDup_app (running c)), Hi. }
  rewrite <- (take_drop_middle _ _ _ Hl), concat_app in Hn. simpl in Hn.
  apply NoDup_app in Hn as (_ & _ & Hn). by apply NoDup_app in Hn as [Hn _].
Qed.

Lemma wp_boost_loop fuel j l0 l a c H s :
  sched_inv s a c → j ≠ 0%nat → levels a !! j = Some l → levels a !! 0%nat = Some l0 →
  (length l < fuel)%nat →
  wp (boost_loop fuel (Z.of_nat j)) (λ _ s', ∃ a', boost_post j l0 l s a c s' a') H s.
Proof.
  intros Hi Hj. revert fuel l0 a s Hi. induction l as [|x l IH]; intros fuel l0 a s Hi Hl Hl0 Hf;
    (destruct fuel as [|fuel]; [simpl in Hf; lia|]); simpl;
    apply wp_bind; (eapply wp_get_queue; [apply Hi|exact Hl|]); intros q Hring;
    pose proof (ring_size _ _ Hring) as Hsz; simpl in Hsz.
  { rewrite Hsz. simpl. apply wp_ret. exists a. constructor; [done| |apply boosts_nil|done|done].
    constructor; [|done]. unfold normals. rewrite filter_nil, app_nil_r.
    by rewrite (list_insert_id _ j), list_insert_id. }
  destruct (Z.ltb_spec 0 (q_size q)); [|lia].
  pose proof (boost_step_inv s a c j x l l0 Hi Hj Hl Hl0) as (Hroom & H01 & Hp1 & Hp2).
  assert (x ∈ queued a) as Hx by (rewrite Hp1; set_solver).
  destruct (si_queued _ _ _ Hi x Hx) as (i & p & -> & Hp & Hst).
  pose proof (level_nodup _ _ _ _ _ Hi Hl) as Hnd. pose proof (lookup_lt_Some _ _ _ Hl) as Hjl.
  assert (0 < length (levels a))%nat as Hlen by lia.
  apply wp_bind. eapply wp_dequeue_level; [apply Hi|exact Hl|]. intros qs1 Hq1.
  apply wp_bind, wp_bind, (wp_deref _ p); [done|].
  destruct (decide (p_policy p = SCHED_NORMAL)) as [Hn|Hn].
  - destruct (boosts_one i p _ Hp Hn) as [Hno Hbo]. apply wp_bind, (wp_upd _ p); [done|].
    apply wp_bind, wp_ret. apply wp_bind. eapply wp_upd; [by eapply lookup_put_eq|].
    eapply (wp_enqueue_level 0 l0); [exact Hq1|exact H01|exact Hroom|]. intros qs2 Hq2.
    cbn [ps set_ps set_ready_queues rtq rts levels] in Hq2 |- *. rewrite put_put.
    eapply wp_mono; [eapply (IH fuel)| |done].
    + eapply (sched_inv_keeps s); [exact Hi|exact Hq2| |done|done|apply Hi|done|done|by rewrite Hp2].
      by apply (keeps_put _ _ p).
    + cbn [levels]. rewrite list_lookup_insert_ne by done. by apply list_lookup_insert_eq.
    + cbn [levels]. apply list_lookup_insert_eq. by rewrite length_insert.
    + simpl in Hf. lia.
    + intros _ s' [a' Hpost]. exists a'. eapply boost_post_cons; [..|exact Hpost]; try done. by rewrite Hno.
  - destruct (boosts_none i p _ Hp Hn) as [Hno Hbo]. apply wp_ret. eapply wp_mono; [eapply (IH fuel)| |done].
    + eapply (sched_inv_keeps s); [exact Hi|exact Hq1|apply keeps_refl|done|done|apply Hi|done|done|].
      rewrite Hp1. by apply submseteq_cons.
    + cbn [levels]. by apply list_lookup_insert_eq.
    + exact H01.
    + simpl in Hf. lia.
    + intros _ s' [a' Hpost]. exists a'. eapply boost_post_cons; [..|exact Hpost]; try done.
      * cbn [levels]. symmetry. apply list_insert_id. exact H01.
      * by rewrite Hno, app_nil_r.
Qed.

(** The three levels in turn. *)
Lemma wp_boost l0 l1 l2 l3 a c H s :
  sched_inv s a c → levels a = [l0; l1; l2; l3] →
  wp boost (λ _ s', ∃ a', sched_inv s' a' c ∧
    levels a' = [l0 ++ normals (ps s) (l1 ++ l2 ++ l3); []; []; []] ∧ rts a' = rts a ∧
    boosts (l1 ++ l2 ++ l3) (ps s) (ps s') ∧ cpu_data s' = cpu_data s ∧ regs s' = regs s) H s.
Proof.
  intros Hi Hlv. unfold boost.
  assert (∀ i l, levels a !! i = Some l → (length l < 65)%nat) as Hlen.
  { intros i l Hl. apply length_level in Hl. pose proof (si_length _ _ _ Hi) as H64.
    unfold queued in H64. rewrite length_app in H64. lia. }
  assert (length l1 < 65 ∧ length l2 < 65 ∧ length l3 < 65)%nat as (Hl1 & Hl2 & Hl3).
  { split_and!; [apply (Hlen 1%nat)|apply (Hlen 2%nat)|apply (Hlen 3%nat)]; by rewrite Hlv. }
  assert (NoDup (l1 ++ l2 ++ l3)) as Hnd.
  { assert (NoDup (concat (levels a))) as Hn.
    { apply (NoDup_app (rts a)). apply (NoDup_app (running c)), Hi. }
    rewrite Hlv in Hn. simpl in Hn. rewrite app_nil_r in Hn. by apply NoDup_app in Hn as (_ & _ & Hn). }
  apply wp_bind. eapply wp_mono; [apply (wp_boost_loop 65 1 l0 l1 a c); try done; by rewrite Hlv| |done].
  intros _ s1 (a1 & [Hi1 [Hlv1 Hrt1] Hb1 Hcd1 Hrg1]). rewrite Hlv in Hlv1. simpl in Hlv1.
  apply wp_bind. eapply wp_mono;
    [apply (wp_boost_loop 65 2 (l0 ++ normals (ps s) l1) l2 a1 c); try done; by rewrite Hlv1| |done].
  intros _ s2 (a2 & [Hi2 [Hlv2 Hrt2] Hb2 Hcd2 Hrg2]). rewrite Hlv1 in Hlv2. simpl in Hlv2.
  rewrite (boosts_normals _ _ _ _ Hb1) in Hlv2.
  eapply wp_mono; [eapply (wp_boost_loop 65 3 _ l3 a2 c); try done; by rewrite Hlv2| |done].
  intros _ s3 (a3 & [Hi3 [Hlv3 Hrt3] Hb3 Hcd3 Hrg3]). rewrite Hlv2 in Hlv3. simpl in Hlv3.
  rewrite (boosts_normals _ _ _ _ Hb2), (boosts_normals _ _ _ _ Hb1) in Hlv3.
  exists a3. split_and!; [done| |congruence| |congruence|congruence].
  - rewrite Hlv3. unfold normals. by rewrite !filter_app, !app_assoc.
  - apply (boosts_app l1 (l2 ++ l3) _ (ps s1)); [done|done|].
    apply NoDup_app in Hnd as (_ & _ & Hnd). by eapply boosts_app.
Qed.

Lemma four_levels s a c : sched_inv s a c → ∃ l0 l1 l2 l3, levels a = [l0; l1; l2; l3].
Proof.
  intros Hi. pose proof (qr_four _ _ _ (si_queues _ _ _ Hi)) as H4.
  destruct (levels a) as [|l0 [|l1 [|l2 [|l3 [|]]]]]; try done. by exists l0, l1, l2, l3.
Qed.

Definition sched_ok (s : sstate) : Prop := ∃ a c, sched_inv s a c.

Lemma wp_ageing s H : sched_ok s → wp ageing (λ _, sched_ok) H s.
Proof.
  intros (a & c & Hi). unfold ageing. apply wp_bind, wp_gets. case_match.
  - destruct (four_levels _ _ _ Hi) as (l0 & l1 & l2 & l3 & Hlv).
    eapply wp_mono; [by eapply wp_boost| |done]. intros _ s' (a' & Hi' & _). by exists a', c.
  - apply wp_ret. by exists a, c.
Qed.

(** ** The timer tick *)

(** One tick charged to the running process. *)
Definition ran (p : process) : process :=
  let p1 := inc_cpu_time p in
  if 0 <? p_time_slice p1 then set_time_slice (p_time_slice p1 - 1) p1 else p1.

Definition ticked (c : cpu_sched) : cpu_sched :=
  CpuSched (current c) (idle c) (cs_cpu_id c) (u64 (cs_ticks c + 1))
    (if decide (current c = idle c) then u64 (cs_idle_ticks c + 1) else cs_idle_ticks c).

(** The timer takes the CPU away. *)
Definition preempts (p : process) : bool :=
  (p_time_slice p =? 0) &&
  match p_policy p with SCHED_NORMAL | SCHED_RR => true | SCHED_FIFO | SCHED_IDLE => false end.

(** The state after the accounting part of [sched_tick]. *)
Definition charged (r : procref) (p : process) (c : cpu_sched) (s : sstate) : sstate :=
  set_cpu_data (<[0%nat := ticked c]> (cpu_data s))
    (set_ps (put_proc r (ran p) (tick_increment (ps s))) s).

Lemma lookup_tick y t : lookup_proc y (tick_increment t) = lookup_proc y t.
Proof. by destruct y. Qed.

Lemma charged_inv r p c a s :
  sched_inv s a c → current c = Some r → lookup_proc r (ps s) = Some p →
  sched_inv (charged r p c s) a (ticked c).
Proof.
  intros Hi Hc Hp. eapply (sched_inv_keeps s); [exact Hi|apply Hi| |done|done| |done|done|done].
  - apply (keeps_trans _ _ (tick_increment (ps s))).
    + constructor; [done| |]; intros; by rewrite lookup_tick.
    + apply (keeps_put _ _ p); [by rewrite lookup_tick| |]; unfold ran; by case_match.
  - apply list_lookup_insert_eq. eapply lookup_lt_Some, Hi.
Qed.

Lemma wpr_tick r p c a (P : res sstate unit → Prop) s :
  sched_inv s a c → current c = Some r → lookup_proc r (ps s) = Some p →
  wpr ((if preempts (ran p) then sched_yield else ret tt) ;; ageing) P (charged r p c s) →
  wpr sched_tick P s.
Proof.
  intros Hi Hc Hp Hw. unfold sched_tick. destruct (si_one_cpu _ _ _ Hi) as [_ Hcpu].
  pose proof (si_arr _ _ _ Hi) as Harr.
  assert (0 < length (cpu_data s))%nat as Hlen by (eapply lookup_lt_Some, Hi).
  apply wpr_bind_wp, wp_gets. rewrite Hcpu.
  apply wpr_bind_wp, (wp_get_cpu 0 c); [done|]. apply wpr_bind_wp, wp_modify.
  apply wpr_bind_wp, (wp_upd_cpu 0 _ c); [done|done|]. rewrite Hc.
  apply wpr_bind_wp, (wp_upd r p); [by rewrite <- Hp; apply lookup_tick|].
  set (c1 := CpuSched (Some r) (idle c) (cs_cpu_id c) (u64 (cs_ticks c + 1)) (cs_idle_ticks c)).
  assert (∀ c2, arr_get (<[0%nat := c2]> (cpu_data s)) 0 = Some c2) as Hget.
  { intros c2. by apply list_lookup_insert_eq. }
  apply wpr_bind_wp, (wp_get_cpu 0 c1); [apply Hget|].
  set (t1 := put_proc r (inc_cpu_time p) (tick_increment (ps s))).
  assert (∀ q, lookup_proc r (put_proc r q (tick_increment (ps s))) = Some q) as Hlk.
  { intros q. eapply lookup_put_eq. rewrite lookup_tick. exact Hp. }
  apply wpr_bind_wp. eapply (wp_mono _ (λ _ s', s' = set_cpu_data (<[0%nat := ticked c]> (cpu_data s)) (set_ps t1 s)));
    [| |done].
  { cbn [idle c1]. unfold ticked. rewrite Hc. destruct (decide (Some r = idle c)) as [He|He].
    - apply (wp_upd_cpu 0 _ c1); [done|apply Hget|]. unfold c1, set_cpu_data, set_ps; simpl.
      by rewrite list_insert_insert_eq.
    - by apply wp_ret. }
  intros [] s' ->. apply wpr_bind_wp, (wp_deref r (inc_cpu_time p)); [apply Hlk|].
  apply wpr_bind_wp. eapply (wp_mono _ (λ _ s', s' = charged r p c s)); [| |done].
  { unfold charged, ran. cbn zeta.
    destruct (0 <? p_time_slice (inc_cpu_time p)); [|by apply wp_ret].
    eapply wp_upd; [apply Hlk|]. unfold t1, set_cpu_data, set_ps; simpl. by rewrite put_put. }
  intros [] s' ->. apply wpr_bind_wp, (wp_deref r (ran p)); [apply Hlk|].
  unfold preempts in Hw. destruct (p_time_slice (ran p) =? 0); [|exact Hw].
  destruct (p_policy (ran p)); exact Hw.
Qed.

(** ** What the concrete queues hold, read off the arrays *)

Definition q_contents (q : mlfq) : list procref :=
  omap (λ i : nat, mjoin (arr_get (q_queue q) ((q_head q + Z.of_nat i) mod 64)))
    (seq 0 (Z.to_nat (q_size q))).
Definition rt_contents (q : rt_queue) : list procref :=
  omap id (take (Z.to_nat (rt_size q)) (rt_slots q)).

Definition abs (s : sstate) : runq := RunQ (q_contents <$> ready_queues s) (rt_contents (rtq s)).
Definition cpu0 (s : sstate) : cpu_sched := default (CpuSched None None 0 0 0) (cpu_data s !! 0%nat).

(** The processes the scheduler knows about: running or waiting. *)
Definition tracked (s : sstate) : list procref := running (cpu0 s) ++ queued (abs s).

Lemma ring_contents q l : ring q l → q_contents q = l.
Proof.
  intros [_ _ _ Hs _ Hsl]. unfold q_contents. rewrite Hs, Nat2Z.id.
  assert (∀ k (m : list procref), (∀ i p, m !! i = Some p →
      arr_get (q_queue q) ((q_head q + Z.of_nat (k + i)) mod 64) = Some (Some p)) →
    omap (λ i : nat, mjoin (arr_get (q_queue q) ((q_head q + Z.of_nat i) mod 64))) (seq k (length m)) = m) as Hgen.
  { intros k m. revert k. induction m as [|p m IH]; intros k Hm; simpl; [done|].
    pose proof (Hm 0%nat p eq_refl) as H0. rewrite Nat.add_0_r in H0. rewrite H0. simpl. f_equal.
    apply IH. intros i p' Hi. rewrite <- (Hm (S i) p' Hi). do 3 f_equal. lia. }
  apply Hgen. intros i p Hi. by apply Hsl.
Qed.

Lemma rt_repr_contents q l : rt_repr q l → rt_contents q = l.
Proof.
  intros [_ Hs _ He]. unfold rt_contents. rewrite Hs, Nat2Z.id, He.
  clear. induction l as [|x l IH]; simpl; [done|]. by f_equal.
Qed.

Lemma sched_inv_abs s a c : sched_inv s a c → a = abs s ∧ c = cpu0 s.
Proof.
  intros Hi. destruct (si_queues _ _ _ Hi) as [Hl _ Hr]. split.
  - unfold abs. destruct a as [lv rt]; simpl in *. f_equal; [|by rewrite (rt_repr_contents _ _ Hr)].
    clear -Hl. induction Hl as [|q l qs lv Hq Hl IH]; [done|]. simpl. by rewrite (ring_contents _ _ Hq), IH.
  - unfold cpu0. by rewrite (si_cpu _ _ _ Hi).
Qed.

Lemma sched_ok_inv s : sched_ok s → sched_inv s (abs s) (cpu0 s).
Proof. intros (a & c & Hi). by destruct (sched_inv_abs _ _ _ Hi) as [<- <-]. Qed.

(** ** The other operations *)

Lemma wp_sched_add_inv i p H s :
  sched_ok s → lookup_proc (PProc i) (ps s) = Some p → (PProc i ∉ tracked s) →
  wp (sched_add (Some (PProc i))) (λ _ s', sched_ok s' ∧ cpu_data s' = cpu_data s ∧
    ps s' = put_proc (PProc i) (set_state PROC_RUNNABLE p) (ps s) ∧
    admits (ps s') (PProc i) p (abs s) (abs s')) H s.
Proof.
  intros Hok Hp Hnt. pose proof (sched_ok_inv s Hok) as Hi. unfold tracked in Hnt.
  rewrite elem_of_app in Hnt.
  assert (i < 64)%nat as Hlt by (rewrite <- (si_table _ _ _ Hi); by eapply lookup_lt_Some).
  eapply (wp_sched_add _ p); [apply Hi|done| | |].
  - intros x Hx. apply (si_valid _ _ _ _ Hi). unfold queued. set_solver.
  - eapply si_room; [done|done|]. tauto.
  - intros qs' q' a' Hq' Had. set (t' := put_proc _ _ _) in *.
    set (s' := set_rtq q' (set_ready_queues qs' (set_ps t' s))).
    assert (p_policy p ≠ SCHED_IDLE → queued a' ≡ₚ PProc i :: queued (abs s)) as Hperm
      by (intros; by eapply admits_queued).
    assert (keeps (running (cpu0 s) ++ queued (abs s)) (ps s) t') as Hk.
    { eapply keeps_put_unknown; [done|]. rewrite elem_of_app. tauto. }
    assert (sched_inv s' a' (cpu0 s)) as Hi'.
    { destruct (decide (p_policy p = SCHED_IDLE)) as [Hidle|Hidle].
      { unfold admits in Had. rewrite Hidle in Had. subst a'.
        eapply (sched_inv_keeps s); [exact Hi|exact Hq'|exact Hk|done|done|apply Hi|done|done|done]. }
      specialize (Hperm Hidle).
      assert (sched_inv (set_ps t' s) (abs s) (cpu0 s)) as Hmid.
      { eapply (sched_inv_keeps s); [exact Hi|apply Hi|exact Hk|done|done|apply Hi|done|done|done]. }
      destruct Hmid as [_ Ht Hone Hcpu Hid Hpol Hcur Hqd Hnd]. constructor; try done.
      - intros r Hr. rewrite Hperm in Hr. apply elem_of_cons in Hr as [->|Hr]; [|by apply Hqd].
        exists i, (set_state PROC_RUNNABLE p). split_and!; [done| |done]. by eapply lookup_put_eq.
      - rewrite Hperm, <- Permutation_middle. constructor; [|done]. rewrite elem_of_app. tauto. }
    destruct (sched_inv_abs _ _ _ Hi') as [<- _]. split_and!; [by eexists _, _|done|done|done].
Qed.

(** Changing one process that is not the idle process, its state kept. *)
Lemma sched_ok_put i p p' s :
  sched_ok s → lookup_proc (PProc i) (ps s) = Some p → p_state p' = p_state p →
  sched_ok (set_ps (put_proc (PProc i) p' (ps s)) s).
Proof.
  intros Hok Hp Hst. pose proof (sched_ok_inv s Hok) as Hi. eexists _, _.
  eapply (sched_inv_keeps s); [exact Hi|apply Hi| |done|done|apply Hi|done|done|done].
  by eapply keeps_put.
Qed.

(** The process after [sched_set_priority]. *)
Definition prioritised (pr : Z) (p : process) : process :=
  let pr := Z.max PRIORITY_MIN (Z.min PRIORITY_MAX pr) in
  let p := set_priorities pr pr p in
  if pr <=? PRIORITY_RT_MAX then set_policy SCHED_RR p
  else set_queue_level (Z.quot ((pr - PRIORITY_NORMAL_MIN) * 4) 40) p.

Lemma wp_set_priority r p pr Q H s :
  lookup_proc r (ps s) = Some p → Q tt (set_ps (put_proc r (prioritised pr p) (ps s)) s) →
  wp (sched_set_priority (Some r) pr) Q H s.
Proof.
  intros Hp HQ. unfold sched_set_priority.
  set (v := if PRIORITY_MAX <? (if pr <? PRIORITY_MIN then PRIORITY_MIN else pr) then PRIORITY_MAX
            else if pr <? PRIORITY_MIN then PRIORITY_MIN else pr).
  assert (v = Z.max PRIORITY_MIN (Z.min PRIORITY_MAX pr)) as Hv.
  { unfold v, PRIORITY_MAX, PRIORITY_MIN.
    destruct (Z.ltb_spec pr 0), (Z.ltb_spec 139 pr); try (destruct (Z.ltb_spec 139 0)); lia. }
  cbn zeta. fold v. apply wp_bind, (wp_upd r p); [done|]. unfold prioritised in HQ. rewrite <- Hv in HQ.
  assert (0 <= v <= 139) as Hr by (rewrite Hv; unfold PRIORITY_MIN, PRIORITY_MAX; lia).
  clearbody v. cbn zeta in HQ. destruct (Z.leb_spec v PRIORITY_RT_MAX) as [Hle|Hgt].
  - eapply wp_upd; [by eapply lookup_put_eq|]. by rewrite set_ps_put_put.
  - eapply wp_upd; [by eapply lookup_put_eq|]. rewrite set_ps_put_put.
    assert (priority_level v = Z.quot ((v - PRIORITY_NORMAL_MIN) * 4) 40) as ->; [|done].
    unfold priority_level, PRIORITY_NORMAL_MIN, PRIORITY_MAX, NUM_QUEUE_LEVELS, PRIORITY_RT_MAX in *.
    change (139 - 100 + 1) with 40. rewrite Z.quot_div_nonneg by lia.
    destruct (Z.leb_spec 4 ((v - 100) * 4 / 40)); [|done]. Z.div_mod_to_equations. lia.
Qed.
