(* ===== verification/SchedProps.v ===== *)
(** Properties of the scheduler: what each operation does, and that the whole
    system, with suspended processes, is safe. *)

From Stdlib Require Import String.
From S2P Require Import Prelude Machine Uart Printf Process Queues Scheduler SchedInv SchedOps.
Local Open Scope string_scope.
Local Open Scope list_scope.
Local Open Scope Z_scope.

(** ** Initialisation *)

(** The sizes of the static arrays; one CPU. *)
Record bss (s : sstate) : Prop := {
  bss_queues : length (ready_queues s) = 4%nat;
  bss_slots : Forall (λ q, length (q_queue q) = 64%nat) (ready_queues s);
  bss_rt : length (rt_slots (rtq s)) = 64%nat;
  bss_table : length (proc_table (ps s)) = 64%nat;
  bss_idle : length (idle_processes (ps s)) = 8%nat;
  bss_cpus : length (cpu_data s) = 8%nat;
  bss_one : num_cpus s = 1 ∧ current_cpu s = 0 }.

Definition empty_runq : runq := RunQ [[]; []; []; []] [].

(** The loop over the levels. *)
Lemma wp_init_queues H s :
  bss s →
  wp (for_up NUM_QUEUE_LEVELS (λ i,
    let* q := get_queue i in
    put_queue i (mlfq_init q) ;;
    let* sl := lift_opt (arr_get queue_time_slices i) in
    printf (ln "[SCHED] Queue %d: time slice = %lu ticks") [ANum i; ANum sl]))
    (λ _ s', bss s' ∧ Forall (λ q, ring q []) (ready_queues s') ∧ ps s' = ps s) H s.
Proof.
  intros Hb. unfold NUM_QUEUE_LEVELS. eapply wp_mono.
  - eapply (wp_for_up (λ k s', bss s' ∧ ps s' = ps s ∧
      ∀ (j : nat) q, Z.of_nat j < k → ready_queues s' !! j = Some q → ring q []));
      [lia| |split_and!; [done|done|lia]].
    intros k s0 Hk (Hb0 & Hps & Hr0). pose proof (bss_queues _ Hb0) as Hl.
    destruct (lookup_lt_is_Some_2 (ready_queues s0) (Z.to_nat k)) as [q Hq]; [lia|].
    assert (arr_get (ready_queues s0) k = Some q) as Hg.
    { rewrite <- (Z2Nat.id k) by lia. by rewrite arr_get_nat. }
    assert (length (q_queue q) = 64%nat) as Hq64.
    { pose proof (bss_slots _ Hb0) as Hs. rewrite Forall_forall in Hs. by eapply Hs, list_elem_of_lookup_2. }
    unfold get_queue, put_queue. apply wp_bind, wp_bind, wp_gets.
    apply (wp_lift_opt _ q); [done|]. apply wp_bind, wp_bind, wp_gets. apply wp_bind.
    eapply wp_lift_opt; [apply arr_set_some; lia|]. apply wp_modify.
    destruct (arr_get_some queue_time_slices k) as [sl Hsl]; [simpl; lia|].
    apply wp_bind. eapply wp_lift_opt; [exact Hsl|]. wp_printf.
    split_and!; [|exact Hps|].
    + destruct Hb0. constructor; try done; cbn [ready_queues set_ready_queues].
      * by rewrite length_insert.
      * by apply Forall_insert.
    + intros j q' Hj. cbn [ready_queues set_ready_queues]. rewrite list_lookup_insert.
      case_decide as Hd; [intros [= <-]; by apply ring_init|]. intros Hq'. eapply Hr0; [|done]. lia.
  - intros _ s' (Hb' & Hps' & Hr'). split_and!; [done| |done]. apply Forall_lookup_2. intros j q Hj.
    eapply Hr'; [|done]. apply lookup_lt_Some in Hj. rewrite (bss_queues _ Hb') in Hj. lia.
  - done.
Qed.

Lemma wp_scheduler_init H s :
  bss s →
  wp scheduler_init (λ _ s', ∃ c, sched_inv s' empty_runq c ∧ current c = None ∧
    p_context <$> lookup_proc (PIdle 0) (ps s') = p_context <$> lookup_proc (PIdle 0) (ps s)) H s.
Proof.
  intros Hb. unfold scheduler_init.
  do 3 (apply wp_bind; wp_printf). apply wp_bind, wp_gets. apply wp_bind; wp_printf.
  apply wp_bind. eapply wp_mono; [by apply wp_init_queues| |done]. intros _ s1 (Hb1 & Hr1 & Hps1).
  apply wp_bind, wp_modify. rewrite (proj1 (bss_one _ Hb)).
  destruct (lookup_lt_is_Some_2 (cpu_data s1) 0) as [c Hc]; [rewrite (bss_cpus _ Hb1); lia|].
  destruct (lookup_lt_is_Some_2 (idle_processes (ps s1)) 0) as [p Hp]; [rewrite (bss_idle _ Hb1); lia|].
  unfold for_up. change (Z.to_nat 1) with 1%nat. cbn [for_from].
  apply wp_bind, wp_bind, wp_bind, (wp_upd_cpu 0 _ c); [done|done|].
  unfold init_idle_process. apply wp_bind, wp_gets. apply wp_bind, (wp_upd _ p); [done|].
  eapply (wp_upd_cpu 0); [done|apply list_lookup_insert_eq; simpl; rewrite (bss_cpus _ Hb1); lia|].
  apply wp_ret. wp_printf. eexists. split_and!.
  - destruct Hb1 as [Hq Hsl Hrt Ht Hid Hcp Hone]. constructor; cbn [ready_queues rtq ps cpu_data num_cpus current_cpu
      set_cpu_data set_ps set_rtq].
    + constructor; simpl; [|done|by constructor; simpl; try done; lia].
      destruct (ready_queues s1) as [|q0 [|q1 [|q2 [|q3 [|]]]]]; try done.
      repeat (apply Forall_cons_1 in Hr1 as [? Hr1]). do 4 (constructor; [assumption|]). constructor.
    + rewrite (proj1 (put_proc_shape _ _ _)). done.
    + done.
    + apply list_lookup_insert_eq. rewrite length_insert, Hcp. lia.
    + done.
    + eexists. split; [by eapply lookup_put_eq|done].
    + simpl. done.
    + simpl. intros r Hr. by apply elem_of_nil in Hr.
    + simpl. constructor.
  - done.
  - cbn [ps set_cpu_data set_ps set_rtq]. erewrite lookup_put_eq by exact Hp.
    rewrite <- Hps1. change (lookup_proc (PIdle 0) (ps s1)) with (idle_processes (ps s1) !! 0%nat).
    by rewrite Hp.
Qed.

(** ** The system: operations, suspended processes *)

(** What running code can ask of process table and scheduler. *)
Inductive sop :=
  | OpAlloc | OpFree (i : nat) | OpAdd (i : nat) | OpSetPriority (i : nat) (priority : Z)
  | OpSetPolicy (i : nat) (policy : sched_policy) | OpYield | OpTick.

Definition run_op (o : sop) : K sstate unit :=
  match o with
  | OpAlloc => modify (λ s, set_ps (snd (process_alloc (ps s))) s)
  | OpFree i => modify (λ s, set_ps (process_free (Some (PProc i)) (ps s)) s)
  | OpAdd i => sched_add (Some (PProc i))
  | OpSetPriority i pr => sched_set_priority (Some (PProc i)) pr
  | OpSetPolicy i pol => sched_set_policy (Some (PProc i)) pol
  | OpYield => sched_yield
  | OpTick => sched_tick
  end.

(** The callers' side: slots exist; only a process that is neither running nor
    queued is queued or released.  [sched_add] and [process_free] do not check
    this; [sched_add_twice] shows what a second [sched_add] does. *)
Definition permitted (s : sstate) (o : sop) : Prop :=
  match o with
  | OpFree i | OpAdd i => (i < 64)%nat ∧ (PProc i ∉ tracked s)
  | OpSetPriority i _ | OpSetPolicy i _ => (i < 64)%nat
  | OpAlloc | OpYield | OpTick => True
  end.

(** The kernel state and the calls that wait to be switched back to. *)
Definition resumption : Type := sstate → world → res sstate unit.
Record config := Config { cf_state : sstate; cf_susp : list resumption }.

Inductive lands (ks : list resumption) : res sstate unit → config → Prop :=
  | lands_ret s w : lands ks (Ret tt s w) (Config s ks)
  | lands_switch s w k : lands ks (Switch s w k) (Config s (k :: ks))
  | lands_leave s w : lands ks (Leave s w) (Config s ks).

(** A call by the running code, or the return of a suspended call. *)
Inductive sys_step : config → config → Prop :=
  | sys_call o w s ks cf :
      permitted s o → lands ks (run_op o s w) cf → sys_step (Config s ks) cf
  | sys_resume k w s ks1 ks2 cf :
      lands (ks1 ++ ks2) (k s w) cf → sys_step (Config s (ks1 ++ k :: ks2)) cf.

Definition sys_reachable (cf : config) : Prop :=
  ∃ b w s w', bss b ∧ scheduler_init b w = Ret tt s w' ∧ rtc sys_step (Config s []) cf.

(** No fault, no endless loop, no panic. *)
Definition goes_on {S A} (r : res S A) : Prop :=
  match r with Ret _ _ _ | Switch _ _ _ | Leave _ _ => True | _ => False end.

Lemma sched_ok_table s i :
  sched_ok s → (i < 64)%nat → ∃ p, lookup_proc (PProc i) (ps s) = Some p.
Proof.
  intros (a & c & Hi) Hlt. apply lookup_lt_is_Some_2. by rewrite (si_table _ _ _ Hi).
Qed.

Lemma wps_yield_ok (Q : unit → sstate → Prop) s :
  sched_ok s → (∀ s', sched_ok s' → Q tt s') → Q tt s → wps sched_yield Q sched_ok sched_ok s.
Proof.
  intros Hok HQ Hs. pose proof (sched_ok_inv s Hok) as Hi. eapply wpr_yield; [exact Hi|done|].
  intros x lvl px a1 a2 s' w Hho. assert (sched_ok s') as Hok' by (eexists _, _; by eapply handover_inv).
  unfold handed. destruct (current (cpu0 s)); simpl; [|done]. split; [done|]. intros s2 _. apply HQ.
Qed.

(** A tick with no process running only counts. *)
Lemma wp_tick_none H s :
  sched_ok s → current (cpu0 s) = None →
  wp sched_tick (λ _ s', sched_ok s' ∧ current (cpu0 s') = None ∧
    global_ticks (ps s') = u64 (global_ticks (ps s) + 1)) H s.
Proof.
  intros Hok Hc. pose proof (sched_ok_inv s Hok) as Hi.
  assert (0 < length (cpu_data s))%nat as Hlen by (eapply lookup_lt_Some, Hi).
  unfold sched_tick. apply wp_bind, wp_gets. rewrite (proj2 (si_one_cpu _ _ _ Hi)).
  apply wp_bind, (wp_get_cpu 0 (cpu0 s)); [by apply (si_arr _ _ _ Hi)|]. apply wp_bind, wp_modify.
  apply wp_bind, (wp_upd_cpu 0 _ (cpu0 s)); [done|by apply (si_arr _ _ _ Hi)|]. rewrite Hc. apply wp_ret.
  split; [|split; [|done]].
  - eexists (abs s), _. eapply (sched_inv_keeps s); [exact Hi|apply Hi| |done|done| |..].
    + cbn [ps set_cpu_data set_ps]. constructor; [done| |]; intros; by rewrite lookup_tick.
    + by apply list_lookup_insert_eq.
    + done.
    + by rewrite Hc.
    + done.
  - unfold cpu0 at 1. cbn [cpu_data set_cpu_data set_ps]. by rewrite list_lookup_insert_eq.
Qed.

Lemma wps_tick_ok s : sched_ok s → wps sched_tick (λ _, sched_ok) sched_ok sched_ok s.
Proof.
  intros Hok. pose proof (sched_ok_inv s Hok) as Hi.
  destruct (current (cpu0 s)) as [r|] eqn:Hc.
  - destruct (si_current _ _ _ Hi r Hc) as (_ & p & Hp & _).
    eapply (wpr_tick r p); [exact Hi|done|done|].
    pose proof (charged_inv r p _ _ s Hi Hc Hp) as Hi1. apply wps_bind.
    assert (∀ s', sched_ok s' → wps ageing (λ _, sched_ok) sched_ok sched_ok s') as Hage
      by (intros; by apply wps_of_wp, wp_ageing).
    destruct (preempts (ran p)); [|apply wps_ret, Hage; by eexists _, _].
    apply wps_yield_ok; [by eexists _, _|done|]. apply Hage; by eexists _, _.
  - apply wps_of_wp. eapply wp_mono; [by apply wp_tick_none|naive_solver|done].
Qed.

Lemma sched_ok_alloc s : sched_ok s → sched_ok (set_ps (snd (process_alloc (ps s))) s).
Proof.
  intros Hok. pose proof (sched_ok_inv s Hok) as Hi. eexists (abs s), (cpu0 s).
  eapply (sched_inv_keeps s); [exact Hi|apply Hi| |done|done|apply Hi|done|done|done].
  cbn [ps set_ps]. destruct (first_unused (proc_table (ps s))) as [i|] eqn:Hf.
  2:{ unfold process_alloc. rewrite Hf. apply keeps_refl. }
  destruct (process_alloc_some _ i Hf) as (p & Hp & Hst & ->). cbn [snd].
  set (t' := put_proc _ _ _).
  assert (keeps (running (cpu0 s) ++ queued (abs s)) (ps s) t') as [A B C].
  { eapply keeps_put_unknown; [done|]. intros [Hr|Hq]%elem_of_app.
    - unfold running in Hr. destruct (current (cpu0 s)) as [[j|]|] eqn:Hc; try (by apply elem_of_nil in Hr).
      apply list_elem_of_singleton in Hr as [= ->].
      destruct (si_current _ _ _ Hi _ Hc) as (_ & p' & Hp' & Hst'). congruence.
    - destruct (si_queued _ _ _ Hi _ Hq) as (j & p' & [= <-] & Hp' & Hst'). congruence. }
  constructor; [exact A| |exact C]. intros y Hy. rewrite <- (B y Hy). by destruct y.
Qed.

Lemma run_op_ok o s :
  sched_ok s → permitted s o → wps (run_op o) (λ _, sched_ok) sched_ok sched_ok s.
Proof.
  intros Hok Hperm. destruct o as [|i|i|i pr|i pol| |]; cbn [run_op permitted] in *.
  - apply wps_of_wp, wp_modify. by apply sched_ok_alloc.
  - destruct Hperm as [Hi Hn]. destruct (sched_ok_table s i Hok Hi) as [p Hp].
    apply wps_of_wp, wp_modify. unfold process_free. rewrite (update_put _ freed_process _ p Hp).
    pose proof (sched_ok_inv s Hok) as Hinv. eexists (abs s), (cpu0 s).
    eapply (sched_inv_keeps s); [exact Hinv|apply Hinv| |done|done|apply Hinv|done|done|done].
    by eapply keeps_put_unknown.
  - destruct Hperm as [Hi Hn]. destruct (sched_ok_table s i Hok Hi) as [p Hp].
    apply wps_of_wp. eapply wp_mono; [by eapply wp_sched_add_inv| |done]. by intros _ s' [Hs' _].
  - destruct (sched_ok_table s i Hok Hperm) as [p Hp]. apply wps_of_wp, (wp_set_priority _ p); [done|].
    eapply sched_ok_put; [done|done|]. unfold prioritised. by case_match.
  - destruct (sched_ok_table s i Hok Hperm) as [p Hp]. apply wps_of_wp.
    apply (wp_upd _ p); [done|]. by eapply sched_ok_put.
  - by apply wps_yield_ok.
  - by apply wps_tick_ok.
Qed.

(** A call that keeps the invariant at every hand-over and on return. *)
Definition good (k : resumption) : Prop :=
  ∀ s w, sched_ok s → res_ok (λ _, sched_ok) sched_ok sched_ok (k s w).

Lemma lands_good ks r cf :
  lands ks r cf → res_ok (λ _, sched_ok) sched_ok sched_ok r → Forall good ks →
  sched_ok (cf_state cf) ∧ Forall good (cf_susp cf).
Proof.
  destruct 1 as [s w|s w k|s w]; simpl; intros Hr Hks; [done| |done].
  destruct Hr as [Hs Hk]. split; [done|]. constructor; [|done]. intros s' w' Hs'. by apply Hk.
Qed.

Lemma sys_invariant cf :
  sys_reachable cf → sched_ok (cf_state cf) ∧ Forall good (cf_susp cf).
Proof.
  intros (b & w & s & w' & Hb & Hinit & Hsteps).
  assert (sched_ok s) as Hs.
  { pose proof (wp_out _ _ _ _ (wp_scheduler_init never b Hb) w) as Hw. rewrite Hinit in Hw.
    destruct Hw as (c & Hi & _). by eexists _, _. }
  assert (∀ cf1 cf2, sys_step cf1 cf2 → sched_ok (cf_state cf1) ∧ Forall good (cf_susp cf1) →
    sched_ok (cf_state cf2) ∧ Forall good (cf_susp cf2)) as Hstep.
  { intros cf1 cf2 [o w1 s1 ks cf3 Hp Hl|k w1 s1 ks1 ks2 cf3 Hl] [Hs1 Hks]; simpl in *.
    - eapply lands_good; [done| |done]. by apply run_op_ok.
    - apply Forall_app in Hks as [Hk1 Hk2]. apply Forall_cons_1 in Hk2 as [Hk Hk2].
      eapply lands_good; [done|by apply Hk|]. by apply Forall_app. }
  assert (sched_ok (cf_state (Config s [])) ∧ Forall good (cf_susp (Config s []))) as H0 by (split; [done|constructor]).
  clear -Hsteps Hstep H0. induction Hsteps as [|cf1 cf2 cf3 H12 _ IH]; [done|]. apply IH. by eapply Hstep.
Qed.

Lemma res_ok_goes_on {S A} Q G R (r : res S A) : res_ok Q G R r → goes_on r.
Proof. by destruct r. Qed.

(** ** Sample states *)

(** The static data at boot. *)
Definition boot_sched : sstate :=
  SState boot_table (replicate 4 (Mlfq sample_slots 0 0 0)) (RtQueue sample_slots 0)
    (replicate 8 (CpuSched None None 0 0 0)) 1 0 context_zero.

Lemma boot_bss : bss boot_sched.
Proof. constructor; try done. by repeat constructor. Qed.

Definition demo_queue (l : list procref) : mlfq :=
  Mlfq ((Some <$> l) ++ replicate (64 - length l) None) 0 (Z.of_nat (length l)) (Z.of_nat (length l)).

Lemma ring_demo l : (length l < 64)%nat → ring (demo_queue l) l.
Proof.
  intros Hl. constructor; cbn [q_queue q_head q_tail q_size demo_queue]; try done; try lia.
  - rewrite length_app, length_fmap, length_replicate. lia.
  - by rewrite Z.mod_small by lia.
  - intros i p Hi. apply lookup_lt_Some in Hi as Hlt. rewrite Z.mod_small, Z.add_0_l by lia.
    rewrite arr_get_nat, lookup_app_l by (rewrite length_fmap; lia). by rewrite list_lookup_fmap, Hi.
Qed.

(** Process 0 of policy [pol] runs on the last tick of its slice; the
    processes [l0] wait at level 0 and [l1] at level 1; [ticks] so far. *)
Definition demo_proc (pol : sched_policy) (st : proc_state) (slice : Z) : process :=
  set_time_slice slice (set_policy pol (set_state st (fresh_process 1 0 process_zero))).

Definition demo (pol : sched_policy) (l0 l1 : list procref) (ticks : Z) : sstate :=
  SState
    (PState (demo_proc pol PROC_RUNNING 1 :: replicate 63 (demo_proc SCHED_NORMAL PROC_RUNNABLE 0))
       (idle_process 0 0 process_zero :: replicate 7 process_zero) 10 ticks)
    [demo_queue l0; demo_queue l1; demo_queue []; demo_queue []] (RtQueue sample_slots 0)
    (CpuSched (Some (PProc 0)) (Some (PIdle 0)) 0 ticks 0 :: replicate 7 (CpuSched None None 0 0 0))
    1 0 context_zero.

Definition demo_ok_list (l : list procref) : bool :=
  bool_decide (NoDup (PProc 0 :: l)) && bool_decide (length l < 64)%nat &&
  forallb (λ r, match r with PProc i => bool_decide (0 < i < 64)%nat | PIdle _ => false end) l.

Lemma demo_inv pol l0 l1 ticks :
  demo_ok_list (l0 ++ l1) = true →
  sched_inv (demo pol l0 l1 ticks) (RunQ [l0; l1; []; []] [])
    (CpuSched (Some (PProc 0)) (Some (PIdle 0)) 0 ticks 0).
Proof.
  unfold demo_ok_list. rewrite !andb_true_iff, !bool_decide_eq_true, length_app.
  intros [[Hnd Hlen] Hall]. rewrite forallb_forall in Hall. constructor; try done.
  - constructor; simpl; [|done|by constructor; simpl; try done; lia].
    do 4 (constructor; [apply ring_demo; simpl; lia|]). constructor.
  - by eexists.
  - intros r [= <-]. split; [right; by exists 0%nat|]. by eexists.
  - intros r Hr. unfold queued in Hr; simpl in Hr. rewrite app_nil_r in Hr. apply list_elem_of_In in Hr as Hr'.
    specialize (Hall r Hr'). destruct r as [i|]; [|done]. rewrite bool_decide_eq_true in Hall.
    exists i, (demo_proc SCHED_NORMAL PROC_RUNNABLE 0). split_and!; [done| |done].
    destruct i as [|i]; [lia|]. cbn [lookup_proc ps proc_table demo]. rewrite lookup_cons.
    apply lookup_replicate. split; [done|lia].
  - unfold queued, running; simpl. by rewrite app_nil_r.
Qed.

Lemma demo_ok pol l0 l1 ticks : demo_ok_list (l0 ++ l1) = true → sched_ok (demo pol l0 l1 ticks).
Proof. intros. eexists _, _. by apply demo_inv. Qed.

(** ** Claims *)

(** C6: as long as the callers queue and release only processes that are
    neither running nor queued at that moment, and name slots of the table (the
    condition [permitted], which the code leaves to them), in every state the
    system can reach from [scheduler_init] by allocating, releasing, queueing and
    re-prioritising processes, yielding, timer ticks and the return of suspended
    calls, the scheduler's invariant holds (no process is queued twice, or queued
    while it runs; the queued ones are runnable table entries; the current one is
    running), and neither a permitted operation nor a resumed call faults, panics
    or loops.  Yields, ticks, allocations, changes of priority or policy and
    resumptions are not restricted. *)
Theorem sched_system_safe (cf : config) :
  sys_reachable cf →
  sched_ok (cf_state cf) ∧ NoDup (tracked (cf_state cf)) ∧
  (∀ o w, permitted (cf_state cf) o → goes_on (run_op o (cf_state cf) w)) ∧
  Forall (λ k : resumption, ∀ w, goes_on (k (cf_state cf) w)) (cf_susp cf).
Proof.
  intros Hr. destruct (sys_invariant cf Hr) as [Hs Hk]. split_and!; [done| | |].
  - apply (si_nodup _ _ _ (sched_ok_inv _ Hs)).
  - intros o w Hp. eapply res_ok_goes_on. by apply run_op_ok.
  - eapply Forall_impl; [exact Hk|]. intros k Hgood w. eapply res_ok_goes_on. by apply Hgood.
Qed.

(** After boot, one process allocated. *)
Lemma sched_system_safe_witness :
  ∃ s, sys_reachable (Config s []) ∧ sched_ok s ∧ NoDup (tracked s) ∧
    (∀ o w, permitted s o → goes_on (run_op o s w)) ∧
    Forall (λ k : resumption, ∀ w, goes_on (k s w)) [].
Proof.
  destruct (wp_run scheduler_init _ boot_sched (mkWorld [] []) (wp_scheduler_init never boot_sched boot_bss))
    as (u & s & w' & Hrun & _). destruct u.
  exists (set_ps (snd (process_alloc (ps s))) s).
  assert (sys_reachable (Config (set_ps (snd (process_alloc (ps s))) s) [])) as Hr.
  { exists boot_sched, (mkWorld [] []), s, w'. split_and!; [exact boot_bss|done|].
    apply rtc_once, (sys_call OpAlloc w'); [exact I|]. apply lands_ret. }
  split; [exact Hr|]. exact (sched_system_safe (Config _ []) Hr).
Defined.

(** [sched_add] does not look whether a process is queued already: queueing a
    process twice leaves it in its queue twice, and the invariant does not hold. *)
Theorem sched_add_twice :
  ∃ s' w', (run_op (OpAdd 1);; run_op (OpAdd 1)) (demo SCHED_NORMAL [] [] 7) (mkWorld [] []) = Ret tt s' w' ∧
    queued (abs s') = [PProc 1; PProc 1] ∧ ¬ sched_ok s'.
Proof.
  eexists _, _. split; [vm_compute; reflexivity|]. split; [vm_compute; reflexivity|].
  intros Hok. pose proof (si_nodup _ _ _ (sched_ok_inv _ Hok)) as Hnd.
  apply (bool_decide_pack _) in Hnd. vm_compute in Hnd. exact Hnd.
Qed.

(** A yield by a running table process always hands the CPU over. *)
Lemma yield_handover i s w :
  sched_ok s → current (cpu0 s) = Some (PProc i) →
  ∃ x lvl px a1 a2 s' w',
    sched_yield s w = Switch s' w' (λ s w, Ret tt s w) ∧
    handover s (abs s) (cpu0 s) x lvl px a1 a2 s' ∧
    sched_inv s' a2 (with_current x (cpu0 s)) ∧ a2 = abs s' ∧ with_current x (cpu0 s) = cpu0 s'.
Proof.
  intros Hok Hc. pose proof (sched_ok_inv s Hok) as Hi. revert w.
  change (wpr sched_yield (λ r, ∃ x lvl px a1 a2 s' w', r = Switch s' w' (λ s w, Ret tt s w) ∧
    handover s (abs s) (cpu0 s) x lvl px a1 a2 s' ∧
    sched_inv s' a2 (with_current x (cpu0 s)) ∧ a2 = abs s' ∧ with_current x (cpu0 s) = cpu0 s') s).
  eapply wpr_yield; [exact Hi|congruence|].
  intros x lvl px a1 a2 s' w Ho. rewrite Hc.
  pose proof (handover_inv _ _ _ _ _ _ _ _ _ Hi Ho) as Hi'.
  exists x, lvl, px, a1, a2, s', w. split_and!; [done|done|done|apply (sched_inv_abs _ _ _ Hi')..].
Qed.

(** C12: [sched_yield] by a running process [i] gives the CPU to the head
    of the real-time queue, else to the head of the first non-empty level,
    else to the idle process; the new process becomes current and running with
    its saved registers loaded; the caller's registers are saved, and its record
    is accounted and, if its slice is used up, demoted as its policy says; no
    other record changes; and the call returns when switched back to. *)
Theorem sched_yield_spec (i : nat) (p : process) (s : sstate) (w : world) :
  sched_ok s → current (cpu0 s) = Some (PProc i) → lookup_proc (PProc i) (ps s) = Some p →
  ∃ x lvl px a1 s' w',
    sched_yield s w = Switch s' w' (λ s w, Ret tt s w) ∧
    chosen (abs s) (cpu0 s) x lvl a1 ∧ x ≠ PProc i ∧
    lookup_proc x (refill x lvl (ps s)) = Some px ∧
    current (cpu0 s') = Some x ∧ regs s' = p_context px ∧
    lookup_proc x (ps s') = Some (dispatched (global_ticks (ps s)) px) ∧
    lookup_proc (PProc i) (ps s') = Some (set_context (regs s) (retired false p)) ∧
    (∀ y, y ≠ x → y ≠ PProc i → lookup_proc y (ps s') = lookup_proc y (ps s)).
Proof.
  intros Hok Hc Hp. pose proof (sched_ok_inv s Hok) as Hi.
  destruct (yield_handover i s w Hok Hc) as (x & lvl & px & a1 & a2 & s' & w' & Hrun & Ho & Hi' & _ & Hc').
  pose proof (ho_other _ _ _ _ _ _ _ _ _ Ho) as Hne. rewrite Hc in Hne.
  assert (bool_decide (Some (PProc i) = idle (cpu0 s)) = false) as Hb.
  { apply bool_decide_false. rewrite (si_idle _ _ _ Hi). done. }
  exists x, lvl, px, a1, s', w'. split_and!.
  - done.
  - apply Ho.
  - congruence.
  - apply Ho.
  - by rewrite <- Hc'.
  - apply Ho.
  - rewrite (ho_lookup _ _ _ _ _ _ _ _ _ Ho), decide_False by (rewrite Hc; done).
    by rewrite decide_True.
  - rewrite (ho_lookup _ _ _ _ _ _ _ _ _ Ho), decide_True by done. by rewrite Hp, Hb.
  - intros y Hyx Hyi. rewrite (ho_lookup _ _ _ _ _ _ _ _ _ Ho), decide_False by (rewrite Hc; congruence).
    by rewrite decide_False.
Qed.

Lemma sched_yield_spec_witness :
  let s := demo SCHED_NORMAL [PProc 1] [] 7 in
  ∃ x lvl px a1 s' w',
    sched_yield s (mkWorld [] []) = Switch s' w' (λ s w, Ret tt s w) ∧
    chosen (abs s) (cpu0 s) x lvl a1 ∧ x ≠ PProc 0 ∧
    lookup_proc x (refill x lvl (ps s)) = Some px ∧
    current (cpu0 s') = Some x ∧ regs s' = p_context px ∧
    lookup_proc x (ps s') = Some (dispatched (global_ticks (ps s)) px) ∧
    lookup_proc (PProc 0) (ps s') =
      Some (set_context (regs s) (retired false (demo_proc SCHED_NORMAL PROC_RUNNING 1))) ∧
    (∀ y, y ≠ x → y ≠ PProc 0 → lookup_proc y (ps s') = lookup_proc y (ps s)).
Proof.
  intros s. apply (sched_yield_spec 0 (demo_proc SCHED_NORMAL PROC_RUNNING 1) s (mkWorld [] [])).
  - apply demo_ok. reflexivity.
  - reflexivity.
  - reflexivity.
Defined.

(** A yield by a normal or round-robin process loses nobody: the
    processes running or queued afterwards are exactly those before. *)
Theorem yield_conserves (i : nat) (p : process) (s : sstate) (w : world) :
  sched_ok s → current (cpu0 s) = Some (PProc i) → lookup_proc (PProc i) (ps s) = Some p →
  p_policy p = SCHED_NORMAL ∨ p_policy p = SCHED_RR →
  ∃ s' w' k, sched_yield s w = Switch s' w' k ∧ tracked s' ≡ₚ tracked s.
Proof.
  intros Hok Hc Hp Hpol. pose proof (sched_ok_inv s Hok) as Hi.
  destruct (yield_handover i s w Hok Hc) as (x & lvl & px & a1 & a2 & s' & w' & Hrun & Ho & Hi' & Ha & Hc').
  eexists s', w', _. split; [exact Hrun|]. unfold tracked. rewrite <- Ha, <- Hc'.
  rewrite (ho_queued _ _ _ _ _ _ _ _ _ Ho). unfold requeued, running. rewrite Hc, Hp. simpl.
  assert (rejoined (bool_decide (Some (PProc i) = idle (cpu0 s))) (PProc i) p = [PProc i]) as ->.
  { unfold rejoined. rewrite bool_decide_false by (rewrite (si_idle _ _ _ Hi); done).
    by destruct Hpol as [-> | ->]. }
  destruct (ho_incoming _ _ _ _ _ _ _ _ _ Hi Ho) as [(j & -> & Hq)|(-> & Hq & ->)]; simpl; [|done].
  rewrite Hq. apply Permutation_swap.
Qed.

Lemma yield_conserves_witness :
  ∃ s' w' k, sched_yield (demo SCHED_NORMAL [PProc 1; PProc 5] [PProc 9] 7) (mkWorld [] []) = Switch s' w' k ∧
    tracked s' ≡ₚ tracked (demo SCHED_NORMAL [PProc 1; PProc 5] [PProc 9] 7).
Proof.
  apply (yield_conserves 0 (demo_proc SCHED_NORMAL PROC_RUNNING 1)).
  - apply demo_ok. reflexivity.
  - reflexivity.
  - reflexivity.
  - left. reflexivity.
Defined.

(** A real-time FIFO process that yields is in no queue and not
    current afterwards, although its state still says running: nothing in the
    scheduler can ever run it again. *)
Theorem fifo_yield_lost (i : nat) (p : process) (s : sstate) (w : world) :
  sched_ok s → current (cpu0 s) = Some (PProc i) → lookup_proc (PProc i) (ps s) = Some p →
  p_policy p = SCHED_FIFO →
  ∃ s' w' k p', sched_yield s w = Switch s' w' k ∧ (PProc i ∉ tracked s') ∧
    lookup_proc (PProc i) (ps s') = Some p' ∧ p_state p' = PROC_RUNNING.
Proof.
  intros Hok Hc Hp Hpol. pose proof (sched_ok_inv s Hok) as Hi.
  destruct (yield_handover i s w Hok Hc) as (x & lvl & px & a1 & a2 & s' & w' & Hrun & Ho & Hi' & Ha & Hc').
  assert (bool_decide (Some (PProc i) = idle (cpu0 s)) = false) as Hb.
  { apply bool_decide_false. by rewrite (si_idle _ _ _ Hi). }
  destruct (si_current _ _ _ Hi _ Hc) as (_ & p0 & Hp0 & Hst).
  eexists s', w', _, _. split_and!; [exact Hrun| | |].
  - unfold tracked. rewrite <- Ha, <- Hc', (ho_queued _ _ _ _ _ _ _ _ _ Ho).
    unfold requeued. rewrite Hc, Hp, Hb. unfold rejoined. rewrite Hpol. simpl.
    pose proof (si_not_queued _ _ _ _ Hi Hc) as Hnq. pose proof (ho_other _ _ _ _ _ _ _ _ _ Ho) as Hne.
    rewrite Hc in Hne. unfold running; simpl.
    destruct (ho_incoming _ _ _ _ _ _ _ _ _ Hi Ho) as [(j & -> & Hq)|(-> & Hq & ->)]; simpl.
    + intros Hin. apply Hnq. by rewrite Hq.
    + done.
  - rewrite (ho_lookup _ _ _ _ _ _ _ _ _ Ho), decide_True by done. by rewrite Hp, Hb.
  - unfold retired. rewrite Hpol. simpl. congruence.
Qed.

Lemma fifo_yield_lost_witness :
  ∃ s' w' k p', sched_yield (demo SCHED_FIFO [PProc 1] [] 7) (mkWorld [] []) = Switch s' w' k ∧
    (PProc 0 ∉ tracked s') ∧ lookup_proc (PProc 0) (ps s') = Some p' ∧ p_state p' = PROC_RUNNING.
Proof.
  apply (fifo_yield_lost 0 (demo_proc SCHED_FIFO PROC_RUNNING 1)).
  - apply demo_ok. reflexivity.
  - reflexivity.
  - reflexivity.
  - reflexivity.
Defined.

(** C33: queueing a process that is neither running nor queued never
    drops it, however many processes wait: it is made runnable and put at the
    end of the level its [queue_level] names (clamped to the four levels), or
    into the real-time queue after every process at least as urgent; no other
    entry moves. *)
Theorem sched_add_spec (i : nat) (p : process) (s : sstate) (w : world) :
  sched_ok s → lookup_proc (PProc i) (ps s) = Some p → (PProc i ∉ tracked s) →
  p_policy p ≠ SCHED_IDLE →
  ∃ s' w', sched_add (Some (PProc i)) s w = Ret tt s' w' ∧ sched_ok s' ∧
    lookup_proc (PProc i) (ps s') = Some (set_state PROC_RUNNABLE p) ∧
    admits (ps s') (PProc i) p (abs s) (abs s') ∧ tracked s' ≡ₚ PProc i :: tracked s.
Proof.
  intros Hok Hp Hnt Hpol.
  destruct (wp_run (sched_add (Some (PProc i))) _ s w (wp_sched_add_inv i p never s Hok Hp Hnt))
    as ([] & s' & w' & Hrun & Hok' & Hcd & Hps & Had).
  exists s', w'. split_and!; [done|done| |done|].
  - rewrite Hps. by eapply lookup_put_eq.
  - unfold tracked. rewrite (admits_queued _ _ _ _ _ Had Hpol). unfold cpu0. rewrite Hcd.
    symmetry. apply Permutation_middle.
Qed.

Lemma sched_add_spec_witness :
  let s := demo SCHED_NORMAL [PProc 1] [PProc 2] 7 in
  ∃ s' w', sched_add (Some (PProc 3)) s (mkWorld [] []) = Ret tt s' w' ∧ sched_ok s' ∧
    lookup_proc (PProc 3) (ps s') =
      Some (set_state PROC_RUNNABLE (demo_proc SCHED_NORMAL PROC_RUNNABLE 0)) ∧
    admits (ps s') (PProc 3) (demo_proc SCHED_NORMAL PROC_RUNNABLE 0) (abs s) (abs s') ∧
    tracked s' ≡ₚ PProc 3 :: tracked s.
Proof.
  intros s. apply (sched_add_spec 3 (demo_proc SCHED_NORMAL PROC_RUNNABLE 0) s).
  - apply demo_ok. reflexivity.
  - reflexivity.
  - apply (bool_decide_unpack _). vm_compute. exact I.
  - discriminate.
Defined.

(** On a multiple of 100 ticks the ageing code empties levels 1 to 3
    and appends their normal processes, in level order, to level 0, each with
    its level and slice reset; processes of another policy found there are
    dropped from every queue; level 0, the real-time queue and all other
    processes are left alone. *)
Theorem ageing_spec (l0 l1 l2 l3 : list procref) (s : sstate) (w : world) :
  sched_ok s → levels (abs s) = [l0; l1; l2; l3] → global_ticks (ps s) mod 100 = 0 →
  ∃ s' w', ageing s w = Ret tt s' w' ∧ sched_ok s' ∧
    abs s' = RunQ [l0 ++ normals (ps s) (l1 ++ l2 ++ l3); []; []; []] (rts (abs s)) ∧
    boosts (l1 ++ l2 ++ l3) (ps s) (ps s') ∧ cpu_data s' = cpu_data s.
Proof.
  intros Hok Hlv Htk. pose proof (sched_ok_inv s Hok) as Hi.
  destruct (wp_run boost _ s w (wp_boost l0 l1 l2 l3 _ _ never s Hi Hlv))
    as ([] & s' & w' & Hrun & a' & Hi' & Hlv' & Hrt' & Hb & Hcd & _).
  exists s', w'. split_and!; [|by eexists _, _| |done|done].
  - unfold ageing, bind, gets. unfold get_ticks. simpl. by rewrite (proj2 (Z.eqb_eq _ _) Htk).
  - destruct (sched_inv_abs _ _ _ Hi') as [<- _]. destruct a' as [lv rt]; simpl in *. congruence.
Qed.

Lemma ageing_spec_witness :
  let s := demo SCHED_NORMAL [PProc 1] [PProc 2; PProc 3] 200 in
  ∃ s' w', ageing s (mkWorld [] []) = Ret tt s' w' ∧ sched_ok s' ∧
    abs s' = RunQ [[PProc 1] ++ normals (ps s) ([PProc 2; PProc 3] ++ [] ++ []); []; []; []] (rts (abs s)) ∧
    boosts ([PProc 2; PProc 3] ++ [] ++ []) (ps s) (ps s') ∧ cpu_data s' = cpu_data s.
Proof.
  intros s. apply (ageing_spec [PProc 1] [PProc 2; PProc 3] [] [] s).
  - apply demo_ok. reflexivity.
  - vm_compute. reflexivity.
  - reflexivity.
Defined.

(** A timer tick that uses up the slice of a normal or
    round-robin process charges the tick and hands the CPU over at once; the
    ageing code has not run then, also on a multiple of 100 ticks: it is what
    the call does when the process is switched back to, and only if the tick
    count of that moment is a multiple of 100. *)
Theorem tick_preempts_before_ageing (i : nat) (p : process) (s : sstate) (w : world) :
  sched_ok s → current (cpu0 s) = Some (PProc i) → lookup_proc (PProc i) (ps s) = Some p →
  0 <= p_time_slice p <= 1 → p_policy p = SCHED_NORMAL ∨ p_policy p = SCHED_RR →
  ∃ x lvl px a1 a2 s' w' k,
    sched_tick s w = Switch s' w' k ∧ (∀ s2 w2, k s2 w2 = ageing s2 w2) ∧
    handover (charged (PProc i) p (cpu0 s) s) (abs s) (ticked (cpu0 s)) x lvl px a1 a2 s' ∧
    a2 = abs s'.
Proof.
  intros Hok Hc Hp Hsl Hpol. pose proof (sched_ok_inv s Hok) as Hi.
  pose proof (charged_inv (PProc i) p _ _ s Hi Hc Hp) as Hi1. revert w.
  assert (preempts (ran p) = true) as Hpre.
  { unfold preempts, ran. cbn [p_time_slice inc_cpu_time set_stats].
    destruct (Z.ltb_spec 0 (p_time_slice p)); cbn [p_time_slice p_policy set_time_slice inc_cpu_time set_stats].
    - replace (p_time_slice p - 1) with 0 by lia. by destruct Hpol as [-> | ->].
    - replace (p_time_slice p) with 0 by lia. by destruct Hpol as [-> | ->]. }
  change (wpr sched_tick (λ r, ∃ x lvl px a1 a2 s' w' k, r = Switch s' w' k ∧
    (∀ s2 w2, k s2 w2 = ageing s2 w2) ∧
    handover (charged (PProc i) p (cpu0 s) s) (abs s) (ticked (cpu0 s)) x lvl px a1 a2 s' ∧ a2 = abs s') s).
  eapply wpr_tick; [exact Hi|exact Hc|exact Hp|]. rewrite Hpre. apply wpr_bind.
  eapply wpr_yield; [exact Hi1|cbn [current ticked]; congruence|].
  intros x lvl px a1 a2 s' w Ho. pose proof (handover_inv _ _ _ _ _ _ _ _ _ Hi1 Ho) as Hi'.
  cbn [current ticked]. rewrite Hc. exists x, lvl, px, a1, a2, s', w, (λ s w, ageing s w).
  split_and!; [done|done|done|]. apply (sched_inv_abs _ _ _ Hi').
Qed.

(** Tick 100 with two processes waiting on level 1. *)
Lemma tick_preempts_before_ageing_witness :
  let s := demo SCHED_NORMAL [PProc 1] [PProc 2; PProc 3] 99 in
  ∃ x lvl px a1 a2 s' w' k,
    sched_tick s (mkWorld [] []) = Switch s' w' k ∧ (∀ s2 w2, k s2 w2 = ageing s2 w2) ∧
    handover (charged (PProc 0) (demo_proc SCHED_NORMAL PROC_RUNNING 1) (cpu0 s) s) (abs s)
      (ticked (cpu0 s)) x lvl px a1 a2 s' ∧ a2 = abs s'.
Proof.
  intros s. apply (tick_preempts_before_ageing 0 (demo_proc SCHED_NORMAL PROC_RUNNING 1) s).
  - apply demo_ok. reflexivity.
  - reflexivity.
  - reflexivity.
  - simpl. lia.
  - left. reflexivity.
Defined.

(** [n] timer interrupts in a row. *)
Fixpoint ticks (n : nat) : K sstate unit :=
  match n with O => ret tt | S n' => sched_tick ;; ticks n' end.

Lemma wps_tick_idle s :
  sched_ok s → current (cpu0 s) = Some (PIdle 0) →
  wps sched_tick (λ _ s', sched_ok s' ∧ current (cpu0 s') = Some (PIdle 0)) never never s.
Proof.
  intros Hok Hc. pose proof (sched_ok_inv s Hok) as Hi.
  destruct (si_idle_policy _ _ _ Hi) as (p & Hp & Hpol).
  pose proof (charged_inv (PIdle 0) p _ _ s Hi Hc Hp) as Hi1.
  eapply wpr_tick; [exact Hi|exact Hc|exact Hp|].
  assert (preempts (ran p) = false) as ->.
  { unfold preempts, ran. cbn zeta. case_match; cbn [p_policy set_time_slice inc_cpu_time set_stats];
      rewrite Hpol; by rewrite andb_false_r. }
  apply wpr_bind_wp, wp_ret.
  apply wps_of_wp. unfold ageing. apply wp_bind, wp_gets.
  assert (∀ s' a', sched_inv s' a' (ticked (cpu0 s)) →
    sched_ok s' ∧ current (cpu0 s') = Some (PIdle 0)) as Hfin.
  { intros s' a' Hi'. split; [by eexists _, _|].
    destruct (sched_inv_abs _ _ _ Hi') as [_ <-]. exact Hc. }
  case_match; [|by apply wp_ret, (Hfin _ (abs s))].
  destruct (four_levels _ _ _ Hi1) as (l0 & l1 & l2 & l3 & Hlv).
  eapply wp_mono; [by eapply wp_boost| |done]. intros _ s' (a' & Hi' & _). by apply (Hfin s' a').
Qed.

Lemma wps_ticks_idle n s :
  sched_ok s → current (cpu0 s) = Some (PIdle 0) →
  wps (ticks n) (λ _ s', sched_ok s' ∧ current (cpu0 s') = Some (PIdle 0)) never never s.
Proof.
  revert s. induction n as [|n IH]; intros s Hok Hc; simpl; [by apply wps_ret|].
  apply wps_bind. eapply wps_mono; [by apply wps_tick_idle| |done|done]. intros _ s' [Hok' Hc']. by apply IH.
Qed.

(** C40: when the only process of the system has the policy [SCHED_NORMAL] and
    uses up its slice, the tick hands the CPU to the idle process although the process is runnable (it is
    queued again only after the choice was made), and from then on no number
    of timer ticks takes the CPU away from the idle process. *)
Theorem lone_process_starves (i : nat) (p : process) (s : sstate) (w : world) :
  sched_ok s → current (cpu0 s) = Some (PProc i) → lookup_proc (PProc i) (ps s) = Some p →
  queued (abs s) = [] → 0 <= p_time_slice p <= 1 → p_policy p = SCHED_NORMAL →
  ∃ s1 w1 k, sched_tick s w = Switch s1 w1 k ∧
    current (cpu0 s1) = Some (PIdle 0) ∧ queued (abs s1) ≡ₚ [PProc i] ∧
    (∀ n w2, ∃ s2 w3, ticks n s1 w2 = Ret tt s2 w3 ∧ current (cpu0 s2) = Some (PIdle 0)).
Proof.
  intros Hok Hc Hp Hq Hsl Hpol. pose proof (sched_ok_inv s Hok) as Hi.
  pose proof (charged_inv (PProc i) p _ _ s Hi Hc Hp) as Hi1. revert w.
  assert (p_policy (ran p) = SCHED_NORMAL) as Hpol' by (unfold ran; cbn zeta; by case_match).
  assert (preempts (ran p) = true) as Hpre.
  { unfold preempts. rewrite Hpol', andb_true_r. unfold ran. cbn [p_time_slice inc_cpu_time set_stats].
    destruct (Z.ltb_spec 0 (p_time_slice p)); simpl; lia. }
  change (wpr sched_tick (λ r, ∃ s1 w1 k, r = Switch s1 w1 k ∧
    current (cpu0 s1) = Some (PIdle 0) ∧ queued (abs s1) ≡ₚ [PProc i] ∧
    (∀ n w2, ∃ s2 w3, ticks n s1 w2 = Ret tt s2 w3 ∧ current (cpu0 s2) = Some (PIdle 0))) s).
  eapply wpr_tick; [exact Hi|exact Hc|exact Hp|]. rewrite Hpre. apply wpr_bind.
  eapply wpr_yield; [exact Hi1|cbn [current ticked]; congruence|].
  intros x lvl px a1 a2 s' w Ho. pose proof (handover_inv _ _ _ _ _ _ _ _ _ Hi1 Ho) as Hi'.
  destruct (ho_incoming _ _ _ _ _ _ _ _ _ Hi1 Ho) as [(j & -> & Hperm)|(-> & _ & ->)].
  { rewrite Hq in Hperm. by apply Permutation_nil_cons in Hperm. }
  destruct (sched_inv_abs _ _ _ Hi') as [Ha Hc']. cbn [current ticked]. rewrite Hc.
  eexists s', w, _. split; [reflexivity|]. rewrite <- Ha, <- Hc'. split_and!; [done| |].
  - rewrite (ho_queued _ _ _ _ _ _ _ _ _ Ho), Hq, app_nil_r. unfold requeued.
    cbn [current ticked]. rewrite Hc. cbn [ps charged set_cpu_data set_ps].
    rewrite (lookup_put_eq _ _ p) by (rewrite lookup_tick; exact Hp).
    unfold rejoined. cbn [idle ticked]. rewrite (si_idle _ _ _ Hi). simpl. by rewrite Hpol'.
  - intros n w2. assert (current (cpu0 s') = Some (PIdle 0)) as Hid by (by rewrite <- Hc').
    destruct (wps_run (ticks n) _ s' w2 (wps_ticks_idle n s' (ex_intro _ _ (ex_intro _ _ Hi')) Hid))
      as ([] & s2 & w3 & Hrun & _ & Hc2). by exists s2, w3.
Qed.

Lemma lone_process_starves_witness :
  ∃ s1 w1 k, sched_tick (demo SCHED_NORMAL [] [] 7) (mkWorld [] []) = Switch s1 w1 k ∧
    current (cpu0 s1) = Some (PIdle 0) ∧ queued (abs s1) ≡ₚ [PProc 0] ∧
    (∀ n w2, ∃ s2 w3, ticks n s1 w2 = Ret tt s2 w3 ∧ current (cpu0 s2) = Some (PIdle 0)).
Proof.
  apply (lone_process_starves 0 (demo_proc SCHED_NORMAL PROC_RUNNING 1)).
  - apply demo_ok. reflexivity.
  - reflexivity.
  - reflexivity.
  - reflexivity.
  - simpl. lia.
  - reflexivity.
Defined.

(** [sched_set_priority] clamps to 0..139; below 100 the process
    becomes round-robin real-time; from 100 on its queue level is
    [(priority - 100) / 10], one of the four levels, and its policy is left as
    it was (so a real-time process stays real-time); nothing else of it and no
    other process changes. *)
Theorem set_priority_spec (r : procref) (p : process) (priority : Z) (s : sstate) (w : world) :
  lookup_proc r (ps s) = Some p →
  ∃ p' w', sched_set_priority (Some r) priority s w = Ret tt (set_ps (put_proc r p' (ps s)) s) w' ∧
    p_priority p' = Z.max 0 (Z.min 139 priority) ∧ p_dynamic_priority p' = p_priority p' ∧
    (p_priority p' <= 99 → p' = set_policy SCHED_RR (set_priorities (p_priority p') (p_priority p') p)) ∧
    (100 <= p_priority p' →
       p_queue_level p' = (p_priority p' - 100) / 10 ∧ 0 <= p_queue_level p' <= 3 ∧
       p_policy p' = p_policy p).
Proof.
  intros Hp.
  destruct (wp_run (sched_set_priority (Some r) priority)
    (λ _ s', s' = set_ps (put_proc r (prioritised priority p) (ps s)) s) s w
    (wp_set_priority r p priority _ never s Hp eq_refl)) as ([] & s' & w' & Hrun & ->).
  exists (prioritised priority p), w'. split; [done|]. unfold prioritised, PRIORITY_MIN, PRIORITY_MAX,
    PRIORITY_RT_MAX, PRIORITY_NORMAL_MIN. cbn zeta. set (v := Z.max 0 (Z.min 139 priority)).
  assert (0 <= v <= 139) by (unfold v; lia). clearbody v.
  destruct (Z.leb_spec v 99); simpl; (split_and!; [done|done| |]); try lia.
  - done.
  - intros Hv. rewrite Z.quot_div_nonneg by lia. split_and!; [| | |done]; Z.div_mod_to_equations; lia.
Qed.

Lemma set_priority_spec_witness :
  let s := demo SCHED_NORMAL [PProc 1] [] 7 in
  let p := demo_proc SCHED_NORMAL PROC_RUNNABLE 0 in
  ∃ p' w', sched_set_priority (Some (PProc 1)) 125 s (mkWorld [] []) =
      Ret tt (set_ps (put_proc (PProc 1) p' (ps s)) s) w' ∧
    p_priority p' = Z.max 0 (Z.min 139 125) ∧ p_dynamic_priority p' = p_priority p' ∧
    (p_priority p' <= 99 → p' = set_policy SCHED_RR (set_priorities (p_priority p') (p_priority p') p)) ∧
    (100 <= p_priority p' →
       p_queue_level p' = (p_priority p' - 100) / 10 ∧ 0 <= p_queue_level p' <= 3 ∧
       p_policy p' = p_policy p).
Proof.
  intros s p. apply (set_priority_spec (PProc 1) p 125 s). reflexivity.
Defined.

(** The first round of [scheduler()] never comes back. *)
Lemma scheduler_leaves fuel s w :
  sched_ok s → current (cpu0 s) = None →
  ∃ x lvl px a1 a2 s' w', scheduler (S fuel) s w = Leave s' w' ∧
    handover s (abs s) (cpu0 s) x lvl px a1 a2 s' ∧ sched_inv s' a2 (with_current x (cpu0 s)).
Proof.
  intros Hok Hc. pose proof (sched_ok_inv s Hok) as Hi. revert w.
  set (P := λ r : res sstate unit, ∃ x lvl px a1 a2 s' w', r = Leave s' w' ∧
    handover s (abs s) (cpu0 s) x lvl px a1 a2 s' ∧ sched_inv s' a2 (with_current x (cpu0 s))).
  change (wpr (scheduler (S fuel)) P s).
  unfold scheduler. apply wpr_bind_wp. wp_printf. apply wpr_bind_wp, wp_gets.
  rewrite (proj2 (si_one_cpu _ _ _ Hi)). cbn [scheduler_loop]. apply wpr_bind.
  assert (wpr sched_yield (λ r, ∃ s' w', r = Leave s' w' ∧ P (Leave s' w')) s) as Hy.
  { eapply wpr_yield; [exact Hi|congruence|].
    intros x lvl px a1 a2 s' w Ho. rewrite Hc. exists s', w. split; [done|].
    exists x, lvl, px, a1, a2, s', w. split_and!; [done|done|]. by eapply handover_inv. }
  intros w. specialize (Hy w).
  assert (∃ s' w', scheduler_iter 0 s w = Leave s' w' ∧ P (Leave s' w')) as (s' & w' & -> & HP); [|exact HP].
  unfold scheduler_iter. unfold sched_yield in Hy.
  unfold bind at 1, gets in Hy. simpl in Hy. rewrite (proj2 (si_one_cpu _ _ _ Hi)) in Hy.
  unfold bind at 1, get_cpu, bind at 1, gets in Hy. simpl in Hy. rewrite (si_arr _ _ _ Hi) in Hy. simpl in Hy.
  rewrite Hc in Hy. unfold bind in Hy |- *.
  destruct (sched_next 0 s w) as [[x|] s1 w1|s1 w1|s1 w1|s1 w1|s1 w1 k|s1 w1]; simpl in Hy |- *;
    try (destruct Hy as (s' & w' & ? & ?); done).
  - destruct Hy as (s' & w' & Hr & HP). exists s', w'. by rewrite Hr.
  - destruct Hy as (s' & w' & [= -> ->] & HP). by exists s', w'.
Qed.

(** Right after [scheduler_init], with no process added,
    [scheduler()] switches to the idle process at once and its own context is
    not saved; the idle process's context was never set up, so the registers
    loaded, return address and stack pointer included, are those of the
    zeroed memory: the CPU continues at address 0. *)
Theorem scheduler_boot_jumps_to_zero (b s : sstate) (w w' : world) (fuel : nat) :
  bss b → p_context <$> lookup_proc (PIdle 0) (ps b) = Some context_zero →
  scheduler_init b w = Ret tt s w' →
  ∃ s1 w1, scheduler (S fuel) s w' = Leave s1 w1 ∧ current (cpu0 s1) = Some (PIdle 0) ∧
    regs s1 = context_zero.
Proof.
  intros Hb Hctx Hinit. pose proof (wp_out _ _ _ _ (wp_scheduler_init never b Hb) w) as Hw. rewrite Hinit in Hw.
  destruct Hw as (c & Hi & Hcur & Hid). destruct (sched_inv_abs _ _ _ Hi) as [Ha Hc].
  destruct (scheduler_leaves fuel s w') as (x & lvl & px & a1 & a2 & s1 & w1 & Hrun & Ho & Hi1).
  { by eexists _, _. }
  { by rewrite <- Hc. }
  rewrite <- Ha, <- Hc in Ho. rewrite <- Hc in Hi1.
  exists s1, w1. split; [done|]. destruct (sched_inv_abs _ _ _ Hi1) as [_ <-].
  pose proof (ho_px _ _ _ _ _ _ _ _ _ Ho) as Hpx. rewrite (ho_regs _ _ _ _ _ _ _ _ _ Ho).
  destruct (ho_chosen _ _ _ _ _ _ _ _ _ Ho) as [x lvl a1 Hpk|x Hemp Hx].
  { apply picked_queued in Hpk. by apply Permutation_nil_cons in Hpk. }
  rewrite (si_idle _ _ _ Hi) in Hx. injection Hx as <-.
  assert (p_context px = context_zero) as ->; [|done].
  rewrite Hctx in Hid. cbn [refill] in Hpx. rewrite Hpx in Hid. by injection Hid.
Qed.

Lemma scheduler_boot_jumps_to_zero_witness :
  ∃ s w' s1 w1, scheduler_init boot_sched (mkWorld [] []) = Ret tt s w' ∧
    scheduler 1 s w' = Leave s1 w1 ∧ current (cpu0 s1) = Some (PIdle 0) ∧
    regs s1 = context_zero.
Proof.
  destruct (wp_run scheduler_init _ boot_sched (mkWorld [] []) (wp_scheduler_init never boot_sched boot_bss))
    as (u & s & w' & Hrun & _). destruct u.
  destruct (scheduler_boot_jumps_to_zero boot_sched s (mkWorld [] []) w' 0 boot_bss eq_refl Hrun)
    as (s1 & w1 & H1 & H2 & H3).
  exists s, w', s1, w1. exact (conj Hrun (conj H1 (conj H2 H3))).
Defined.
