(* ===== verification/SchedTypes.v ===== *)
(** Typing of the process records: the fields stay in the ranges the rest of
    the kernel relies on, through every operation of the scheduler and every
    hand-over of the CPU. *)

From Stdlib Require Import String.
From S2P Require Import Prelude Machine Uart Printf Process Queues Scheduler SchedProps.
Local Open Scope Z_scope.

(** ** Invariants of a routine

    [preserves P m]: wherever [m] gets to (a return, a panic, an access outside
    an object, a hand-over of the CPU), [P] holds if it held at the start and
    whenever the CPU was handed back. *)

Fixpoint res_keeps {S A} (P : S → Prop) (r : res S A) : Prop :=
  match r with
  | Ret _ s _ | Halt s _ | Spin s _ | Fault s _ | Leave s _ => P s
  | Switch s _ k => P s ∧ ∀ s' w', P s' → res_keeps P (k s' w')
  end.

Definition preserves {S A} (P : S → Prop) (m : K S A) : Prop := ∀ s w, P s → res_keeps P (m s w).

Create HintDb preserves.

Section Preserves.
Context {S : Type} (P : S → Prop).

Lemma preserves_ret {A} (a : A) : preserves P (ret a).
Proof. by intros s w Hs. Qed.
Lemma preserves_gets {A} (f : S → A) : preserves P (gets f).
Proof. by intros s w Hs. Qed.
Lemma preserves_emit es : preserves P (emit es).
Proof. by intros s w Hs. Qed.
Lemma preserves_modify f : (∀ s, P s → P (f s)) → preserves P (modify f).
Proof. intros Hf s w Hs. simpl. auto. Qed.
Lemma preserves_spin {A} : preserves P (λ s w, Spin s w : res S A).
Proof. by intros s w Hs. Qed.
Lemma preserves_lift_opt {A} (o : option A) : preserves P (lift_opt o).
Proof. intros s w Hs. by destruct o. Qed.

Lemma preserves_bind {A B} (m : K S A) (f : A → K S B) :
  preserves P m → (∀ a, preserves P (f a)) → preserves P (bind m f).
Proof.
  intros Hm Hf s w Hs. specialize (Hm s w Hs). unfold bind. generalize dependent (m s w). intros r Hr.
  induction r as [a s1 w1| | | |s1 w1 k IH|]; simpl in *; auto; [by apply Hf|].
  destruct Hr as [H1 Hk]. split; [done|]. intros s2 w2 H2. by apply IH, Hk.
Qed.

Lemma preserves_for_from i n (f : Z → K S unit) : (∀ j, preserves P (f j)) → preserves P (for_from i n f).
Proof.
  intros Hf. revert i. induction n as [|n IH]; intros i; simpl; [apply preserves_ret|]. by apply preserves_bind.
Qed.
Lemma preserves_for_up n (f : Z → K S unit) : (∀ j, preserves P (f j)) → preserves P (for_up n f).
Proof. apply preserves_for_from. Qed.

(** Console output. *)
Lemma preserves_printf fmt args : call_ok fmt args = true → preserves P (printf fmt args).
Proof. intros Hok s w Hs. destruct (printf_prints (S := S) _ _ Hok) as [out Hout]. by rewrite Hout. Qed.

(** What is preserved can be added to a specification. *)
Lemma wp_preserves {A} (m : K S A) Q H s : preserves P m → P s → wp m Q H s → wp m (λ a s', Q a s' ∧ P s') H s.
Proof. intros Hp Hs Hm w. specialize (Hp s w Hs). specialize (Hm w). destruct (m s w); naive_solver. Qed.
End Preserves.

#[export] Hint Resolve preserves_ret preserves_gets preserves_emit preserves_spin preserves_lift_opt : preserves.
Ltac preserves_step :=
  first [by eauto with preserves | by apply preserves_printf | apply preserves_bind; [|intros ?]
    | apply preserves_for_up; intros ? | case_match].
Ltac preserves := repeat preserves_step.

(** ** The types *)

Record proc_typed (p : process) : Prop := {
  pt_name : length (p_name p) = 32%nat;
  pt_priority : 0 <= p_priority p <= 139 ∧ 0 <= p_dynamic_priority p <= 139;
  pt_level : 0 <= p_queue_level p <= 3;
  pt_slice : 0 <= p_time_slice p <= 40;
  pt_pid : is_u64 (p_pid p);
  pt_stats : is_u64 (cpu_time (p_stats p)) ∧ is_u64 (context_switches (p_stats p)) ∧
    is_u64 (start_time (p_stats p)) ∧ is_u64 (last_run (p_stats p)) }.

Record table_typed (t : pstate) : Prop := {
  tt_table : Forall proc_typed (proc_table t);
  tt_idle : Forall proc_typed (idle_processes t);
  tt_pid : is_u64 (next_pid t);
  tt_ticks : is_u64 (global_ticks t) }.

Definition typed (s : sstate) : Prop := table_typed (ps s).

Lemma typed_lookup t r p : table_typed t → lookup_proc r t = Some p → proc_typed p.
Proof. intros [Ht Hi _ _]. destruct r; simpl; intros Hp; [exact (Forall_lookup_1 _ _ _ _ Ht Hp)|exact (Forall_lookup_1 _ _ _ _ Hi Hp)]. Qed.

Lemma typed_update t r f :
  (∀ p, proc_typed p → proc_typed (f p)) → table_typed t → table_typed (update_proc r f t).
Proof.
  intros Hf [Ht Hi Hn Hg]. destruct r; constructor; simpl; try done;
    (apply Forall_alter; [done|]; intros; by apply Hf).
Qed.

(** Reading a process: what is read is typed. *)
Lemma preserves_deref {A} r (f : process → K sstate A) :
  (∀ p, proc_typed p → preserves typed (f p)) → preserves typed (bind (deref r) f).
Proof.
  intros Hf s w Hs. unfold deref, bind, gets. simpl. destruct (lookup_proc r (ps s)) as [p|] eqn:Hp; simpl; [|done].
  apply Hf; [by eapply typed_lookup|done].
Qed.

Lemma preserves_upd r f : (∀ p, proc_typed p → proc_typed (f p)) → preserves typed (upd r f).
Proof. intros Hf. apply preserves_deref. intros _ _. apply preserves_modify. intros s Hs. by apply typed_update. Qed.

(** Reading the clock. *)
Lemma preserves_ticks {A} (f : Z → K sstate A) :
  (∀ t, is_u64 t → preserves typed (f t)) → preserves typed (bind (gets (λ s, get_ticks (ps s))) f).
Proof. intros Hf s w Hs. unfold bind, gets. simpl. apply Hf; [apply Hs|done]. Qed.

(** Anything but the process records. *)
Lemma preserves_other f : (∀ s, ps (f s) = ps s) → preserves typed (modify f).
Proof. intros Hf. apply preserves_modify. intros s. unfold typed. by rewrite Hf. Qed.

Lemma slice_range level sl : arr_get queue_time_slices level = Some sl → 0 <= sl <= 40.
Proof.
  unfold arr_get. destruct (0 <=? level); [|done]. intros Hsl. apply list_elem_of_lookup_2 in Hsl.
  unfold queue_time_slices in Hsl. set_unfold in Hsl. lia.
Qed.

(** A time slice out of the table. *)
Lemma preserves_slice {A} level (f : Z → K sstate A) :
  (∀ sl, 0 <= sl <= 40 → preserves typed (f sl)) →
  preserves typed (bind (lift_opt (arr_get queue_time_slices level)) f).
Proof.
  intros Hf s w Hs. destruct (arr_get queue_time_slices level) as [sl|] eqn:Hsl; [|done].
  apply Hf; [by eapply slice_range|done].
Qed.

(** Proving a record typed after an update of some fields. *)
Ltac typed_fields :=
  let p := fresh "p" in intros p []; constructor; simpl in *; rewrite ?length_insert, ?length_inserts;
  unfold NUM_QUEUE_LEVELS, PRIORITY_MAX, PRIORITY_DEFAULT in *;
  repeat match goal with
  | H : _ && _ = true |- _ => apply andb_true_iff in H as [? ?]
  | H : (_ <? _) = true |- _ => apply Z.ltb_lt in H
  end;
  destruct_and?; split_and?; auto with words; unfold is_u64 in *; lia.

Ltac typed_step :=
  lazymatch goal with
  | |- preserves typed (upd _ _) => apply preserves_upd; typed_fields
  | |- preserves typed (bind (deref _) _) => apply preserves_deref; intros ? []
  | |- preserves typed (bind (gets (λ s, get_ticks (ps s))) _) => apply preserves_ticks; intros ? ?
  | |- preserves typed (bind (lift_opt (arr_get queue_time_slices _)) _) => apply preserves_slice; intros ? ?
  | |- preserves typed (modify _) => apply preserves_other; done
  | |- _ => preserves_step
  end.
Ltac typed_ops := repeat typed_step.

(** ** The operations *)

Lemma typed_get_cpu i : preserves typed (get_cpu i).
Proof. unfold get_cpu. preserves. Qed.
Lemma typed_upd_cpu i f : preserves typed (upd_cpu i f).
Proof. unfold upd_cpu. typed_ops. Qed.
Lemma typed_get_queue i : preserves typed (get_queue i).
Proof. unfold get_queue. preserves. Qed.
Lemma typed_put_queue i q : preserves typed (put_queue i q).
Proof. unfold put_queue. typed_ops. Qed.
#[export] Hint Resolve typed_get_cpu typed_upd_cpu typed_get_queue typed_put_queue : preserves.

Lemma typed_enqueue i r : preserves typed (enqueue_level i r).
Proof. unfold enqueue_level. preserves. Qed.
Lemma typed_dequeue i : preserves typed (dequeue_level i).
Proof. unfold dequeue_level. preserves. Qed.
#[export] Hint Resolve typed_enqueue typed_dequeue : preserves.

Lemma typed_sched_add r : preserves typed (sched_add r).
Proof. unfold sched_add. typed_ops. Qed.
#[export] Hint Resolve typed_sched_add : preserves.

Lemma typed_next_level n level c : preserves typed (next_level n level c).
Proof. revert level. induction n as [|n IH]; intros level; cbn [next_level]; typed_ops. Qed.
#[export] Hint Resolve typed_next_level : preserves.

Lemma typed_sched_next c : preserves typed (sched_next c).
Proof. unfold sched_next. typed_ops. Qed.
#[export] Hint Resolve typed_sched_next : preserves.

Lemma typed_swtch old new : preserves typed (swtch old new).
Proof.
  unfold swtch. apply preserves_bind; [typed_ops|intros _]. destruct new as [r|]; [|apply preserves_ret].
  apply preserves_deref. intros p _. apply preserves_bind; [by apply preserves_other|intros _].
  intros s w Hs. by destruct old.
Qed.

Lemma typed_retire c old : preserves typed (retire c old).
Proof. unfold retire. typed_ops. Qed.

Lemma typed_dispatch c r : preserves typed (dispatch c r).
Proof. unfold dispatch. typed_ops. Qed.
#[export] Hint Resolve typed_swtch typed_retire typed_dispatch : preserves.

Lemma typed_context_switch old new : preserves typed (context_switch old new).
Proof. unfold context_switch. typed_ops. Qed.
#[export] Hint Resolve typed_context_switch : preserves.

Lemma typed_yield : preserves typed sched_yield.
Proof. unfold sched_yield. typed_ops. Qed.
#[export] Hint Resolve typed_yield : preserves.

Lemma typed_boost_loop fuel level : preserves typed (boost_loop fuel level).
Proof. induction fuel as [|fuel IH]; cbn [boost_loop]; typed_ops. Qed.
#[export] Hint Resolve typed_boost_loop : preserves.

Lemma typed_tick : preserves typed sched_tick.
Proof.
  unfold sched_tick, ageing, boost. do 2 (apply preserves_bind; [by eauto with preserves|intros ?]).
  apply preserves_bind; [|intros _; typed_ops].
  apply preserves_modify. intros s [? ? ? ?]. constructor; simpl; auto with words.
Qed.

Lemma typed_set_priority r pr : preserves typed (sched_set_priority r pr).
Proof.
  unfold sched_set_priority. destruct r as [r|]; [|apply preserves_ret]. cbv zeta.
  set (v := if PRIORITY_MAX <? _ then _ else _).
  assert (0 <= v <= 139) as Hv.
  { unfold v, PRIORITY_MAX, PRIORITY_MIN. repeat case_match; rewrite ?Z.ltb_lt, ?Z.ltb_ge in *; lia. }
  assert (100 <= v → 0 <= priority_level v <= 3) as Hl.
  { intros H. unfold priority_level, NUM_QUEUE_LEVELS, PRIORITY_MAX, PRIORITY_NORMAL_MIN.
    change (139 - 100 + 1) with 40. rewrite Z.quot_div_nonneg by lia.
    destruct (Z.leb_spec 4 ((v - 100) * 4 / 40)); [lia|]. Z.div_mod_to_equations; lia. }
  clearbody v. destruct (Z.leb_spec v PRIORITY_RT_MAX) as [Hle|Hgt]; [typed_ops|]. unfold PRIORITY_RT_MAX in Hgt.
  specialize (Hl ltac:(lia)). typed_ops.
Qed.

Lemma typed_set_policy r pol : preserves typed (sched_set_policy r pol).
Proof. unfold sched_set_policy. typed_ops. Qed.

Lemma typed_init : preserves typed scheduler_init.
Proof. unfold scheduler_init, init_idle_process. typed_ops. Qed.

Lemma typed_alloc t : table_typed t → table_typed (snd (process_alloc t)).
Proof.
  intros [Ht Hi Hn Hg]. unfold process_alloc. destruct (first_unused (proc_table t)) as [i|]; [|by constructor].
  constructor; simpl; auto with words. apply Forall_alter; [done|]. intros p _ [].
  constructor; simpl; rewrite ?length_insert; unfold PRIORITY_DEFAULT; auto; [lia..|].
  split_and!; [unfold is_u64; lia..|done|unfold is_u64; lia].
Qed.

Lemma typed_free r t : table_typed t → table_typed (process_free r t).
Proof.
  destruct r as [r|]; [|done]. apply typed_update. intros p []. constructor; simpl; auto; unfold is_u64 in *; lia.
Qed.
#[export] Hint Resolve typed_boost_loop typed_tick typed_set_priority typed_set_policy typed_init : preserves.

(** ** Every reachable state *)

Lemma typed_op o : preserves typed (run_op o).
Proof.
  destruct o; cbn [run_op]; eauto with preserves; apply preserves_modify; intros s Hs;
    [by apply typed_alloc|by apply typed_free].
Qed.

(** A suspended call goes on from typed states. *)
Definition steady (k : resumption) : Prop := ∀ s w, typed s → res_keeps typed (k s w).

Lemma lands_steady ks r cf :
  lands ks r cf → res_keeps typed r → Forall steady ks → typed (cf_state cf) ∧ Forall steady (cf_susp cf).
Proof. destruct 1; simpl; intros Hr Hks; [done| |done]. destruct Hr as [Hs Hk]. split; [done|by constructor]. Qed.

Lemma step_typed c c' :
  sys_step c c' → typed (cf_state c) ∧ Forall steady (cf_susp c) → typed (cf_state c') ∧ Forall steady (cf_susp c').
Proof.
  intros [o w s ks cf _ Hl|k w s ks1 ks2 cf Hl] [Hs Hks]; simpl in *.
  - eapply lands_steady; [done|by apply typed_op|done].
  - apply Forall_app in Hks as [H1 [Hk H2]%Forall_cons]. eapply lands_steady; [done|by apply Hk|]. by apply Forall_app.
Qed.

(** C25: in every state the system can reach from a typed start (the zeroed
    memory of the boot image is one), by any sequence of allocations, releases,
    additions, priority and policy changes, yields and timer ticks, with the
    suspended calls resumed in any order, every process record is well typed: its
    name has 32 bytes, its priorities are 0 to 139, its queue level is one of the
    four, its time slice is 0 to 40 ticks, and its counters are 64-bit values. *)
Theorem sched_fields_typed (b s : sstate) (w w' : world) (cf : config) :
  typed b → scheduler_init b w = Ret tt s w' → rtc sys_step (Config s []) cf → typed (cf_state cf).
Proof.
  intros Hb Hinit Hsteps. pose proof (typed_init b w Hb) as Hs. rewrite Hinit in Hs. simpl in Hs.
  assert (typed (cf_state (Config s [])) ∧ Forall steady (cf_susp (Config s []))) as H0 by by split.
  revert H0. induction Hsteps as [|c c1 c2 Hstep _ IH]; intros Hc; [apply Hc|]. by apply IH, (step_typed c).
Qed.

Lemma boot_typed : typed boot_sched.
Proof.
  assert (proc_typed process_zero) by (constructor; simpl; unfold is_u64; lia).
  constructor; [by apply (Forall_replicate proc_typed 64)|by apply (Forall_replicate proc_typed 8)|..];
    simpl; unfold is_u64; lia.
Qed.

Lemma sched_fields_typed_witness :
  ∃ s w', scheduler_init boot_sched (mkWorld [] []) = Ret tt s w' ∧
    typed (set_ps (snd (process_alloc (ps s))) s).
Proof.
  destruct (wp_run scheduler_init (λ _ _, True) boot_sched (mkWorld [] [])) as ([] & s & w' & Hrun & _).
  { eapply wp_mono; [apply (wp_scheduler_init never), boot_bss|done|done]. }
  exists s, w'. split; [exact Hrun|].
  apply (sched_fields_typed boot_sched s (mkWorld [] []) w' (Config (set_ps (snd (process_alloc (ps s))) s) [])).
  - exact boot_typed.
  - exact Hrun.
  - apply rtc_once, (sys_call OpAlloc (mkWorld [] [])); [exact I|apply lands_ret].
Defined.
