(* ===== verification/Fairness.v ===== *)
(** Liveness of the scheduler: among normal processes the queue of the highest
    level is served in turn. *)

From Stdlib Require Import String.
From S2P Require Import Prelude Machine Uart Printf Process Queues Scheduler SchedInv SchedOps SchedProps.
Local Open Scope Z_scope.

(** One turn: the running process yields. *)
Definition turn (s : sstate) (w : world) : option (sstate * world) :=
  match sched_yield s w with Switch s' w' _ => Some (s', w') | _ => None end.

(** [n] turns, each by the process then running. *)
Fixpoint turns (n : nat) (s : sstate) (w : world) : option (sstate * world) :=
  match n with
  | O => Some (s, w)
  | S n' => x ← turn s w; turns n' (fst x) (snd x)
  end.

(** Only normal processes are running or queued, and one is running. *)
Record normal_only (s : sstate) : Prop := {
  no_ok : sched_ok s;
  no_current : ∃ i, current (cpu0 s) = Some (PProc i);
  no_policy : ∀ r, r ∈ tracked s → p_policy <$> lookup_proc r (ps s) = Some SCHED_NORMAL;
  no_rt : rts (abs s) = [] }.

(** The head of level 0 gets the CPU and the others move up. *)
Lemma turn_step s w x l :
  normal_only s → levels (abs s) !! 0%nat = Some (x :: l) →
  ∃ s' w' tl, turn s w = Some (s', w') ∧ normal_only s' ∧ current (cpu0 s') = Some x ∧
    levels (abs s') !! 0%nat = Some (l ++ tl).
Proof.
  intros [Hok [i Hc] Hpol Hrt] Hl. pose proof (sched_ok_inv s Hok) as Hi.
  destruct (yield_handover i s w Hok Hc) as (y & lvl & px & a1 & a2 & s' & w' & Hrun & Ho & Hi' & Ha & Hc').
  assert (PProc i ∈ tracked s) as Hit by (unfold tracked, running; rewrite Hc; apply list_elem_of_here).
  assert (x ∈ queued (abs s)) as Hxq.
  { unfold queued. rewrite (concat_remove_perm _ _ _ _ Hl). apply elem_of_app. right. apply list_elem_of_here. }
  assert (y = x ∧ a1 = RunQ (<[0%nat := l]> (levels (abs s))) []) as [-> ->].
  { destruct (ho_chosen _ _ _ _ _ _ _ _ _ Ho) as [y lvl a1 Hp|y He _].
    - destruct Hp as [y rt Hr|j y l' Hr Hj Hlow]; [congruence|].
      destruct j as [|j]; [by simplify_eq|]. specialize (Hlow 0%nat ltac:(lia)). congruence.
    - exfalso. rewrite He in Hxq. by apply elem_of_nil in Hxq. }
  pose proof (ho_out _ _ _ _ _ _ _ _ _ Ho) as Hout. unfold outgoing in Hout. rewrite Hc in Hout.
  destruct Hout as (p & Hp & Hrj & _). rewrite lookup_refill_ne in Hp
    by (pose proof (ho_other _ _ _ _ _ _ _ _ _ Ho); congruence).
  assert (p_policy p = SCHED_NORMAL) as Hpp by (specialize (Hpol _ Hit); rewrite Hp in Hpol; by injection Hpol).
  rewrite bool_decide_false in Hrj by (rewrite (si_idle _ _ _ Hi); done).
  unfold rejoins in Hrj. rewrite Hpp in Hrj. unfold admits in Hrj.
  destruct (retired_fields false p) as [Hrp _]. rewrite Hrp, Hpp in Hrj. destruct Hrj as (l' & Hl' & Ha2).
  cbn [levels rts] in Hl', Ha2. set (j := clamp_level _) in *.
  exists s', w', (if decide (j = 0%nat) then [PProc i] else []). split_and!.
  - unfold turn. by rewrite Hrun.
  - constructor; [by eexists _, _| | |].
    + rewrite <- Hc'. cbn [current with_current].
      destruct (si_queued _ _ _ Hi x Hxq) as (k & _ & -> & _). by exists k.
    + intros r Hr. rewrite (ho_policy _ _ _ _ _ _ _ _ _ Hi Ho). apply Hpol. unfold tracked in Hr.
      rewrite <- Ha, <- Hc', elem_of_app, (ho_queued _ _ _ _ _ _ _ _ _ Ho), elem_of_app in Hr.
      unfold tracked. rewrite elem_of_app. destruct Hr as [Hr|[Hr|Hr]].
      * right. unfold running in Hr. cbn [current with_current] in Hr.
        destruct x; [apply list_elem_of_singleton in Hr as ->; done|by apply elem_of_nil in Hr].
      * left. destruct (requeued_cases _ _ _ Hi) as [Hn|[Hn _]]; rewrite Hn in Hr; [by apply elem_of_nil in Hr|done].
      * right. unfold queued. rewrite Hrt, (concat_remove_perm _ _ _ _ Hl). by right.
    + by rewrite <- Ha, Ha2.
  - by rewrite <- Hc'.
  - rewrite <- Ha, Ha2. cbn [levels]. apply lookup_lt_Some in Hl. case_decide as Hj.
    + rewrite Hj in *. rewrite list_lookup_insert_eq in Hl' by done. injection Hl' as <-.
      apply list_lookup_insert_eq. by rewrite length_insert.
    + rewrite list_lookup_insert_ne, list_lookup_insert_eq, app_nil_r by done. done.
Qed.

(** C26: as long as the processes are normal ones and the one
    that runs yields, the queue of the highest level is served in order: a process
    with [n] others before it at level 0 has the CPU after exactly [n + 1] turns,
    whoever joins the queues behind it. *)
Theorem level_zero_served_in_turn (s : sstate) (w : world) (l1 l2 : list procref) (x : procref) :
  normal_only s → levels (abs s) !! 0%nat = Some (l1 ++ x :: l2) →
  ∃ s' w', turns (S (length l1)) s w = Some (s', w') ∧ sched_ok s' ∧ current (cpu0 s') = Some x.
Proof.
  revert s w l2. induction l1 as [|y l1 IH]; intros s w l2 Hs Hl; cbn [app length] in *.
  - destruct (turn_step s w x l2 Hs Hl) as (s' & w' & tl & Ht & Hs' & Hc & _). exists s', w'. cbn [turns].
    rewrite Ht. split_and!; [done|apply Hs'|done].
  - destruct (turn_step s w y (l1 ++ x :: l2) Hs Hl) as (s1 & w1 & tl & Ht & Hs1 & _ & Hl1).
    rewrite <- app_assoc in Hl1. destruct (IH s1 w1 (l2 ++ tl) Hs1 Hl1) as (s' & w' & Hr & Hok & Hc).
    exists s', w'. split; [|done]. cbn [turns] in *. by rewrite Ht.
Qed.

Lemma level_zero_served_witness :
  ∃ s' w', turns 3 (demo SCHED_NORMAL [PProc 4; PProc 2; PProc 7] [PProc 5] 8) (mkWorld [] []) = Some (s', w') ∧
    sched_ok s' ∧ current (cpu0 s') = Some (PProc 7).
Proof.
  apply (level_zero_served_in_turn (demo SCHED_NORMAL [PProc 4; PProc 2; PProc 7] [PProc 5] 8) (mkWorld [] [])
    [PProc 4; PProc 2] [] (PProc 7)).
  - constructor; [by apply demo_ok|by exists 0%nat| |reflexivity]. intros r Hr.
    change (tracked _) with [PProc 0; PProc 4; PProc 2; PProc 7; PProc 5] in Hr.
    repeat (apply elem_of_cons in Hr as [->|Hr]; [reflexivity|]). by apply elem_of_nil in Hr.
  - reflexivity.
Defined.
