(* ===== verification/CString.v ===== *)
(** C strings in fixed-size arrays: the name copy and compare loops that
    [kernel/fs/vfs.c] and [kernel/fs/simplefs.c] share. *)

From S2P Require Import Prelude Machine Uart.

(** [for (j = 0; j < n; j++) { if (stored[j] != name[j]) { match = 0; break; }
    if (name[j] == 0) break; }]; [None]: a read past the end of an array. *)
Fixpoint name_eq (n : nat) (stored name : list Z) : option bool :=
  match n with
  | O => Some true
  | S n' =>
      match stored, name with
      | x :: stored', y :: name' =>
          if negb (x =? y) then Some false
          else if y =? 0 then Some true
          else name_eq n' stored' name'
      | _, _ => None
      end
  end.

(** [for (j = 0; j < n && name[j] != 0; j++) dst[j] = name[j]; dst[j] = 0;]:
    [dst] after the loop. *)
Fixpoint copy_name (n : nat) (name dst : list Z) : option (list Z) :=
  match n, dst with
  | _, [] => None
  | O, _ :: dst' => Some (0 :: dst')
  | S n', _ :: dst' =>
      match name with
      | [] => None
      | y :: name' =>
          if y =? 0 then Some (0 :: dst')
          else d ← copy_name n' name' dst'; Some (y :: d)
      end
  end.

(** The characters before the terminator. *)
Fixpoint text (l : list Z) : option (list Z) :=
  match l with
  | [] => None
  | c :: l' => if c =? 0 then Some [] else cons c <$> text l'
  end.

Lemma text_terminated l : is_Some (text l) ↔ terminated l = true.
Proof.
  induction l as [|c l IH]; simpl; [split; [by intros []|done]|].
  destruct (c =? 0); [split; [done|by eexists]|]. rewrite fmap_is_Some. exact IH.
Qed.

Lemma name_eq_spec n stored name s s2 :
  text stored = Some s → text name = Some s2 → (length s < n)%nat →
  name_eq n stored name = Some (bool_decide (s = s2)).
Proof.
  revert stored name s s2. induction n as [|n IH]; intros stored name s s2 Hs Hn Hl; [lia|].
  destruct stored as [|x stored]; [done|]. destruct name as [|y name]; [done|]. simpl in *.
  destruct (Z.eqb_spec x y) as [->|Hne]; simpl.
  - destruct (Z.eqb_spec y 0) as [->|Hy]; [simplify_eq; by rewrite bool_decide_true|].
    apply fmap_Some in Hs as (s' & Hs & ->), Hn as (s2' & Hn & ->). simpl in Hl.
    rewrite (IH stored name s' s2') by (done || lia). f_equal. apply bool_decide_ext. naive_solver.
  - rewrite bool_decide_false; [done|]. intros ->.
    destruct (Z.eqb_spec x 0), (Z.eqb_spec y 0); simplify_eq.
    + by apply fmap_Some in Hn as (? & _ & ?).
    + by apply fmap_Some in Hs as (? & _ & ?).
    + apply fmap_Some in Hs as (? & _ & ->), Hn as (? & _ & ?). naive_solver.
Qed.

Lemma copy_name_spec n name dst s :
  text name = Some s → (n < length dst)%nat →
  ∃ d, copy_name n name dst = Some d ∧ length d = length dst ∧ text d = Some (take n s).
Proof.
  revert name dst s. induction n as [|n IH]; intros name dst s Hs Hl;
    (destruct dst as [|z dst]; [simpl in Hl; lia|]); simpl.
  { by eexists. }
  destruct name as [|y name]; [done|]. simpl in *.
  destruct (Z.eqb_spec y 0) as [->|Hy]; [simplify_eq; by eexists|].
  apply fmap_Some in Hs as (s' & Hs & ->).
  destruct (IH name dst s' Hs) as (d & -> & Hd & Ht); [lia|]. simpl.
  eexists. split; [done|]. simpl. split; [lia|].
  destruct (Z.eqb_spec y 0); [done|]. by rewrite Ht.
Qed.

(** First index of an element that passes a test. *)
Fixpoint first_index {A} (f : A → bool) (l : list A) : option nat :=
  match l with
  | [] => None
  | x :: l' => if f x then Some 0%nat else S <$> first_index f l'
  end.

Lemma first_index_spec {A} (f : A → bool) l :
  match first_index f l with
  | Some i => ∃ x, l !! i = Some x ∧ f x = true ∧ ∀ j y, (j < i)%nat → l !! j = Some y → f y = false
  | None => ∀ j y, l !! j = Some y → f y = false
  end.
Proof.
  induction l as [|x l IH]; simpl; [done|]. destruct (f x) eqn:Hx.
  - exists x. split_and!; [done|done|lia].
  - destruct (first_index f l) as [i|]; simpl.
    + destruct IH as (y & Hy & Hfy & Hlow). exists y. split_and!; [done|done|].
      intros [|j] z Hj Hz; [by simplify_eq/=|]. eapply Hlow; [|done]. lia.
    + intros [|j] y Hy; [by simplify_eq/=|]. by eapply IH.
Qed.

(** The same test on two arrays, position by position. *)
Lemma first_index_ext {A B} (f : A → bool) (g : B → bool) l k :
  Forall2 (λ x y, f x = g y) l k → first_index f l = first_index g k.
Proof. induction 1 as [|x y l k Hxy _ IH]; simpl; [done|]. by rewrite Hxy, IH. Qed.

#[global] Arguments name_eq : simpl never.
#[global] Arguments copy_name : simpl never.
