(* ===== verification/SimpleFs.v ===== *)
(** The in-memory file system, [kernel/fs/simplefs.c] and [simplefs.h]: an
    array of 64 inodes with 28-byte names, and the finite map of files that it
    implements. *)

From Stdlib Require Import String.
From S2P Require Import Prelude Machine Uart Printf Mm CString.
Local Open Scope string_scope.
Local Open Scope list_scope.
Local Open Scope Z_scope.

(** ** Data *)

Definition SFS_MAGIC : Z := 0x53465331.
Definition SFS_BLOCK_SIZE : Z := 4096.
Definition SFS_MAX_FILES : Z := 64.
Definition SFS_MAX_FILENAME : Z := 28.

Record sfs_superblock := SB {
  sb_magic : Z; sb_block_size : Z; sb_num_blocks : Z; sb_num_inodes : Z;
  sb_free_blocks : Z; sb_free_inodes : Z }.

Record sfs_inode := SInode {
  i_ino : Z; i_type : Z; i_size : Z; i_blocks : list Z; i_name : list Z }.

(** The static variables, and the memory manager that [sfs_format] calls. *)
Record sfs_state := Sfs {
  sf_mm : mm_state; superblock : sfs_superblock; inodes : list sfs_inode; data_blocks : Z }.

Definition set_superblock v s := Sfs (sf_mm s) v (inodes s) (data_blocks s).
Definition set_inodes v s := Sfs (sf_mm s) (superblock s) v (data_blocks s).
Definition set_data_blocks v s := Sfs (sf_mm s) (superblock s) (inodes s) v.
Definition set_free_inodes v b :=
  SB (sb_magic b) (sb_block_size b) (sb_num_blocks b) (sb_num_inodes b) (sb_free_blocks b) v.
Definition set_free_blocks v b :=
  SB (sb_magic b) (sb_block_size b) (sb_num_blocks b) (sb_num_inodes b) v (sb_free_inodes b).

Definition sfs_mm : lens mm_state sfs_state.
Proof.
  refine (Lens sf_mm (λ m s, Sfs m (superblock s) (inodes s) (data_blocks s)) _ _ _); by intros; destruct t.
Defined.

(** ** Operations *)

Definition clear_inode (x : sfs_inode) : sfs_inode := SInode 0 0 0 (i_blocks x) (i_name x).

Definition sfs_init : K sfs_state unit :=
  printf (ln "[SFS] Initializing Simple File System") [] ;;
  modify (λ s, set_inodes (clear_inode <$> inodes s) s).

(** [num_blocks * SFS_BLOCK_SIZE] is computed in [uint32_t]; a 32-bit argument
    of [printf] arrives sign-extended. *)
Definition sfs_format `{Layout} (num_blocks : Z) : K sfs_state Z :=
  printf (ln "[SFS] Formatting file system with %u blocks") [ANum (s32 num_blocks)] ;;
  modify (set_superblock (SB SFS_MAGIC SFS_BLOCK_SIZE num_blocks SFS_MAX_FILES num_blocks SFS_MAX_FILES)) ;;
  let* p := zoom sfs_mm (kmalloc (u32 (num_blocks * SFS_BLOCK_SIZE))) in
  modify (set_data_blocks p) ;;
  if p =? 0 then
    printf (ln "[SFS] Failed to allocate data blocks") [] ;; ret (-1)
  else
    printf (ln "[SFS] File system formatted successfully") [] ;; ret 0.

(** Index of the inode found; the outer [None] is a read past a string. *)
Fixpoint find_inode (l : list sfs_inode) (name : list Z) : option (option nat) :=
  match l with
  | [] => Some None
  | x :: l' =>
      if i_ino x =? 0 then r ← find_inode l' name; Some (S <$> (r : option nat))
      else
        m ← name_eq (Z.to_nat SFS_MAX_FILENAME) (i_name x) name;
        if (m : bool) then Some (Some 0%nat)
        else r ← find_inode l' name; Some (S <$> (r : option nat))
  end.

Definition sfs_create (name : list Z) (type : Z) : K sfs_state Z :=
  let* l := gets inodes in
  let* found := lift_opt (find_inode l name) in
  match found with
  | Some _ => printf (ln "[SFS] File already exists: %s") [AStr name] ;; ret (-1)
  | None =>
      match first_index (λ x, i_ino x =? 0) l with
      | Some i =>
          let* x := lift_opt (l !! i) in
          let* nm := lift_opt (copy_name (Z.to_nat (SFS_MAX_FILENAME - 1)) name (i_name x)) in
          let ino := Z.of_nat i + 1 in
          modify (set_inodes (<[i := SInode ino type 0 (replicate 12 0) nm]> l)) ;;
          modify (λ s, set_superblock
            (set_free_inodes (u32 (sb_free_inodes (superblock s) - 1)) (superblock s)) s) ;;
          printf (ln "[SFS] Created file: %s (inode %u)") [AStr name; ANum ino] ;;
          ret ino
      | None => printf (ln "[SFS] No free inodes") [] ;; ret (-1)
      end
  end.

Definition count_used_blocks (bs : list Z) : Z := Z.of_nat (length (filter (λ b, b ≠ 0) bs)).

Definition sfs_delete (name : list Z) : K sfs_state Z :=
  let* l := gets inodes in
  let* found := lift_opt (find_inode l name) in
  match found with
  | None => printf (ln "[SFS] File not found: %s") [AStr name] ;; ret (-1)
  | Some i =>
      let* x := lift_opt (l !! i) in
      modify (λ s, set_superblock
        (set_free_blocks (u32 (sb_free_blocks (superblock s) + count_used_blocks (i_blocks x)))
           (superblock s)) s) ;;
      modify (set_inodes (<[i := clear_inode x]> l)) ;;
      modify (λ s, set_superblock
        (set_free_inodes (u32 (sb_free_inodes (superblock s) + 1)) (superblock s)) s) ;;
      printf (ln "[SFS] Deleted file: %s") [AStr name] ;;
      ret 0
  end.

(** [ino == 0 || ino > SFS_MAX_FILES], then [inodes[ino - 1].ino != ino]. *)
Definition get_inode (ino : Z) : K sfs_state (option sfs_inode) :=
  if (ino =? 0) || (SFS_MAX_FILES <? ino) then ret None
  else
    let* l := gets inodes in
    let* x := lift_opt (arr_get l (ino - 1)) in
    ret (if i_ino x =? ino then Some x else None).

(** The size that comes back; no data is kept. *)
Definition sfs_read (ino offset size : Z) : K sfs_state Z :=
  let* r := get_inode ino in
  match r with
  | None => ret (-1)
  | Some x =>
      if i_size x <=? offset then ret 0
      else if i_size x <? u32 (offset + size) then ret (s32 (i_size x - offset))
      else ret (s32 size)
  end.

Definition sfs_write (ino offset size : Z) : K sfs_state Z :=
  let* r := get_inode ino in
  match r with
  | None => ret (-1)
  | Some x =>
      (if i_size x <? u32 (offset + size) then
         let* l := gets inodes in
         let* l' := lift_opt (arr_set l (ino - 1)
           (SInode (i_ino x) (i_type x) (u32 (offset + size)) (i_blocks x) (i_name x))) in
         modify (set_inodes l')
       else ret tt) ;;
      ret (s32 size)
  end.

(** ** The file map

    A file by inode number: stored name, type, size. *)

Record finfo := FInfo { fi_name : list Z; fi_type : Z; fi_size : Z }.
Abbreviation fs_map := (gmap Z finfo).

Definition slots (m : fs_map) : list (option finfo) := (λ k, m !! k) <$> seqZ 1 64.

Definition has_name (s : list Z) (o : option finfo) : bool :=
  match o with Some f => bool_decide (fi_name f = s) | None => false end.
Definition is_free (o : option finfo) : bool := match o with None => true | Some _ => false end.

(** Lowest inode number in a slot that passes the test. *)
Definition first_ino (f : option finfo → bool) (m : fs_map) : option Z :=
  (λ i, Z.of_nat i + 1) <$> first_index f (slots m).

Definition spec_create (s : list Z) (type : Z) (m : fs_map) : Z * fs_map :=
  match first_ino (has_name s) m, first_ino is_free m with
  | None, Some k => (k, <[k := FInfo (take 27 s) type 0]> m)
  | _, _ => (-1, m)
  end.

Definition spec_delete (s : list Z) (m : fs_map) : Z * fs_map :=
  match first_ino (has_name s) m with
  | Some k => (0, delete k m)
  | None => (-1, m)
  end.

Definition spec_read (ino offset size : Z) (m : fs_map) : Z * fs_map :=
  (match m !! ino with
   | None => -1
   | Some f =>
       if fi_size f <=? offset then 0
       else if fi_size f <? u32 (offset + size) then s32 (fi_size f - offset) else s32 size
   end, m).

Definition spec_write (ino offset size : Z) (m : fs_map) : Z * fs_map :=
  match m !! ino with
  | None => (-1, m)
  | Some f =>
      (s32 size,
       if fi_size f <? u32 (offset + size)
       then <[ino := FInfo (fi_name f) (fi_type f) (u32 (offset + size))]> m else m)
  end.

(** Free inodes. *)
Definition free_count (m : fs_map) : Z := Z.of_nat (length (filter (λ k, m !! k = None) (seqZ 1 64))).

(** Slot [k]: inode [x] holds [o]. *)
Definition slot_ok (k : Z) (x : sfs_inode) (o : option finfo) : Prop :=
  length (i_name x) = 28%nat ∧
  match o with
  | None => i_ino x = 0
  | Some f => i_ino x = k ∧ i_type x = fi_type f ∧ i_size x = fi_size f ∧
      text (i_name x) = Some (fi_name f) ∧ (length (fi_name f) <= 27)%nat
  end.

Record sfs_repr (s : sfs_state) (m : fs_map) : Prop := {
  sr_len : length (inodes s) = 64%nat;
  sr_slot : ∀ (i : nat) x, inodes s !! i = Some x → slot_ok (Z.of_nat i + 1) x (m !! (Z.of_nat i + 1));
  sr_dom : ∀ k f, m !! k = Some f → 1 <= k <= 64;
  sr_free : sb_free_inodes (superblock s) = free_count m }.

Lemma slots_lookup m (i : nat) : (i < 64)%nat → slots m !! i = Some (m !! (Z.of_nat i + 1)).
Proof.
  intros Hi. unfold slots. rewrite list_lookup_fmap, lookup_seqZ_lt by lia. simpl. do 2 f_equal. lia.
Qed.

Lemma length_slots m : length (slots m) = 64%nat.
Proof. unfold slots. by rewrite length_fmap, length_seqZ. Qed.

(** Counting with two tests that agree. *)
Lemma filter_agree {A} (P Q : A → Prop) `{∀ x, Decision (P x), ∀ x, Decision (Q x)} (l : list A) :
  (∀ x, x ∈ l → P x ↔ Q x) → filter P l = filter Q l.
Proof.
  induction l as [|x l IH]; intros Hl; [done|]. rewrite !filter_cons.
  rewrite IH by (intros; apply Hl; set_solver). specialize (Hl x ltac:(set_solver)).
  repeat case_decide; tauto.
Qed.

Lemma free_count_split k :
  1 <= k <= 64 → ∃ l1 l2, seqZ 1 64 = l1 ++ k :: l2 ∧ (k ∉ l1) ∧ (k ∉ l2).
Proof.
  intros Hk. destruct (list_elem_of_split (seqZ 1 64) k) as (l1 & l2 & Hl); [apply elem_of_seqZ; lia|].
  exists l1, l2. pose proof (NoDup_seqZ 1 64) as Hnd. rewrite Hl in Hnd.
  apply NoDup_app in Hnd as (_ & H1 & H2). apply NoDup_cons in H2 as [H2 _]. split_and!; [done| |done].
  intros Hin. apply (H1 k Hin). set_solver.
Qed.

Lemma free_count_other (m m' : fs_map) k :
  1 <= k <= 64 → (∀ j, j ≠ k → m' !! j = m !! j) →
  free_count m' - (if is_free (m' !! k) then 1 else 0) = free_count m - (if is_free (m !! k) then 1 else 0).
Proof.
  intros Hk Hother. unfold free_count. destruct (free_count_split k Hk) as (l1 & l2 & -> & H1 & H2).
  rewrite !filter_app, !length_app, !filter_cons.
  rewrite (filter_agree (λ j, m' !! j = None) (λ j, m !! j = None) l1),
    (filter_agree (λ j, m' !! j = None) (λ j, m !! j = None) l2);
    [|intros j Hj; rewrite Hother; [done|congruence]..].
  destruct (m' !! k), (m !! k); simpl; repeat case_decide; simpl; try done; lia.
Qed.

Lemma free_count_insert (m : fs_map) k f :
  1 <= k <= 64 →
  free_count (<[k := f]> m) = free_count m - (if is_free (m !! k) then 1 else 0).
Proof.
  intros Hk. pose proof (free_count_other m (<[k := f]> m) k Hk) as Hc.
  rewrite lookup_insert_eq in Hc. simpl in Hc. rewrite <- Hc; [lia|].
  intros j Hj. by rewrite lookup_insert_ne.
Qed.

Lemma free_count_delete (m : fs_map) k f :
  1 <= k <= 64 → m !! k = Some f → free_count (delete k m) = free_count m + 1.
Proof.
  intros Hk Hm. pose proof (free_count_other m (delete k m) k Hk) as Hc.
  rewrite lookup_delete_eq, Hm in Hc. simpl in Hc.
  assert (∀ j, j ≠ k → delete k m !! j = m !! j) as Ho by (intros j Hj; by rewrite lookup_delete_ne).
  specialize (Hc Ho). lia.
Qed.

Lemma free_count_pos (m : fs_map) : 0 <= free_count m <= 64.
Proof.
  unfold free_count. pose proof (length_filter (λ k, m !! k = None) (seqZ 1 64)) as Hl.
  rewrite length_seqZ in Hl. lia.
Qed.

Lemma find_inode_repr s m name t :
  sfs_repr s m → text name = Some t →
  find_inode (inodes s) name = Some (first_index (has_name t) (slots m)).
Proof.
  intros Hr Ht.
  assert (Forall2 (λ x o, ∃ k, 1 <= k ∧ slot_ok k x o) (inodes s) (slots m)) as Hall.
  { apply Forall2_same_length_lookup. split; [by rewrite length_slots, (sr_len _ _ Hr)|].
    intros i x o Hx Ho. assert (i < 64)%nat by (rewrite <- (sr_len _ _ Hr); by eapply lookup_lt_Some).
    rewrite slots_lookup in Ho by done. injection Ho as <-. exists (Z.of_nat i + 1). split; [lia|].
    by apply Hr. }
  clear Hr. induction Hall as [|x o l k (j & Hj & Hlen & Hx) _ IH]; simpl; [done|]. rewrite IH.
  destruct o as [f|]; simpl.
  - destruct Hx as (Hino & _ & _ & Htx & Hl). destruct (Z.eqb_spec (i_ino x) 0); [lia|].
    change (Z.to_nat SFS_MAX_FILENAME) with 28%nat.
    rewrite (name_eq_spec 28 _ _ _ _ Htx Ht) by lia. simpl. by case_bool_decide.
  - by rewrite Hx.
Qed.

Lemma free_inode_repr s m :
  sfs_repr s m → first_index (λ x, i_ino x =? 0) (inodes s) = first_index is_free (slots m).
Proof.
  intros Hr. apply first_index_ext, Forall2_same_length_lookup.
  split; [by rewrite length_slots, (sr_len _ _ Hr)|].
  intros i x o Hx Ho. assert (i < 64)%nat by (rewrite <- (sr_len _ _ Hr); by eapply lookup_lt_Some).
  rewrite slots_lookup in Ho by done. injection Ho as <-.
  destruct (sr_slot _ _ Hr i x Hx) as [_ Hs]. destruct (m !! (Z.of_nat i + 1)) as [f|]; simpl.
  - destruct Hs as [Hino _]. destruct (Z.eqb_spec (i_ino x) 0); [lia|done].
  - by rewrite Hs.
Qed.

(** A slot found by a test. *)
Lemma first_slot f m i :
  first_index f (slots m) = Some i → (i < 64)%nat ∧ f (m !! (Z.of_nat i + 1)) = true.
Proof.
  intros Hf. pose proof (first_index_spec f (slots m)) as Hs. rewrite Hf in Hs.
  destruct Hs as (o & Ho & Hfo & _).
  assert (i < 64)%nat as Hi by (rewrite <- (length_slots m); by eapply lookup_lt_Some).
  rewrite slots_lookup in Ho by done. by injection Ho as <-.
Qed.

Lemma sfs_repr_update s s' m m' (i : nat) x' :
  sfs_repr s m → (i < 64)%nat → inodes s' = <[i := x']> (inodes s) →
  slot_ok (Z.of_nat i + 1) x' (m' !! (Z.of_nat i + 1)) →
  (∀ k, k ≠ Z.of_nat i + 1 → m' !! k = m !! k) →
  sb_free_inodes (superblock s') = free_count m' → sfs_repr s' m'.
Proof.
  intros [Hlen Hslot Hdom _] Hi Hin Hx' Hother Hfree. constructor; [| | |done].
  - by rewrite Hin, length_insert.
  - intros j x Hj. rewrite Hin, list_lookup_insert in Hj. case_decide as Hd.
    + destruct Hd as [<- _]. by injection Hj as <-.
    + rewrite Hother by (intros ?; apply Hd; split; [lia|lia]). by apply Hslot.
  - intros k f Hk. destruct (decide (k = Z.of_nat i + 1)) as [->|Hne]; [lia|].
    rewrite Hother in Hk by done. by eapply Hdom.
Qed.

(** ** Each operation implements its counterpart on the map *)

Lemma name_prints name t : text name = Some t → terminated name = true.
Proof. intros Ht. apply text_terminated. by eexists. Qed.

(** [printf] calls with one name. *)
Ltac wp_printf_name Hn := apply wp_printf; [cbv -[terminated]; by rewrite Hn|].

Lemma wp_sfs_create name t type m H s :
  sfs_repr s m → text name = Some t →
  wp (sfs_create name type) (λ r s', r = fst (spec_create t type m) ∧
    sfs_repr s' (snd (spec_create t type m)) ∧ sf_mm s' = sf_mm s) H s.
Proof.
  intros Hr Ht. pose proof (name_prints name t Ht) as Hn. unfold sfs_create, spec_create, first_ino.
  apply wp_bind, wp_gets. rewrite (find_inode_repr s m name t Hr Ht), (free_inode_repr s m Hr).
  apply wp_bind. eapply wp_lift_opt; [reflexivity|].
  destruct (first_index (has_name t) (slots m)) as [i|] eqn:Hf; cbn [fmap option_fmap option_map].
  { apply wp_bind. wp_printf_name Hn. by apply wp_ret. }
  destruct (first_index is_free (slots m)) as [i|] eqn:Hfree; cbn [fmap option_fmap option_map].
  2:{ apply wp_bind. wp_printf. by apply wp_ret. }
  destruct (first_slot _ _ _ Hfree) as [Hi Hnone].
  destruct (m !! (Z.of_nat i + 1)) as [|] eqn:Hm; [done|]. clear Hnone.
  destruct (lookup_lt_is_Some_2 (inodes s) i) as [x Hx]; [by rewrite (sr_len _ _ Hr)|].
  destruct (sr_slot _ _ Hr i x Hx) as [Hlen _].
  destruct (copy_name_spec 27 name (i_name x) t Ht) as (nm & Hcp & Hnl & Hnt); [lia|].
  apply wp_bind. eapply wp_lift_opt; [exact Hx|].
  apply wp_bind. eapply wp_lift_opt; [exact Hcp|].
  apply wp_bind, wp_modify. apply wp_bind, wp_modify.
  apply wp_bind. wp_printf_name Hn. apply wp_ret. cbn [fst snd].
  split; [done|]. split; [|done]. eapply (sfs_repr_update s _ m _ i); [done|done|reflexivity| | |].
  - rewrite lookup_insert, decide_True by done. split; [simpl; lia|]. simpl. split_and!; try done.
    rewrite length_take. lia.
  - intros k Hk. by rewrite lookup_insert, decide_False by done.
  - cbn [superblock set_superblock set_inodes sb_free_inodes set_free_inodes].
    pose proof (free_count_insert m (Z.of_nat i + 1) (FInfo (take 27 t) type 0) ltac:(lia)) as Hc.
    rewrite Hm in Hc. simpl in Hc.
    pose proof (free_count_pos m). pose proof (free_count_pos (<[Z.of_nat i + 1 := FInfo (take 27 t) type 0]> m)).
    rewrite (sr_free _ _ Hr), u32_id; unfold is_u32; lia.
Qed.

Lemma wp_sfs_delete name t m H s :
  sfs_repr s m → text name = Some t →
  wp (sfs_delete name) (λ r s', r = fst (spec_delete t m) ∧
    sfs_repr s' (snd (spec_delete t m)) ∧ sf_mm s' = sf_mm s) H s.
Proof.
  intros Hr Ht. pose proof (name_prints name t Ht) as Hn. unfold sfs_delete, spec_delete, first_ino.
  apply wp_bind, wp_gets. rewrite (find_inode_repr s m name t Hr Ht).
  apply wp_bind. eapply wp_lift_opt; [reflexivity|].
  destruct (first_index (has_name t) (slots m)) as [i|] eqn:Hf; cbn [fmap option_fmap option_map].
  2:{ apply wp_bind. wp_printf_name Hn. by apply wp_ret. }
  destruct (first_slot _ _ _ Hf) as [Hi Hname].
  destruct (m !! (Z.of_nat i + 1)) as [f|] eqn:Hm; [|done].
  destruct (lookup_lt_is_Some_2 (inodes s) i) as [x Hx]; [by rewrite (sr_len _ _ Hr)|].
  destruct (sr_slot _ _ Hr i x Hx) as [Hlen _].
  apply wp_bind. eapply wp_lift_opt; [exact Hx|].
  do 3 (apply wp_bind, wp_modify). apply wp_bind. wp_printf_name Hn. apply wp_ret. cbn [fst snd].
  split; [done|]. split; [|done]. eapply (sfs_repr_update s _ m _ i); [done|done|reflexivity| | |].
  - rewrite lookup_delete, decide_True by done. done.
  - intros k Hk. by rewrite lookup_delete, decide_False by done.
  - cbn [superblock set_superblock set_inodes sb_free_inodes set_free_inodes set_free_blocks].
    pose proof (free_count_delete m (Z.of_nat i + 1) f ltac:(lia) Hm) as Hc.
    pose proof (free_count_pos m). pose proof (free_count_pos (delete (Z.of_nat i + 1) m)).
    rewrite (sr_free _ _ Hr), u32_id; unfold is_u32; lia.
Qed.

Lemma wp_get_inode ino m (Q : option sfs_inode → sfs_state → Prop) H s :
  sfs_repr s m → is_u32 ino →
  match m !! ino with
  | None => Q None s
  | Some f => ∀ x, inodes s !! Z.to_nat (ino - 1) = Some x → 1 <= ino <= 64 → i_ino x = ino →
      i_size x = fi_size f → i_type x = fi_type f → Q (Some x) s
  end → wp (get_inode ino) Q H s.
Proof.
  intros Hr Hu HQ. unfold get_inode, SFS_MAX_FILES. unfold is_u32 in Hu.
  destruct (decide (1 <= ino <= 64)) as [Hin|Hout].
  2:{ assert ((ino =? 0) || (64 <? ino) = true) as -> by (destruct (Z.eqb_spec ino 0), (Z.ltb_spec 64 ino); simpl; lia).
    destruct (m !! ino) as [f|] eqn:Hm; [|by apply wp_ret].
    pose proof (sr_dom _ _ Hr ino f Hm). lia. }
  assert ((ino =? 0) || (64 <? ino) = false) as -> by (destruct (Z.eqb_spec ino 0), (Z.ltb_spec 64 ino); simpl; lia).
  - apply wp_bind, wp_gets.
    destruct (lookup_lt_is_Some_2 (inodes s) (Z.to_nat (ino - 1))) as [x Hx]; [rewrite (sr_len _ _ Hr); lia|].
    apply wp_bind. eapply wp_lift_opt.
    { unfold arr_get. destruct (Z.leb_spec 0 (ino - 1)); [exact Hx|lia]. }
    apply wp_ret. destruct (sr_slot _ _ Hr _ x Hx) as [_ Hs].
    replace (Z.of_nat (Z.to_nat (ino - 1)) + 1) with ino in Hs by lia.
    destruct (m !! ino) as [f|].
    + destruct Hs as (Hino & Hty & Hsz & _). rewrite (proj2 (Z.eqb_eq _ _) Hino). apply HQ; [done|lia|done..].
    + destruct (Z.eqb_spec (i_ino x) ino); [lia|done].
Qed.

Lemma wp_sfs_read ino offset size m H s :
  sfs_repr s m → is_u32 ino →
  wp (sfs_read ino offset size) (λ r s', r = fst (spec_read ino offset size m) ∧ s' = s) H s.
Proof.
  intros Hr Hu. unfold sfs_read, spec_read. apply wp_bind, (wp_get_inode ino m); [done|done|].
  destruct (m !! ino) as [f|]; [|by apply wp_ret].
  intros x Hx Hb Hino Hsz Hty. rewrite Hsz. repeat case_match; by apply wp_ret.
Qed.

Lemma wp_sfs_write ino offset size m H s :
  sfs_repr s m → is_u32 ino →
  wp (sfs_write ino offset size) (λ r s', r = fst (spec_write ino offset size m) ∧
    sfs_repr s' (snd (spec_write ino offset size m)) ∧ sf_mm s' = sf_mm s) H s.
Proof.
  intros Hr Hu. unfold sfs_write, spec_write. apply wp_bind, (wp_get_inode ino m); [done|done|].
  destruct (m !! ino) as [f|] eqn:Hm; [|by apply wp_ret].
  intros x Hx Hb Hino Hsz Hty. rewrite Hsz. apply wp_bind.
  destruct (Z.ltb_spec (fi_size f) (u32 (offset + size))); [|by apply wp_ret, wp_ret].
  apply wp_bind, wp_gets. apply wp_bind. eapply wp_lift_opt; [apply arr_set_some; rewrite (sr_len _ _ Hr); lia|].
  apply wp_modify, wp_ret. split; [done|]. split; [|done].
  assert (Z.of_nat (Z.to_nat (ino - 1)) + 1 = ino) as Hn by lia.
  destruct (sr_slot _ _ Hr _ x Hx) as [Hlen Hs]. rewrite Hn, Hm in Hs. destruct Hs as (_ & _ & _ & Htx & Hl).
  eapply (sfs_repr_update s _ m _ (Z.to_nat (ino - 1))); [done|lia|reflexivity| | |]; cbn [fst snd]; rewrite ?Hn.
  - rewrite lookup_insert, decide_True by done. by split.
  - intros k Hk. by rewrite lookup_insert, decide_False by done.
  - cbn [superblock set_inodes]. rewrite (sr_free _ _ Hr), free_count_insert, Hm by lia. simpl. lia.
Qed.

(** ** Runs *)

Inductive fs_op :=
  | FCreate (name : list Z) (type : Z) | FDelete (name : list Z)
  | FRead (ino offset size : Z) | FWrite (ino offset size : Z).

Definition fs_call (o : fs_op) : K sfs_state Z :=
  match o with
  | FCreate name type => sfs_create name type
  | FDelete name => sfs_delete name
  | FRead ino offset size => sfs_read ino offset size
  | FWrite ino offset size => sfs_write ino offset size
  end.

Definition spec_call (o : fs_op) (m : fs_map) : Z * fs_map :=
  match o with
  | FCreate name type => spec_create (default [] (text name)) type m
  | FDelete name => spec_delete (default [] (text name)) m
  | FRead ino offset size => spec_read ino offset size m
  | FWrite ino offset size => spec_write ino offset size m
  end.

(** Arguments of the right C types: NUL-terminated names, [uint32_t] inodes. *)
Definition op_typed (o : fs_op) : Prop :=
  match o with
  | FCreate name _ | FDelete name => is_Some (text name)
  | FRead ino _ _ | FWrite ino _ _ => is_u32 ino
  end.

Fixpoint fs_calls (ops : list fs_op) : K sfs_state (list Z) :=
  match ops with
  | [] => ret []
  | o :: ops' => let* r := fs_call o in let* rs := fs_calls ops' in ret (r :: rs)
  end.

Fixpoint spec_calls (ops : list fs_op) (m : fs_map) : list Z * fs_map :=
  match ops with
  | [] => ([], m)
  | o :: ops' =>
      let rm := spec_call o m in let rest := spec_calls ops' (snd rm) in
      (fst rm :: fst rest, snd rest)
  end.

Lemma wp_fs_call o m H s :
  sfs_repr s m → op_typed o →
  wp (fs_call o) (λ r s', r = fst (spec_call o m) ∧ sfs_repr s' (snd (spec_call o m))) H s.
Proof.
  intros Hr Ho. destruct o as [name ty|name|ino off sz|ino off sz]; cbn [fs_call spec_call op_typed] in *.
  - destruct Ho as [t Ht]. rewrite Ht. eapply wp_mono; [by apply (wp_sfs_create name t)| |done]. naive_solver.
  - destruct Ho as [t Ht]. rewrite Ht. eapply wp_mono; [by apply (wp_sfs_delete name t)| |done]. naive_solver.
  - eapply wp_mono; [by apply wp_sfs_read| |done]. intros r s' [-> ->]. by split.
  - eapply wp_mono; [by apply wp_sfs_write| |done]. naive_solver.
Qed.

Lemma wp_fs_calls ops m H s :
  sfs_repr s m → Forall op_typed ops →
  wp (fs_calls ops) (λ rs s', rs = fst (spec_calls ops m) ∧ sfs_repr s' (snd (spec_calls ops m))) H s.
Proof.
  revert m s. induction ops as [|o ops IH]; intros m s Hr Hok; simpl.
  { by apply wp_ret. }
  apply Forall_cons_1 in Hok as [Ho Hok].
  apply wp_bind. eapply wp_mono; [by apply wp_fs_call| |done]. intros r s1 [-> Hr1].
  apply wp_bind. eapply wp_mono; [by apply IH| |done]. intros rs s2 [-> Hr2]. by apply wp_ret.
Qed.

(** ** Initialisation *)

(** The inode table of the BSS or of an earlier mount: right sizes. *)
Definition sfs_bss (s : sfs_state) : Prop :=
  length (inodes s) = 64%nat ∧ Forall (λ x, length (i_name x) = 28%nat) (inodes s).

Section Format.
Context {L : Layout} {LO : LayoutOk L}.

Lemma wp_sfs_init H s :
  sfs_bss s →
  wp sfs_init (λ _ s', sf_mm s' = sf_mm s ∧ sfs_bss s' ∧ Forall (λ x, i_ino x = 0) (inodes s')) H s.
Proof.
  intros [Hl Hn]. unfold sfs_init. apply wp_bind. wp_printf. apply wp_modify.
  cbn [inodes set_inodes sf_mm]. split_and!; [done| |].
  - split; cbn [inodes set_inodes]; [by rewrite length_fmap|].
    apply Forall_fmap. eapply Forall_impl; [exact Hn|done].
  - apply Forall_fmap, Forall_true. done.
Qed.

(** What was reserved for the blocks: [round8 (u32 (4096 n))] bytes. *)
Lemma wp_sfs_format n H s :
  heap_ok (sf_mm s) →
  wp (sfs_format n) (λ r s',
    inodes s' = inodes s ∧
    superblock s' = SB SFS_MAGIC 4096 n 64 n 64 ∧
    let sz := u32 (n * 4096) in
    if (sz =? 0) || (heap_end <? heap_current (sf_mm s) + round8 sz)
    then r = -1 ∧ sf_mm s' = sf_mm s
    else r = 0 ∧ data_blocks s' = heap_current (sf_mm s) ∧
      sf_mm s' = set_heap_current (heap_current (sf_mm s) + round8 sz) (sf_mm s)) H s.
Proof.
  intros Hh. unfold sfs_format. apply wp_bind. wp_printf. apply wp_bind, wp_modify. apply wp_bind, wp_zoom.
  change (view sfs_mm _) with (sf_mm s).
  assert (heap_current (sf_mm s) ≠ 0) as Hnz.
  { destruct Hh as [[Hh _] _]. pose proof heap_start_above_image. lia. }
  change SFS_BLOCK_SIZE with 4096. pose proof (u32_range (n * 4096)) as Hu.
  cbn zeta. set (sz := u32 (n * 4096)) in *. clearbody sz.
  destruct (Z.eqb_spec sz 0) as [->|Hsz]; cbn [orb].
  - unfold kmalloc. simpl. apply wp_ret, wp_bind, wp_modify. simpl. apply wp_bind. wp_printf.
    by apply wp_ret.
  - apply wp_kmalloc; [done| |done|].
    { unfold sane_size, heap_end, is_u32 in *. pose proof heap_end_below_ram_end. lia. }
    destruct (Z.leb_spec (heap_current (sf_mm s) + round8 sz) heap_end).
    + rewrite (proj2 (Z.ltb_ge _ _)) by lia. apply wp_bind, wp_modify.
      rewrite (proj2 (Z.eqb_neq _ _)) by done. apply wp_bind. wp_printf. by apply wp_ret.
    + rewrite (proj2 (Z.ltb_lt _ _)) by lia. apply wp_bind, wp_modify. simpl. apply wp_bind. wp_printf.
      by apply wp_ret.
Qed.

Lemma free_count_empty : free_count ∅ = 64.
Proof. reflexivity. Qed.

(** No file yet. *)
Lemma empty_repr s :
  sfs_bss s → Forall (λ x, i_ino x = 0) (inodes s) → sb_free_inodes (superblock s) = 64 → sfs_repr s ∅.
Proof.
  intros [Hl Hn] Hz Hf. constructor; [done| | |by rewrite Hf, free_count_empty].
  - intros i x Hx. rewrite lookup_empty. rewrite Forall_lookup in Hn, Hz. split; [by eapply Hn|by eapply Hz].
  - intros k f Hk. by rewrite lookup_empty in Hk.
Qed.

Lemma formatted_repr n H s :
  sfs_bss s → heap_ok (sf_mm s) →
  wp (sfs_init ;; sfs_format n) (λ _ s', sfs_repr s' ∅) H s.
Proof.
  intros Hb Hh. apply wp_bind. eapply wp_mono; [by apply wp_sfs_init| |done].
  intros _ s1 (Hmm & [Hl Hn] & Hz). eapply wp_mono; [apply wp_sfs_format; by rewrite Hmm| |done].
  intros r s2 (Hin & Hsb & _). apply empty_repr; unfold sfs_bss; rewrite ?Hin, ?Hsb; done.
Qed.
End Format.

(** ** Properties *)

Definition sample_sfs : sfs_state :=
  Sfs (MM ∅ 0 0 0x80220000) (SB 0 0 0 0 0 0) (replicate 64 (SInode 0 0 0 (replicate 12 0) (replicate 28 0))) 0.

Lemma sample_sfs_bss : sfs_bss sample_sfs.
Proof. split; [done|]. apply Forall_replicate. done. Qed.

Lemma sample_sfs_heap : @heap_ok sample_layout (sf_mm sample_sfs).
Proof. unfold heap_ok; vm_compute. split_and!; done. Qed.

(** The boot sequence followed by any calls. *)
Lemma boot_fs_calls {L : Layout} {LO : LayoutOk L} s w n ops :
  sfs_bss s → heap_ok (sf_mm s) → Forall op_typed ops →
  ∃ s' w', (sfs_init ;; sfs_format n ;; fs_calls ops) s w = Ret (fst (spec_calls ops ∅)) s' w' ∧
    sfs_repr s' (snd (spec_calls ops ∅)).
Proof.
  intros Hb Hh Hok.
  destruct (wp_run (sfs_init ;; sfs_format n ;; fs_calls ops)
    (λ rs s', rs = fst (spec_calls ops ∅) ∧ sfs_repr s' (snd (spec_calls ops ∅))) s w)
    as (rs & s' & w' & Hrun & -> & Hr); [|by exists s', w'].
  apply wp_assoc, wp_bind. eapply wp_mono; [by apply (formatted_repr n never)| |done].
  intros r s2 Hr. by apply wp_fs_calls.
Qed.

(** C9: after the boot sequence [sfs_init; sfs_format(n)], whatever [n]
    and the earlier contents of the inode table, every sequence of create,
    delete, read and write calls returns, never touches memory outside the
    table, and answers as a finite map of at most 64 files: create takes the
    lowest free inode number and fails on an existing name or a full table,
    delete removes the file of that name, reads and writes check the number
    and use or extend the recorded size; the superblock's free-inode count is
    the number of free slots throughout. *)
Theorem sfs_refines_map {L : Layout} {LO : LayoutOk L} (s : sfs_state) (w : world) (n : Z) (ops : list fs_op) :
  sfs_bss s → heap_ok (sf_mm s) → Forall op_typed ops →
  ∃ s' w', (sfs_init ;; sfs_format n ;; fs_calls ops) s w = Ret (fst (spec_calls ops ∅)) s' w' ∧
    sfs_repr s' (snd (spec_calls ops ∅)).
Proof.
  intros. by apply boot_fs_calls.
Qed.

Lemma sfs_refines_map_witness :
  ∃ s' w', (sfs_init ;; @sfs_format sample_layout 256 ;;
      fs_calls [FCreate (lit "a") 1; FCreate (lit "a") 1; FCreate (lit "b") 1; FDelete (lit "a");
                FWrite 2 0 100; FRead 2 60 100; FCreate (lit "c") 2]) sample_sfs boot_world =
      Ret [1; -1; 2; 0; 100; 40; 1] s' w' ∧
    sfs_repr s' (snd (spec_calls [FCreate (lit "a") 1; FCreate (lit "a") 1; FCreate (lit "b") 1; FDelete (lit "a");
                FWrite 2 0 100; FRead 2 60 100; FCreate (lit "c") 2] ∅)).
Proof.
  apply (sfs_refines_map (L:=sample_layout) sample_sfs boot_world 256
    [FCreate (lit "a") 1; FCreate (lit "a") 1; FCreate (lit "b") 1; FDelete (lit "a");
     FWrite 2 0 100; FRead 2 60 100; FCreate (lit "c") 2]).
  - exact sample_sfs_bss.
  - exact sample_sfs_heap.
  - repeat constructor; try (eexists; reflexivity); unfold is_u32; lia.
Defined.

(** No two files of the map have the same name. *)
Definition names_distinct (m : fs_map) : Prop :=
  ∀ k1 k2 f1 f2, m !! k1 = Some f1 → m !! k2 = Some f2 → fi_name f1 = fi_name f2 → k1 = k2.

Definition short_create (o : fs_op) : Prop :=
  match o with FCreate name _ => ∀ t, text name = Some t → (length t <= 27)%nat | _ => True end.

Definition bounded (m : fs_map) : Prop := ∀ k f, m !! k = Some f → 1 <= k <= 64.

Lemma first_ino_none f m k o : bounded m → first_ino f m = None → m !! k = Some o → f (Some o) = false.
Proof.
  intros Hb Hf Hk. unfold first_ino in Hf. apply fmap_None in Hf.
  pose proof (first_index_spec f (slots m)) as Hs. rewrite Hf in Hs. specialize (Hb k o Hk).
  apply (Hs (Z.to_nat (k - 1))). rewrite slots_lookup by lia.
  by replace (Z.of_nat (Z.to_nat (k - 1)) + 1) with k by lia; rewrite Hk.
Qed.

Lemma first_ino_some f m k : first_ino f m = Some k → 1 <= k <= 64 ∧ f (m !! k) = true.
Proof.
  unfold first_ino. intros Hf. apply fmap_Some in Hf as (i & Hi & ->).
  apply first_slot in Hi as [Hi Hm]. split; [lia|done].
Qed.

Lemma spec_call_names o m :
  bounded m → names_distinct m → op_typed o → short_create o →
  bounded (snd (spec_call o m)) ∧ names_distinct (snd (spec_call o m)).
Proof.
  intros Hb Hd Ho Hs. destruct o as [name ty|name|ino off sz|ino off sz]; cbn [spec_call op_typed short_create] in *.
  - destruct Ho as [t Ht]. rewrite Ht. change (default [] (Some t)) with t. specialize (Hs t Ht). unfold spec_create.
    destruct (first_ino (has_name t) m) as [|] eqn:Hf; [done|].
    destruct (first_ino is_free m) as [k|] eqn:Hk; [|done]. cbn [snd].
    apply first_ino_some in Hk as [Hkr Hkf].
    rewrite take_ge by lia. split.
    + intros j f. rewrite lookup_insert. case_decide; [intros; lia|by apply Hb].
    + assert (∀ j f, m !! j = Some f → fi_name f ≠ t) as Hno.
      { intros j f Hj He. pose proof (first_ino_none _ _ _ _ Hb Hf Hj) as Hn. simpl in Hn.
        by rewrite bool_decide_true in Hn. }
      intros k1 k2 f1 f2. rewrite !lookup_insert. repeat case_decide; try congruence.
      * intros [= <-] Hg He. simpl in He. by destruct (Hno k2 f2 Hg).
      * intros Hg [= <-] He. simpl in He. by destruct (Hno k1 f1 Hg).
      * by apply Hd.
  - unfold spec_delete. case_match; [|done]. cbn [snd]. split.
    + intros j f. rewrite lookup_delete. case_decide; [done|by apply Hb].
    + intros k1 k2 f1 f2. rewrite !lookup_delete. repeat case_decide; try done. by apply Hd.
  - done.
  - unfold spec_write. destruct (m !! ino) as [f|] eqn:Hm; [|done]. cbn [snd]. case_match; [|done]. split.
    + intros j g. rewrite lookup_insert. case_decide; [subst; intros _; by eapply Hb|by apply Hb].
    + intros k1 k2 f1 f2. rewrite !lookup_insert. repeat case_decide; try congruence.
      * intros [= <-] Hg He. subst. by eapply (Hd _ k2 f f2).
      * intros Hg [= <-] He. subst. by eapply (Hd k1 _ f1 f).
      * by apply Hd.
Qed.

(** As long as files are created with names of at most 27
    characters, no two live inodes ever carry the same name. *)
Theorem sfs_names_unique {L : Layout} {LO : LayoutOk L} (s s' : sfs_state) (w w' : world) (n : Z)
    (ops : list fs_op) (rs : list Z) :
  sfs_bss s → heap_ok (sf_mm s) → Forall op_typed ops → Forall short_create ops →
  (sfs_init ;; sfs_format n ;; fs_calls ops) s w = Ret rs s' w' →
  ∀ i j x y, inodes s' !! i = Some x → inodes s' !! j = Some y →
    i_ino x ≠ 0 → i_ino y ≠ 0 → text (i_name x) = text (i_name y) → i = j.
Proof.
  intros Hb Hh Hok Hshort Hrun i j x y Hx Hy Hx0 Hy0 Hname.
  destruct (boot_fs_calls s w n ops Hb Hh Hok) as (s2 & w2 & Hrun2 & Hr).
  rewrite Hrun in Hrun2. injection Hrun2 as _ <- _.
  assert (∀ m, bounded m → names_distinct m → names_distinct (snd (spec_calls ops m))) as Hgen.
  { clear -Hok Hshort. induction ops as [|o ops IH]; intros m Hbm Hdm; simpl; [done|].
    apply Forall_cons_1 in Hok as [Ho Hok], Hshort as [Hs Hshort].
    destruct (spec_call_names o m Hbm Hdm Ho Hs). by apply IH. }
  assert (names_distinct (snd (spec_calls ops ∅))) as Hd.
  { apply Hgen; intros k1; intros; by rewrite lookup_empty in *. }
  destruct (sr_slot _ _ Hr i x Hx) as [_ Hsx], (sr_slot _ _ Hr j y Hy) as [_ Hsy].
  destruct (_ !! (Z.of_nat i + 1)) as [f|] eqn:Hf; [|done].
  destruct (_ !! (Z.of_nat j + 1)) as [g|] eqn:Hg; [|done].
  destruct Hsx as (_ & _ & _ & Htx & _), Hsy as (_ & _ & _ & Hty & _).
  pose proof (Hd _ _ _ _ Hf Hg ltac:(congruence)). lia.
Qed.

Lemma sfs_names_unique_witness :
  ∃ rs s' w', (sfs_init ;; @sfs_format sample_layout 256 ;;
      fs_calls [FCreate (lit "a") 1; FCreate (lit "b") 1; FCreate (lit "a") 1]) sample_sfs boot_world = Ret rs s' w' ∧
    ∀ i j x y, inodes s' !! i = Some x → inodes s' !! j = Some y →
      i_ino x ≠ 0 → i_ino y ≠ 0 → text (i_name x) = text (i_name y) → i = j.
Proof.
  assert (Forall op_typed [FCreate (lit "a") 1; FCreate (lit "b") 1; FCreate (lit "a") 1]) as Hok
    by (repeat constructor; eexists; reflexivity).
  destruct (boot_fs_calls (L:=sample_layout) sample_sfs boot_world 256 _ sample_sfs_bss sample_sfs_heap Hok)
    as (s' & w' & Hrun & _).
  eexists _, s', w'. split; [exact Hrun|].
  refine (sfs_names_unique (L:=sample_layout) sample_sfs s' boot_world w' 256 _ _
    sample_sfs_bss sample_sfs_heap Hok _ Hrun).
  apply Forall_cons; split; [|apply Forall_cons; split; [|apply Forall_singleton]];
    intros t [= <-]; simpl; lia.
Defined.

(** A name of 28 or more characters is in no slot. *)
Lemma long_name_absent s m t :
  sfs_repr s m → (28 <= length t)%nat → first_ino (has_name t) m = None.
Proof.
  intros Hr Hl. destruct (first_ino (has_name t) m) as [k|] eqn:Hf; [|done].
  apply first_ino_some in Hf as [Hk Hn]. destruct (m !! k) as [f|] eqn:Hm; [|done].
  simpl in Hn. apply bool_decide_eq_true in Hn as <-.
  destruct (lookup_lt_is_Some_2 (inodes s) (Z.to_nat (k - 1))) as [x Hx]; [rewrite (sr_len _ _ Hr); lia|].
  destruct (sr_slot _ _ Hr _ x Hx) as [_ Hs].
  replace (Z.of_nat (Z.to_nat (k - 1)) + 1) with k in Hs by lia. rewrite Hm in Hs.
  destruct Hs as (_ & _ & _ & _ & Hs). lia.
Qed.

(** A name of 28 or more characters is cut to 27 when stored but
    compared in full when looked up: creating it twice succeeds twice, under
    two different inode numbers, and deleting it fails. *)
Theorem sfs_long_name_duplicates (s : sfs_state) (m : fs_map) (w : world) (name t : list Z) (type : Z) :
  sfs_repr s m → text name = Some t → (28 <= length t)%nat → 2 <= free_count m →
  ∃ i j s' w', fs_calls [FCreate name type; FCreate name type; FDelete name] s w = Ret [i; j; -1] s' w' ∧
    0 < i ∧ 0 < j ∧ i ≠ j.
Proof.
  intros Hr Ht Hl Hfree.
  assert (∀ m', 1 <= free_count m' → ∃ k, first_ino is_free m' = Some k) as Hex.
  { intros m' Hf. unfold first_ino. pose proof (first_index_spec is_free (slots m')) as Hs.
    destruct (first_index is_free (slots m')) as [i|]; [by eexists|]. exfalso.
    unfold free_count in Hf. destruct (filter (λ k, m' !! k = None) (seqZ 1 64)) as [|k l] eqn:He; [simpl in Hf; lia|].
    assert (k ∈ filter (λ k, m' !! k = None) (seqZ 1 64)) as Hk by (rewrite He; set_solver).
    apply list_elem_of_filter in Hk as [Hn Hk]. apply elem_of_seqZ in Hk.
    specialize (Hs (Z.to_nat (k - 1)) None). rewrite slots_lookup in Hs by lia.
    replace (Z.of_nat (Z.to_nat (k - 1)) + 1) with k in Hs by lia. rewrite Hn in Hs. by specialize (Hs eq_refl). }
  destruct (Hex m) as [i Hi]; [lia|]. apply first_ino_some in Hi as Hir. destruct Hir as [Hir Hmi].
  set (m1 := <[i := FInfo (take 27 t) type 0]> m).
  assert (free_count m1 = free_count m - 1) as Hf1.
  { unfold m1. rewrite free_count_insert by lia. destruct (m !! i); [done|]. done. }
  destruct (Hex m1) as [j Hj]; [lia|]. apply first_ino_some in Hj as Hjr. destruct Hjr as [Hjr Hmj].
  assert (i ≠ j) as Hij.
  { intros ->. unfold m1 in Hmj. by rewrite lookup_insert_eq in Hmj. }
  set (m2 := <[j := FInfo (take 27 t) type 0]> m1).
  assert (∀ m' k, first_ino is_free m' = Some k → (∃ s', sfs_repr s' m') →
    spec_create t type m' = (k, <[k := FInfo (take 27 t) type 0]> m')) as Hcr.
  { intros m' k Hk [s' Hr']. unfold spec_create. by rewrite (long_name_absent s' m' t Hr' Hl), Hk. }
  destruct (wp_run (fs_calls [FCreate name type; FCreate name type; FDelete name])
    (λ rs _, rs = [i; j; -1]) s w) as (rs & s' & w' & Hrun & ->).
  { simpl. apply wp_bind. eapply wp_mono; [by apply (wp_sfs_create name t type m)| |done].
    rewrite (Hcr m i) by eauto. intros r s1 (-> & Hr1 & _).
    apply wp_bind, wp_bind. eapply wp_mono; [by apply (wp_sfs_create name t type m1)| |done].
    rewrite (Hcr m1 j) by eauto. intros r s2 (-> & Hr2 & _).
    apply wp_bind, wp_bind. eapply wp_mono; [by apply (wp_sfs_delete name t m2)| |done].
    unfold spec_delete. rewrite (long_name_absent s2 m2 t) by done. intros r s3 (-> & _).
    cbn [fs_calls]. by wp_steps. }
  exists i, j, s', w'. split_and!; [done|lia|lia|done].
Qed.

(** Freshly formatted, 40-character name. *)
Definition formatted_sfs : sfs_state := set_superblock (SB SFS_MAGIC 4096 256 64 256 64) sample_sfs.

Lemma formatted_sfs_repr : sfs_repr formatted_sfs ∅.
Proof.
  constructor; [done| | |done].
  - intros i x Hx. rewrite lookup_empty. apply lookup_replicate in Hx as [-> _]. done.
  - intros k f Hk. by rewrite lookup_empty in Hk.
Qed.

Lemma sfs_long_name_duplicates_witness :
  ∃ i j s' w', fs_calls [FCreate (replicate 40 97 ++ [0]) 1; FCreate (replicate 40 97 ++ [0]) 1;
      FDelete (replicate 40 97 ++ [0])] formatted_sfs boot_world = Ret [i; j; -1] s' w' ∧
    0 < i ∧ 0 < j ∧ i ≠ j.
Proof.
  apply (sfs_long_name_duplicates formatted_sfs ∅ boot_world _ (replicate 40 97) 1).
  - exact formatted_sfs_repr.
  - reflexivity.
  - simpl. lia.
  - rewrite free_count_empty. lia.
Defined.

(** When [offset + size] stays below [2^32], a write to a
    live file reports all its bytes, extends the recorded size to at least the
    end of the range and never shrinks it, and a read of the same range right
    after reports all its bytes. *)
Theorem sfs_write_read (s : sfs_state) (m : fs_map) (f : finfo) (w : world) (ino offset size : Z) :
  sfs_repr s m → m !! ino = Some f → 0 <= fi_size f < 4294967296 →
  0 <= offset → 0 < size < 2147483648 → offset + size < 4294967296 →
  ∃ s' w' f' m', fs_calls [FWrite ino offset size; FRead ino offset size] s w = Ret [size; size] s' w' ∧
    sfs_repr s' m' ∧ m' !! ino = Some f' ∧ fi_size f' = Z.max (fi_size f) (offset + size) ∧
    fi_name f' = fi_name f ∧ (∀ k, k ≠ ino → m' !! k = m !! k).
Proof.
  intros Hr Hm Hsz Ho Hs Hb.
  assert (is_u32 ino) as Hu by (pose proof (sr_dom _ _ Hr ino f Hm); unfold is_u32; lia).
  set (f' := FInfo (fi_name f) (fi_type f) (Z.max (fi_size f) (offset + size))).
  assert (u32 (offset + size) = offset + size) as Hw by (apply u32_id; unfold is_u32; lia).
  assert (s32 size = size) as Hss by words.
  assert (spec_calls [FWrite ino offset size; FRead ino offset size] m = ([size; size], <[ino := f']> m)) as Hspec.
  { simpl. unfold spec_write. rewrite Hm, Hw, Hss.
    assert ((if fi_size f <? offset + size then <[ino := FInfo (fi_name f) (fi_type f) (offset + size)]> m else m)
      = <[ino := f']> m) as ->.
    { unfold f'. destruct (Z.ltb_spec (fi_size f) (offset + size)).
      - by rewrite Z.max_r by lia.
      - rewrite Z.max_l by lia. destruct f. simpl. by rewrite insert_id. }
    simpl. unfold spec_read. simpl. rewrite lookup_insert_eq, ?Hw, ?Hss. unfold f'; cbn [fi_size].
    rewrite (proj2 (Z.leb_gt _ _)) by lia. by rewrite (proj2 (Z.ltb_ge _ _)) by lia. }
  assert (Forall op_typed [FWrite ino offset size; FRead ino offset size]) as Hty.
  { apply Forall_cons. split; [exact Hu|]. apply Forall_singleton. exact Hu. }
  destruct (wp_run (fs_calls [FWrite ino offset size; FRead ino offset size]) _ s w
    (wp_fs_calls [FWrite ino offset size; FRead ino offset size] m never s Hr Hty)) as (rs & s' & w' & Hrun & -> & Hr').
  rewrite Hspec in Hr', Hrun. simpl in Hr', Hrun.
  exists s', w', f', (<[ino := f']> m). split_and!; [done|done|by rewrite lookup_insert_eq|done|done|].
  intros k Hk. by rewrite lookup_insert_ne.
Qed.

Definition one_file : fs_map := {[ 1 := FInfo (chars "a") 1 10 ]}.
Definition one_file_sfs : sfs_state :=
  set_inodes (<[0%nat := SInode 1 1 10 (replicate 12 0) (lit "a" ++ replicate 26 0)]> (inodes formatted_sfs))
    (set_superblock (SB SFS_MAGIC 4096 256 64 256 63) formatted_sfs).

Lemma one_file_repr : sfs_repr one_file_sfs one_file.
Proof.
  constructor.
  - done.
  - intros [|i] x Hx.
    + injection Hx as <-. split; [done|]. change (Z.of_nat 0 + 1) with 1.
      unfold one_file. rewrite lookup_singleton_eq. simpl. split_and!; try done. lia.
    + apply lookup_replicate in Hx as [-> _]. unfold one_file. rewrite lookup_singleton_ne by lia. done.
  - intros k f Hk. unfold one_file in Hk. apply lookup_singleton_Some in Hk as [<- _]. lia.
  - reflexivity.
Qed.

Lemma sfs_write_read_witness :
  ∃ s' w' f' m', fs_calls [FWrite 1 4 100; FRead 1 4 100] one_file_sfs boot_world = Ret [100; 100] s' w' ∧
    sfs_repr s' m' ∧ m' !! 1 = Some f' ∧ fi_size f' = Z.max 10 (4 + 100) ∧
    fi_name f' = chars "a" ∧ (∀ k, k ≠ 1 → m' !! k = one_file !! k).
Proof.
  apply (sfs_write_read one_file_sfs one_file (FInfo (chars "a") 1 10) boot_world 1 4 100).
  - exact one_file_repr.
  - reflexivity.
  - simpl. lia.
  - lia.
  - lia.
  - lia.
Defined.

(** [offset + size] is computed modulo [2^32]: a read that starts
    inside the file and whose end wraps to 0 is not cut to the file size; it
    reports minus the offset instead of the bytes that are left. *)
Theorem sfs_read_wraps (s : sfs_state) (m : fs_map) (f : finfo) (w : world) (ino offset : Z) :
  sfs_repr s m → m !! ino = Some f → 0 < offset < fi_size f → fi_size f < 2147483648 →
  ∃ w', sfs_read ino offset (4294967296 - offset) s w = Ret (- offset) s w'.
Proof.
  intros Hr Hm Ho Hs.
  assert (is_u32 ino) as Hu by (pose proof (sr_dom _ _ Hr ino f Hm); unfold is_u32; lia).
  destruct (wp_run (sfs_read ino offset (4294967296 - offset)) _ s w
    (wp_sfs_read ino offset (4294967296 - offset) m never s Hr Hu)) as (r & s' & w' & Hrun & -> & ->).
  exists w'. rewrite Hrun. f_equal. unfold spec_read. rewrite Hm. cbn [fst].
  rewrite (proj2 (Z.leb_gt _ _)) by lia.
  replace (u32 (offset + (4294967296 - offset))) with 0 by words.
  rewrite (proj2 (Z.ltb_ge _ _)) by lia. words.
Qed.

Lemma sfs_read_wraps_witness :
  ∃ w', sfs_read 1 3 (4294967296 - 3) one_file_sfs boot_world = Ret (-3) one_file_sfs w'.
Proof.
  apply (sfs_read_wraps one_file_sfs one_file (FInfo (chars "a") 1 10) boot_world 1 3).
  - exact one_file_repr.
  - reflexivity.
  - simpl. lia.
  - simpl. lia.
Defined.

(** The size of the block area is computed modulo [2^32]:
    formatting with [2^20 + k] blocks succeeds and records that many blocks
    but reserves only [k] of them. *)
Theorem sfs_format_underallocates {L : Layout} {LO : LayoutOk L} (s : sfs_state) (w : world) (k : Z) :
  heap_ok (sf_mm s) → 0 < k < 1024 → heap_current (sf_mm s) + 4096 * k <= heap_end →
  ∃ s' w', sfs_format (1048576 + k) s w = Ret 0 s' w' ∧
    sb_num_blocks (superblock s') = 1048576 + k ∧ data_blocks s' = heap_current (sf_mm s) ∧
    heap_current (sf_mm s') = data_blocks s' + 4096 * k.
Proof.
  intros Hh Hk Hroom.
  destruct (wp_run (sfs_format (1048576 + k)) _ s w (wp_sfs_format (1048576 + k) never s Hh))
    as (r & s' & w' & Hrun & _ & Hsb & Hres).
  assert (u32 ((1048576 + k) * 4096) = 4096 * k) as Hsz by words. cbn zeta in Hres. rewrite Hsz in Hres.
  assert (round8 (4096 * k) = 4096 * k) as H8 by (unfold round8; Z.div_mod_to_equations; lia).
  rewrite H8 in Hres. rewrite (proj2 (Z.eqb_neq _ _)), (proj2 (Z.ltb_ge _ _)) in Hres by lia.
  destruct Hres as (-> & Hd & Hmm). exists s', w'. rewrite Hsb, Hmm, Hd. by split_and!.
Qed.

Lemma sfs_format_underallocates_witness :
  ∃ s' w', @sfs_format sample_layout (1048576 + 1) sample_sfs boot_world = Ret 0 s' w' ∧
    sb_num_blocks (superblock s') = 1048576 + 1 ∧ data_blocks s' = heap_current (sf_mm sample_sfs) ∧
    heap_current (sf_mm s') = data_blocks s' + 4096 * 1.
Proof.
  apply (sfs_format_underallocates (L:=sample_layout) sample_sfs boot_world 1).
  - exact sample_sfs_heap.
  - lia.
  - vm_compute. discriminate.
Defined.
