(* ===== verification/Vfs.v ===== *)
(** The virtual file system, [kernel/fs/vfs.c] and [vfs.h]: the device registry
    and files opened on devices, over an interface that drivers implement.

    A driver keeps a state [D] of its own; its [file_operations] are routines
    on [D] that get the [struct file] and return it updated.  A buffer passed
    to [read] comes back as the bytes stored into it, one passed to [write] is
    the list of bytes that can be read from it. *)

From Stdlib Require Import String Ascii.
From S2P Require Import Prelude Machine Uart Printf Mm CString.
Local Open Scope string_scope.
Local Open Scope list_scope.
Local Open Scope Z_scope.

(** ** Data, [vfs.h] *)

Definition VFS_FILE : Z := 1.
Definition VFS_DEV : Z := 3.
Definition MAX_DEVICES : Z := 16.
Definition SIZEOF_INODE : Z := 32.
Definition SIZEOF_FILE : Z := 16.

(** [f_inode]: a pointer. *)
Record file_t := File { f_inode : Z; f_offset : Z; f_flags : Z }.

Record file_ops (D : Type) := FileOps {
  fo_open : option (file_t → K D (Z * file_t));
  fo_close : option (file_t → K D (Z * file_t));
  fo_read : option (file_t → Z → K D (Z * list Z * file_t));
  fo_write : option (file_t → list Z → Z → K D (Z * file_t));
  fo_seek : option (file_t → Z → K D (Z * file_t)) }.
Arguments FileOps {D}.
Arguments fo_open {D}.
Arguments fo_close {D}.
Arguments fo_read {D}.
Arguments fo_write {D}.
Arguments fo_seek {D}.

Section Vfs.
Context {D : Type} {L : Layout}.

Record inode_t := Inode {
  n_ino : Z; n_type : Z; n_size : Z; n_ref : Z; n_ops : option (file_ops D); n_private : Z }.

Record device := Device { d_name : list Z; d_ops : option (file_ops D); d_used : Z }.

(** Static data, the heap objects by address, memory manager and driver state. *)
Record vfs_state := Vfs {
  vf_mm : mm_state; devices : list device; next_ino : Z;
  v_files : gmap Z file_t; v_inodes : gmap Z inode_t; vf_dev : D }.

Definition set_devices v s := Vfs (vf_mm s) v (next_ino s) (v_files s) (v_inodes s) (vf_dev s).
Definition set_next_ino v s := Vfs (vf_mm s) (devices s) v (v_files s) (v_inodes s) (vf_dev s).
Definition set_files v s := Vfs (vf_mm s) (devices s) (next_ino s) v (v_inodes s) (vf_dev s).
Definition set_vinodes v s := Vfs (vf_mm s) (devices s) (next_ino s) (v_files s) v (vf_dev s).

Definition vfs_mm : lens mm_state vfs_state.
Proof.
  refine (Lens vf_mm (λ m s, Vfs m (devices s) (next_ino s) (v_files s) (v_inodes s) (vf_dev s)) _ _ _);
    by intros; destruct t.
Defined.
Definition vfs_dev : lens D vfs_state.
Proof.
  refine (Lens vf_dev (λ d s, Vfs (vf_mm s) (devices s) (next_ino s) (v_files s) (v_inodes s) d) _ _ _);
    by intros; destruct t.
Defined.

Definition get_file (p : Z) : K vfs_state file_t := let* m := gets v_files in lift_opt (m !! p).
Definition put_file (p : Z) (f : file_t) : K vfs_state unit := modify (λ s, set_files (<[p := f]> (v_files s)) s).
Definition get_vinode (p : Z) : K vfs_state inode_t := let* m := gets v_inodes in lift_opt (m !! p).
Definition put_vinode (p : Z) (n : inode_t) : K vfs_state unit :=
  modify (λ s, set_vinodes (<[p := n]> (v_inodes s)) s).

(** ** Operations *)

Definition vfs_init : K vfs_state unit :=
  printf (ln "[VFS] Initializing Virtual File System") [] ;;
  modify (λ s, set_devices ((λ d, Device (d_name d) (d_ops d) 0) <$> devices s) s) ;;
  printf (ln "[VFS] VFS initialized") [].

Definition vfs_create_inode (type : Z) : K vfs_state Z :=
  let* p := zoom vfs_mm (kmalloc SIZEOF_INODE) in
  if p =? 0 then ret 0
  else
    let* ino := gets next_ino in
    modify (set_next_ino (u32 (ino + 1))) ;;
    put_vinode p (Inode ino type 0 1 None 0) ;;
    ret p.

Definition vfs_destroy_inode (p : Z) : K vfs_state unit :=
  if p =? 0 then ret tt
  else
    let* n := get_vinode p in
    let ref := u32 (n_ref n - 1) in
    put_vinode p (Inode (n_ino n) (n_type n) (n_size n) ref (n_ops n) (n_private n)) ;;
    if ref =? 0 then zoom vfs_mm (kfree p) else ret tt.

Definition vfs_register_device (name : list Z) (ops : file_ops D) : K vfs_state Z :=
  let* l := gets devices in
  match first_index (λ d, d_used d =? 0) l with
  | Some i =>
      let* d := lift_opt (l !! i) in
      let* nm := lift_opt (copy_name 31 name (d_name d)) in
      modify (set_devices (<[i := Device nm (Some ops) 1]> l)) ;;
      printf (ln "[VFS] Registered device: %s") [AStr name] ;; ret 0
  | None =>
      printf (ln "[VFS] Failed to register device: %s (no free slots)") [AStr name] ;; ret (-1)
  end.

(** The outer [None]: a read past the end of a string. *)
Fixpoint find_device (l : list device) (name : list Z) : option (option nat) :=
  match l with
  | [] => Some None
  | d :: l' =>
      if d_used d =? 0 then r ← find_device l' name; Some (S <$> (r : option nat))
      else
        m ← name_eq 32 (d_name d) name;
        if (m : bool) then Some (Some 0%nat)
        else r ← find_device l' name; Some (S <$> (r : option nat))
  end.

(** [if (path[0] == '/') path++;] *)
Definition skip_slash (path : list Z) : option (list Z) :=
  match path with [] => None | c :: rest => Some (if c =? ch "/"%char then rest else path) end.

(** The new [struct file] has arbitrary [offset] and [flags], 0 here, until they
    are assigned; nothing reads them before. *)
Definition vfs_open (path : list Z) (flags : Z) : K vfs_state Z :=
  let* name := lift_opt (skip_slash path) in
  let* l := gets devices in
  let* found := lift_opt (find_device l name) in
  match found with
  | None => printf (ln "[VFS] File not found: %s") [AStr name] ;; ret 0
  | Some i =>
      let* d := lift_opt (l !! i) in
      let* p := zoom vfs_mm (kmalloc SIZEOF_FILE) in
      if p =? 0 then ret 0
      else
        let* n := vfs_create_inode VFS_DEV in
        put_file p (File n 0 0) ;;
        if n =? 0 then zoom vfs_mm (kfree p) ;; ret 0
        else
          let* node := get_vinode n in
          put_vinode n (Inode (n_ino node) (n_type node) (n_size node) (n_ref node) (d_ops d) (n_private node)) ;;
          put_file p (File n 0 flags) ;;
          let* ops := lift_opt (d_ops d) in
          match fo_open ops with
          | None => ret p
          | Some f =>
              let* fl := get_file p in
              let* r := zoom vfs_dev (f fl) in
              put_file p (snd r) ;;
              if negb (fst r =? 0) then
                vfs_destroy_inode n ;; zoom vfs_mm (kfree p) ;; ret 0
              else ret p
          end
  end.

Definition vfs_close (p : Z) : K vfs_state Z :=
  if p =? 0 then ret (-1)
  else
    let* f := get_file p in
    let* n := get_vinode (f_inode f) in
    match n_ops n ≫= fo_close with
    | None => ret tt
    | Some g => let* r := zoom vfs_dev (g f) in put_file p (snd r)
    end ;;
    let* f' := get_file p in
    vfs_destroy_inode (f_inode f') ;;
    zoom vfs_mm (kfree p) ;;
    ret 0.

(** Result and the bytes stored into the buffer. *)
Definition vfs_read (p count : Z) : K vfs_state (Z * list Z) :=
  if p =? 0 then ret (-1, [])
  else
    let* f := get_file p in
    let* n := get_vinode (f_inode f) in
    match n_ops n ≫= fo_read with
    | None => ret (-1, [])
    | Some g =>
        let* r := zoom vfs_dev (g f count) in
        put_file p (snd r) ;; ret (fst r)
    end.

Definition vfs_write (p : Z) (buf : list Z) (count : Z) : K vfs_state Z :=
  if p =? 0 then ret (-1)
  else
    let* f := get_file p in
    let* n := get_vinode (f_inode f) in
    match n_ops n ≫= fo_write with
    | None => ret (-1)
    | Some g =>
        let* r := zoom vfs_dev (g f buf count) in
        put_file p (snd r) ;; ret (fst r)
    end.

Definition vfs_mount (path fs_type : list Z) : K vfs_state Z :=
  printf (ln "[VFS] Mount %s at %s (not implemented)") [AStr fs_type; AStr path] ;; ret 0.
End Vfs.
Arguments inode_t : clear implicits.
Arguments device : clear implicits.
Arguments vfs_state : clear implicits.

(** ** What a driver promises to the file system

    [drv_file d f]: [f] is a file the driver can serve in state [d]; it stays
    so while the driver state only grows ([drv_le]), whatever other files are
    used meanwhile. *)

Class DriverLaws {D : Type} (ops : file_ops D) := {
  drv_inv : D → Prop;
  drv_file : D → file_t → Prop;
  drv_le : D → D → Prop;
  drv_le_trans : ∀ d1 d2 d3, drv_le d1 d2 → drv_le d2 d3 → drv_le d1 d3;
  drv_le_refl : ∀ d, drv_le d d;
  drv_file_le : ∀ d d' f, drv_le d d' → drv_file d f → drv_file d' f;
  drv_fresh : ∀ d f, drv_inv d → f_offset f = 0 → drv_file d f;
  drv_open : ∀ g d f, fo_open ops = Some g → drv_inv d → drv_file d f →
    wp (g f) (λ r d', drv_inv d' ∧ drv_le d d' ∧ drv_file d' (snd r) ∧ f_inode (snd r) = f_inode f) never d;
  drv_close : ∀ g d f, fo_close ops = Some g → drv_inv d → drv_file d f →
    wp (g f) (λ r d', drv_inv d' ∧ drv_le d d' ∧ drv_file d' (snd r) ∧ f_inode (snd r) = f_inode f) never d;
  drv_read : ∀ g d f count, fo_read ops = Some g → drv_inv d → drv_file d f → is_u64 count →
    wp (g f count) (λ r d', (drv_inv d' ∧ drv_le d d' ∧ drv_file d' (snd r) ∧ f_inode (snd r) = f_inode f) ∧
      Z.of_nat (length (snd (fst r))) <= count) never d;
  drv_write : ∀ g d f buf count, fo_write ops = Some g → drv_inv d → drv_file d f →
    0 <= count <= Z.of_nat (length buf) → is_u64 count →
    wp (g f buf count) (λ r d', drv_inv d' ∧ drv_le d d' ∧ drv_file d' (snd r) ∧ f_inode (snd r) = f_inode f) never d }.

Section Safety.
Context {D : Type} {L : Layout} {LO : LayoutOk L} (ops : file_ops D) {DL : DriverLaws ops}.
Implicit Types s : vfs_state D.

(** [p] is NULL or a file opened on the driver. *)
Definition valid_handle (s : vfs_state D) (p : Z) : Prop :=
  p = 0 ∨ ∃ f n, v_files s !! p = Some f ∧ v_inodes s !! f_inode f = Some n ∧
    n_ops n = Some ops ∧ drv_file (vf_dev s) f.

Definition device_ok (d : device D) : Prop :=
  length (d_name d) = 32%nat ∧
  (d_used d ≠ 0 → d_ops d = Some ops ∧ ∃ t, text (d_name d) = Some t ∧ (length t <= 31)%nat).

Record vfs_inv (s : vfs_state D) : Prop := {
  vi_devices : Forall device_ok (devices s);
  vi_heap : heap_ok (vf_mm s);
  vi_files : ∀ p f, v_files s !! p = Some f → p < heap_current (vf_mm s);
  vi_inodes : ∀ p n, v_inodes s !! p = Some n → p < heap_current (vf_mm s);
  vi_driver : drv_inv (vf_dev s) }.

(** Every handle of [s] is still one of [s']. *)
Definition keeps_handles (s s' : vfs_state D) : Prop := ∀ p, valid_handle s p → valid_handle s' p.

Lemma keeps_handles_refl s : keeps_handles s s.
Proof. by intros p. Qed.

Lemma keeps_handles_trans s1 s2 s3 : keeps_handles s1 s2 → keeps_handles s2 s3 → keeps_handles s1 s3.
Proof. intros H1 H2 p Hp. by apply H2, H1. Qed.

(** The state after a driver call on the open file [p]. *)
Lemma driver_step s p f n d' f' :
  vfs_inv s → v_files s !! p = Some f → v_inodes s !! f_inode f = Some n → n_ops n = Some ops →
  drv_inv d' ∧ drv_le (vf_dev s) d' ∧ drv_file d' f' ∧ f_inode f' = f_inode f →
  let s' := Vfs (vf_mm s) (devices s) (next_ino s) (<[p := f']> (v_files s)) (v_inodes s) d' in
  vfs_inv s' ∧ keeps_handles s s' ∧ valid_handle s' p.
Proof.
  intros Hi Hf Hn Ho (Hd & Hle & Hfile & Hino) s'.
  assert (valid_handle s' p) as Hvp.
  { right. exists f', n. simpl. rewrite lookup_insert_eq, Hino. done. }
  split_and!; [| |done].
  - destruct Hi as [Hdv Hhp Hfl Hin _]. constructor; try done. intros q g. simpl. rewrite lookup_insert.
    case_decide; [subst; intros _; by eapply Hfl|apply Hfl].
  - intros q [->|(g & m' & Hg & Hm' & Hom & Hfg)]; [by left|].
    destruct (decide (p = q)) as [<-|Hne]; [done|]. right. exists g, m'. simpl.
    rewrite lookup_insert_ne by done. split_and!; [done|done|done|]. by eapply drv_file_le.
Qed.

Lemma wp_driver {A} (m : K D A) (fl : A → file_t) p f n (P : A → Prop)
    (Q : A → vfs_state D → Prop) H s :
  vfs_inv s → v_files s !! p = Some f → v_inodes s !! f_inode f = Some n → n_ops n = Some ops →
  wp m (λ r d', (drv_inv d' ∧ drv_le (vf_dev s) d' ∧ drv_file d' (fl r) ∧ f_inode (fl r) = f_inode f) ∧ P r)
    never (vf_dev s) →
  (∀ r s', vfs_inv s' → keeps_handles s s' → valid_handle s' p → P r → Q r s') →
  wp (let* r := zoom vfs_dev m in put_file p (fl r) ;; ret r) Q H s.
Proof.
  intros Hi Hf Hn Ho Hm Hk. apply wp_bind, wp_zoom. change (view vfs_dev s) with (vf_dev s).
  eapply wp_mono; [exact Hm| |done]. intros r d' [Hd HP].
  apply wp_bind. unfold put_file. apply wp_modify, wp_ret.
  destruct (driver_step s p f n d' (fl r) Hi Hf Hn Ho Hd) as (Hi' & Hk' & Hv'). by apply Hk.
Qed.

(** The call and the store, then the rest of the routine. *)
Lemma wp_driver_then {A B} (m : K D A) (fl : A → file_t) p (k : A → K (vfs_state D) B) Q H s :
  wp (let* r := zoom vfs_dev m in put_file p (fl r) ;; ret r) (λ r s', wp (k r) Q H s') H s →
  wp (let* r := zoom vfs_dev m in put_file p (fl r) ;; k r) Q H s.
Proof.
  intros Hw w. specialize (Hw w). unfold bind in *.
  destruct (zoom vfs_dev m s w) as [a s1 w1| | | | |]; simpl in *; try done.
  unfold put_file, modify, ret in *. simpl in *. destruct Hw as [Hk Hin]. specialize (Hk w1). by rewrite Hin in Hk.
Qed.

(** Dropping a reference keeps every handle. *)
Lemma wp_destroy_inode p n Q H s :
  v_inodes s !! p = Some n → vfs_inv s →
  (∀ s', vfs_inv s' → keeps_handles s s' → v_files s' = v_files s → vf_mm s' = vf_mm s → Q tt s') →
  wp (vfs_destroy_inode p) Q H s.
Proof.
  intros Hn Hi HQ. unfold vfs_destroy_inode. destruct (Z.eqb_spec p 0) as [_|Hp].
  { apply wp_ret. by apply HQ; [|apply keeps_handles_refl| |]. }
  unfold get_vinode, put_vinode. apply wp_bind, wp_bind, wp_gets, (wp_lift_opt _ n); [done|].
  apply wp_bind, wp_modify. set (s' := set_vinodes _ s).
  assert (Q tt s') as HQ'.
  { apply HQ; try done.
    - destruct Hi as [Hdv Hhp Hfl Hin Hd]. constructor; try done. intros q g. cbn [v_inodes set_vinodes s'].
      rewrite lookup_insert. case_decide; [subst; intros _; by eapply Hin|apply Hin].
    - intros q [->|(f & m & Hf & Hm & Ho & Hd)]; [by left|]. right.
      destruct (decide (p = f_inode f)) as [->|Hne].
      + eexists f, _. cbn [v_files v_inodes set_vinodes s']. rewrite lookup_insert_eq. split_and!; try done.
        simpl. congruence.
      + exists f, m. cbn [v_files v_inodes set_vinodes s']. by rewrite lookup_insert_ne. }
  case_match; [|by apply wp_ret]. apply wp_zoom. unfold kfree. by apply wp_ret.
Qed.

(** A handle that is not NULL. *)
Lemma handle_file s p :
  vfs_inv s → valid_handle s p → p ≠ 0 →
  ∃ f n, v_files s !! p = Some f ∧ v_inodes s !! f_inode f = Some n ∧ n_ops n = Some ops ∧
    drv_file (vf_dev s) f.
Proof. intros _ [->|H] Hp; [done|exact H]. Qed.

Lemma wp_vfs_read p count H s :
  vfs_inv s → valid_handle s p → is_u64 count →
  wp (vfs_read p count) (λ r s', vfs_inv s' ∧ keeps_handles s s' ∧ Z.of_nat (length (snd r)) <= count) H s.
Proof.
  intros Hi Hh Hc. unfold vfs_read. destruct (Z.eqb_spec p 0) as [->|Hp].
  { apply wp_ret. split_and!; [done|apply keeps_handles_refl|]. unfold is_u64 in Hc. simpl. lia. }
  destruct (handle_file s p Hi Hh Hp) as (f & n & Hf & Hn & Ho & Hd).
  unfold get_file, get_vinode.
  apply wp_bind, wp_bind, wp_gets, (wp_lift_opt _ f); [done|].
  apply wp_bind, wp_bind, wp_gets, (wp_lift_opt _ n); [done|]. rewrite Ho. simpl.
  destruct (fo_read ops) as [g|] eqn:Hg.
  - apply wp_driver_then.
    eapply (wp_driver _ snd p f n (λ r, Z.of_nat (length (snd (fst r))) <= count)); [exact Hi|exact Hf|exact Hn|exact Ho| |].
    + apply drv_read; [done|apply Hi|done|done].
    + intros r s' Hi' Hk _ Hl. by apply wp_ret.
  - apply wp_ret. split_and!; [done|apply keeps_handles_refl|]. unfold is_u64 in Hc. simpl. lia.
Qed.

Lemma wp_vfs_write p buf count H s :
  vfs_inv s → valid_handle s p → 0 <= count <= Z.of_nat (length buf) → is_u64 count →
  wp (vfs_write p buf count) (λ _ s', vfs_inv s' ∧ keeps_handles s s') H s.
Proof.
  intros Hi Hh Hc Hu. unfold vfs_write. destruct (Z.eqb_spec p 0) as [->|Hp].
  { apply wp_ret. by split; [|apply keeps_handles_refl]. }
  destruct (handle_file s p Hi Hh Hp) as (f & n & Hf & Hn & Ho & Hd).
  unfold get_file, get_vinode.
  apply wp_bind, wp_bind, wp_gets, (wp_lift_opt _ f); [done|].
  apply wp_bind, wp_bind, wp_gets, (wp_lift_opt _ n); [done|]. rewrite Ho. simpl.
  destruct (fo_write ops) as [g|] eqn:Hg.
  - apply wp_driver_then. eapply (wp_driver _ snd p f n (λ _, True)); [exact Hi|exact Hf|exact Hn|exact Ho| |].
    + eapply wp_mono; [apply drv_write; [done|apply Hi|done|done|done]|by auto|done].
    + intros r s' Hi' Hk _ _. by apply wp_ret.
  - apply wp_ret. by split; [|apply keeps_handles_refl].
Qed.

Lemma wp_vfs_close p H s :
  vfs_inv s → valid_handle s p →
  wp (vfs_close p) (λ _ s', vfs_inv s' ∧ keeps_handles s s') H s.
Proof.
  intros Hi Hh. unfold vfs_close. destruct (Z.eqb_spec p 0) as [->|Hp].
  { apply wp_ret. by split; [|apply keeps_handles_refl]. }
  destruct (handle_file s p Hi Hh Hp) as (f & n & Hf & Hn & Ho & Hd).
  unfold get_file at 1, get_vinode at 1.
  apply wp_bind, wp_bind, wp_gets, (wp_lift_opt _ f); [done|].
  apply wp_bind, wp_bind, wp_gets, (wp_lift_opt _ n); [done|]. rewrite Ho. simpl.
  assert (∀ s', vfs_inv s' → keeps_handles s s' → valid_handle s' p →
    wp (let* f' := get_file p in vfs_destroy_inode (f_inode f') ;; zoom vfs_mm (kfree p) ;; ret 0)
      (λ _ s'', vfs_inv s'' ∧ keeps_handles s s'') H s') as Hrest.
  { intros s' Hi' Hk Hv. destruct (handle_file s' p Hi' Hv Hp) as (f' & n' & Hf' & Hn' & _).
    unfold get_file. apply wp_bind, wp_bind, wp_gets, (wp_lift_opt _ f'); [done|].
    apply wp_bind, (wp_destroy_inode _ n'); [done|done|]. intros s'' Hi'' Hk'' _ _.
    apply wp_bind, wp_zoom. unfold kfree. apply wp_ret, wp_ret. change (put vfs_mm (view vfs_mm s'') s'') with
      (Vfs (vf_mm s'') (devices s'') (next_ino s'') (v_files s'') (v_inodes s'') (vf_dev s'')).
    destruct s''. split; [done|]. by eapply keeps_handles_trans. }
  apply wp_bind. destruct (fo_close ops) as [g|] eqn:Hg.
  - apply wp_bind, wp_zoom. change (view vfs_dev s) with (vf_dev s).
    eapply wp_mono; [apply drv_close; [done|apply Hi|done]| |done].
    intros r d' Hd'. unfold put_file. apply wp_modify.
    destruct (driver_step s p f n d' (snd r) Hi Hf Hn Ho Hd') as (Hi' & Hk' & Hv'). by apply Hrest.
  - apply wp_ret. apply Hrest; [done|apply keeps_handles_refl|done].
Qed.

Lemma find_device_ok l name t :
  Forall device_ok l → text name = Some t →
  ∃ o, find_device l name = Some o ∧
    match o with
    | Some i => ∃ d, l !! i = Some d ∧ d_used d ≠ 0 ∧ d_ops d = Some ops ∧ text (d_name d) = Some t
    | None => ∀ i d, l !! i = Some d → d_used d ≠ 0 → text (d_name d) ≠ Some t
    end.
Proof.
  intros Hok Ht. induction Hok as [|d l [Hlen Hd] Hok IH]; simpl.
  { exists None. split; [done|]. by intros i d Hi. }
  destruct IH as (o & Ho & IH). rewrite Ho. simpl.
  assert (∀ P : Prop, (d_used d ≠ 0 → text (d_name d) ≠ Some t) → ∃ o', Some (S <$> o) = Some o' ∧
    match o' with
    | Some i => ∃ d0, (d :: l) !! i = Some d0 ∧ d_used d0 ≠ 0 ∧ d_ops d0 = Some ops ∧ text (d_name d0) = Some t
    | None => ∀ i d0, (d :: l) !! i = Some d0 → d_used d0 ≠ 0 → text (d_name d0) ≠ Some t
    end) as Hskip.
  { intros _ Hno. exists (S <$> o). split; [done|]. destruct o as [i|]; simpl; [exact IH|].
    intros [|i] d0 Hi Hu; [by injection Hi as <-; apply Hno|by eapply IH]. }
  destruct (Z.eqb_spec (d_used d) 0) as [Hu|Hu]; [by apply (Hskip True)|].
  destruct (Hd Hu) as (Hops & t' & Ht' & Hl'). rewrite (name_eq_spec 32 _ _ _ _ Ht' Ht) by lia. simpl.
  case_bool_decide as He; [subst; exists (Some 0%nat); split; [done|by exists d]|].
  apply (Hskip True). congruence.
Qed.

(** Growing the heap. *)
Lemma vfs_inv_mm s m' :
  vfs_inv s → heap_ok m' → heap_current (vf_mm s) <= heap_current m' → vfs_inv (put vfs_mm m' s).
Proof.
  intros [Hdv Hhp Hfl Hin Hd] Hm Hle. constructor; try done; intros p x Hp; simpl.
  - specialize (Hfl p x Hp). lia.
  - specialize (Hin p x Hp). lia.
Qed.

(** [kmalloc] of a small block: NULL, or a fresh address. *)
Lemma wp_vfs_kmalloc n Q H s :
  vfs_inv s → 0 < n <= 4096 → n mod 8 = 0 →
  (heap_end < heap_current (vf_mm s) + n → Q 0 s) →
  (let p := heap_current (vf_mm s) in let s' := put vfs_mm (set_heap_current (p + n) (vf_mm s)) s in
   p + n <= heap_end → vfs_inv s' → p ≠ 0 → v_files s !! p = None → v_inodes s !! p = None → Q p s') →
  wp (zoom vfs_mm (kmalloc n)) Q H s.
Proof.
  intros Hi Hn H8 Hnull HQ. pose proof (vi_heap _ Hi) as Hh. pose proof heap_start_above_image.
  apply wp_zoom. change (view vfs_mm s) with (vf_mm s).
  assert (round8 n = n) as Hr by (unfold round8; Z.div_mod_to_equations; lia).
  apply wp_kmalloc; [done| |lia|].
  { unfold sane_size, heap_end. pose proof heap_end_below_ram_end. lia. }
  rewrite Hr. destruct (Z.leb_spec (heap_current (vf_mm s) + n) heap_end).
  - apply HQ; [done| | | |].
    + apply vfs_inv_mm; [done| |simpl; lia]. rewrite <- Hr. apply heap_ok_bump; [done|lia|lia].
    + destruct Hh as [[Hh _] _]. lia.
    + destruct (v_files s !! _) as [f|] eqn:Hf; [|done]. pose proof (vi_files _ Hi _ _ Hf). lia.
    + destruct (v_inodes s !! _) as [f|] eqn:Hf; [|done]. pose proof (vi_inodes _ Hi _ _ Hf). lia.
  - destruct s. by apply Hnull.
Qed.

Lemma put_file_fresh s p f :
  vfs_inv s → p < heap_current (vf_mm s) → v_files s !! p = None →
  let s' := set_files (<[p := f]> (v_files s)) s in vfs_inv s' ∧ keeps_handles s s'.
Proof.
  intros [Hdv Hhp Hfl Hin Hd] Hp Hnone s'. split.
  - constructor; try done. intros q g. simpl. rewrite lookup_insert. case_decide; [subst; done|apply Hfl].
  - intros q [->|(g & n & Hg & Hn & Ho & Hf)]; [by left|]. right. exists g, n. simpl.
    by rewrite lookup_insert_ne by congruence.
Qed.

Lemma put_vinode_fresh s p n :
  vfs_inv s → p < heap_current (vf_mm s) → v_inodes s !! p = None →
  let s' := set_vinodes (<[p := n]> (v_inodes s)) s in vfs_inv s' ∧ keeps_handles s s'.
Proof.
  intros [Hdv Hhp Hfl Hin Hd] Hp Hnone s'. split.
  - constructor; try done. intros q g. simpl. rewrite lookup_insert. case_decide; [subst; done|apply Hin].
  - intros q [->|(g & m & Hg & Hm & Ho & Hf)]; [by left|]. right. exists g, m. simpl.
    by rewrite lookup_insert_ne by congruence.
Qed.

(** The file name a path stands for. *)
Definition device_name (t : list Z) : list Z :=
  match t with c :: t' => if c =? ch "/"%char then t' else t | [] => [] end.

Lemma skip_slash_text path t :
  text path = Some t → ∃ name, skip_slash path = Some name ∧ text name = Some (device_name t).
Proof.
  intros Ht. destruct path as [|c path]; [done|]. simpl in *.
  destruct (Z.eqb_spec c 0) as [->|Hc]; simplify_eq/=; [by eexists|].
  apply fmap_Some in Ht as (t' & Ht & ->). simpl.
  destruct (Z.eqb_spec c (ch "/"%char)); [by eexists|].
  eexists. split; [done|]. simpl. destruct (Z.eqb_spec c 0); [done|]. by rewrite Ht.
Qed.

(** A used slot of the registry holds the name [t]. *)
Definition registered (s : vfs_state D) (t : list Z) : Prop :=
  ∃ i d, devices s !! i = Some d ∧ d_used d ≠ 0 ∧ text (d_name d) = Some t.

(** [s] with a fresh file and inode, and a later driver state. *)
Lemma opened_ok s s' p n f node :
  vfs_inv s → p ≠ 0 → v_files s !! p = None → v_inodes s !! n = None →
  v_files s' = <[p := f]> (v_files s) → v_inodes s' = <[n := node]> (v_inodes s) →
  devices s' = devices s → heap_ok (vf_mm s') → heap_current (vf_mm s) <= heap_current (vf_mm s') →
  p < heap_current (vf_mm s') → n < heap_current (vf_mm s') →
  f_inode f = n → n_ops node = Some ops →
  drv_inv (vf_dev s') ∧ drv_le (vf_dev s) (vf_dev s') ∧ drv_file (vf_dev s') f →
  vfs_inv s' ∧ keeps_handles s s' ∧ valid_handle s' p.
Proof.
  intros [Hdv Hhp Hfl Hin Hd] Hp0 Hp Hn Hf' Hn' Hdev Hheap Hle Hpl Hnl Hfi Hno (Hdi & Hdl & Hdf).
  split_and!.
  - constructor; rewrite ?Hdev, ?Hf', ?Hn'; try done.
    + intros q g. rewrite lookup_insert. case_decide; [by subst|]. intros Hg. specialize (Hfl q g Hg). lia.
    + intros q g. rewrite lookup_insert. case_decide; [by subst|]. intros Hg. specialize (Hin q g Hg). lia.
  - intros q [->|(g & m & Hg & Hm & Ho & Hfd)]; [by left|]. right. exists g, m.
    rewrite Hf', Hn', !lookup_insert_ne by congruence. split_and!; [done|done|done|by eapply drv_file_le].
  - right. exists f, node. rewrite Hf', Hn', Hfi, !lookup_insert_eq. done.
Qed.

(** [vfs_open] up to the call of the driver's [open]. *)
Lemma wp_open_prefix path t flags Q H s :
  vfs_inv s → text path = Some t →
  (¬ registered s (device_name t) → Q 0 s) →
  (heap_end < heap_current (vf_mm s) + 48 →
   ∀ s', vfs_inv s' → keeps_handles s s' → Q 0 s') →
  (registered s (device_name t) → heap_current (vf_mm s) + 48 <= heap_end →
   let p := heap_current (vf_mm s) in let n := p + 16 in
   let fl := File n 0 flags in
   let s' := Vfs (set_heap_current (p + 48) (vf_mm s)) (devices s) (u32 (next_ino s + 1))
     (<[p := fl]> (v_files s)) (<[n := Inode (next_ino s) VFS_DEV 0 1 (Some ops) 0]> (v_inodes s)) (vf_dev s) in
   p ≠ 0 → v_files s !! p = None → v_inodes s !! n = None → heap_ok (vf_mm s') →
   wp (match fo_open ops with
       | None => ret p
       | Some f =>
           let* fl := get_file p in
           let* r := zoom vfs_dev (f fl) in
           put_file p (snd r) ;;
           if negb (fst r =? 0) then vfs_destroy_inode n ;; zoom vfs_mm (kfree p) ;; ret 0
           else ret p
       end) Q H s') →
  wp (vfs_open path flags) Q H s.
Proof.
  intros Hi Ht Hno Hmem Hok. destruct (skip_slash_text path t Ht) as (name & Hname & Htn).
  assert (terminated name = true) as Hterm by (apply text_terminated; by eexists).
  destruct (find_device_ok (devices s) name _ (vi_devices _ Hi) Htn) as (o & Hfo & Hspec).
  unfold vfs_open. apply wp_bind, (wp_lift_opt _ name); [done|]. apply wp_bind, wp_gets.
  apply wp_bind, (wp_lift_opt _ o); [done|]. destruct o as [i|].
  2:{ apply wp_bind, wp_printf; [cbv -[terminated]; by rewrite Hterm|]. apply wp_ret, Hno.
      intros (i & d & Hd & Hu & Hx). by eapply Hspec. }
  destruct Hspec as (d & Hd & Hu & Hops & Hdn).
  assert (registered s (device_name t)) as Hreg by (by exists i, d).
  apply wp_bind, (wp_lift_opt _ d); [done|]. apply wp_bind.
  apply (wp_vfs_kmalloc 16); [done|lia|done|intros Hx; apply wp_ret, Hmem; [lia|done|apply keeps_handles_refl]|].
  cbv zeta in *. intros Hr1 Hi1 Hp Hpf _. set (p := heap_current (vf_mm s)) in *. set (s1 := put vfs_mm _ s) in *.
  rewrite (proj2 (Z.eqb_neq p 0) Hp). apply wp_bind. unfold vfs_create_inode. apply wp_bind.
  change (heap_current (vf_mm s1)) with (p + 16) in *.
  apply (wp_vfs_kmalloc 32); [done|lia|done| |].
  { change (heap_current (vf_mm s1)) with (p + 16). intros Hx. cbn [Z.eqb]. apply wp_ret. unfold put_file.
    apply wp_bind, wp_modify, wp_bind, wp_zoom. unfold kfree. apply wp_ret, wp_ret.
    destruct (put_file_fresh s1 p (File 0 0 0) Hi1) as [Hi2 Hk2]; [simpl; lia|done|].
    apply Hmem; [lia|by destruct s|]. intros q Hq. by apply (Hk2 q) in Hq; destruct s. }
  change (heap_current (vf_mm s1)) with (p + 16). cbv zeta. intros Hr2 Hi2 Hn0 _ Hn.
  rewrite (proj2 (Z.eqb_neq (p + 16) 0) Hn0). unfold put_vinode, put_file, get_vinode.
  apply wp_bind, wp_gets, wp_bind, wp_modify, wp_bind, wp_modify, wp_ret, wp_bind, wp_modify.
  rewrite (proj2 (Z.eqb_neq (p + 16) 0) Hn0). apply wp_bind, wp_bind, wp_gets.
  eapply wp_lift_opt; [apply lookup_insert_eq|]. cbn [n_ino n_type n_size n_ref n_private].
  apply wp_bind, wp_modify, wp_bind, wp_modify, wp_bind, (wp_lift_opt _ ops); [done|]. rewrite Hops.
  specialize (Hok Hreg ltac:(lia) Hp Hpf Hn).
  replace (p + 48) with (p + 16 + 32) in Hok by lia.
  match goal with |- wp _ _ _ ?x => replace x with
    (Vfs (set_heap_current (p + 16 + 32) (vf_mm s)) (devices s) (u32 (next_ino s + 1))
     (<[p := File (p + 16) 0 flags]> (v_files s))
     (<[p + 16 := Inode (next_ino s) VFS_DEV 0 1 (Some ops) 0]> (v_inodes s)) (vf_dev s)) end.
  - apply Hok. apply (vi_heap _ Hi2).
  - cbn. unfold set_files, set_vinodes; cbn. by rewrite !insert_insert_eq.
Qed.

Lemma wp_vfs_open path t flags H s :
  vfs_inv s → text path = Some t →
  wp (vfs_open path flags) (λ p s', (vfs_inv s' ∧ keeps_handles s s' ∧ valid_handle s' p) ∧
    (¬ registered s (device_name t) → p = 0)) H s.
Proof.
  intros Hi Ht. apply (wp_open_prefix path t); [done|done| | |].
  - intros _. split; [|done]. split_and!; [done|apply keeps_handles_refl|by left].
  - intros _ s' Hi' Hk. split; [|done]. split_and!; [done|done|by left].
  - intros Hreg Hroom p n fl s' Hp Hpf Hn Hheap.
    assert (∀ d' f', drv_inv d' ∧ drv_le (vf_dev s) d' ∧ drv_file d' f' ∧ f_inode f' = n →
      let s'' := Vfs (vf_mm s') (devices s') (next_ino s') (<[p := f']> (v_files s')) (v_inodes s') d' in
      vfs_inv s'' ∧ keeps_handles s s'' ∧ valid_handle s'' p) as Hfin.
    { intros d' f' (Hd & Hle & Hfd & Hfi). eapply (opened_ok s _ p n f'); try done; simpl; try lia.
      by rewrite insert_insert_eq. }
    destruct (fo_open ops) as [g|] eqn:Hg.
    2:{ apply wp_ret. split; [|done]. specialize (Hfin (vf_dev s) fl). simpl in Hfin.
        rewrite insert_insert_eq in Hfin. apply Hfin.
        pose proof (vi_driver _ Hi). split_and!; [done|apply drv_le_refl|by apply drv_fresh|done]. }
    unfold get_file, put_file. apply wp_bind, wp_bind, wp_gets, (wp_lift_opt _ fl); [apply lookup_insert_eq|].
    apply wp_bind, wp_zoom. change (view vfs_dev s') with (vf_dev s).
    pose proof (vi_driver _ Hi) as Hdi.
    eapply wp_mono; [apply drv_open; [done|done|by apply drv_fresh]| |done].
    intros r d' Hr. apply wp_bind, wp_modify. specialize (Hfin d' (snd r) Hr) as (Hi2 & Hk2 & Hv2).
    destruct (fst r =? 0); simpl; [by apply wp_ret|].
    apply wp_bind. eapply wp_destroy_inode; [apply lookup_insert_eq|exact Hi2|]. intros s3 Hi3 Hk3 _ _.
    apply wp_bind, wp_zoom. unfold kfree. apply wp_ret, wp_ret. split; [|done].
    rewrite (put_view vfs_mm s3). split_and!; [done| |by left]. by eapply keeps_handles_trans.
Qed.

Lemma wp_register name t H s :
  vfs_inv s → text name = Some t →
  wp (vfs_register_device name ops) (λ r s', vfs_inv s' ∧ keeps_handles s s' ∧ (vf_mm s' = vf_mm s ∧ vf_dev s' = vf_dev s) ∧
    (r = 0 ↔ Exists (λ d, d_used d = 0) (devices s)) ∧ (r = 0 → registered s' (take 31 t)) ∧
    (∀ t', registered s t' → registered s' t')) H s.
Proof.
  intros Hi Ht. assert (terminated name = true) as Hterm by (apply text_terminated; by eexists).
  unfold vfs_register_device. apply wp_bind, wp_gets.
  pose proof (first_index_spec (λ d, d_used d =? 0) (devices s)) as Hfi.
  destruct (first_index _ _) as [i|].
  - destruct Hfi as (d & Hd & Hfree & _). apply Z.eqb_eq in Hfree.
    pose proof (proj1 (Forall_lookup _ _) (vi_devices _ Hi) i d Hd) as [Hlen _].
    destruct (copy_name_spec 31 name (d_name d) t Ht) as (nm & Hnm & Hnl & Hnt); [lia|].
    apply wp_bind, (wp_lift_opt _ d); [done|]. apply wp_bind, (wp_lift_opt _ nm); [done|].
    apply wp_bind, wp_modify, wp_bind, wp_printf; [cbv -[terminated]; by rewrite Hterm|].
    apply wp_ret. assert (i < length (devices s))%nat as Hil by by eapply lookup_lt_Some. split; [|split; [|split; [|split; [|split]]]].
    + destruct Hi as [Hdv Hhp Hfl Hin Hdr]. constructor; try done. simpl. apply Forall_insert; [done|].
      split; [simpl; lia|]. intros _. split; [done|]. exists (take 31 t). split; [done|].
      rewrite length_take. lia.
    + by intros p Hp.
    + done.
    + split; [|done]. intros _. apply Exists_exists. exists d. split; [by eapply list_elem_of_lookup_2|done].
    + intros _. exists i, (Device nm (Some ops) 1). simpl. by rewrite list_lookup_insert_eq.
    + intros t' (j & e & He & Hu & Hte). exists j, e. simpl.
      rewrite list_lookup_insert_ne by congruence. done.
  - apply wp_bind, wp_printf; [cbv -[terminated]; by rewrite Hterm|]. apply wp_ret.
    split; [done|]. split; [apply keeps_handles_refl|]. split; [done|]. split; [|done]. split; [done|]. intros Hex.
    apply Exists_exists in Hex as (d & Hd & Hu). apply list_elem_of_lookup in Hd as (j & Hj).
    specialize (Hfi j d Hj). simpl in Hfi. rewrite Hu in Hfi. done.
Qed.

(** ** Sequences of calls

    A client registers devices, opens paths and uses the handles it was given,
    in any order, closed ones and NULL included; [h] is the position of the
    handle in the list of those obtained so far. *)
Inductive vop :=
  | VRegister (name : list Z)
  | VOpen (path : list Z) (flags : Z)
  | VClose (h : nat)
  | VRead (h : nat) (count : Z)
  | VWrite (h : nat) (buf : list Z) (count : Z).

(** Strings are terminated, a count is a [size_t] and the buffer holds it. *)
Definition vop_ok (o : vop) : Prop :=
  match o with
  | VRegister n | VOpen n _ => terminated n = true
  | VClose _ => True
  | VRead _ c => is_u64 c
  | VWrite _ b c => is_u64 c ∧ c <= Z.of_nat (length b)
  end.

Definition run_vop (o : vop) (hs : list Z) : K (vfs_state D) (list Z) :=
  match o with
  | VRegister n => vfs_register_device n ops ;; ret hs
  | VOpen p fl => let* h := vfs_open p fl in ret (hs ++ [h])
  | VClose h => vfs_close (default 0 (hs !! h)) ;; ret hs
  | VRead h c => vfs_read (default 0 (hs !! h)) c ;; ret hs
  | VWrite h b c => vfs_write (default 0 (hs !! h)) b c ;; ret hs
  end.

Fixpoint run_vops (os : list vop) (hs : list Z) : K (vfs_state D) (list Z) :=
  match os with [] => ret hs | o :: os' => let* hs' := run_vop o hs in run_vops os' hs' end.

Lemma handle_at s hs h : Forall (valid_handle s) hs → valid_handle s (default 0 (hs !! h)).
Proof.
  intros Hf. destruct (hs !! h) as [p|] eqn:Hp; simpl; [|by left]. by eapply Forall_lookup_1 in Hp.
Qed.

Lemma wp_run_vop o hs H s :
  vop_ok o → vfs_inv s → Forall (valid_handle s) hs →
  wp (run_vop o hs) (λ hs' s', vfs_inv s' ∧ Forall (valid_handle s') hs') H s.
Proof.
  intros Ho Hi Hh. pose proof (λ h, handle_at s hs h Hh) as Hat.
  assert (∀ s', keeps_handles s s' → Forall (valid_handle s') hs) as Hkeep
    by (intros s' Hk; by eapply Forall_impl).
  destruct o as [n|p fl|h|h c|h b c]; cbn [run_vop vop_ok] in *; apply wp_bind.
  - apply text_terminated in Ho as [t Ht].
    eapply wp_mono; [by apply (wp_register n t)| |done]. intros r s' (Hi' & Hk & _). apply wp_ret. auto.
  - apply text_terminated in Ho as [t Ht].
    eapply wp_mono; [by apply (wp_vfs_open p t)| |done]. intros r s' [(Hi' & Hk & Hv) _]. apply wp_ret.
    split; [done|]. apply Forall_app. split; [auto|by apply Forall_singleton].
  - eapply wp_mono; [by apply wp_vfs_close| |done]. intros r s' [Hi' Hk]. apply wp_ret. auto.
  - eapply wp_mono; [by apply wp_vfs_read| |done]. intros r s' (Hi' & Hk & _). apply wp_ret. auto.
  - destruct Ho as [Hu Hc]. eapply wp_mono; [apply wp_vfs_write; [done|done| |done]| |done].
    + unfold is_u64 in Hu. lia.
    + intros r s' [Hi' Hk]. apply wp_ret. auto.
Qed.

(** C29: on any driver that keeps the driver laws, no sequence of register,
    open, close, read and write calls makes an access outside a C object or stops
    the kernel, whatever handles the client passes among those it was given (NULL
    and closed ones included), however many devices and files there are and even
    when the heap runs out; afterwards the registry and every handle are still
    well formed. *)
Theorem vfs_calls_safe os hs s :
  Forall vop_ok os → vfs_inv s → Forall (valid_handle s) hs →
  wp (run_vops os hs) (λ hs' s', vfs_inv s' ∧ Forall (valid_handle s') hs') never s.
Proof.
  intros Hos. revert hs s. induction Hos as [|o os Ho Hos IH]; intros hs s Hi Hh; simpl.
  { by apply wp_ret. }
  apply wp_bind. eapply wp_mono; [by apply wp_run_vop| |done]. intros hs' s' [Hi' Hh']. by apply IH.
Qed.

(** The driver's [open] does not refuse. *)
Definition always_opens : Prop :=
  ∀ g f d, fo_open ops = Some g → wp (g f) (λ r _, fst r = 0) never d.

(** Registering a device in a registry with a free slot succeeds, and
    opening the registered name then gives a file exactly when the name has at
    most 31 characters, provided the driver accepts and the heap has 48 bytes
    left; a longer name is stored truncated and can never be opened. *)
Theorem register_then_open name t flags s :
  vfs_inv s → text name = Some t → device_name t = t → always_opens →
  Exists (λ d, d_used d = 0) (devices s) → heap_current (vf_mm s) + 48 <= heap_end →
  wp (let* r := vfs_register_device name ops in let* p := vfs_open name flags in ret (r, p))
    (λ rp s', fst rp = 0 ∧ (snd rp ≠ 0 ↔ (length t <= 31)%nat) ∧ valid_handle s' (snd rp)) never s.
Proof.
  intros Hi Ht Hslash Hopen Hfree Hroom.
  apply wp_bind. eapply wp_mono; [by apply (wp_register name t)| |done].
  intros r s1 (Hi1 & _ & [Hmm _] & Hr & Hreg & _). apply Hr in Hfree. specialize (Hreg Hfree). apply wp_bind.
  destruct (decide (length t <= 31)%nat) as [Hle|Hgt].
  2:{ eapply wp_mono; [by apply (wp_vfs_open name t)| |done].
      intros p s2 [(_ & _ & Hv) Hno]. apply wp_ret. simpl. split_and!; [done| |done].
      rewrite Hslash in Hno. split; [|lia]. intros Hp. destruct Hp. apply Hno.
      intros (i & d & Hd & Hu & Hx).
      pose proof (proj1 (Forall_lookup _ _) (vi_devices _ Hi1) i d Hd) as [_ Hok].
      destruct (Hok Hu) as (_ & t' & Ht' & Hl). by simplify_eq. }
  rewrite take_ge in Hreg by lia.
  assert (wp (vfs_open name flags) (λ p _, p ≠ 0) never s1) as Hne.
  { apply (wp_open_prefix name t); [done|done| | |].
    - by rewrite Hslash.
    - rewrite Hmm. lia.
    - intros _ _ p n fl s' Hp _ _ _. destruct (fo_open ops) as [g|] eqn:Hg; [|by apply wp_ret].
      unfold get_file, put_file. apply wp_bind, wp_bind, wp_gets, (wp_lift_opt _ fl); [apply lookup_insert_eq|].
      apply wp_bind, wp_zoom. eapply wp_mono; [by apply Hopen| |done].
      intros x d Hx. apply wp_bind, wp_modify. rewrite Hx. simpl. by apply wp_ret. }
  eapply wp_mono; [apply (wp_conj _ _ _ _ _ (wp_vfs_open name t flags never s1 Hi1 Ht) Hne)| |done].
  intros p s2 [[(_ & _ & Hv) _] Hp]. by apply wp_ret.
Qed.
End Safety.
