(* ===== verification/Testdev.v ===== *)
(** The test device, [drivers/testdev/testdev.c]: a 1024-byte buffer that
    remembers how far it has been written. *)

From Stdlib Require Import String.
From S2P Require Import Prelude Machine Uart Printf Mm CString Vfs.
Local Open Scope string_scope.
Local Open Scope list_scope.
Local Open Scope Z_scope.

Definition TESTDEV_SIZE : Z := 1024.

Record testdev := Testdev { testdev_buffer : list Z; testdev_len : Z }.

Definition testdev_open (f : file_t) : K testdev (Z * file_t) := ret (0, f).
Definition testdev_close (f : file_t) : K testdev (Z * file_t) := ret (0, f).

(** [for (i = 0; i < count; i++) cbuf[i] = testdev_buffer[offset + i]]: the
    bytes copied; [None]: an index outside the device buffer. *)
Fixpoint copy_out (buf : list Z) (offset : Z) (count : nat) : option (list Z) :=
  match count with
  | O => Some []
  | S n => c ← arr_get buf offset; cs ← copy_out buf (offset + 1) n; Some (c :: cs)
  end.

(** [testdev_buffer[offset + i] = cbuf[i]] for [i < count]. *)
Fixpoint copy_in (buf : list Z) (offset : Z) (src : list Z) (count : nat) {struct count} : option (list Z) :=
  match count with
  | O => Some buf
  | S n =>
      match src with
      | [] => None
      | c :: src' => buf' ← arr_set buf offset (u8 c); copy_in buf' (offset + 1) src' n
      end
  end.

Definition advance (f : file_t) (count : Z) : file_t :=
  File (f_inode f) (u32 (f_offset f + count)) (f_flags f).

Definition testdev_read (f : file_t) (count : Z) : K testdev (Z * list Z * file_t) :=
  let* d := get in
  let available := u32 (testdev_len d - f_offset f) in
  if available =? 0 then ret (0, [], f)
  else
    let count := if available <? count then available else count in
    let* bytes := lift_opt (copy_out (testdev_buffer d) (f_offset f) (Z.to_nat count)) in
    ret (s32 count, bytes, advance f count).

Definition testdev_write (f : file_t) (buf : list Z) (count : Z) : K testdev (Z * file_t) :=
  let* d := get in
  let space := u32 (TESTDEV_SIZE - f_offset f) in
  if space =? 0 then printf (ln "[TESTDEV] Buffer full") [] ;; ret (-1, f)
  else
    let count := if space <? count then space else count in
    let* b := lift_opt (copy_in (testdev_buffer d) (f_offset f) buf (Z.to_nat count)) in
    let f' := advance f count in
    modify (λ d, Testdev b (if testdev_len d <? f_offset f' then f_offset f' else testdev_len d)) ;;
    ret (s32 count, f').

Definition testdev_seek (f : file_t) (offset : Z) : K testdev (Z * file_t) :=
  if TESTDEV_SIZE <? offset then ret (-1, f)
  else ret (0, File (f_inode f) offset (f_flags f)).

Definition testdev_ops : file_ops testdev :=
  FileOps (Some testdev_open) (Some testdev_close) (Some testdev_read) (Some testdev_write)
    (Some testdev_seek).

Definition testdev_init : K testdev unit := modify (λ d, Testdev (testdev_buffer d) 0).

Definition testdev_register `{Layout} : K (vfs_state testdev) Z :=
  vfs_register_device (lit "testdev") testdev_ops.

(** ** The driver laws *)

(** The bytes written so far. *)
Definition contents (d : testdev) : list Z := take (Z.to_nat (testdev_len d)) (testdev_buffer d).

Definition testdev_ok (d : testdev) : Prop :=
  Z.of_nat (length (testdev_buffer d)) = TESTDEV_SIZE ∧ 0 <= testdev_len d <= TESTDEV_SIZE.

(** The position is within what has been written. *)
Definition positioned (d : testdev) (f : file_t) : Prop := 0 <= f_offset f <= testdev_len d.

Lemma copy_out_spec buf offset n :
  0 <= offset →
  copy_out buf offset n =
    if bool_decide (n = 0%nat ∨ offset + Z.of_nat n <= Z.of_nat (length buf))
    then Some (take n (drop (Z.to_nat offset) buf)) else None.
Proof.
  revert offset. induction n as [|n IH]; intros offset Ho; [done|]. cbn [copy_out]. rewrite IH by lia.
  destruct (decide (offset < Z.of_nat (length buf))) as [Hin|Hout].
  - destruct (arr_get_some buf offset) as [c Hc]; [lia|]. rewrite Hc. simpl. unfold arr_get in Hc.
    rewrite (proj2 (Z.leb_le 0 offset)) in Hc by lia.
    rewrite (drop_S buf c (Z.to_nat offset)) by done.
    replace (Z.to_nat (offset + 1)) with (S (Z.to_nat offset)) by lia.
    simpl. repeat (case_bool_decide; simpl). all: try done. all: exfalso; lia.
  - unfold arr_get. rewrite (proj2 (Z.leb_le 0 offset)) by lia.
    rewrite lookup_ge_None_2 by lia. simpl. rewrite bool_decide_false by lia. done.
Qed.

Lemma copy_in_spec buf offset src n :
  0 <= offset → (n <= length src)%nat → offset + Z.of_nat n <= Z.of_nat (length buf) →
  copy_in buf offset src n =
    Some (take (Z.to_nat offset) buf ++ map u8 (take n src) ++ drop (Z.to_nat offset + n) buf).
Proof.
  revert buf offset src. induction n as [|n IH]; intros buf offset src Ho Hs Hb; simpl.
  { by rewrite Nat.add_0_r, take_drop. }
  destruct src as [|c src]; simpl in *; [lia|]. rewrite arr_set_some by lia. simpl.
  rewrite IH by (rewrite ?length_insert; lia). f_equal.
  replace (Z.to_nat (offset + 1)) with (S (Z.to_nat offset)) by lia.
  rewrite take_insert_S, drop_insert_lt by lia. rewrite <- app_assoc. simpl.
  by replace (Z.to_nat offset + S n)%nat with (S (Z.to_nat offset) + n)%nat by lia.
Qed.

(** What a read does from a position within the data. *)
Lemma wp_testdev_read f count d H :
  testdev_ok d → positioned d f → is_u64 count →
  let n := Z.min count (testdev_len d - f_offset f) in
  wp (testdev_read f count) (λ r d', d' = d ∧
    r = (n, take (Z.to_nat n) (drop (Z.to_nat (f_offset f)) (contents d)),
         File (f_inode f) (f_offset f + n) (f_flags f))) H d.
Proof.
  intros [Hb Hl] Hp Hc n. unfold positioned, TESTDEV_SIZE, is_u64 in *. unfold testdev_read.
  intros w. unfold bind, get. simpl. rewrite u32_id by (unfold is_u32; lia).
  assert ((if testdev_len d - f_offset f <? count then testdev_len d - f_offset f else count) = n) as ->
    by (destruct (Z.ltb_spec (testdev_len d - f_offset f) count); lia).
  destruct (Z.eqb_spec (testdev_len d - f_offset f) 0) as [Hz|Hz]; simpl.
  { split; [|done]. split; [done|]. replace n with 0 by lia. rewrite Z.add_0_r. by destruct f. }
  rewrite copy_out_spec by lia. rewrite bool_decide_true by lia. simpl. split; [|done]. split; [done|]. unfold advance.
  rewrite u32_id by (unfold is_u32; lia). f_equal. f_equal.
  - words.
  - unfold contents. rewrite skipn_firstn_comm, take_take. f_equal. lia.
Qed.

(** What a write does: it replaces and extends the data. *)
Lemma wp_testdev_write f data count d H :
  testdev_ok d → positioned d f → 0 <= count <= Z.of_nat (length data) → is_u64 count →
  let n := Z.min count (TESTDEV_SIZE - f_offset f) in let o := Z.to_nat (f_offset f) in
  wp (testdev_write f data count) (λ r d', testdev_ok d' ∧
    contents d' = take o (contents d) ++ map u8 (take (Z.to_nat n) data) ++ drop (o + Z.to_nat n) (contents d) ∧
    testdev_len d' = Z.max (testdev_len d) (f_offset f + n) ∧
    r = (if f_offset f =? TESTDEV_SIZE then -1 else n, File (f_inode f) (f_offset f + n) (f_flags f))) H d.
Proof.
  intros [Hb Hl] Hp Hc Hu n o. unfold positioned, TESTDEV_SIZE, is_u64 in *. unfold testdev_write, TESTDEV_SIZE in *.
  intros w. unfold bind at 1, get. simpl. rewrite u32_id by (unfold is_u32; lia).
  destruct (Z.eqb_spec (1024 - f_offset f) 0) as [Hz|Hz].
  { assert (n = 0) as -> by lia. rewrite (proj2 (Z.eqb_eq (f_offset f) 1024)) by lia.
    revert w. apply wp_bind. wp_printf. apply wp_ret. split_and!; [done| |lia|].
    - simpl. by rewrite Nat.add_0_r, take_drop.
    - rewrite Z.add_0_r. by destruct f. }
  rewrite (proj2 (Z.eqb_neq (f_offset f) 1024)) by lia.
  assert ((if 1024 - f_offset f <? count then 1024 - f_offset f else count) = n) as ->
    by (destruct (Z.ltb_spec (1024 - f_offset f) count); lia).
  rewrite copy_in_spec by lia. unfold bind, modify, ret. simpl.
  rewrite !(u32_id (f_offset f + n)) by (unfold is_u32; lia).
  set (b := take _ (testdev_buffer d) ++ _).
  assert (length b = 1024%nat) as Hlb.
  { unfold b. rewrite !length_app, length_map, length_drop, !length_take. lia. }
  assert ((if testdev_len d <? f_offset f + n then f_offset f + n else testdev_len d) =
    Z.max (testdev_len d) (f_offset f + n)) as -> by (destruct (Z.ltb_spec (testdev_len d) (f_offset f + n)); lia).
  split; [|done]. split_and!; [unfold testdev_ok, TESTDEV_SIZE; simpl; lia| |done|].
  - unfold contents; simpl. fold o in b. unfold b.
    rewrite take_app_ge, length_take_le by (rewrite ?length_take; lia).
    rewrite take_take, (Nat.min_l o) by lia. f_equal.
    rewrite take_app_ge by (rewrite length_map, length_take; lia). f_equal.
    rewrite length_map, length_take_le, skipn_firstn_comm by lia.
    destruct (decide (testdev_len d <= f_offset f + n)).
    + by rewrite !(proj2 (Nat.sub_0_le _ _)) by lia.
    + f_equal. lia.
  - unfold advance. rewrite u32_id by (unfold is_u32; lia). f_equal. words.
Qed.

#[export] Instance testdev_laws : DriverLaws testdev_ops.
Proof.
  refine {| drv_inv := testdev_ok; drv_file := positioned;
            drv_le := λ d d', testdev_len d <= testdev_len d' |}.
  - intros; lia.
  - intros; lia.
  - unfold positioned. intros; lia.
  - unfold positioned. intros d f [_ Hl] ->. lia.
  - intros g d f Hg Hi Hf. simplify_eq/=. apply wp_ret. unfold positioned in *. simpl. split; [exact Hi|]. split_and!; done || lia.
  - intros g d f Hg Hi Hf. simplify_eq/=. apply wp_ret. unfold positioned in *. simpl. split; [exact Hi|]. split_and!; done || lia.
  - intros g d f count Hg Hi Hf Hc. simplify_eq/=.
    eapply wp_mono; [by apply wp_testdev_read| |done]. intros r d' [-> ->].
    unfold positioned, is_u64 in *. simpl. split; [split; [exact Hi|]; split_and!; done || lia|].
    rewrite length_take. lia.
  - intros g d f buf count Hg Hi Hf Hc Hu. simplify_eq/=.
    eapply wp_mono; [by apply wp_testdev_write| |done]. intros r d' (Hok & _ & Hlen & ->).
    destruct Hi as [_ Hmax]. unfold positioned, is_u64 in *. simpl. split; [exact Hok|]. split_and!; done || lia.
Defined.

(** ** What the driver does *)

(** Reading and writing through the test device from a position
    inside the written data.  A read returns the bytes from the position on, at
    most [count] and up to the end of the data, leaves the device alone and moves
    the position behind them; a write overwrites the data from the position on,
    extends it, stops at 1024 bytes and returns how many bytes it stored (-1
    when the position is at 1024). *)
Theorem testdev_io (f : file_t) (data : list Z) (count : Z) (d : testdev) :
  testdev_ok d → positioned d f → 0 <= count <= Z.of_nat (length data) → is_u64 count →
  let o := Z.to_nat (f_offset f) in
  wp (testdev_read f count) (λ r d', d' = d ∧
    let n := Z.min count (testdev_len d - f_offset f) in
    r = (n, take (Z.to_nat n) (drop o (contents d)), File (f_inode f) (f_offset f + n) (f_flags f))) never d ∧
  wp (testdev_write f data count) (λ r d', testdev_ok d' ∧
    let n := Z.min count (TESTDEV_SIZE - f_offset f) in
    contents d' = take o (contents d) ++ map u8 (take (Z.to_nat n) data) ++ drop (o + Z.to_nat n) (contents d) ∧
    r = (if f_offset f =? TESTDEV_SIZE then -1 else n, File (f_inode f) (f_offset f + n) (f_flags f))) never d.
Proof.
  intros Hd Hp Hc Hu o. split; [by apply wp_testdev_read|].
  eapply wp_mono; [by apply wp_testdev_write| |done]. intros r d' (H1 & H2 & _ & H3). done.
Qed.

Definition sample_dev : testdev := Testdev ([104; 105] ++ replicate 1022 0) 2.

Lemma sample_dev_ok : testdev_ok sample_dev.
Proof. by vm_compute. Qed.

Lemma testdev_io_witness :
  testdev_ok sample_dev ∧ positioned sample_dev (File 64 1 0) ∧
  wp (testdev_write (File 64 1 0) [97; 98; 99] 3) (λ r d', fst r = 3 ∧ contents d' = [104; 97; 98; 99]) never sample_dev.
Proof.
  split; [apply sample_dev_ok|split; [by vm_compute|]].
  destruct (testdev_io (File 64 1 0) [97; 98; 99] 3 sample_dev) as [_ Hw];
    [apply sample_dev_ok|by vm_compute|by vm_compute|by vm_compute|].
  eapply wp_mono; [exact Hw| |done]. intros r d' (_ & -> & ->). split; by vm_compute.
Defined.

(** A seek beyond the written data is accepted, and the number of
    available bytes computed by the next read then wraps around to almost 2^32:
    a read that asks for more bytes than lie between the position and the end of
    the 1024-byte buffer reads outside the buffer. *)
Theorem testdev_seek_then_read (f : file_t) (d : testdev) (offset count : Z) (w : world) :
  testdev_ok d → testdev_len d < offset <= TESTDEV_SIZE → TESTDEV_SIZE - offset < count → is_u64 count →
  (let* r := testdev_seek f offset in
   if fst r =? 0 then testdev_read (snd r) count else ret (-1, [], snd r)) d w = Fault d w.
Proof.
  intros [Hb Hl] Ho Hc Hu. unfold TESTDEV_SIZE, is_u64 in *. unfold testdev_seek, TESTDEV_SIZE.
  rewrite (proj2 (Z.ltb_ge 1024 offset)) by lia. unfold bind, ret. simpl.
  unfold testdev_read, bind, get. simpl. set (a := u32 (testdev_len d - offset)).
  assert (a = testdev_len d - offset + 4294967296) as Ha by (unfold a; words).
  rewrite (proj2 (Z.eqb_neq a 0)) by lia.
  rewrite copy_out_spec by lia. rewrite bool_decide_false; [done|].
  destruct (Z.ltb_spec a count); lia.
Qed.

Lemma testdev_seek_witness :
  testdev_ok sample_dev ∧
  (let* r := testdev_seek (File 64 0 0) 1000 in
   if fst r =? 0 then testdev_read (snd r) 25 else ret (-1, [], snd r)) sample_dev (mkWorld [] []) =
    Fault sample_dev (mkWorld [] []).
Proof.
  split; [apply sample_dev_ok|].
  apply (testdev_seek_then_read (File 64 0 0) sample_dev 1000 25 (mkWorld [] [])); [apply sample_dev_ok|by vm_compute..].
Defined.

(** ** Data written through the file system is read back *)

Section Roundtrip.
Context {L : Layout} {LO : LayoutOk L}.
Implicit Types s : vfs_state testdev.

(** [p] is the file [f] open on the device. *)
Definition open_at (s : vfs_state testdev) (p : Z) (f : file_t) : Prop :=
  p ≠ 0 ∧ v_files s !! p = Some f ∧ positioned (vf_dev s) f ∧
  ∃ n, v_inodes s !! f_inode f = Some n ∧ n_ops n = Some testdev_ops.

Lemma open_at_handle s p f : open_at s p f → valid_handle testdev_ops s p.
Proof. intros (_ & Hf & Hd & n & Hn & Ho). right. by exists f, n. Qed.

(** What stays of [s] while a file is used. *)
Definition same_registry (s s' : vfs_state testdev) : Prop :=
  devices s' = devices s ∧ vf_mm s' = vf_mm s.

Lemma wp_td_open path t flags H s :
  vfs_inv testdev_ops s → text path = Some t → registered s (device_name t) →
  heap_current (vf_mm s) + 48 <= heap_end →
  wp (vfs_open path flags) (λ p s', vfs_inv testdev_ops s' ∧ devices s' = devices s ∧
    heap_current (vf_mm s') = heap_current (vf_mm s) + 48 ∧ vf_dev s' = vf_dev s ∧
    ∃ f, f_offset f = 0 ∧ open_at s' p f) H s.
Proof.
  intros Hi Ht Hreg Hroom.
  eapply wp_mono; [apply (wp_conj _ (λ p s', (vfs_inv testdev_ops s' ∧ keeps_handles testdev_ops s s' ∧
    valid_handle testdev_ops s' p) ∧ (¬ registered s (device_name t) → p = 0)) (λ p s', devices s' = devices s ∧
    heap_current (vf_mm s') = heap_current (vf_mm s) + 48 ∧ vf_dev s' = vf_dev s ∧
    ∃ f, f_offset f = 0 ∧ open_at s' p f))| |done].
  - by apply wp_vfs_open.
  - apply (wp_open_prefix testdev_ops path t); [done|done|done|lia|].
    intros _ _ p n fl s' Hp _ _ _. cbn [fo_open testdev_ops]. unfold get_file, put_file.
    apply wp_bind, wp_bind, wp_gets, (wp_lift_opt _ fl); [apply lookup_insert_eq|].
    apply wp_bind, wp_zoom, wp_ret, wp_bind, wp_modify. cbn [fst snd Z.eqb negb]. apply wp_ret.
    split_and!; [done|done|done|]. exists fl. split; [done|]. split_and!; [done|apply lookup_insert_eq| |].
    + pose proof (vi_driver _ _ Hi) as [_ Hl]. unfold positioned. simpl. simpl in Hl. lia.
    + eexists. split; [apply lookup_insert_eq|done].
  - by intros p s' [[(Hi' & _ & _) _] Hrest].
Qed.

Lemma wp_td_write p f data count H s :
  vfs_inv testdev_ops s → open_at s p f → 0 <= count <= Z.of_nat (length data) → is_u64 count →
  let n := Z.min count (TESTDEV_SIZE - f_offset f) in let o := Z.to_nat (f_offset f) in
  wp (vfs_write p data count) (λ r s', vfs_inv testdev_ops s' ∧ same_registry s s' ∧
    r = (if f_offset f =? TESTDEV_SIZE then -1 else n) ∧
    contents (vf_dev s') = take o (contents (vf_dev s)) ++ map u8 (take (Z.to_nat n) data) ++
      drop (o + Z.to_nat n) (contents (vf_dev s)) ∧
    ∃ f', open_at s' p f') H s.
Proof.
  intros Hi Ho Hc Hu n o.
  eapply wp_mono; [apply (wp_conj _ (λ _ s', vfs_inv testdev_ops s' ∧ keeps_handles testdev_ops s s')
    (λ r s', same_registry s s' ∧ r = (if f_offset f =? TESTDEV_SIZE then -1 else n) ∧
      contents (vf_dev s') = take o (contents (vf_dev s)) ++ map u8 (take (Z.to_nat n) data) ++
        drop (o + Z.to_nat n) (contents (vf_dev s))))| |done].
  - apply wp_vfs_write; [done|by eapply open_at_handle|done|done].
  - destruct Ho as (Hp & Hf & Hpos & nd & Hn & Hops). unfold vfs_write.
    rewrite (proj2 (Z.eqb_neq p 0) Hp). unfold get_file, get_vinode, put_file.
    apply wp_bind, wp_bind, wp_gets, (wp_lift_opt _ f); [done|].
    apply wp_bind, wp_bind, wp_gets, (wp_lift_opt _ nd); [done|]. rewrite Hops. simpl.
    apply wp_bind, wp_zoom. eapply wp_mono; [apply (wp_testdev_write _ _ _ _ never); [apply (vi_driver _ _ Hi)|exact Hpos|done|done]| |done].
    intros r d' (Hok & Hcon & _ & ->). apply wp_bind, wp_modify, wp_ret. done.
  - intros r s' [[Hi' Hk] (Hsame & Hr & Hcon)]. split_and!; [done|done..|].
    destruct (Hk p (open_at_handle _ _ _ Ho)) as [->|(f' & n' & Hf' & Hn' & Ho' & Hd')]; [by destruct Ho|].
    exists f'. split_and!; [by destruct Ho|done|done|by exists n'].
Qed.

Lemma wp_td_close p f H s :
  vfs_inv testdev_ops s → open_at s p f →
  wp (vfs_close p) (λ _ s', vfs_inv testdev_ops s' ∧ same_registry s s' ∧ vf_dev s' = vf_dev s) H s.
Proof.
  intros Hi Ho.
  eapply wp_mono; [apply (wp_conj _ (λ _ s', vfs_inv testdev_ops s' ∧ keeps_handles testdev_ops s s')
    (λ _ s', same_registry s s' ∧ vf_dev s' = vf_dev s))| |done].
  - apply wp_vfs_close; [done|by eapply open_at_handle].
  - destruct Ho as (Hp & Hf & Hpos & nd & Hn & Hops). unfold vfs_close, vfs_destroy_inode, kfree.
    rewrite (proj2 (Z.eqb_neq p 0) Hp). unfold get_file, get_vinode, put_file, put_vinode.
    apply wp_bind, wp_bind, wp_gets, (wp_lift_opt _ f); [done|].
    apply wp_bind, wp_bind, wp_gets, (wp_lift_opt _ nd); [done|]. rewrite Hops. simpl.
    apply wp_bind, wp_bind, wp_zoom, wp_ret, wp_modify. simpl.
    apply wp_bind, wp_bind, wp_gets, (wp_lift_opt _ f); [apply lookup_insert_eq|].
    apply wp_bind. destruct (f_inode f =? 0); [apply wp_ret, wp_bind, wp_zoom, wp_ret, wp_ret; by destruct s|].
    apply wp_bind, wp_bind, wp_gets, (wp_lift_opt _ nd); [done|]. apply wp_bind, wp_modify.
    case_match; [apply wp_zoom|]; by apply wp_ret, wp_bind, wp_zoom, wp_ret, wp_ret; destruct s.
  - by intros r s' [[Hi' _] Hrest].
Qed.

Lemma wp_td_read p f count H s :
  vfs_inv testdev_ops s → open_at s p f → is_u64 count →
  let n := Z.min count (testdev_len (vf_dev s) - f_offset f) in
  wp (vfs_read p count) (λ r s', vf_dev s' = vf_dev s ∧
    r = (n, take (Z.to_nat n) (drop (Z.to_nat (f_offset f)) (contents (vf_dev s))))) H s.
Proof.
  intros Hi (Hp & Hf & Hpos & nd & Hn & Hops) Hc n. unfold vfs_read.
  rewrite (proj2 (Z.eqb_neq p 0) Hp). unfold get_file, get_vinode, put_file.
  apply wp_bind, wp_bind, wp_gets, (wp_lift_opt _ f); [done|].
  apply wp_bind, wp_bind, wp_gets, (wp_lift_opt _ nd); [done|]. rewrite Hops. simpl.
  apply wp_bind, wp_zoom. eapply wp_mono; [apply (wp_testdev_read _ _ _ never); [apply (vi_driver _ _ Hi)|exact Hpos|done]| |done].
  intros r d' [-> ->]. by apply wp_bind, wp_modify, wp_ret.
Qed.

Lemma length_contents d : testdev_ok d → Z.of_nat (length (contents d)) = testdev_len d.
Proof. intros [Hb Hl]. unfold TESTDEV_SIZE in *. unfold contents. rewrite length_take. lia. Qed.

(** Open the device, write [data], close it, open it again and read. *)
Definition store_and_fetch (path data : list Z) (count : Z) : K (vfs_state testdev) (Z * list Z) :=
  let* p := vfs_open path 0 in
  vfs_write p data (Z.of_nat (length data)) ;;
  vfs_close p ;;
  let* q := vfs_open path 0 in
  vfs_read q count.

(** C30: through the file system, what is written to the test
    device is what is read after it is closed and opened again: a read of
    [count] bytes from the new handle returns the first [count] bytes of the data
    written, followed by whatever older data lay behind it. *)
Theorem testdev_roundtrip (path t data : list Z) (count : Z) s :
  vfs_inv testdev_ops s → text path = Some t → registered s (device_name t) →
  heap_current (vf_mm s) + 96 <= heap_end → Forall (λ c, 0 <= c < 256) data →
  Z.of_nat (length data) <= TESTDEV_SIZE → is_u64 count →
  wp (store_and_fetch path data count) (λ r s',
    contents (vf_dev s') = data ++ drop (length data) (contents (vf_dev s)) ∧
    snd r = take (Z.to_nat count) (contents (vf_dev s')) ∧ fst r = Z.of_nat (length (snd r))) never s.
Proof.
  intros Hi Ht Hreg Hroom Hbytes Hlen Hc. unfold store_and_fetch.
  apply wp_bind. eapply wp_mono; [apply (wp_td_open path t); [done|done|done|lia]| |done].
  intros p s1 (Hi1 & Hdv1 & Hh1 & Hd1 & f & Hf0 & Ho1). apply wp_bind.
  eapply wp_mono; [apply (wp_td_write p f data); [done|done|lia|]| |done].
  { unfold is_u64, TESTDEV_SIZE in *. lia. }
  intros r s2 (Hi2 & [Hdv2 Hm2] & _ & Hc2 & f2 & Ho2). apply wp_bind.
  eapply wp_mono; [by apply (wp_td_close p f2)| |done]. intros _ s3 (Hi3 & [Hdv3 Hm3] & Hd3).
  apply wp_bind. eapply wp_mono; [apply (wp_td_open path t); [done|done| |]| |done].
  { unfold registered in *. by rewrite Hdv3, Hdv2, Hdv1. }
  { rewrite Hm3, Hm2, Hh1. lia. }
  intros q s4 (Hi4 & _ & _ & Hd4 & g & Hg0 & Ho4).
  eapply wp_mono; [by apply (wp_td_read q g)| |done]. intros x s5 [Hd5 ->]. simpl.
  assert (contents (vf_dev s4) = data ++ drop (length data) (contents (vf_dev s))) as Hcon.
  { rewrite Hd4, Hd3, Hc2, Hd1, Hf0. rewrite Z.min_l by lia. simpl. rewrite Nat2Z.id, firstn_all. f_equal.
    clear -Hbytes. induction Hbytes as [|c l Hcb _ IH]; [done|]. simpl. rewrite IH. f_equal.
    unfold u8. by apply Z.mod_small. }
  pose proof (length_contents _ (vi_driver _ _ Hi4)) as Hl4. rewrite Hg0, Z.sub_0_r, drop_0, Hd5.
  unfold is_u64 in Hc. split_and!; [done| |rewrite length_take; lia].
  destruct (Z.leb_spec count (testdev_len (vf_dev s4))); [f_equal; lia|].
  rewrite !take_ge by lia. done.
Qed.
End Roundtrip.

(** ** Witnesses *)

(** The state after boot with the test device registered. *)
Definition boot_vfs : vfs_state testdev :=
  Vfs (MM ∅ 0 0 0x80220000)
    (Device (lit "testdev" ++ replicate 24 0) (Some testdev_ops) 1 :: replicate 15 (Device (replicate 32 0) None 0))
    1 ∅ ∅ (Testdev (replicate 1024 0) 0).

Lemma boot_vfs_inv : @vfs_inv _ sample_layout testdev_ops _ boot_vfs.
Proof.
  constructor.
  - apply Forall_cons. split.
    + split; [done|]. intros _. split; [done|]. exists (take 7 (lit "testdev")).
      split; [done|]. simpl. lia.
    + apply Forall_replicate. by split.
  - unfold heap_ok; vm_compute. split_and!; done.
  - done.
  - done.
  - by vm_compute.
Qed.

Lemma vfs_calls_safe_witness :
  wp (@run_vops _ sample_layout testdev_ops
        [VRegister (lit "dev2"); VOpen (lit "/testdev") 0; VOpen (lit "nosuch") 0; VWrite 0 [1; 2; 3] 3;
         VClose 0; VRead 0 4294967296; VClose 1] [])
    (λ hs s', vfs_inv (L := sample_layout) testdev_ops s' ∧ Forall (valid_handle testdev_ops s') hs) never boot_vfs.
Proof.
  apply (vfs_calls_safe (L := sample_layout) testdev_ops); [|apply boot_vfs_inv|by apply Forall_nil].
  repeat (apply Forall_cons; split; [by vm_compute|]). by apply Forall_nil.
Defined.

Lemma register_then_open_witness :
  wp (let* r := @vfs_register_device _ (lit "dev2") testdev_ops in
      let* p := @vfs_open _ sample_layout (lit "dev2") 0 in ret (r, p))
    (λ rp s', fst rp = 0 ∧ (snd rp ≠ 0 ↔ (4 <= 31)%nat) ∧ valid_handle testdev_ops s' (snd rp)) never boot_vfs.
Proof.
  apply (register_then_open (L := sample_layout) testdev_ops (lit "dev2") (take 4 (lit "dev2")));
    [apply boot_vfs_inv|done|done| | |].
  - intros g f d Hg. simplify_eq/=. by apply wp_ret.
  - apply Exists_cons_tl, Exists_cons_hd. done.
  - by vm_compute.
Defined.

Lemma testdev_roundtrip_witness :
  wp (@store_and_fetch sample_layout (lit "/testdev") [104; 105] 10) (λ r s',
    contents (vf_dev s') = [104; 105] ∧ snd r = [104; 105]) never boot_vfs.
Proof.
  eapply wp_mono; [apply (testdev_roundtrip (L := sample_layout) _ (take 8 (lit "/testdev")));
    [apply boot_vfs_inv|done| |by vm_compute| |by vm_compute|by vm_compute]| |done].
  - eexists 0%nat, _. split; [done|]. by vm_compute.
  - repeat (apply Forall_cons; split; [lia|]). by apply Forall_nil.
  - intros r s' (Hc & Hr & _). rewrite Hr, Hc. by vm_compute.
Defined.
