(* ===== verification/Elf.v ===== *)
(** The ELF loader, [kernel/process/elf.c] and [elf.h].

    A binary is the list of the bytes at the pointer passed to [elf_load]; a
    field of a header is read from its offset, little-endian, and a read
    outside the list is an access outside the binary.  The loader checks the
    structure and returns the entry point; it copies and maps nothing. *)

From Stdlib Require Import String Ascii.
From S2P Require Import Prelude Machine Uart Printf Frames Mm Vm.
Local Open Scope string_scope.
Local Open Scope list_scope.
Local Open Scope Z_scope.

(** ** Constants, [elf.h] *)

Definition EI_MAG0 : Z := 0.
Definition EI_MAG1 : Z := 1.
Definition EI_MAG2 : Z := 2.
Definition EI_MAG3 : Z := 3.
Definition EI_CLASS : Z := 4.
Definition EI_DATA : Z := 5.
Definition ELFMAG0 : Z := 0x7f.
Definition ELFMAG1 : Z := ch "E"%char.
Definition ELFMAG2 : Z := ch "L"%char.
Definition ELFMAG3 : Z := ch "F"%char.
Definition ELFCLASS64 : Z := 2.
Definition ELFDATA2LSB : Z := 1.
Definition ET_EXEC : Z := 2.
Definition EM_RISCV : Z := 243.
Definition PT_LOAD : Z := 1.
Definition PF_X : Z := 0x1.
Definition PF_W : Z := 0x2.
Definition PF_R : Z := 0x4.
Definition SIZEOF_EHDR : Z := 64.
Definition SIZEOF_PHDR : Z := 56.

(** ** Field access *)

(** The [n]-byte little-endian integer at [off]. *)
Fixpoint load_le (b : list Z) (off : Z) (n : nat) : option Z :=
  match n with
  | O => Some 0
  | S n' => c ← arr_get b off; r ← load_le b (off + 1) n'; Some (c + 256 * r)
  end.

Definition e_ident (b : list Z) (i : Z) : option Z := load_le b i 1.
Definition e_type (b : list Z) : option Z := load_le b 16 2.
Definition e_machine (b : list Z) : option Z := load_le b 18 2.
Definition e_entry (b : list Z) : option Z := load_le b 24 8.
Definition e_phoff (b : list Z) : option Z := load_le b 32 8.
Definition e_phnum (b : list Z) : option Z := load_le b 56 2.

(** [phdr[i].field]; [at_] is the offset of [phdr[i]]. *)
Definition p_type (b : list Z) (at_ : Z) : option Z := load_le b at_ 4.
Definition p_flags (b : list Z) (at_ : Z) : option Z := load_le b (at_ + 4) 4.
Definition p_vaddr (b : list Z) (at_ : Z) : option Z := load_le b (at_ + 16) 8.
Definition p_filesz (b : list Z) (at_ : Z) : option Z := load_le b (at_ + 32) 8.
Definition p_memsz (b : list Z) (at_ : Z) : option Z := load_le b (at_ + 40) 8.

Section Elf.
Context {S : Type}.

(** ** [elf_validate] *)

(** The four [||]-ed comparisons of the magic number, in order. *)
Fixpoint magic_ok (b : list Z) (magic : list (Z * Z)) : K S bool :=
  match magic with
  | [] => ret true
  | (i, m) :: magic' =>
      let* c := lift_opt (e_ident b i) in
      if negb (c =? m) then ret false else magic_ok b magic'
  end.

Definition elf_validate (b : list Z) : K S Z :=
  let* magic := magic_ok b [(EI_MAG0, ELFMAG0); (EI_MAG1, ELFMAG1); (EI_MAG2, ELFMAG2); (EI_MAG3, ELFMAG3)] in
  if negb magic then printf (ln "[ELF] Invalid magic number") [] ;; ret (-1)
  else
    let* class := lift_opt (e_ident b EI_CLASS) in
    if negb (class =? ELFCLASS64) then printf (ln "[ELF] Not a 64-bit ELF") [] ;; ret (-1)
    else
      let* data := lift_opt (e_ident b EI_DATA) in
      if negb (data =? ELFDATA2LSB) then printf (ln "[ELF] Not little-endian") [] ;; ret (-1)
      else
        let* machine := lift_opt (e_machine b) in
        if negb (machine =? EM_RISCV) then printf (ln "[ELF] Not a RISC-V binary") [] ;; ret (-1)
        else
          let* type := lift_opt (e_type b) in
          if negb (type =? ET_EXEC) then printf (ln "[ELF] Not an executable") [] ;; ret (-1)
          else ret 0.

(** ** [elf_load] *)

(** The permissions of a segment; computed and not used yet. *)
Definition segment_perm (flags : Z) : Z :=
  let perm := 0 in
  let perm := if negb (Z.land flags PF_R =? 0) then Z.lor perm PTE_R else perm in
  let perm := if negb (Z.land flags PF_W =? 0) then Z.lor perm PTE_W else perm in
  let perm := if negb (Z.land flags PF_X =? 0) then Z.lor perm PTE_X else perm in
  Z.lor perm PTE_U.

(** The loop over [n] program headers from the [i]th, at offset [at_]; [false]:
    the early [return -1]. *)
Fixpoint load_segments (b : list Z) (at_ i : Z) (n : nat) : K S bool :=
  match n with
  | O => ret true
  | Datatypes.S n' =>
      let* type := lift_opt (p_type b at_) in
      if negb (type =? PT_LOAD) then load_segments b (at_ + SIZEOF_PHDR) (i + 1) n'
      else
        let* vaddr := lift_opt (p_vaddr b at_) in
        let* filesz := lift_opt (p_filesz b at_) in
        let* memsz := lift_opt (p_memsz b at_) in
        let* flags := lift_opt (p_flags b at_) in
        printf (ln "[ELF] Segment %d: vaddr=%p filesz=%lu memsz=%lu flags=%x")
          [ANum i; ANum vaddr; ANum filesz; ANum memsz; ANum (s32 flags)] ;;
        let perm := segment_perm flags in
        if MAXVA <? u64 (vaddr + memsz) then
          printf (ln "[ELF] Segment virtual address out of range") [] ;; ret false
        else load_segments b (at_ + SIZEOF_PHDR) (i + 1) n'
  end.

(** Result and the value stored to [*entry], if any. *)
Definition elf_load (b : list Z) (size : Z) : K S (Z * option Z) :=
  let* v := elf_validate b in
  if negb (v =? 0) then ret (-1, None)
  else
    printf (ln "[ELF] Loading ELF binary...") [] ;;
    let* entry := lift_opt (e_entry b) in
    printf (ln "[ELF] Entry point: %p") [ANum entry] ;;
    let* phnum := lift_opt (e_phnum b) in
    printf (ln "[ELF] Program headers: %u") [ANum phnum] ;;
    let* phoff := lift_opt (e_phoff b) in
    let* ok := load_segments b phoff 0 (Z.to_nat phnum) in
    if negb ok then ret (-1, None)
    else
      printf (ln "[ELF] ELF loaded successfully") [] ;;
      ret (0, Some entry).
End Elf.

(** ** The file format: layout of headers as bytes *)

Fixpoint le (n : nat) (z : Z) : list Z :=
  match n with O => [] | S n' => z mod 256 :: le n' (z / 256) end.

(** A structure is a list of (width in bytes, value). *)
Fixpoint encode (fields : list (nat * Z)) : list Z :=
  match fields with [] => [] | (n, z) :: fields' => le n z ++ encode fields' end.
Definition width (fields : list (nat * Z)) : nat := sum_list_with fst fields.
Definition field_ok (f : nat * Z) : Prop := 0 <= snd f < 256 ^ Z.of_nat (fst f).
Definition raw (bs : list Z) : list (nat * Z) := (λ c, (1%nat, c)) <$> bs.

Record ehdr := Ehdr {
  h_ident : list Z; h_type : Z; h_machine : Z; h_version : Z; h_entry : Z; h_phoff : Z; h_shoff : Z;
  h_flags : Z; h_ehsize : Z; h_phentsize : Z; h_phnum : Z; h_shentsize : Z; h_shnum : Z; h_shstrndx : Z }.

Record phdr := Phdr {
  g_type : Z; g_flags : Z; g_offset : Z; g_vaddr : Z; g_paddr : Z; g_filesz : Z; g_memsz : Z; g_align : Z }.

Definition ehdr_fields (h : ehdr) : list (nat * Z) :=
  raw (h_ident h) ++ [(2%nat, h_type h); (2%nat, h_machine h); (4%nat, h_version h); (8%nat, h_entry h);
    (8%nat, h_phoff h); (8%nat, h_shoff h); (4%nat, h_flags h); (2%nat, h_ehsize h); (2%nat, h_phentsize h);
    (2%nat, h_phnum h); (2%nat, h_shentsize h); (2%nat, h_shnum h); (2%nat, h_shstrndx h)].

Definition phdr_fields (g : phdr) : list (nat * Z) :=
  [(4%nat, g_type g); (4%nat, g_flags g); (8%nat, g_offset g); (8%nat, g_vaddr g); (8%nat, g_paddr g);
   (8%nat, g_filesz g); (8%nat, g_memsz g); (8%nat, g_align g)].

(** A file: header, other bytes, program headers, the rest. *)
Definition elf_file (h : ehdr) (gap : list Z) (gs : list phdr) (rest : list Z) : list Z :=
  encode (ehdr_fields h ++ raw gap) ++ encode (concat (phdr_fields <$> gs)) ++ rest.

(** The header describes the file, and every field fits its width. *)
Definition elf_wf (h : ehdr) (gap : list Z) (gs : list phdr) : Prop :=
  length (h_ident h) = 16%nat ∧ Forall field_ok (ehdr_fields h) ∧
  Forall (λ g, Forall field_ok (phdr_fields g)) gs ∧
  h_phoff h = SIZEOF_EHDR + Z.of_nat (length gap) ∧ h_phnum h = Z.of_nat (length gs).

(** What [elf_load] accepts: a 64-bit little-endian RISC-V executable
    whose loadable segments end at most at [MAXVA], by a sum in [uint64_t] that can
    wrap around. *)
Definition elf_accepts (h : ehdr) (gs : list phdr) : Prop :=
  take 6 (h_ident h) = [0x7f; 69; 76; 70; 2; 1] ∧ h_machine h = 243 ∧ h_type h = 2 ∧
  Forall (λ g, g_type g = 1 → u64 (g_vaddr g + g_memsz g) <= 2 ^ 38) gs.

#[export] Instance elf_accepts_dec h gs : Decision (elf_accepts h gs).
Proof. unfold elf_accepts. apply _. Defined.

(** ** Reading a field of an encoded structure *)

Lemma length_le n z : length (le n z) = n.
Proof. revert z. induction n as [|n IH]; intros z; simpl; [done|]. by rewrite IH. Qed.

Lemma length_encode fields : length (encode fields) = width fields.
Proof.
  induction fields as [|[n z] fields IH]; simpl; [done|]. by rewrite length_app, length_le, IH.
Qed.

Lemma encode_app f g : encode (f ++ g) = encode f ++ encode g.
Proof. induction f as [|[n z] f IH]; simpl; [done|]. by rewrite IH, app_assoc. Qed.

Lemma load_le_at pre n z post :
  load_le (pre ++ le n z ++ post) (Z.of_nat (length pre)) n = Some (z mod 256 ^ Z.of_nat n).
Proof.
  revert pre z. induction n as [|n IH]; intros pre z; [simpl; by rewrite Z.mod_1_r|].
  rewrite Nat2Z.inj_succ, Z.pow_succ_r by lia. cbn [load_le le]. rewrite arr_get_nat, <- app_comm_cons, list_lookup_middle by done. simpl.
  specialize (IH (pre ++ [z mod 256]) (z / 256)). rewrite <- app_assoc in IH. simpl in IH.
  rewrite length_app, Nat2Z.inj_add in IH. change (Z.of_nat (length [_])) with 1 in IH. rewrite IH.
  cbn [mbind option_bind]. f_equal. by rewrite Z.rem_mul_r by (lia || apply Z.pow_pos_nonneg; lia).
Qed.

(** The [k]th field, at the sum of the widths before it. *)
Lemma load_field pre fields post k n z off :
  fields !! k = Some (n, z) → field_ok (n, z) →
  off = Z.of_nat (length pre) + Z.of_nat (width (take k fields)) →
  load_le (pre ++ encode fields ++ post) off n = Some z.
Proof.
  intros Hk Hok ->. rewrite <- (take_drop_middle fields k (n, z) Hk) at 1.
  rewrite encode_app. cbn [encode]. rewrite <- !app_assoc, (app_assoc pre), <- Nat2Z.inj_add.
  rewrite <- (length_encode (take k fields)), <- length_app, load_le_at. f_equal. by apply Z.mod_small.
Qed.

(** A field of the header, by position in [ehdr_fields]. *)
Lemma load_ehdr h gap post k n z off :
  Forall field_ok (ehdr_fields h) → ehdr_fields h !! k = Some (n, z) →
  off = Z.of_nat (width (take k (ehdr_fields h))) →
  load_le (encode (ehdr_fields h ++ raw gap) ++ post) off n = Some z.
Proof.
  intros Hok Hk ->. rewrite encode_app, <- app_assoc.
  apply (load_field [] _ _ k); [done|by eapply Forall_lookup_1|done].
Qed.

Lemma width_app f g : width (f ++ g) = (width f + width g)%nat.
Proof. apply sum_list_with_app. Qed.

Lemma width_raw bs : width (raw bs) = length bs.
Proof. induction bs as [|c bs IH]; [done|]. exact (f_equal S IH). Qed.

(** ** The loader *)

Section Load.
Context {S : Type}.

(** The segment is loadable and its end is out of range. *)
Definition rejected (g : phdr) : bool :=
  (g_type g =? PT_LOAD) && (MAXVA <? u64 (g_vaddr g + g_memsz g)).

(** The first [length gs] rounds of the loop, before [m] more. *)
Lemma wpr_load_segments pre gs rest i m (P : res S bool → Prop) s :
  Forall (λ g, Forall field_ok (phdr_fields g)) gs →
  let b := pre ++ encode (concat (phdr_fields <$> gs)) ++ rest in
  (existsb rejected gs = true → ∀ w, P (Ret false s w)) →
  (existsb rejected gs = false → ∀ j,
   wpr (load_segments b (Z.of_nat (length pre) + SIZEOF_PHDR * Z.of_nat (length gs)) j m) P s) →
  wpr (load_segments b (Z.of_nat (length pre)) i (length gs + m)) P s.
Proof.
  intros Hok. revert pre i. induction Hok as [|g gs Hg Hok IH]; intros pre i b Hbad Hgood.
  { specialize (Hgood eq_refl i). cbn [length Nat.add]. rewrite Z.mul_0_r, Z.add_0_r in Hgood. exact Hgood. }
  cbn [length load_segments Nat.add].
  assert (b = pre ++ encode (phdr_fields g) ++ encode (concat (phdr_fields <$> gs)) ++ rest) as Hb.
  { unfold b. cbn [fmap list_fmap concat]. by rewrite encode_app, <- !app_assoc. }
  assert (∀ k n z off, phdr_fields g !! k = Some (n, z) →
    off = Z.of_nat (length pre) + Z.of_nat (width (take k (phdr_fields g))) → load_le b off n = Some z) as Hrd.
  { intros k n z off Hk ->. rewrite Hb. eapply load_field; [done|by eapply Forall_lookup_1|done]. }
  cbn [existsb] in Hbad, Hgood. unfold rejected at 1 in Hbad. unfold rejected at 1 in Hgood.
  assert (∀ j, (existsb rejected gs = true → ∀ w, P (Ret false s w)) →
    (existsb rejected gs = false → ∀ j,
      wpr (load_segments b (Z.of_nat (length pre) + SIZEOF_PHDR * Z.of_nat (length (g :: gs))) j m) P s) →
    wpr (load_segments b (Z.of_nat (length pre) + SIZEOF_PHDR) j (length gs + m)) P s) as Hnext.
  { intros j Hbad' Hgood'. specialize (IH (pre ++ encode (phdr_fields g)) j).
    rewrite <- app_assoc, <- Hb, length_app, length_encode, Nat2Z.inj_add in IH.
    apply IH; [done|]. intros Hno j'. specialize (Hgood' Hno j'). cbn [length] in Hgood'.
    change (Z.of_nat (width (phdr_fields g))) with SIZEOF_PHDR.
    replace (SIZEOF_PHDR * Z.of_nat (Datatypes.S (length gs)))
      with (SIZEOF_PHDR + SIZEOF_PHDR * Z.of_nat (length gs)) in Hgood' by lia.
    by rewrite Z.add_assoc in Hgood'. }
  apply wpr_bind_wp, (wp_lift_opt _ (g_type g)); [apply (Hrd 0%nat); [done|simpl; lia]|].
  destruct (g_type g =? PT_LOAD); cbn [negb andb orb] in *; [|by apply Hnext].
  apply wpr_bind_wp, (wp_lift_opt _ (g_vaddr g)); [apply (Hrd 3%nat); [done|simpl; lia]|].
  apply wpr_bind_wp, (wp_lift_opt _ (g_filesz g)); [apply (Hrd 5%nat); [done|simpl; lia]|].
  apply wpr_bind_wp, (wp_lift_opt _ (g_memsz g)); [apply (Hrd 6%nat); [done|simpl; lia]|].
  apply wpr_bind_wp, (wp_lift_opt _ (g_flags g)); [apply (Hrd 1%nat); [done|simpl; lia]|].
  apply wpr_bind_wp. wp_printf. destruct (MAXVA <? _); cbn [orb] in *; [|by apply Hnext].
  apply wpr_bind_wp. wp_printf. intros w. by apply Hbad.
Qed.

Lemma quiet_load_segments b ph i n : quiet (load_segments b ph i n : K S bool).
Proof. revert ph i. induction n as [|n IH]; intros ph i; cbn [load_segments]; frames. Qed.

Lemma wp_load_segments pre gs rest i (Q : bool → S → Prop) H s :
  Forall (λ g, Forall field_ok (phdr_fields g)) gs →
  Q (negb (existsb rejected gs)) s →
  wp (load_segments (pre ++ encode (concat (phdr_fields <$> gs)) ++ rest) (Z.of_nat (length pre)) i (length gs))
    Q H s.
Proof.
  intros Hok HQ. apply wp_of_wpr; [apply quiet_load_segments|]. rewrite <- (Nat.add_0_r (length gs)).
  apply (wpr_load_segments pre gs rest i 0 (λ r, match r with
    Ret a s' _ => Q a s' | Halt s' _ => H s' | _ => False end)); [done| |].
  - intros Hr w. by rewrite Hr in HQ.
  - intros Hr j w. by rewrite Hr in HQ.
Qed.

(** What the header says about the kind of file. *)
Definition kind_ok (h : ehdr) : Prop :=
  take 6 (h_ident h) = [0x7f; 69; 76; 70; 2; 1] ∧ h_machine h = 243 ∧ h_type h = 2.

#[local] Instance kind_ok_dec h : Decision (kind_ok h).
Proof. unfold kind_ok. apply _. Defined.

(** A branch of [elf_validate] that rejects. *)
Ltac reject HQ Hno Hrej :=
  apply Hrej; [reflexivity|]; refine (Hno _ _ _ HQ); naive_solver.

Lemma wp_elf_validate h gap post (Q : Z → S → Prop) H s :
  length (h_ident h) = 16%nat → Forall field_ok (ehdr_fields h) →
  Q (if decide (kind_ok h) then 0 else -1) s →
  wp (elf_validate (encode (ehdr_fields h ++ raw gap) ++ post)) Q H s.
Proof.
  intros Hlen Hok HQ. set (b := _ ++ post).
  assert (∀ k n z off, ehdr_fields h !! k = Some (n, z) →
    off = Z.of_nat (width (take k (ehdr_fields h))) → load_le b off n = Some z) as Hrd
    by (intros; by eapply load_ehdr).
  destruct h as [ident ty mach ver ent pho sho fl ehs phe phn she shn shs]. simpl in Hlen.
  do 16 (destruct ident as [|? ident]; [done|]). destruct ident; [|done]. clear Hlen Hok.
  unfold ehdr_fields, kind_ok in *. simpl in Hrd, HQ.
  assert (∀ (P : Prop) (D : Decision P), ¬ P → Q (if decide P then 0 else -1) s → Q (-1) s) as Hno
    by (intros P D HP; by rewrite decide_False).
  assert (∀ msg, call_ok msg [] = true → Q (-1) s → wp (printf msg [] ;; ret (-1)) Q H s) as Hrej
    by (intros msg Hm Hq; apply wp_bind, wp_printf; [done|by apply wp_ret]).
  unfold elf_validate, e_ident, e_machine, e_type. cbn [magic_ok].
  unfold e_ident, EI_MAG0, EI_MAG1, EI_MAG2, EI_MAG3, EI_CLASS, EI_DATA.
  rewrite !(Hrd 0%nat _ _ 0 eq_refl eq_refl), !(Hrd 1%nat _ _ 1 eq_refl eq_refl), !(Hrd 2%nat _ _ 2 eq_refl eq_refl),
    !(Hrd 3%nat _ _ 3 eq_refl eq_refl), !(Hrd 4%nat _ _ 4 eq_refl eq_refl), !(Hrd 5%nat _ _ 5 eq_refl eq_refl),
    !(Hrd 16%nat _ _ 16 eq_refl eq_refl), !(Hrd 17%nat _ _ 18 eq_refl eq_refl).
  unfold lift_opt. apply wp_bind.
  do 4 (apply wp_bind, wp_ret; match goal with |- context [?x =? ?y] => destruct (Z.eqb_spec x y) end;
    cbn [negb]; [|apply wp_ret; cbn [negb]; reject HQ Hno Hrej]).
  apply wp_ret. cbn [negb].
  do 4 (apply wp_bind, wp_ret; match goal with |- context [?x =? ?y] => destruct (Z.eqb_spec x y) end;
    cbn [negb]; [|reject HQ Hno Hrej]).
  apply wp_ret. rewrite decide_True in HQ; [done|]. unfold ELFMAG0, ELFMAG1, ELFMAG2, ELFMAG3 in *. by subst.
Qed.
End Load.

(** ** What the loader accepts *)

Lemma accepts_split h gs :
  elf_accepts h gs ↔ kind_ok h ∧ existsb rejected gs = false.
Proof.
  unfold elf_accepts, kind_ok. split.
  - intros (Hi & Hm & Ht & Hgs). split_and!; [done..|]. induction Hgs as [|g gs Hg _ IH]; [done|].
    simpl. rewrite IH, orb_false_r. unfold rejected. destruct (Z.eqb_spec (g_type g) PT_LOAD); [|done].
    simpl. apply Z.ltb_ge. change MAXVA with (2 ^ 38). by apply Hg.
  - intros [(Hi & Hm & Ht) Hgs]. split_and!; [done..|]. induction gs as [|g gs IH]; [by apply Forall_nil|].
    simpl in Hgs. apply orb_false_iff in Hgs as [Hg Hgs]. apply Forall_cons. split; [|by apply IH].
    intros Hl. unfold rejected in Hg. rewrite Hl in Hg. simpl in Hg. apply Z.ltb_ge in Hg. exact Hg.
Qed.

Lemma length_header h gap :
  length (h_ident h) = 16%nat →
  Z.of_nat (length (encode (ehdr_fields h ++ raw gap))) = SIZEOF_EHDR + Z.of_nat (length gap).
Proof.
  intros Hl. rewrite length_encode, width_app, width_raw. unfold ehdr_fields.
  rewrite width_app, width_raw, Hl. unfold SIZEOF_EHDR. simpl. lia.
Qed.

(** The three fields [elf_load] reads from the header. *)
Lemma load_header h gap post :
  length (h_ident h) = 16%nat → Forall field_ok (ehdr_fields h) →
  let b := encode (ehdr_fields h ++ raw gap) ++ post in
  e_entry b = Some (h_entry h) ∧ e_phnum b = Some (h_phnum h) ∧ e_phoff b = Some (h_phoff h).
Proof.
  intros Hl Hok b. destruct h as [ident ty mach ver ent pho sho fl ehs phe phn she shn shs]. simpl in Hl.
  do 16 (destruct ident as [|? ident]; [done|]). destruct ident; [|done].
  split_and!; [apply (load_ehdr _ gap post 19)|apply (load_ehdr _ gap post 25)|apply (load_ehdr _ gap post 20)];
    done.
Qed.

Lemma wp_elf_load {S} (h : ehdr) (gap : list Z) (gs : list phdr) (rest : list Z) (size : Z) (s : S) :
  elf_wf h gap gs →
  wp (elf_load (elf_file h gap gs rest) size)
    (λ r s', s' = s ∧ r = if decide (elf_accepts h gs) then (0, Some (h_entry h)) else (-1, None)) never s.
Proof.
  intros (Hl & Hok & Hgs & Hoff & Hnum). unfold elf_load, elf_file.
  destruct (load_header h gap (encode (concat (phdr_fields <$> gs)) ++ rest) Hl Hok) as (He & Hn & Ho).
  apply wp_bind, wp_elf_validate; [done|done|]. case_decide as Hk; simpl.
  2:{ apply wp_ret. split; [done|]. rewrite decide_False; [done|]. by rewrite accepts_split; intros [? _]. }
  apply wp_bind. wp_printf. apply wp_bind, (wp_lift_opt _ (h_entry h)); [done|].
  apply wp_bind. wp_printf. apply wp_bind, (wp_lift_opt _ (h_phnum h)); [done|].
  apply wp_bind. wp_printf. apply wp_bind, (wp_lift_opt _ (h_phoff h)); [done|].
  rewrite Hoff, <- (length_header h gap Hl), Hnum, Nat2Z.id. apply wp_bind, wp_load_segments; [done|].
  destruct (existsb rejected gs) eqn:Hrej; simpl.
  - apply wp_ret. split; [done|]. rewrite decide_False; [done|].
    rewrite accepts_split. intros [_ ?]. congruence.
  - apply wp_bind. wp_printf. apply wp_ret. split; [done|]. rewrite decide_True; [done|]. by apply accepts_split.
Qed.

(** C31: on a file laid out as the ELF format prescribes, with the program
    header table its header announces, [elf_load] returns 0 and the entry point
    exactly when the file is a 64-bit little-endian RISC-V executable whose
    loadable segments end at most at [MAXVA], the end computed modulo 2^64 as the
    code does (so that a segment whose end wraps around is accepted);
    otherwise it returns -1 and leaves [*entry] alone.  It reads only inside the
    file and changes no kernel state, whatever the field values. *)
Theorem elf_load_spec {S} (h : ehdr) (gap : list Z) (gs : list phdr) (rest : list Z) (size : Z) (s : S) :
  elf_wf h gap gs →
  wp (elf_load (elf_file h gap gs rest) size)
    (λ r s', s' = s ∧ r = if decide (elf_accepts h gs) then (0, Some (h_entry h)) else (-1, None)) never s.
Proof. apply wp_elf_load. Qed.

(** A well-formed executable with one segment. *)
Definition sample_ehdr (n : Z) : ehdr :=
  Ehdr [0x7f; 69; 76; 70; 2; 1; 1; 0; 0; 0; 0; 0; 0; 0; 0; 0] 2 243 1 0x10000 64 0 0 64 56 n 64 0 0.
Definition sample_phdr (vaddr memsz : Z) : phdr := Phdr 1 5 4096 vaddr vaddr 100 memsz 4096.

Lemma fields_ok_dec (fs : list (nat * Z)) :
  forallb (λ f, (0 <=? snd f) && (snd f <? 256 ^ Z.of_nat (fst f))) fs = true → Forall field_ok fs.
Proof.
  intros Hf. apply Forall_forall. intros f Hin. apply list_elem_of_In in Hin.
  apply (proj1 (forallb_forall _ _) Hf) in Hin. apply andb_true_iff in Hin as [H1 H2].
  apply Z.leb_le in H1. apply Z.ltb_lt in H2. by split.
Qed.

Lemma elf_load_witness :
  wp (elf_load (elf_file (sample_ehdr 1) [] [sample_phdr 0x10000 8192] [1; 2; 3]) 123)
    (λ r s', s' = tt ∧ r = (0, Some 0x10000)) never tt.
Proof.
  apply (elf_load_spec (sample_ehdr 1) [] [sample_phdr 0x10000 8192] [1; 2; 3] 123 tt).
  split; [done|]. split; [by apply fields_ok_dec|]. split; [|done].
  apply Forall_singleton. by apply fields_ok_dec.
Defined.

(** The range check adds in 64 bits, so a segment that starts in the
    last page of the address space and wraps around to a low address is
    accepted, though it covers addresses far above [MAXVA]. *)
Theorem elf_wrapping_segment_accepted {S} (vaddr memsz size : Z) (s : S) :
  2 ^ 64 - 4096 <= vaddr < 2 ^ 64 → 4096 <= memsz <= 2 ^ 38 →
  MAXVA < vaddr ∧
  wp (elf_load (elf_file (sample_ehdr 1) [] [sample_phdr vaddr memsz] []) size)
    (λ r s', s' = s ∧ r = (0, Some 0x10000)) never s.
Proof.
  intros Hv Hm. split; [change MAXVA with (2 ^ 38); lia|].
  eapply wp_mono; [apply wp_elf_load| |done].
  - split; [done|]. split; [by apply fields_ok_dec|]. split; [|done]. apply Forall_singleton.
    repeat (apply Forall_cons; split; [unfold field_ok; simpl; lia|]). by apply Forall_nil.
  - intros r s' [-> ->]. split; [done|]. rewrite decide_True; [done|].
    split_and!; [done..|]. apply Forall_singleton. intros _. simpl. unfold u64.
    rewrite <- (Z_mod_plus_full _ (-1)), Z.mod_small by lia. lia.
Qed.

Lemma elf_wrap_witness :
  MAXVA < 2 ^ 64 - 4096 ∧
  wp (elf_load (elf_file (sample_ehdr 1) [] [sample_phdr (2 ^ 64 - 4096) 8192] []) 0)
    (λ r s', s' = tt ∧ r = (0, Some 0x10000)) never tt.
Proof. apply (elf_wrapping_segment_accepted (2 ^ 64 - 4096) 8192 0 tt); lia. Defined.

(** The [size] argument is never looked at: when the header announces
    more program headers than the file holds, [elf_load] reads outside the file,
    whatever size the caller passes. *)
Theorem elf_load_ignores_size {S} (h : ehdr) (gap : list Z) (gs : list phdr) (size : Z) (s : S) (w : world) :
  length (h_ident h) = 16%nat → Forall field_ok (ehdr_fields h) →
  Forall (λ g, Forall field_ok (phdr_fields g)) gs →
  h_phoff h = SIZEOF_EHDR + Z.of_nat (length gap) → Z.of_nat (length gs) < h_phnum h → elf_accepts h gs →
  ∃ w', elf_load (elf_file h gap gs []) size s w = Fault s w'.
Proof.
  intros Hl Hok Hgs Hoff Hnum Hacc. apply accepts_split in Hacc as [Hk Hrej].
  destruct (load_header h gap (encode (concat (phdr_fields <$> gs)) ++ []) Hl Hok) as (He & Hn & Ho).
  revert w. change (wpr (elf_load (elf_file h gap gs []) size) (λ r, ∃ w', r = Fault s w') s).
  unfold elf_load, elf_file. apply wpr_bind_wp, wp_elf_validate; [done|done|].
  rewrite decide_True by done. cbn [Z.eqb negb].
  apply wpr_bind_wp. wp_printf. apply wpr_bind_wp, (wp_lift_opt _ (h_entry h)); [done|].
  apply wpr_bind_wp. wp_printf. apply wpr_bind_wp, (wp_lift_opt _ (h_phnum h)); [done|].
  apply wpr_bind_wp. wp_printf. apply wpr_bind_wp, (wp_lift_opt _ (h_phoff h)); [done|].
  rewrite Hoff, <- (length_header h gap Hl). apply wpr_bind.
  replace (Z.to_nat (h_phnum h)) with (length gs + Datatypes.S (Z.to_nat (h_phnum h) - length gs - 1))%nat by lia.
  apply wpr_load_segments; [done|by rewrite Hrej|]. intros _ j w. cbn [load_segments]. unfold p_type.
  assert (∀ b, b = encode (ehdr_fields h ++ raw gap) ++ encode (concat (phdr_fields <$> gs)) ++ [] →
    load_le b (Z.of_nat (length (encode (ehdr_fields h ++ raw gap))) + SIZEOF_PHDR * Z.of_nat (length gs)) 4 = None)
    as ->; [|by exists w|done].
  intros b ->. cbn [load_le].
  assert (Z.of_nat (length (encode (concat (phdr_fields <$> gs)))) = SIZEOF_PHDR * Z.of_nat (length gs)) as Hlen.
  { rewrite length_encode. clear. induction gs as [|g gs IH]; [done|].
    cbn [fmap list_fmap concat length]. rewrite width_app, Nat2Z.inj_add, IH. unfold SIZEOF_PHDR. simpl. lia. }
  rewrite <- Hlen, <- Nat2Z.inj_add, <- length_app, app_nil_r, arr_get_nat.
  by rewrite lookup_ge_None_2 by lia.
Qed.

Lemma elf_size_witness :
  ∃ w', elf_load (elf_file (sample_ehdr 2) [] [sample_phdr 0x10000 8192] []) 120 tt (mkWorld [] []) = Fault tt w'.
Proof.
  apply (elf_load_ignores_size (sample_ehdr 2) [] [sample_phdr 0x10000 8192] 120 tt (mkWorld [] []));
    [done|by apply fields_ok_dec|apply Forall_singleton; by apply fields_ok_dec|done|done|].
  split_and!; [done..|]. apply Forall_singleton. by vm_compute.
Defined.
