(* ===== verification/Trap.v ===== *)
(** Traps: [kernel/trap/trap.c] over the control registers of [kernel/riscv.h].

    A control register holds the value last written to it.  A 32-bit argument of
    [printf] arrives sign-extended. *)

From Stdlib Require Import String.
From S2P Require Import Prelude Machine Uart Printf Process Queues Scheduler SchedInv SchedOps SchedProps.
Local Open Scope string_scope.
Local Open Scope list_scope.
Local Open Scope Z_scope.

(** ** Control registers, [riscv.h] *)

Definition CSR_SSTATUS : Z := 0x100.
Definition CSR_SIE : Z := 0x104.
Definition CSR_STVEC : Z := 0x105.
Definition CSR_SEPC : Z := 0x141.
Definition SSTATUS_SIE : Z := Z.shiftl 1 1.
Definition SIE_SSIE : Z := Z.shiftl 1 1.
Definition SIE_STIE : Z := Z.shiftl 1 5.
Definition SIE_SEIE : Z := Z.shiftl 1 9.
Definition CAUSE_MISALIGNED_FETCH : Z := 0.
Definition CAUSE_FETCH_ACCESS : Z := 1.
Definition CAUSE_ILLEGAL_INSTRUCTION : Z := 2.
Definition CAUSE_BREAKPOINT : Z := 3.
Definition CAUSE_MISALIGNED_LOAD : Z := 4.
Definition CAUSE_LOAD_ACCESS : Z := 5.
Definition CAUSE_MISALIGNED_STORE : Z := 6.
Definition CAUSE_STORE_ACCESS : Z := 7.
Definition CAUSE_USER_ECALL : Z := 8.
Definition CAUSE_SUPERVISOR_ECALL : Z := 9.
Definition INTERRUPT_BIT : Z := Z.shiftl 1 63.

Record csrs := Csrs { sstatus : Z; sie : Z; stvec : Z; sepc : Z; scause : Z; stval : Z }.

(** What a trap can touch: the control registers and the scheduler's data. *)
Record tstate := TState { t_csr : csrs; t_sched : sstate }.

Definition trap_sched : lens sstate tstate.
Proof. refine (Lens t_sched (λ s t, TState (t_csr t) s) _ _ _); by intros; destruct t. Defined.
Definition trap_csr : lens csrs tstate.
Proof. refine (Lens t_csr (λ c t, TState c (t_sched t)) _ _ _); by intros; destruct t. Defined.

Definition r_sstatus : K csrs Z := gets sstatus.
Definition r_sie : K csrs Z := gets sie.
Definition r_stvec : K csrs Z := gets stvec.
Definition r_sepc : K csrs Z := gets sepc.
Definition r_scause : K csrs Z := gets scause.
Definition r_stval : K csrs Z := gets stval.

Definition w_sstatus (x : Z) : K csrs unit :=
  modify (λ c, Csrs x (sie c) (stvec c) (sepc c) (scause c) (stval c)) ;; emit [EvCsr CSR_SSTATUS x].
Definition w_sie (x : Z) : K csrs unit :=
  modify (λ c, Csrs (sstatus c) x (stvec c) (sepc c) (scause c) (stval c)) ;; emit [EvCsr CSR_SIE x].
Definition w_stvec (x : Z) : K csrs unit :=
  modify (λ c, Csrs (sstatus c) (sie c) x (sepc c) (scause c) (stval c)) ;; emit [EvCsr CSR_STVEC x].
Definition w_sepc (x : Z) : K csrs unit :=
  modify (λ c, Csrs (sstatus c) (sie c) (stvec c) x (scause c) (stval c)) ;; emit [EvCsr CSR_SEPC x].

(** ** [trap_init]

    [trap_entry]: address of the assembly entry point. *)

Definition trap_init (trap_entry : Z) : K csrs unit :=
  printf (ln "[TRAP] Initializing trap handling") [] ;;
  w_stvec trap_entry ;;
  let* e := r_sie in
  w_sie (Z.lor (Z.lor (Z.lor e SIE_SEIE) SIE_STIE) SIE_SSIE) ;;
  let* st := r_sstatus in
  w_sstatus (Z.lor st SSTATUS_SIE) ;;
  let* v := r_stvec in
  printf (ln "[TRAP] Trap vector set to %p") [ANum v].

(** ** [trap_handler] *)

(** The message for an exception code. *)
Definition cause_message (cause : Z) : K tstate unit :=
  if cause =? CAUSE_MISALIGNED_FETCH then printf (ln "  Instruction address misaligned") []
  else if cause =? CAUSE_FETCH_ACCESS then printf (ln "  Instruction access fault") []
  else if cause =? CAUSE_ILLEGAL_INSTRUCTION then printf (ln "  Illegal instruction") []
  else if cause =? CAUSE_BREAKPOINT then printf (ln "  Breakpoint") []
  else if cause =? CAUSE_MISALIGNED_LOAD then printf (ln "  Load address misaligned") []
  else if cause =? CAUSE_LOAD_ACCESS then printf (ln "  Load access fault") []
  else if cause =? CAUSE_MISALIGNED_STORE then printf (ln "  Store address misaligned") []
  else if cause =? CAUSE_STORE_ACCESS then printf (ln "  Store access fault") []
  else if cause =? CAUSE_USER_ECALL then printf (ln "  Environment call from U-mode") []
  else if cause =? CAUSE_SUPERVISOR_ECALL then printf (ln "  Environment call from S-mode") []
  else printf (ln "  Unknown exception: %u") [ANum (s32 cause)].

(** The branch for interrupts. *)
Definition trap_interrupt (int_num : Z) : K tstate unit :=
  if int_num =? 1 then printf (ln "[TRAP] Software interrupt") []
  else if int_num =? 5 then zoom trap_sched sched_tick
  else if int_num =? 9 then printf (ln "[TRAP] External interrupt") []
  else printf (ln "[TRAP] Unknown interrupt: %u") [ANum (s32 int_num)].

(** The branch for exceptions. *)
Definition trap_exception (cause pc val : Z) : K tstate unit :=
  printf (LF :: ln "[TRAP] Exception occurred!") [] ;;
  printf (ln "  scause: %p") [ANum cause] ;;
  printf (ln "  sepc:   %p") [ANum pc] ;;
  printf (ln "  stval:  %p") [ANum val] ;;
  cause_message cause ;;
  panic (lit "Unhandled exception").

Definition trap_handler : K tstate unit :=
  let* cause := zoom trap_csr r_scause in
  let* pc := zoom trap_csr r_sepc in
  let* val := zoom trap_csr r_stval in
  if negb (Z.land cause INTERRUPT_BIT =? 0) then
    trap_interrupt (Z.land cause (u64 (Z.lnot INTERRUPT_BIT)))
  else trap_exception cause pc val.

(** ** Properties *)

(** The interrupt flag and the code of a cause. *)
Lemma cause_flag c : is_u64 c → (Z.land c INTERRUPT_BIT =? 0) = (c <? 2 ^ 63).
Proof.
  intros Hc. unfold is_u64 in Hc. unfold INTERRUPT_BIT. rewrite Z.land_comm.
  destruct (Z.ltb_spec c (2 ^ 63)) as [Hlt|Hge].
  - apply Z.eqb_eq, land_low_field; lia.
  - apply Z.eqb_neq. replace c with (Z.lor (Z.shiftl 1 63) (c - 2 ^ 63)) by (rewrite lor_low_field; lia).
    rewrite Z.land_lor_distr_r, Z.land_diag, land_low_field by lia. done.
Qed.

Lemma cause_code c : is_u64 c → 2 ^ 63 <= c → Z.land c (u64 (Z.lnot INTERRUPT_BIT)) = c - 2 ^ 63.
Proof.
  intros Hc Hge. unfold is_u64 in Hc. change (u64 (Z.lnot INTERRUPT_BIT)) with (Z.ones 63).
  rewrite Z.land_ones by lia. rewrite <- (Z_mod_plus_full _ (-1)), Z.mod_small by lia. lia.
Qed.

Lemma wp_cause_message c (Q : unit → tstate → Prop) H t : Q tt t → wp (cause_message c) Q H t.
Proof. intros HQ. unfold cause_message. do 10 (destruct (_ =? _); [by wp_printf|]). by wp_printf. Qed.

(** The handler's two branches, by the value of [scause]. *)
Lemma trap_handler_run t w :
  is_u64 (scause (t_csr t)) →
  trap_handler t w = (if scause (t_csr t) <? 2 ^ 63
    then trap_exception (scause (t_csr t)) (sepc (t_csr t)) (stval (t_csr t))
    else trap_interrupt (Z.land (scause (t_csr t)) (u64 (Z.lnot INTERRUPT_BIT)))) t w.
Proof.
  intros Hc. rewrite <- cause_flag by done. destruct t as [c s]. simpl.
  unfold trap_handler, bind, zoom. simpl. by destruct (_ =? 0).
Qed.

Lemma timer_trap t w :
  scause (t_csr t) = 2 ^ 63 + 5 → trap_handler t w = zoom trap_sched sched_tick t w.
Proof. intros Hc. rewrite trap_handler_run; rewrite Hc; [reflexivity|unfold is_u64; lia]. Qed.

Lemma wp_other_interrupt (Q : unit → tstate → Prop) H t :
  is_u64 (scause (t_csr t)) → 2 ^ 63 <= scause (t_csr t) → scause (t_csr t) ≠ 2 ^ 63 + 5 →
  Q tt t → wp trap_handler Q H t.
Proof.
  intros Hc Hge Hne HQ w. rewrite trap_handler_run by done. revert w.
  rewrite (proj2 (Z.ltb_ge _ _)), cause_code by done.
  fold (wp (trap_interrupt (scause (t_csr t) - 2 ^ 63)) Q H t). unfold trap_interrupt.
  destruct (_ =? 1); [by wp_printf|]. rewrite (proj2 (Z.eqb_neq (scause (t_csr t) - 2 ^ 63) 5)) by lia.
  destruct (_ =? 9); by wp_printf.
Qed.

Lemma wp_exception (Q : unit → tstate → Prop) (H : tstate → Prop) t :
  is_u64 (scause (t_csr t)) → scause (t_csr t) < 2 ^ 63 → H t → wp trap_handler Q H t.
Proof.
  intros Hc Hlt HH w. rewrite trap_handler_run by done. revert w. rewrite (proj2 (Z.ltb_lt _ _)) by done.
  fold (wp (trap_exception (scause (t_csr t)) (sepc (t_csr t)) (stval (t_csr t))) Q H t).
  unfold trap_exception. do 4 (apply wp_bind; wp_printf). by apply wp_bind, wp_cause_message, wp_panic.
Qed.

(** C23: the trap handler dispatches on [scause].  A timer interrupt runs
    [sched_tick] and nothing else; any other interrupt only prints, leaving
    every register and the scheduler as they were; an exception, whatever its
    code, never returns: it reports and halts the machine with the state
    unchanged.  The scheduler's invariant survives every trap. *)
Theorem trap_handler_spec (t : tstate) :
  is_u64 (scause (t_csr t)) →
  let cause := scause (t_csr t) in
  (cause = 2 ^ 63 + 5 → ∀ w, trap_handler t w = zoom trap_sched sched_tick t w) ∧
  (2 ^ 63 <= cause → cause ≠ 2 ^ 63 + 5 → wp trap_handler (λ _ t', t' = t) never t) ∧
  (cause < 2 ^ 63 → wp trap_handler (λ _ _, False) (λ t', t' = t) t) ∧
  (2 ^ 63 <= cause → sched_ok (t_sched t) →
   wps trap_handler (λ _ t', sched_ok (t_sched t')) (λ t', sched_ok (t_sched t')) (λ t', sched_ok (t_sched t')) t).
Proof.
  intros Hc cause. split_and!.
  - intros He w. by apply timer_trap.
  - intros Hge Hne. by apply wp_other_interrupt.
  - intros Hlt. by apply wp_exception.
  - intros Hge Hok. destruct (decide (cause = 2 ^ 63 + 5)) as [He|Hne].
    + intros w. rewrite timer_trap by done. revert w.
      eapply wps_mono; [by eapply (wps_zoom trap_sched sched_ok (λ _, True)), wps_tick_ok|..]; naive_solver.
    + by apply wps_of_wp, wp_other_interrupt.
Qed.

Definition sample_trap (cause : Z) : tstate :=
  TState (Csrs 0 0 0 0x80200000 cause 0) (demo SCHED_NORMAL [PProc 1] [] 7).

Lemma trap_handler_witness :
  is_u64 (2 ^ 63 + 5) ∧ sched_ok (t_sched (sample_trap 8)) ∧
  (∀ w, trap_handler (sample_trap (2 ^ 63 + 5)) w = zoom trap_sched sched_tick (sample_trap (2 ^ 63 + 5)) w) ∧
  wp trap_handler (λ _ _, False) (λ t', t' = sample_trap 8) (sample_trap 8).
Proof.
  split; [done|]. split; [by apply demo_ok|]. split.
  - destruct (trap_handler_spec (sample_trap (2 ^ 63 + 5))) as (Htick & _); [done|]. exact (Htick eq_refl).
  - destruct (trap_handler_spec (sample_trap 8)) as (_ & _ & Hexc & _); [done|]. exact (Hexc eq_refl).
Defined.

(** [trap_init] installs the trap vector and enables supervisor
    external, timer and software interrupts, keeping every other bit of [sie]
    and [sstatus]; the vector is in place before interrupts are enabled. *)
Theorem trap_init_spec (entry : Z) (c : csrs) (w : world) :
  ∃ c' out1 out2, trap_init entry c w = Ret tt c'
    (emits (map EvPutc out1 ++ [EvCsr CSR_STVEC entry; EvCsr CSR_SIE (sie c'); EvCsr CSR_SSTATUS (sstatus c')] ++
      map EvPutc out2) w) ∧
  stvec c' = entry ∧
  (∀ i, 0 <= i → Z.testbit (sie c') i = Z.testbit (sie c) i || bool_decide (i ∈ [1; 5; 9])) ∧
  (∀ i, 0 <= i → Z.testbit (sstatus c') i = Z.testbit (sstatus c) i || (i =? 1)) ∧
  sepc c' = sepc c ∧ scause c' = scause c ∧ stval c' = stval c.
Proof.
  destruct (printf_prints (S := csrs) (ln "[TRAP] Initializing trap handling") [] eq_refl) as [o1 Ho1].
  destruct (printf_prints (S := csrs) (ln "[TRAP] Trap vector set to %p") [ANum entry] eq_refl) as [o2 Ho2].
  exists (Csrs (Z.lor (sstatus c) SSTATUS_SIE) (Z.lor (Z.lor (Z.lor (sie c) SIE_SEIE) SIE_STIE) SIE_SSIE) entry
    (sepc c) (scause c) (stval c)), o1, o2. split_and!.
  - unfold trap_init, bind at 1. rewrite Ho1. simpl. unfold bind, modify, emit. simpl. rewrite Ho2.
    by rewrite !emits_emits.
  - done.
  - intros i Hi. cbn [sie]. rewrite !Z.lor_spec, <- !orb_assoc. f_equal.
    unfold SIE_SEIE, SIE_STIE, SIE_SSIE. rewrite !Z.shiftl_1_l, !Z.pow2_bits_eqb by lia.
    apply Bool.eq_iff_eq_true. rewrite !orb_true_iff, !Z.eqb_eq, bool_decide_eq_true, !elem_of_cons, elem_of_nil.
    intuition congruence.
  - intros i Hi. cbn [sstatus]. rewrite Z.lor_spec. f_equal. unfold SSTATUS_SIE.
    rewrite Z.shiftl_1_l, Z.pow2_bits_eqb by lia. apply Z.eqb_sym.
  - done.
  - done.
  - done.
Qed.
