(* ===== verification/Riscv.v ===== *)
(** The RV64 machine under the assembly files [kernel/process/swtch.S] and
    [bootloader/boot.S]: integer registers, the supervisor control registers,
    privilege mode and memory, and the instructions those files use.

    A routine is a list of instructions with its labels in place; the program
    counter is the list of instructions still to come.  A call of a C function
    stops the run: what the function does is then a relation between the machine
    at the call and the machine at the return.  Data addresses are those of the
    kernel's identity map. *)

From Stdlib Require Import String.
From S2P Require Import Prelude Machine Uart Printf Mm.
Local Open Scope string_scope.
Local Open Scope list_scope.
Local Open Scope Z_scope.

(** ** Registers *)

Definition reg : Set := nat.
(** [x1] to [x31] by number, and the names of the calling convention. *)
Definition X (n : nat) : reg := n.
Definition X0 : reg := 0%nat.
Definition RA : reg := 1%nat.
Definition SP : reg := 2%nat.
Definition GP : reg := 3%nat.
Definition TP : reg := 4%nat.
Definition T0 : reg := 5%nat.
Definition T1 : reg := 6%nat.
Definition T2 : reg := 7%nat.
Definition S0 : reg := 8%nat.
Definition S1 : reg := 9%nat.
Definition A0 : reg := 10%nat.
Definition A1 : reg := 11%nat.
Definition A2 : reg := 12%nat.
Definition S2 : reg := 18%nat.
Definition S3 : reg := 19%nat.
Definition S4 : reg := 20%nat.
Definition S5 : reg := 21%nat.
Definition S6 : reg := 22%nat.
Definition S7 : reg := 23%nat.
Definition S8 : reg := 24%nat.
Definition S9 : reg := 25%nat.
Definition S10 : reg := 26%nat.
Definition S11 : reg := 27%nat.

Inductive csr := SSTATUS | SIE | STVEC | SSCRATCH | SEPC | SCAUSE | STVAL | SIP | SATP.
#[export] Instance csr_eq_dec : EqDecision csr.
Proof. solve_decision. Defined.

Inductive mode := User | Supervisor.

(** Register files are total functions. *)
Definition wr {K V} `{EqDecision K} (k : K) (v : V) (f : K → V) : K → V :=
  λ k', if decide (k' = k) then v else f k'.

Record machine := Mach {
  gpr : reg → Z; csrf : csr → Z; priv : mode; ram : gmap Z Z }.

(** [x0] reads as zero and ignores writes. *)
Definition rget (r : reg) (m : machine) : Z := if decide (r = X0) then 0 else gpr m r.
Definition rput (r : reg) (v : Z) (m : machine) : machine :=
  Mach (wr r v (gpr m)) (csrf m) (priv m) (ram m).
Definition set_bit (v : Z) (i : Z) (b : bool) : Z := if b then Z.setbit v i else Z.clearbit v i.

(** What a write leaves in a control register: of [sip] only the software
    interrupt, bit 1, is writable; the other registers take the value. *)
Definition csr_written (k : csr) (v old : Z) : Z :=
  match k with SIP => set_bit old 1 (Z.testbit v 1) | _ => v end.
Definition set_csr (k : csr) (v : Z) (m : machine) : machine :=
  Mach (gpr m) (wr k (csr_written k v (csrf m k)) (csrf m)) (priv m) (ram m).
Definition set_ram (μ : gmap Z Z) (m : machine) : machine := Mach (gpr m) (csrf m) (priv m) μ.
Definition set_gpr (f : reg → Z) (m : machine) : machine := Mach f (csrf m) (priv m) (ram m).

(** ** Instructions *)

Inductive instr :=
  | LABEL (l : string)
  | SD (rs : reg) (off : Z) (base : reg)
  | LD (rd : reg) (off : Z) (base : reg)
  | ADDI (rd rs : reg) (imm : Z)
  | LI (rd : reg) (imm : Z)
  | LA (rd : reg) (symbol : Z)
  | MV (rd rs : reg)
  | BEQZ (rs : reg) (l : string)
  | BEQ (rs1 rs2 : reg) (l : string)
  | J (l : string)
  | CALL (f : string) (return_to : Z)
  | RET
  | SRET
  | CSRW (k : csr) (rs : reg)
  | CSRR (rd : reg) (k : csr)
  | CSRRW (rd : reg) (k : csr) (rs : reg)
  | SFENCE_VMA
  | WFI.

(** [sret]: back to the mode in SPP with SPIE as the interrupt enable; SPIE is
    set and SPP cleared. *)
Definition sret (m : machine) : machine :=
  let st := csrf m SSTATUS in
  let st' := set_bit (set_bit (set_bit st 1 (Z.testbit st 5)) 5 true) 8 false in
  Mach (gpr m) (wr SSTATUS st' (csrf m)) (if Z.testbit st 8 then Supervisor else User) (ram m).

(** A trap taken at [pc]: the hart saves where it was, and continues at [stvec]
    in supervisor mode with interrupts off. *)
Definition take_trap (cause pc : Z) (m : machine) : machine :=
  let st := csrf m SSTATUS in
  let st' := set_bit (set_bit (set_bit st 5 (Z.testbit st 1)) 1 false) 8
               (match priv m with Supervisor => true | User => false end) in
  Mach (gpr m) (wr SCAUSE cause (wr SEPC pc (wr SSTATUS st' (csrf m)))) Supervisor (ram m).

(** ** Execution *)

Inductive outcome :=
  | Jumped (target : Z) (m : machine)            (* [ret] *)
  | Resumed (pc : Z) (m : machine)               (* [sret] *)
  | Called (f : string) (rest : list instr) (m : machine)
  | Excepted (m : machine)                       (* access fault *)
  | OutOfCode (m : machine)
  | OutOfFuel (m : machine).

Fixpoint after_label (l : string) (code : list instr) : list instr :=
  match code with
  | [] => []
  | LABEL l' :: rest => if decide (l = l') then rest else after_label l rest
  | _ :: rest => after_label l rest
  end.

Fixpoint run (fuel : nat) (code rest : list instr) (m : machine) : outcome :=
  match fuel with
  | O => OutOfFuel m
  | Datatypes.S fuel =>
      match rest with
      | [] => OutOfCode m
      | i :: rest =>
          match i with
          | LABEL _ | SFENCE_VMA | WFI => run fuel code rest m
          | SD rs off base =>
              let a := u64 (rget base m + off) in
              if ram_word a then run fuel code rest (set_ram (<[a:=rget rs m]> (ram m)) m)
              else Excepted m
          | LD rd off base =>
              let a := u64 (rget base m + off) in
              if ram_word a then run fuel code rest (rput rd (Mm.rd (ram m) a) m)
              else Excepted m
          | ADDI rd rs imm => run fuel code rest (rput rd (u64 (rget rs m + imm)) m)
          | LI rd imm => run fuel code rest (rput rd (u64 imm) m)
          | LA rd symbol => run fuel code rest (rput rd symbol m)
          | MV rd rs => run fuel code rest (rput rd (rget rs m) m)
          | BEQZ rs l => run fuel code (if rget rs m =? 0 then after_label l code else rest) m
          | BEQ rs1 rs2 l =>
              run fuel code (if rget rs1 m =? rget rs2 m then after_label l code else rest) m
          | J l => run fuel code (after_label l code) m
          | CALL f return_to => Called f rest (rput RA return_to m)
          | RET => Jumped (rget RA m) m
          | SRET => Resumed (csrf m SEPC) (sret m)
          | CSRW k rs => run fuel code rest (set_csr k (rget rs m) m)
          | CSRR rd k => run fuel code rest (rput rd (csrf m k) m)
          | CSRRW rd k rs => run fuel code rest (rput rd (csrf m k) (set_csr k (rget rs m) m))
          end
      end
  end.

(** The whole routine. *)
Definition exec (fuel : nat) (code : list instr) : machine → outcome := run fuel code code.

(** ** Register files *)

Lemma wr_eq {K V} `{EqDecision K} (k : K) (v : V) f : wr k v f k = v.
Proof. unfold wr. by rewrite decide_True. Qed.
Lemma wr_ne {K V} `{EqDecision K} (k k' : K) (v : V) f : k' ≠ k → wr k v f k' = f k'.
Proof. intros Hne. unfold wr. by rewrite decide_False. Qed.
Lemma rget_gpr r m : r ≠ X0 → rget r m = gpr m r.
Proof. intros Hr. unfold rget. by rewrite decide_False. Qed.

(** ** Branches *)

Lemma run_beqz k code rest m r l :
  run (Datatypes.S k) code (BEQZ r l :: rest) m =
  run k code (if rget r m =? 0 then after_label l code else rest) m.
Proof. done. Qed.
Lemma run_beq k code rest m r r' l :
  run (Datatypes.S k) code (BEQ r r' l :: rest) m =
  run k code (if rget r m =? rget r' m then after_label l code else rest) m.
Proof. done. Qed.
Lemma run_label k code rest m l :
  run (Datatypes.S k) code (LABEL l :: rest) m = run k code rest m.
Proof. done. Qed.

(** ** Blocks of stores and loads

    Both files save and restore registers with runs of [sd] and [ld] off one base
    register; [slots] pairs each register with its offset. *)

Definition slots : Type := list (reg * Z).
Definition saves (b : reg) (l : slots) : list instr := (λ '(r, o), SD r o b) <$> l.
Definition restores (b : reg) (l : slots) : list instr := (λ '(r, o), LD r o b) <$> l.

(** Memory after the saves, registers after the loads. *)
Definition saved (a : Z) (f : reg → Z) (l : slots) (μ : gmap Z Z) : gmap Z Z :=
  foldl (λ μ '(r, o), <[a + o := f r]> μ) μ l.
Definition restored (a : Z) (μ : gmap Z Z) (l : slots) (f : reg → Z) : reg → Z :=
  foldl (λ f '(r, o), wr r (rd μ (a + o)) f) f l.

(** The block at [a] is in RAM and aligned: [n] bytes. *)
Definition block_ok (a n : Z) : Prop := a mod 8 = 0 ∧ RAM_BASE <= a ∧ a + n <= RAM_END.
Definition slots_ok (n : Z) (l : slots) : Prop :=
  Forall (λ '(r, o), r ≠ X0 ∧ 0 <= o ∧ o + 8 <= n ∧ o mod 8 = 0) l.

Lemma block_word a n o :
  block_ok a n → 0 <= o → o + 8 <= n → o mod 8 = 0 →
  u64 (a + o) = a + o ∧ ram_word (a + o) = true.
Proof.
  unfold block_ok, RAM_BASE, RAM_END. intros (Ha & Hlo & Hhi) Ho Hn Hm. split.
  - apply u64_id. unfold is_u64. lia.
  - apply ram_word_true. unfold RAM_BASE, RAM_END. split; [lia|]. Z.div_mod_to_equations; lia.
Qed.

Lemma run_saves b n l k code rest m :
  b ≠ X0 → block_ok (gpr m b) n → slots_ok n l →
  run (length l + k) code (saves b l ++ rest) m =
  run k code rest (set_ram (saved (gpr m b) (gpr m) l (ram m)) m).
Proof.
  intros Hb Hok Hl. revert m Hok. induction Hl as [|[r o] l (Hr & Ho & Hn & Hm) Hl IH]; intros m Hok.
  - by destruct m.
  - destruct (block_word _ _ o Hok Ho Hn Hm) as [Hu Hw].
    cbn [length plus saves fmap list_fmap app run]. rewrite !rget_gpr, Hu, Hw by done.
    etrans; [apply IH; exact Hok|]. done.
Qed.

Lemma run_restores b n l k code rest m :
  b ≠ X0 → b ∉ l.*1 → block_ok (gpr m b) n → slots_ok n l →
  run (length l + k) code (restores b l ++ rest) m =
  run k code rest (set_gpr (restored (gpr m b) (ram m) l (gpr m)) m).
Proof.
  intros Hb Hin Hok Hl. revert m Hok. induction Hl as [|[r o] l (Hr & Ho & Hn & Hm) Hl IH]; intros m Hok.
  - by destruct m.
  - apply not_elem_of_cons in Hin as [Hne Hin]. cbn in Hne.
    destruct (block_word _ _ o Hok Ho Hn Hm) as [Hu Hw].
    cbn [length plus restores fmap list_fmap app run]. rewrite !rget_gpr, Hu, Hw by done.
    etrans; [apply (IH Hin); cbn [gpr rput]; by rewrite wr_ne|].
    cbn [gpr rput ram]. by rewrite wr_ne by done.
Qed.

(** What a saved block holds, and what it leaves alone. *)
Lemma saved_other a f l μ b : (∀ o, o ∈ l.*2 → b ≠ a + o) → rd (saved a f l μ) b = rd μ b.
Proof.
  revert μ. induction l as [|[r o] l IH]; intros μ Hb; [done|].
  cbn [saved foldl]. etrans; [apply (IH (<[a + o:=f r]> μ))|].
  - intros o' Ho'. apply Hb. by right.
  - apply rd_insert_ne. specialize (Hb o ltac:(by left)). done.
Qed.

Lemma saved_slot a f l μ r o : NoDup l.*2 → (r, o) ∈ l → rd (saved a f l μ) (a + o) = f r.
Proof.
  revert μ. induction l as [|[r' o'] l IH]; intros μ Hnd Hin; [by apply not_elem_of_nil in Hin|].
  apply NoDup_cons in Hnd as [Hnin Hnd]. cbn [saved foldl].
  apply elem_of_cons in Hin as [[= -> ->]|Hin]; [|by apply (IH (<[a + o':=f r']> μ))].
  etrans; [apply (saved_other a f l (<[a + o':=f r']> μ))|apply rd_insert].
  intros o Ho Heq. by assert (o = o') as -> by lia.
Qed.

Lemma restored_other a μ l f r : r ∉ l.*1 → restored a μ l f r = f r.
Proof.
  revert f. induction l as [|[r' o'] l IH]; intros f Hr; [done|].
  apply not_elem_of_cons in Hr as [Hne Hr]. cbn [restored foldl].
  etrans; [by apply (IH (wr r' (rd μ (a + o')) f))|]. by apply wr_ne.
Qed.

Lemma restored_slot a μ l f r o : NoDup l.*1 → (r, o) ∈ l → restored a μ l f r = rd μ (a + o).
Proof.
  revert f. induction l as [|[r' o'] l IH]; intros f Hnd Hin; [by apply not_elem_of_nil in Hin|].
  apply NoDup_cons in Hnd as [Hnin Hnd]. cbn [restored foldl].
  apply elem_of_cons in Hin as [[= -> ->]|Hin]; [|by apply (IH (wr r' (rd μ (a + o')) f))].
  etrans; [by apply (restored_other a μ l (wr r' (rd μ (a + o')) f))|apply wr_eq].
Qed.

(** ** Calls of C functions

    The calling convention: [sp], [gp], [tp] and [s0] to [s11] come back
    unchanged and the function returns through [ra]; the caller's own frame, [n]
    bytes from [sp], is not touched. *)

Definition callee_saved : list reg :=
  [SP; GP; TP; S0; S1; S2; S3; S4; S5; S6; S7; S8; S9; S10; S11].

Record returns (n : Z) (m m' : machine) : Prop := {
  ret_saved r : r ∈ callee_saved → gpr m' r = gpr m r;
  ret_ra : gpr m' RA = gpr m RA;
  ret_frame a : gpr m SP <= a < gpr m SP + n → rd (ram m') a = rd (ram m) a;
  ret_mode : priv m' = priv m }.
