(* ===== verification/Swtch.v ===== *)
(** The context switch, [swtch] of [kernel/process/swtch.S], and its refinement:
    the instructions carry out the switch that the scheduler's model performs on
    process records. *)

From Stdlib Require Import String.
From S2P Require Import Prelude Machine Uart Printf Mm Process Queues Scheduler Riscv.
Local Open Scope string_scope.
Local Open Scope list_scope.
Local Open Scope Z_scope.

(** ** The code *)

Definition swtch_code : list instr :=
  [ BEQZ A0 "restore_new";
    SD RA 0 A0; SD SP 8 A0; SD S0 16 A0; SD S1 24 A0; SD S2 32 A0; SD S3 40 A0; SD S4 48 A0;
    SD S5 56 A0; SD S6 64 A0; SD S7 72 A0; SD S8 80 A0; SD S9 88 A0; SD S10 96 A0; SD S11 104 A0;
    LABEL "restore_new";
    BEQZ A1 "done";
    LD RA 0 A1; LD SP 8 A1; LD S0 16 A1; LD S1 24 A1; LD S2 32 A1; LD S3 40 A1; LD S4 48 A1;
    LD S5 56 A1; LD S6 64 A1; LD S7 72 A1; LD S8 80 A1; LD S9 88 A1; LD S10 96 A1; LD S11 104 A1;
    LABEL "done";
    RET ].

(** One instruction per round: 14 saves, 14 loads, two branches, two labels and
    the return. *)
Definition swtch_fuel : nat := 33%nat.

(** ** [context_t] in memory *)

(** The fields of [context_t] with their offsets. *)
Definition ctx_slots : slots :=
  [ (RA, 0); (SP, 8); (S0, 16); (S1, 24); (S2, 32); (S3, 40); (S4, 48);
    (S5, 56); (S6, 64); (S7, 72); (S8, 80); (S9, 88); (S10, 96); (S11, 104) ].
Definition CTX_SIZE : Z := 112.

(** The callee-saved registers, and the structure at [a], as the model's record. *)
Definition ctx_of (f : reg → Z) : context :=
  Context_ (f RA) (f SP) (f S0) (f S1) (f S2) (f S3) (f S4) (f S5) (f S6) (f S7) (f S8) (f S9)
    (f S10) (f S11).
Definition read_ctx (μ : gmap Z Z) (a : Z) : context :=
  Context_ (rd μ (a + 0)) (rd μ (a + 8)) (rd μ (a + 16)) (rd μ (a + 24)) (rd μ (a + 32))
    (rd μ (a + 40)) (rd μ (a + 48)) (rd μ (a + 56)) (rd μ (a + 64)) (rd μ (a + 72))
    (rd μ (a + 80)) (rd μ (a + 88)) (rd μ (a + 96)) (rd μ (a + 104)).

Lemma ctx_slots_ok : slots_ok CTX_SIZE ctx_slots.
Proof. unfold slots_ok, ctx_slots, CTX_SIZE. repeat constructor; done. Qed.

Lemma ctx_slots_offsets o : o ∈ ctx_slots.*2 → 0 <= o ∧ o + 8 <= CTX_SIZE.
Proof.
  rewrite list_elem_of_fmap. intros ([r o'] & -> & Hin).
  pose proof ctx_slots_ok as Hok. unfold slots_ok in Hok. rewrite Forall_forall in Hok.
  destruct (Hok _ Hin) as (_ & ? & ? & _). done.
Qed.

Lemma ctx_slots_nodup : NoDup ctx_slots.*2.
Proof. by apply (bool_decide_unpack _). Qed.

(** Saving writes the registers into the structure, loading does the reverse;
    a structure elsewhere is not affected. *)
Lemma read_ctx_saved a f μ : read_ctx (saved a f ctx_slots μ) a = ctx_of f.
Proof.
  unfold read_ctx, ctx_of.
  f_equal; (apply saved_slot; [exact ctx_slots_nodup|]; by apply (bool_decide_unpack _)).
Qed.

Lemma ctx_of_restored a μ f : ctx_of (restored a μ ctx_slots f) = read_ctx μ a.
Proof. done. Qed.

Lemma read_ctx_other a b f μ :
  a + CTX_SIZE <= b ∨ b + CTX_SIZE <= a → read_ctx (saved a f ctx_slots μ) b = read_ctx μ b.
Proof.
  unfold CTX_SIZE. intros Hd. unfold read_ctx.
  f_equal; (apply saved_other; intros o Ho; apply ctx_slots_offsets in Ho; unfold CTX_SIZE in Ho; lia).
Qed.

(** ** What the code does *)

(** A [context_t *] argument: NULL or an aligned structure in RAM. *)
Definition ctx_ptr (a : Z) : Prop := a = 0 ∨ block_ok a CTX_SIZE.

Definition swtch_ram (m : machine) : gmap Z Z :=
  if gpr m A0 =? 0 then ram m else saved (gpr m A0) (gpr m) ctx_slots (ram m).
Definition swtch_gpr (m : machine) : reg → Z :=
  if gpr m A1 =? 0 then gpr m else restored (gpr m A1) (swtch_ram m) ctx_slots (gpr m).

Lemma block_ok_nonzero a n : block_ok a n → (a =? 0) = false.
Proof. unfold block_ok, RAM_BASE. intros. apply Z.eqb_neq. lia. Qed.

(** Rounds left for the second half when the first skips its saves. *)
Lemma swtch_saves k m :
  ctx_ptr (gpr m A0) →
  run (Datatypes.S (length ctx_slots + Datatypes.S k)) swtch_code swtch_code m =
  run (if gpr m A0 =? 0 then length ctx_slots + Datatypes.S k else k) swtch_code
    (after_label "restore_new" swtch_code) (set_ram (swtch_ram m) m).
Proof.
  intros Hp. unfold swtch_ram. change swtch_code with
    (BEQZ A0 "restore_new" :: saves A0 ctx_slots ++ LABEL "restore_new" ::
       after_label "restore_new" swtch_code) at 2.
  rewrite run_beqz, rget_gpr by done. destruct Hp as [Hz|Hok].
  - rewrite Hz. by destruct m.
  - rewrite (block_ok_nonzero _ _ Hok).
    by rewrite (run_saves A0 CTX_SIZE ctx_slots _ _ _ _ ltac:(done) Hok ctx_slots_ok), run_label.
Qed.

Lemma swtch_loads k m :
  ctx_ptr (gpr m A1) →
  let f := if gpr m A1 =? 0 then gpr m else restored (gpr m A1) (ram m) ctx_slots (gpr m) in
  run (Datatypes.S (length ctx_slots + (2 + k))) swtch_code (after_label "restore_new" swtch_code) m =
  Jumped (f RA) (set_gpr f m).
Proof.
  intros Hp f. change (after_label "restore_new" swtch_code) with
    (BEQZ A1 "done" :: restores A1 ctx_slots ++ [LABEL "done"; RET]).
  rewrite run_beqz, rget_gpr by done. subst f. destruct Hp as [Hz|Hok].
  - rewrite Hz. by destruct m.
  - rewrite (block_ok_nonzero _ _ Hok).
    by rewrite (run_restores A1 CTX_SIZE ctx_slots _ _ _ _ ltac:(done)
      ltac:(by apply (bool_decide_unpack _)) Hok ctx_slots_ok).
Qed.

(** The whole routine, on every branch. *)
Lemma swtch_run m :
  ctx_ptr (gpr m A0) → ctx_ptr (gpr m A1) →
  exec swtch_fuel swtch_code m =
  Jumped (swtch_gpr m RA) (Mach (swtch_gpr m) (csrf m) (priv m) (swtch_ram m)).
Proof.
  intros H0 H1. unfold exec.
  change swtch_fuel with (Datatypes.S (length ctx_slots + Datatypes.S (Datatypes.S (length ctx_slots + (2 + 0))))).
  rewrite swtch_saves by done. destruct (gpr m A0 =? 0);
    [change (length ctx_slots + _)%nat with (Datatypes.S (length ctx_slots + (2 + 15))) at 1|]; by rewrite swtch_loads.
Qed.

(** ** Process records in memory *)

(** Where the linker puts [proc_table] and [idle_processes]; a [process_t] has 256
    bytes with its [context] at offset 24. *)
Class ProcLayout := { proc_table_addr : Z; idle_processes_addr : Z }.
Definition SIZEOF_PROCESS : Z := 256.
Definition OFFSETOF_CONTEXT : Z := 24.

Class ProcLayoutOk (PL : ProcLayout) : Prop := {
  proc_table_block : block_ok proc_table_addr (64 * 256);
  idle_processes_block : block_ok idle_processes_addr (8 * 256);
  tables_apart : proc_table_addr + 64 * 256 <= idle_processes_addr ∨
                 idle_processes_addr + 8 * 256 <= proc_table_addr }.

Section Refinement.
Context {PL : ProcLayout} {PO : ProcLayoutOk PL}.

(** [&p->context] *)
Definition ctx_addr (r : procref) : Z :=
  match r with
  | PProc i => proc_table_addr + Z.of_nat i * SIZEOF_PROCESS + OFFSETOF_CONTEXT
  | PIdle i => idle_processes_addr + Z.of_nat i * SIZEOF_PROCESS + OFFSETOF_CONTEXT
  end.
Definition ctx_arg (r : option procref) : Z :=
  match r with Some r => ctx_addr r | None => 0 end.

(** The machine holds the scheduler's state: the registers of the CPU and the
    saved context of every process. *)
Record holds (s : sstate) (m : machine) : Prop := {
  hd_regs : regs s = ctx_of (gpr m);
  hd_context r p : lookup_proc r (ps s) = Some p → read_ctx (ram m) (ctx_addr r) = p_context p;
  hd_table : length (proc_table (ps s)) = 64%nat;
  hd_idle : length (idle_processes (ps s)) = 8%nat }.

(** A process pointer is NULL or points to a record of the tables. *)
Definition known (r : option procref) (s : sstate) : Prop :=
  match r with Some r => is_Some (lookup_proc r (ps s)) | None => True end.

Lemma known_index r s m :
  holds s m → is_Some (lookup_proc r (ps s)) →
  match r with PProc i => Z.of_nat i < 64 | PIdle i => Z.of_nat i < 8 end.
Proof.
  intros [_ _ Ht Hi] [p Hp]. destruct r; cbn [lookup_proc] in Hp; apply lookup_lt_Some in Hp; lia.
Qed.

Lemma ctx_addr_block r s m :
  holds s m → is_Some (lookup_proc r (ps s)) → block_ok (ctx_addr r) CTX_SIZE.
Proof.
  intros Hh Hr. pose proof (known_index _ _ _ Hh Hr) as Hi.
  pose proof proc_table_block as [Hp1 Hp2]. pose proof idle_processes_block as [Hi1 Hi2].
  unfold block_ok, ctx_addr, CTX_SIZE, SIZEOF_PROCESS, OFFSETOF_CONTEXT in *.
  destruct r; (split; [Z.div_mod_to_equations; lia|lia]).
Qed.

Lemma ctx_arg_ptr r s m : holds s m → known r s → ctx_ptr (ctx_arg r).
Proof. intros Hh Hr. destruct r; [right; by eapply ctx_addr_block|by left]. Qed.

Lemma ctx_addr_apart r q s m :
  holds s m → is_Some (lookup_proc r (ps s)) → is_Some (lookup_proc q (ps s)) → r ≠ q →
  ctx_addr r + CTX_SIZE <= ctx_addr q ∨ ctx_addr q + CTX_SIZE <= ctx_addr r.
Proof.
  intros Hh Hr Hq Hne. pose proof (known_index _ _ _ Hh Hr). pose proof (known_index _ _ _ Hh Hq).
  pose proof tables_apart. unfold ctx_addr, CTX_SIZE, SIZEOF_PROCESS, OFFSETOF_CONTEXT.
  destruct r as [i|i], q as [j|j]; [| lia | lia |];
    (assert (i ≠ j) by congruence; lia).
Qed.

(** The two halves of the switch. *)
Definition after_save (old : option procref) (s : sstate) : sstate :=
  match old with Some r => set_ps (update_proc r (set_context (regs s)) (ps s)) s | None => s end.

Lemma save_holds old s m :
  holds s m → known old s → gpr m A0 = ctx_arg old →
  holds (after_save old s) (set_ram (swtch_ram m) m).
Proof.
  intros Hh Hk HA. unfold swtch_ram. rewrite HA. destruct old as [r|]; cbn [ctx_arg known after_save] in *.
  - rewrite (block_ok_nonzero _ _ (ctx_addr_block _ _ _ Hh Hk)). destruct Hk as [p Hp].
    constructor; cbn [regs ps set_ps gpr ram set_ram]; [apply Hh| |..].
    + intros q p' Hq. rewrite lookup_update in Hq. case_decide as Hrq.
      * subst q. rewrite Hp in Hq. injection Hq as <-. rewrite read_ctx_saved. symmetry. apply Hh.
      * rewrite read_ctx_other by (by eapply ctx_addr_apart). by apply Hh.
    + rewrite (update_put _ _ _ _ Hp), (proj1 (put_proc_shape _ _ _)). apply Hh.
    + rewrite (update_put _ _ _ _ Hp), (proj1 (proj2 (put_proc_shape _ _ _))). apply Hh.
  - by destruct m.
Qed.

Lemma load_holds r p s m :
  holds s m → lookup_proc r (ps s) = Some p →
  holds (set_regs (p_context p) s) (set_gpr (restored (ctx_addr r) (ram m) ctx_slots (gpr m)) m).
Proof.
  intros Hh Hp. constructor; cbn [regs set_regs gpr set_gpr ram ps]; try apply Hh.
  rewrite ctx_of_restored. symmetry. by apply Hh.
Qed.
End Refinement.

(** What the code does not touch. *)
Record untouched (old : Z) (m m' : machine) : Prop := {
  un_gpr r : r ∉ ctx_slots.*1 → gpr m' r = gpr m r;
  un_csr : csrf m' = csrf m;
  un_priv : priv m' = priv m;
  un_ram a : old = 0 ∨ a < old ∨ old + CTX_SIZE <= a → rd (ram m') a = rd (ram m) a }.

Lemma swtch_untouched m : untouched (gpr m A0) m (Mach (swtch_gpr m) (csrf m) (priv m) (swtch_ram m)).
Proof.
  constructor; cbn [gpr csrf priv ram]; [|done|done|].
  - intros r Hr. unfold swtch_gpr. case_match; [done|]. by apply restored_other.
  - intros a Ha. unfold swtch_ram. case_match eqn:Hz; [done|]. apply Z.eqb_neq in Hz.
    apply saved_other. intros o Ho. apply ctx_slots_offsets in Ho. unfold CTX_SIZE in *. lia.
Qed.

(** The model's switch in terms of its two halves. *)
Lemma swtch_model old new s w :
  known old s → known new s →
  match new with
  | None => swtch old new s w = Ret tt (after_save old s) w
  | Some r => ∃ p, lookup_proc r (ps (after_save old s)) = Some p ∧
      swtch old new s w =
        (if old then Switch (set_regs (p_context p) (after_save old s)) w (λ s' w', Ret tt s' w')
         else Leave (set_regs (p_context p) (after_save old s)) w)
  end.
Proof.
  intros Ho Hn. unfold swtch, upd, deref, bind, gets, modify, lift_opt, ret.
  destruct old as [q|], new as [r|]; cbn [known after_save ps set_ps] in *.
  - destruct Ho as [po Ho], Hn as [pn Hn]. rewrite lookup_update, Hn. cbn. rewrite Ho. cbn.
    rewrite lookup_update, Hn. case_decide; cbn; eauto.
  - destruct Ho as [po Ho]. cbn. by rewrite Ho.
  - destruct Hn as [pn Hn]. exists pn. split; [done|]. cbn. by rewrite Hn.
  - done.
Qed.

(** C5: The instructions of [swtch] carry out the switch of the scheduler's
    model.  When the machine holds the scheduler's state (the callee-saved
    registers, and the context of every process at its address) and the
    arguments point to contexts or are NULL, the routine ends, by jumping to the
    return address in the CPU's new register context, in a machine that holds
    the state the model switches to: with both contexts the caller is suspended,
    without an old context nothing is saved and the caller is gone, without a new
    one the call returns.  No other register, control register or word of memory
    changes. *)
Theorem swtch_refines {PL : ProcLayout} {PO : ProcLayoutOk PL} (old new : option procref) (s : sstate) (w : world)
    (m : machine) :
  holds s m → known old s → known new s → gpr m A0 = ctx_arg old → gpr m A1 = ctx_arg new →
  ∃ s' m', exec swtch_fuel swtch_code m = Jumped (c_ra (regs s')) m' ∧ holds s' m' ∧
    untouched (ctx_arg old) m m' ∧
    match old, new with
    | _, None => swtch old new s w = Ret tt s' w
    | None, Some _ => swtch old new s w = Leave s' w
    | Some _, Some _ => swtch old new s w = Switch s' w (λ s' w', Ret tt s' w')
    end.
Proof.
  intros Hh Ho Hn H0 H1.
  pose proof (save_holds old s m Hh Ho H0) as Hs. pose proof (swtch_untouched m) as Hun.
  pose proof (swtch_model old new s w Ho Hn) as Hm. rewrite <- H0.
  pose proof (swtch_run m) as Hrun. rewrite H0, H1 in Hrun.
  specialize (Hrun (ctx_arg_ptr _ _ _ Hh Ho) (ctx_arg_ptr _ _ _ Hh Hn)).
  unfold swtch_gpr in *. rewrite H1 in *. destruct new as [r|]; cbn [ctx_arg known] in *.
  - destruct Hm as (p & Hp & Hm). rewrite (block_ok_nonzero _ _ (ctx_addr_block _ _ _ Hh Hn)) in *.
    pose proof (load_holds r p _ _ Hs Hp) as Hl. eexists _, _.
    split; [rewrite Hrun; f_equal; exact (f_equal c_ra (eq_sym (hd_regs _ _ Hl)))|].
    split; [exact Hl|]. split; [exact Hun|]. by destruct old.
  - eexists _, _. split; [rewrite Hrun; f_equal; exact (f_equal c_ra (eq_sym (hd_regs _ _ Hs)))|].
    split; [exact Hs|]. split; [exact Hun|]. by destruct old.
Qed.

(** A saved context is loaded again, and [swtch] changes no control register. *)
Lemma swtch_back (m m1 m2 : machine) (target : Z) :
  block_ok (gpr m A0) CTX_SIZE → ctx_ptr (gpr m A1) →
  exec swtch_fuel swtch_code m = Jumped target m1 →
  read_ctx (ram m2) (gpr m A0) = read_ctx (ram m1) (gpr m A0) →
  gpr m2 A1 = gpr m A0 →
  gpr m2 A0 = 0 ∨ block_ok (gpr m2 A0) CTX_SIZE ∧
    (gpr m2 A0 + CTX_SIZE <= gpr m A0 ∨ gpr m A0 + CTX_SIZE <= gpr m2 A0) →
  ∃ m3, exec swtch_fuel swtch_code m2 = Jumped (gpr m RA) m3 ∧ ctx_of (gpr m3) = ctx_of (gpr m) ∧ csrf m3 = csrf m2.
Proof.
  intros Hold Hnew Hrun Hkept HA1 HA0. rewrite swtch_run in Hrun; [|by right|done].
  injection Hrun as _ <-. cbn [ram] in Hkept. unfold swtch_ram in Hkept.
  rewrite (block_ok_nonzero _ _ Hold), read_ctx_saved in Hkept.
  rewrite swtch_run; [|destruct HA0 as [?|[? _]]; [by left|by right]|right; by rewrite HA1].
  assert (ctx_of (swtch_gpr m2) = ctx_of (gpr m)) as Hctx.
  { unfold swtch_gpr. rewrite HA1, (block_ok_nonzero _ _ Hold), ctx_of_restored, <- Hkept.
    unfold swtch_ram. destruct HA0 as [->|[Hb Hd]]; [done|].
    rewrite (block_ok_nonzero _ _ Hb). by apply read_ctx_other. }
  eexists. split; [f_equal; exact (f_equal c_ra Hctx)|by split].
Qed.

(** C17: A context that was switched out comes back as it was.  A routine that
    calls [swtch(old, new)] has its callee-saved registers and its return address
    back when anybody calls [swtch(other, old)] later, whatever ran in between, as
    long as the saved structure was left alone. *)
Theorem swtch_comes_back (m m1 m2 : machine) (target : Z) :
  block_ok (gpr m A0) CTX_SIZE → ctx_ptr (gpr m A1) →
  exec swtch_fuel swtch_code m = Jumped target m1 →
  read_ctx (ram m2) (gpr m A0) = read_ctx (ram m1) (gpr m A0) →
  gpr m2 A1 = gpr m A0 →
  gpr m2 A0 = 0 ∨ block_ok (gpr m2 A0) CTX_SIZE ∧
    (gpr m2 A0 + CTX_SIZE <= gpr m A0 ∨ gpr m A0 + CTX_SIZE <= gpr m2 A0) →
  ∃ m3, exec swtch_fuel swtch_code m2 = Jumped (gpr m RA) m3 ∧ ctx_of (gpr m3) = ctx_of (gpr m).
Proof.
  intros Hold Hnew Hrun Hkept HA1 HA0.
  destruct (swtch_back m m1 m2 target Hold Hnew Hrun Hkept HA1 HA0) as (m3 & H1 & H2 & _). by exists m3.
Qed.

(** ** Instances *)

Definition sample_tables : ProcLayout := {| proc_table_addr := 0x80208000; idle_processes_addr := 0x8020C000 |}.
Lemma sample_tables_ok : ProcLayoutOk sample_tables.
Proof.
  constructor; unfold block_ok, RAM_BASE, RAM_END; cbn [proc_table_addr idle_processes_addr sample_tables];
    [split; [done|lia]|split; [done|lia]|lia].
Qed.

(** The CPU in process 0, about to switch to process 1. *)
Definition sample_gpr : reg → Z :=
  wr A0 (ctx_addr (PL := sample_tables) (PProc 0)) (wr A1 (ctx_addr (PL := sample_tables) (PProc 1))
    (wr RA 0x80201000 (wr SP 0x80230000 (λ _, 7)))).
Definition sample_cpu : machine := Mach sample_gpr (λ _, 0) Supervisor ∅.
Definition sample_procs : sstate :=
  SState (PState (replicate 64 process_zero) (replicate 8 process_zero) 1 0) [] (RtQueue [] 0) [] 1 0
    (ctx_of sample_gpr).

Lemma sample_holds : holds (PL := sample_tables) sample_procs sample_cpu.
Proof.
  constructor; [done| |done|done]. intros r p Hp. assert (p = process_zero) as ->; [|done].
  destruct r; cbn [lookup_proc ps sample_procs proc_table idle_processes] in Hp;
    by apply lookup_replicate in Hp as [-> _].
Qed.

Lemma swtch_refines_witness :
  ∃ s' m', exec swtch_fuel swtch_code sample_cpu = Jumped (c_ra (regs s')) m' ∧
    holds (PL := sample_tables) s' m' ∧
    untouched (ctx_arg (PL := sample_tables) (Some (PProc 0))) sample_cpu m' ∧
    swtch (Some (PProc 0)) (Some (PProc 1)) sample_procs (mkWorld [] []) =
      Switch s' (mkWorld [] []) (λ s' w', Ret tt s' w').
Proof.
  apply (swtch_refines (PL := sample_tables) (PO := sample_tables_ok) (Some (PProc 0)) (Some (PProc 1))
    sample_procs (mkWorld [] []) sample_cpu sample_holds); [by eexists|by eexists|done|done].
Defined.

Lemma swtch_comes_back_witness :
  ∃ m3, exec swtch_fuel swtch_code
      (Mach (wr A0 0 (wr A1 (gpr sample_cpu A0) (λ _, 3))) (λ _, 0) Supervisor (swtch_ram sample_cpu)) =
      Jumped 0x80201000 m3 ∧ ctx_of (gpr m3) = ctx_of (gpr sample_cpu).
Proof.
  assert (block_ok (gpr sample_cpu A0) CTX_SIZE) as Hb
    by (apply (ctx_addr_block (PO := sample_tables_ok) (PProc 0) _ _ sample_holds); by eexists).
  assert (ctx_ptr (gpr sample_cpu A1)) as Hn
    by (apply (ctx_arg_ptr (PO := sample_tables_ok) (Some (PProc 1)) _ _ sample_holds); by eexists).
  apply (swtch_comes_back sample_cpu (Mach (swtch_gpr sample_cpu) (λ _, 0) Supervisor (swtch_ram sample_cpu)) _ 0);
    [exact Hb|exact Hn| |done|done|by left].
  rewrite swtch_run; [done|by right|exact Hn].
Defined.
