(* ===== verification/TrapEntry.v ===== *)
(** The trap entry points: [trap_entry] of [bootloader/boot.S], to which the
    kernel sets [stvec], and [switch_to_user] and [trap_vector_user] of
    [kernel/process/swtch.S]. *)

From Stdlib Require Import String.
From S2P Require Import Prelude Machine Uart Printf Mm Riscv.
Local Open Scope string_scope.
Local Open Scope list_scope.
Local Open Scope Z_scope.

(** ** The code; [site]: address of the instruction after the call *)

Definition trap_entry_code (site : Z) : list instr :=
  [ CSRW SSCRATCH SP;
    CALL "trap_handler" site;
    CSRR SP SSCRATCH;
    SRET ].

Definition switch_to_user_code : list instr :=
  [ CSRW SATP A0;
    SFENCE_VMA;
    CSRW SSCRATCH A2;
    CSRW SEPC A1;
    LI T0 0x20;
    CSRW SSTATUS T0;
    SRET ].

Definition trap_vector_user_code (site : Z) : list instr :=
  [ CSRRW SP SSCRATCH SP;
    ADDI SP SP (-256);
    SD (X 1) 0 SP; SD (X 3) 16 SP; SD (X 4) 24 SP; SD (X 5) 32 SP; SD (X 6) 40 SP; SD (X 7) 48 SP; SD (X 8) 56 SP;
    SD (X 9) 64 SP; SD (X 10) 72 SP; SD (X 11) 80 SP; SD (X 12) 88 SP; SD (X 13) 96 SP; SD (X 14) 104 SP; SD (X 15) 112 SP;
    SD (X 16) 120 SP; SD (X 17) 128 SP; SD (X 18) 136 SP; SD (X 19) 144 SP; SD (X 20) 152 SP; SD (X 21) 160 SP;
    SD (X 22) 168 SP; SD (X 23) 176 SP; SD (X 24) 184 SP; SD (X 25) 192 SP; SD (X 26) 200 SP; SD (X 27) 208 SP;
    SD (X 28) 216 SP; SD (X 29) 224 SP; SD (X 30) 232 SP; SD (X 31) 240 SP;
    CSRR T0 SSCRATCH;
    SD T0 8 SP;
    MV A0 SP;
    CALL "trap_handler" site;
    LD (X 1) 0 SP; LD (X 3) 16 SP; LD (X 4) 24 SP; LD (X 5) 32 SP; LD (X 6) 40 SP; LD (X 7) 48 SP; LD (X 8) 56 SP;
    LD (X 9) 64 SP; LD (X 10) 72 SP; LD (X 11) 80 SP; LD (X 12) 88 SP; LD (X 13) 96 SP; LD (X 14) 104 SP; LD (X 15) 112 SP;
    LD (X 16) 120 SP; LD (X 17) 128 SP; LD (X 18) 136 SP; LD (X 19) 144 SP; LD (X 20) 152 SP; LD (X 21) 160 SP;
    LD (X 22) 168 SP; LD (X 23) 176 SP; LD (X 24) 184 SP; LD (X 25) 192 SP; LD (X 26) 200 SP; LD (X 27) 208 SP;
    LD (X 28) 216 SP; LD (X 29) 224 SP; LD (X 30) 232 SP; LD (X 31) 240 SP;
    LD T0 8 SP;
    ADDI SP SP 256;
    CSRW SSCRATCH SP;
    MV SP T0;
    SRET ].

(** ** Status bits over a trap and its return *)

Lemma testbit_set_bit v i b j :
  0 <= i → Z.testbit (set_bit v i b) j = if j =? i then b else Z.testbit v j.
Proof.
  intros Hi. unfold set_bit. destruct (Z.eqb_spec j i) as [->|Hne], b.
  - by apply Z.setbit_eq.
  - by apply Z.clearbit_eq.
  - rewrite Z.setbit_neq by lia. done.
  - rewrite Z.clearbit_neq by lia. done.
Qed.

(** A trap saves mode and interrupt enable in [sstatus]; [sret] brings them back
    when the register was left alone. *)
Lemma trap_sret cause pc m m' :
  csrf m' SSTATUS = csrf (take_trap cause pc m) SSTATUS →
  priv (sret m') = priv m ∧
  Z.testbit (csrf (sret m') SSTATUS) 1 = Z.testbit (csrf m SSTATUS) 1.
Proof.
  intros Hst. unfold sret. cbn [priv csrf]. rewrite wr_eq, Hst. unfold take_trap. cbn [csrf].
  rewrite !wr_ne, wr_eq by done. rewrite !testbit_set_bit by done. cbn [Z.eqb Pos.eqb].
  by destruct (priv m).
Qed.

(** ** [trap_entry] *)

(** At the call of the handler. *)
Definition entered (site : Z) (m : machine) : machine :=
  rput RA site (set_csr SSCRATCH (gpr m SP) m).
Definition trap_exit_code : list instr := [CSRR SP SSCRATCH; SRET].

Lemma trap_entry_call site m :
  exec 2 (trap_entry_code site) m = Called "trap_handler" trap_exit_code (entered site m).
Proof. reflexivity. Qed.

(** After it: everything the exit restores comes from two control registers. *)
Lemma trap_entry_exit site m :
  run 2 (trap_entry_code site) trap_exit_code m =
  Resumed (csrf m SEPC) (sret (rput SP (csrf m SSCRATCH) m)).
Proof. reflexivity. Qed.

Lemma ra_not_saved : RA ∉ callee_saved.
Proof. by apply (bool_decide_unpack _). Qed.

(** The way back, for a handler that keeps the calling convention and the three
    control registers. *)
Lemma trap_entry_back site cause pc m m2 :
  returns 0 (entered site (take_trap cause pc m)) m2 →
  (∀ k, k ∈ [SEPC; SSTATUS; SSCRATCH] → csrf m2 k = csrf (entered site (take_trap cause pc m)) k) →
  ∃ m3, run 2 (trap_entry_code site) trap_exit_code m2 = Resumed pc m3 ∧
    priv m3 = priv m ∧ Z.testbit (csrf m3 SSTATUS) 1 = Z.testbit (csrf m SSTATUS) 1 ∧
    (∀ r, r ∈ callee_saved → gpr m3 r = gpr m r) ∧ gpr m3 RA = site.
Proof.
  intros [Hs Hra _ _] Hk.
  assert (csrf m2 SEPC = pc) as Hpc by (rewrite Hk by (by apply (bool_decide_unpack _)); done).
  assert (csrf m2 SSCRATCH = gpr m SP) as Hsp by (rewrite Hk by (by apply (bool_decide_unpack _)); done).
  destruct (trap_sret cause pc m (rput SP (csrf m2 SSCRATCH) m2)) as [Hp Hi].
  { cbn [csrf rput]. by rewrite Hk by (by apply (bool_decide_unpack _)). }
  exists (sret (rput SP (csrf m2 SSCRATCH) m2)). rewrite trap_entry_exit, Hpc.
  split; [done|]. split; [exact Hp|]. split; [exact Hi|]. split; [|exact Hra].
  intros r Hr. cbn [gpr sret rput]. destruct (decide (r = SP)) as [->|Hne].
  - by rewrite wr_eq.
  - rewrite wr_ne, Hs by done. cbn [gpr entered rput set_csr take_trap]. apply wr_ne.
    intros ->. by apply ra_not_saved in Hr.
Qed.

(** C15: A trap through [trap_entry].  The handler is called on the interrupted
    stack, and when it returns by the calling convention and has left [sepc],
    [sstatus] and [sscratch] alone, the interrupted code goes on where it was, in
    its mode, with its interrupt enable, stack pointer, global pointer and
    callee-saved registers.  Its [ra] is lost: the entry saves no register, and
    the call of the handler overwrites it. *)
Theorem trap_entry_spec (site cause pc : Z) (m m2 : machine) :
  let m1 := entered site (take_trap cause pc m) in
  exec 2 (trap_entry_code site) (take_trap cause pc m) = Called "trap_handler" trap_exit_code m1 ∧
  gpr m1 SP = gpr m SP ∧
  (returns 0 m1 m2 → (∀ k, k ∈ [SEPC; SSTATUS; SSCRATCH] → csrf m2 k = csrf m1 k) →
   ∃ m3, run 2 (trap_entry_code site) trap_exit_code m2 = Resumed pc m3 ∧
     priv m3 = priv m ∧ Z.testbit (csrf m3 SSTATUS) 1 = Z.testbit (csrf m SSTATUS) 1 ∧
     (∀ r, r ∈ callee_saved → gpr m3 r = gpr m r) ∧ gpr m3 RA = site).
Proof. intros m1. split; [apply trap_entry_call|]. split; [done|]. apply trap_entry_back. Qed.

(** ** User mode *)

(** The trap frame: [x n] at offset [8 * (n - 1)]; [sp] is stored apart. *)
Definition frame_slots : slots :=
  (λ n, (X n, 8 * (Z.of_nat n - 1))) <$> 1%nat :: seq 3 29.
Definition FRAME_SIZE : Z := 256.

Lemma frame_slots_ok : slots_ok FRAME_SIZE frame_slots.
Proof. unfold slots_ok. by apply (bool_decide_unpack _). Qed.
Lemma frame_slots_nodup : NoDup frame_slots.*1 ∧ NoDup frame_slots.*2.
Proof. split; by apply (bool_decide_unpack _). Qed.
Lemma sp_not_framed : SP ∉ frame_slots.*1.
Proof. by apply (bool_decide_unpack _). Qed.
Lemma frame_offset o : o ∈ frame_slots.*2 → o ≠ 8 ∧ 0 <= o ∧ o + 8 <= FRAME_SIZE.
Proof.
  assert (Forall (λ o, o ≠ 8 ∧ 0 <= o ∧ o + 8 <= FRAME_SIZE) frame_slots.*2) as H
    by (by apply (bool_decide_unpack _)).
  rewrite Forall_forall in H. exact (H o).
Qed.

Lemma framed r : (1 <= r <= 31)%nat → r ≠ SP → (r, 8 * (Z.of_nat r - 1)) ∈ frame_slots.
Proof.
  intros Hr Hne. apply list_elem_of_fmap. exists r. split; [done|].
  destruct (decide (r = 1%nat)) as [->|]; [by left|]. right. apply elem_of_seq. unfold SP in Hne. lia.
Qed.

(** The instructions around the two blocks. *)
Definition frame_call (site : Z) : list instr :=
  [CSRR T0 SSCRATCH; SD T0 8 SP; MV A0 SP; CALL "trap_handler" site].
Definition frame_exit : list instr :=
  [LD T0 8 SP; ADDI SP SP 256; CSRW SSCRATCH SP; MV SP T0; SRET].

Lemma trap_vector_user_split site :
  trap_vector_user_code site =
  CSRRW SP SSCRATCH SP :: ADDI SP SP (-256) ::
    (saves SP frame_slots ++ frame_call site ++ restores SP frame_slots ++ frame_exit).
Proof. reflexivity. Qed.

(** The machine at the call of the handler, the frame at [F]. *)
Definition user_entered (site F : Z) (m : machine) : machine :=
  let f := wr SP F (wr SP (csrf m SSCRATCH) (gpr m)) in
  rput RA site (rput A0 F (Mach (wr T0 (gpr m SP) f) (wr SSCRATCH (gpr m SP) (csrf m)) (priv m)
    (<[F + 8:=gpr m SP]> (saved F f frame_slots (ram m))))).

Lemma user_call site m F :
  F = csrf m SSCRATCH - 256 → block_ok F FRAME_SIZE →
  exec (2 + (length frame_slots + 4)) (trap_vector_user_code site) m =
  Called "trap_handler" (restores SP frame_slots ++ frame_exit) (user_entered site F m).
Proof.
  intros HF Hok. destruct (block_word F _ 8 Hok) as [Hu8 Hw8]; [done..|].
  assert (u64 (csrf m SSCRATCH + -256) = F) as Hu.
  { rewrite u64_id; [lia|]. destruct Hok as (_ & Hlo & Hhi). unfold is_u64, RAM_BASE, RAM_END, FRAME_SIZE in *. lia. }
  unfold exec. rewrite trap_vector_user_split at 2. cbn [plus]. set (code := trap_vector_user_code site).
  set (m1 := rput SP (u64 (csrf m SSCRATCH + -256)) (rput SP (csrf m SSCRATCH) (set_csr SSCRATCH (gpr m SP) m))).
  transitivity (run (length frame_slots + 4) code
    (saves SP frame_slots ++ frame_call site ++ restores SP frame_slots ++ frame_exit) m1); [reflexivity|].
  assert (gpr m1 SP = F) as HSP by (cbn; by rewrite Hu).
  rewrite (run_saves SP FRAME_SIZE frame_slots); [|done|by rewrite HSP|exact frame_slots_ok].
  set (m2 := set_ram _ m1).
  assert (∀ rest, run 4 code (frame_call site ++ rest) m2 =
    if ram_word (u64 (gpr m1 SP + 8)) then Called "trap_handler" rest
      (rput RA site (rput A0 (gpr m1 SP) (set_ram (<[u64 (gpr m1 SP + 8):=gpr m SP]> (ram m2)) (rput T0 (gpr m SP) m2))))
    else Excepted (rput T0 (gpr m SP) m2)) as ->.
  { intros rest. cbn [frame_call app run]. by destruct (ram_word _). }
  rewrite HSP, Hu8, Hw8. unfold m2, m1. rewrite Hu. reflexivity.
Qed.

(** The frame holds the interrupted registers. *)
Lemma user_frame site F m r :
  (1 <= r <= 31)%nat → rd (ram (user_entered site F m)) (F + 8 * (Z.of_nat r - 1)) = gpr m r.
Proof.
  intros Hr. cbn [ram user_entered rput]. destruct (decide (r = SP)) as [->|Hne]; [apply rd_insert|].
  rewrite rd_insert_ne by (unfold SP in Hne; lia).
  rewrite (saved_slot _ _ _ _ r); [by rewrite !wr_ne|apply frame_slots_nodup|by apply framed].
Qed.

(** The machine that goes back to user mode. *)
Definition user_exit (F : Z) (m : machine) : machine :=
  let f := wr T0 (rd (ram m) (F + 8)) (restored F (ram m) frame_slots (gpr m)) in
  sret (Mach (wr SP (rd (ram m) (F + 8)) (wr SP (F + 256) f)) (wr SSCRATCH (F + 256) (csrf m)) (priv m) (ram m)).

Lemma user_return site m F :
  gpr m SP = F → block_ok F FRAME_SIZE →
  run (length frame_slots + 5) (trap_vector_user_code site) (restores SP frame_slots ++ frame_exit) m =
  Resumed (csrf m SEPC) (user_exit F m).
Proof.
  intros HF Hok. destruct (block_word F _ 8 Hok) as [Hu8 Hw8]; [done..|].
  assert (u64 (F + 256) = F + 256) as Hu.
  { apply u64_id. destruct Hok as (_ & Hlo & Hhi). unfold is_u64, RAM_BASE, RAM_END, FRAME_SIZE in *. lia. }
  rewrite (run_restores SP FRAME_SIZE frame_slots);
    [|done|exact sp_not_framed|by rewrite HF|exact frame_slots_ok].
  set (g := restored _ _ _ _). assert (g SP = F) as Hg.
  { unfold g. by rewrite restored_other by exact sp_not_framed. }
  assert (run 5 (trap_vector_user_code site) frame_exit (set_gpr g m) =
    if ram_word (u64 (g SP + 8)) then
      let f := wr T0 (rd (ram m) (u64 (g SP + 8))) g in
      Resumed (csrf m SEPC) (sret (Mach (wr SP (rd (ram m) (u64 (g SP + 8))) (wr SP (u64 (g SP + 256)) f))
        (wr SSCRATCH (u64 (g SP + 256)) (csrf m)) (priv m) (ram m)))
    else Excepted (set_gpr g m)) as ->.
  { cbn [frame_exit run]. by destruct (ram_word _). }
  rewrite Hg, Hu8, Hw8, Hu. unfold g. by rewrite HF.
Qed.

(** C14: A trap out of user mode through [trap_vector_user], with the kernel stack
    pointer in [sscratch].  The handler is called on the kernel stack with a frame
    that holds all 31 user registers; when it returns by the calling convention,
    user code goes on where it was, in user mode, with all its registers but one,
    and [sscratch] holds the kernel stack pointer again.  The exception is [t0],
    which the exit path uses for the stack pointer after it has restored it. *)
Theorem user_trap_spec (site cause pc : Z) (m m2 : machine) :
  let F := csrf m SSCRATCH - 256 in
  let m1 := user_entered site F (take_trap cause pc m) in
  block_ok F FRAME_SIZE → priv m = User →
  exec 36 (trap_vector_user_code site) (take_trap cause pc m) =
    Called "trap_handler" (restores SP frame_slots ++ frame_exit) m1 ∧
  gpr m1 SP = F ∧ gpr m1 A0 = F ∧
  (∀ r, (1 <= r <= 31)%nat → rd (ram m1) (F + 8 * (Z.of_nat r - 1)) = gpr m r) ∧
  (returns 256 m1 m2 → (∀ k, k ∈ [SEPC; SSTATUS] → csrf m2 k = csrf m1 k) →
   ∃ m3, run 35 (trap_vector_user_code site) (restores SP frame_slots ++ frame_exit) m2 = Resumed pc m3 ∧
     priv m3 = User ∧ csrf m3 SSCRATCH = csrf m SSCRATCH ∧
     (∀ r, (1 <= r <= 31)%nat → r ≠ T0 → gpr m3 r = gpr m r) ∧ gpr m3 T0 = gpr m SP).
Proof.
  intros F m1 Hok Hpriv. set (m0 := take_trap cause pc m) in *.
  split; [by apply (user_call site m0 F)|]. split; [done|]. split; [done|].
  split; [intros r Hr; by apply (user_frame site F m0)|].
  intros [Hs _ Hfr _] Hk. assert (gpr m2 SP = F) as HSP by (rewrite Hs by (by apply (bool_decide_unpack _)); done).
  assert (∀ r, (1 <= r <= 31)%nat → rd (ram m2) (F + 8 * (Z.of_nat r - 1)) = gpr m r) as Hrd.
  { intros r Hr. rewrite Hfr by (change (gpr m1 SP) with F; lia). by apply (user_frame site F m0). }
  assert (rd (ram m2) (F + 8) = gpr m SP) as Husp by (apply (Hrd SP); unfold SP; lia).
  exists (user_exit F m2). split; [etrans; [by apply (user_return site m2 F)|]; f_equal;
    by rewrite Hk by (by apply (bool_decide_unpack _))|]. split; [|split; [|split]].
  - rewrite <- Hpriv. apply (trap_sret cause pc m). cbn [csrf]. rewrite wr_ne by done.
    by rewrite Hk by (by apply (bool_decide_unpack _)).
  - cbn [csrf user_exit sret]. rewrite wr_ne, wr_eq by done. unfold F. lia.
  - intros r Hr Hne. cbn [gpr user_exit sret]. destruct (decide (r = SP)) as [->|Hsp].
    + by rewrite wr_eq.
    + rewrite !wr_ne by done.
      rewrite (restored_slot _ _ _ _ r (8 * (Z.of_nat r - 1))); [by apply Hrd|apply frame_slots_nodup|by apply framed].
  - cbn [gpr user_exit sret]. by rewrite !wr_ne, wr_eq by done.
Qed.

(** [switch_to_user] enters user mode at the given address with interrupts on,
    but puts the user stack pointer into [sscratch] and leaves the kernel's in
    [sp]: user code starts on the kernel stack, and its first trap takes the user
    stack for the kernel stack, with the trap frame written below it. *)
Theorem switch_to_user_swaps_stacks (site cause pc : Z) (m mu : machine) :
  (* what [switch_to_user] does *)
  (∃ m1, exec 7 switch_to_user_code m = Resumed (gpr m A1) m1 ∧
    priv m1 = User ∧ Z.testbit (csrf m1 SSTATUS) 1 = true ∧ csrf m1 SATP = gpr m A0 ∧
    gpr m1 SP = gpr m SP ∧ csrf m1 SSCRATCH = gpr m A2) ∧
  (* the first trap, control registers as [switch_to_user] left them *)
  (csrf mu SSCRATCH = gpr m A2 → block_ok (gpr m A2 - 256) FRAME_SIZE →
   ∃ m1, exec 36 (trap_vector_user_code site) (take_trap cause pc mu) =
       Called "trap_handler" (restores SP frame_slots ++ frame_exit) m1 ∧
     gpr m1 SP = gpr m A2 - 256 ∧
     (∀ r, (1 <= r <= 31)%nat → rd (ram m1) (gpr m A2 - 256 + 8 * (Z.of_nat r - 1)) = gpr mu r)).
Proof.
  split; [by eexists|]. intros Hss Hok.
  exists (user_entered site (gpr m A2 - 256) (take_trap cause pc mu)).
  split; [apply (user_call site (take_trap cause pc mu)); [by rewrite <- Hss|done]|].
  split; [done|]. intros r Hr. by apply (user_frame site _ (take_trap cause pc mu)).
Qed.

(** ** Instances *)

(** A handler that overwrites temporaries and leaves the rest alone. *)
Definition clobbered (m : machine) : machine := rput T0 99 (rput A0 98 m).
Lemma clobbered_returns n m : returns n m (clobbered m).
Proof.
  constructor; [|done..]. intros r Hr. cbn [gpr clobbered rput].
  assert (T0 ∉ callee_saved ∧ A0 ∉ callee_saved) as [HT HA] by (split; by apply (bool_decide_unpack _)).
  rewrite !wr_ne; congruence.
Qed.

(** Code interrupted on the stack at [sp]. *)
Definition interrupted (p : mode) (sp scratch : Z) : machine :=
  Mach (λ r, if decide (r = SP) then sp else 1000 + Z.of_nat r)
    (λ k, if decide (k = SSCRATCH) then scratch else 0) p ∅.

Lemma trap_entry_witness :
  let m := interrupted Supervisor 0x80230000 0 in
  let m1 := entered 0x80200108 (take_trap (2 ^ 63 + 5) 0x80201000 m) in
  ∃ m3, run 2 (trap_entry_code 0x80200108) trap_exit_code (clobbered m1) = Resumed 0x80201000 m3 ∧
    gpr m3 SP = 0x80230000 ∧ gpr m RA = 1001 ∧ gpr m3 RA = 0x80200108.
Proof.
  intros m m1. destruct (trap_entry_spec 0x80200108 (2 ^ 63 + 5) 0x80201000 m (clobbered m1))
    as (_ & _ & Hret).
  destruct Hret as (m3 & Hrun & _ & _ & Hs & Hra); [apply clobbered_returns|done|].
  exists m3. split; [exact Hrun|]. split; [|by split]. apply Hs. by left.
Defined.

Lemma user_trap_witness :
  let m := interrupted User 0x4000 0x80230000 in
  let m1 := user_entered 0x80200200 (0x80230000 - 256) (take_trap 8 0x1000 m) in
  ∃ m3, run 35 (trap_vector_user_code 0x80200200) (restores SP frame_slots ++ frame_exit) (clobbered m1) =
      Resumed 0x1000 m3 ∧ priv m3 = User ∧ gpr m3 SP = 0x4000 ∧ gpr m3 S0 = 1008 ∧
    gpr m T0 = 1005 ∧ gpr m3 T0 = 0x4000.
Proof.
  intros m m1. destruct (user_trap_spec 0x80200200 8 0x1000 m (clobbered m1)) as (_ & _ & _ & _ & Hret);
    [split; [done|]; done|done|].
  destruct Hret as (m3 & Hrun & Hp & _ & Hr & Ht); [apply clobbered_returns| |].
  - intros k Hk. done.
  - exists m3. split; [exact Hrun|]. split; [exact Hp|].
    split; [apply (Hr SP); [unfold SP; lia|done]|]. split; [apply (Hr S0); [unfold S0; lia|done]|]. by split.
Defined.

Lemma switch_to_user_witness :
  let m := Mach (wr A2 0x80240000 (wr SP 0x80230000 (λ _, 0))) (λ _, 0) Supervisor ∅ in
  let mu := interrupted User 0x80230000 0x80240000 in
  ∃ m1, exec 36 (trap_vector_user_code 0x80200200) (take_trap 8 0x1000 mu) =
      Called "trap_handler" (restores SP frame_slots ++ frame_exit) m1 ∧ gpr m1 SP = 0x80240000 - 256.
Proof.
  intros m mu. destruct (switch_to_user_swaps_stacks 0x80200200 8 0x1000 m mu) as [_ Htrap].
  destruct Htrap as (m1 & Hrun & Hsp & _); [done|split; [done|]; done|].
  exists m1. split; [exact Hrun|exact Hsp].
Defined.
