(* ===== verification/Boot.v ===== *)
(** The boot entry point, [_start] of [bootloader/boot.S]: interrupts off, stack
    and global pointer, static data cleared, trap vector, and the call of
    [kernel_main]. *)

From Stdlib Require Import String.
From S2P Require Import Prelude Machine Uart Printf Mm Riscv.
Local Open Scope string_scope.
Local Open Scope list_scope.
Local Open Scope Z_scope.

(** ** The code *)

(** Symbols of [scripts/kernel.ld] and of the assembler. *)
Class BootSymbols := {
  global_pointer : Z; stack_top : Z; bss_start : Z; bss_end : Z;
  trap_entry_addr : Z; after_kernel_main : Z }.

Definition start_code `{BootSymbols} : list instr :=
  [ CSRW SIE X0;
    CSRW SIP X0;
    LA GP global_pointer;
    LA SP stack_top;
    LA T0 bss_start;
    LA T1 bss_end;
    LABEL "clear_bss";
    BEQ T0 T1 "clear_bss_done";
    SD X0 0 T0;
    ADDI T0 T0 8;
    J "clear_bss";
    LABEL "clear_bss_done";
    LA T0 trap_entry_addr;
    CSRW STVEC T0;
    CALL "kernel_main" after_kernel_main;
    LABEL "halt";
    WFI;
    J "halt" ].

(** ** The loop that clears static data *)

(** [n] words from [a] set to zero. *)
Fixpoint zeroed (a : Z) (n : nat) (μ : gmap Z Z) : gmap Z Z :=
  match n with O => μ | S n => zeroed (a + 8) n (<[a:=0]> μ) end.

Lemma zeroed_other a n μ b : b < a ∨ a + 8 * Z.of_nat n <= b → rd (zeroed a n μ) b = rd μ b.
Proof.
  revert a μ. induction n as [|n IH]; intros a μ Hb; [done|]. cbn [zeroed].
  rewrite IH by lia. apply rd_insert_ne. lia.
Qed.

Lemma zeroed_word a n μ i : 0 <= i < Z.of_nat n → rd (zeroed a n μ) (a + 8 * i) = 0.
Proof.
  revert a μ i. induction n as [|n IH]; intros a μ i Hi; [lia|]. cbn [zeroed].
  destruct (decide (i = 0)) as [->|Hne].
  - rewrite zeroed_other by lia. rewrite Z.mul_0_r, Z.add_0_r. apply rd_insert.
  - replace (a + 8 * i) with (a + 8 + 8 * (i - 1)) by lia. apply IH. lia.
Qed.

Section Clearing.
Context {B : BootSymbols}.

(** The loop has moved [t0] to [a] and set [n] words to zero on the way. *)
Record cleared (a : Z) (n : nat) (m m' : machine) : Prop := {
  cl_t0 : gpr m' T0 = a;
  cl_gpr r : r ≠ T0 → gpr m' r = gpr m r;
  cl_csr : csrf m' = csrf m;
  cl_priv : priv m' = priv m;
  cl_ram : ram m' = zeroed (gpr m T0) n (ram m) }.

(** One round while [t0] has not met [t1]. *)
Definition round (m : machine) : machine :=
  rput T0 (u64 (gpr m T0 + 8)) (set_ram (<[gpr m T0:=0]> (ram m)) m).

Lemma clear_round k m :
  gpr m T0 ≠ gpr m T1 → ram_word (gpr m T0) = true →
  run (4 + k) start_code (after_label "clear_bss" start_code) m =
  run k start_code (after_label "clear_bss" start_code) (round m).
Proof.
  intros Hne Hw. pose proof (proj1 (ram_word_true _) Hw) as [Hr _].
  assert (u64 (gpr m T0 + 0) = gpr m T0) as Hu
    by (rewrite Z.add_0_r; apply u64_id; unfold is_u64, RAM_BASE, RAM_END in *; lia).
  change (after_label "clear_bss" start_code) with
    (BEQ T0 T1 "clear_bss_done" :: SD X0 0 T0 :: ADDI T0 T0 8 :: J "clear_bss" ::
       LABEL "clear_bss_done" :: after_label "clear_bss_done" start_code) at 1.
  change (4 + k)%nat with (S (3 + k)). rewrite run_beq, !rget_gpr by done.
  rewrite (proj2 (Z.eqb_neq _ _) Hne). cbn [plus run].
  change (rget T0 m) with (gpr m T0). by rewrite Hu, Hw.
Qed.

(** [n] rounds. *)
Lemma clear_rounds n k m :
  block_ok (gpr m T0) (8 * Z.of_nat n) →
  (∀ i, 0 <= i < Z.of_nat n → gpr m T0 + 8 * i ≠ gpr m T1) →
  ∃ m', cleared (gpr m T0 + 8 * Z.of_nat n) n m m' ∧
    run (4 * n + k) start_code (after_label "clear_bss" start_code) m =
    run k start_code (after_label "clear_bss" start_code) m'.
Proof.
  revert m. induction n as [|n IH]; intros m Hok Hne.
  - exists m. split; [|done]. constructor; [lia|done..].
  - destruct (block_word _ _ 0 Hok ltac:(lia) ltac:(lia) ltac:(done)) as [Hu Hw].
    rewrite Z.add_0_r in Hu, Hw.
    assert (u64 (gpr m T0 + 8) = gpr m T0 + 8) as Hu8.
    { apply u64_id. unfold is_u64. destruct Hok as (_ & Hlo & Hhi). unfold RAM_BASE, RAM_END in *. lia. }
    destruct (IH (round m)) as (m' & [Ht Hg Hc Hp Hr] & Hrun).
    + change (gpr (round m) T0) with (u64 (gpr m T0 + 8)). rewrite Hu8.
      destruct Hok as (Ha & Hlo & Hhi). unfold block_ok. split; [Z.div_mod_to_equations; lia|lia].
    + intros i Hi. change (gpr (round m) T0) with (u64 (gpr m T0 + 8)).
      change (gpr (round m) T1) with (gpr m T1). rewrite Hu8. specialize (Hne (i + 1) ltac:(lia)). lia.
    + change (gpr (round m) T0) with (u64 (gpr m T0 + 8)) in Ht, Hr. rewrite Hu8 in Ht, Hr.
      exists m'. split.
      * constructor; [rewrite Ht; lia| |done|done|done].
        intros r Hrn. rewrite Hg by done. unfold round. cbn [gpr rput set_ram]. by apply wr_ne.
      * replace (4 * S n + k)%nat with (4 + (4 * n + k))%nat by lia.
        rewrite clear_round; [exact Hrun| |done]. specialize (Hne 0 ltac:(lia)). lia.
Qed.
End Clearing.

(** ** The whole entry *)

Section Start.
Context {B : BootSymbols}.

(** Up to the loop. *)
Definition start_regs (m : machine) : machine :=
  rput T1 bss_end (rput T0 bss_start (rput SP stack_top (rput GP global_pointer
    (set_csr SIP 0 (set_csr SIE 0 m))))).

Lemma start_prefix k m :
  run (7 + k) start_code start_code m =
  run k start_code (after_label "clear_bss" start_code) (start_regs m).
Proof. reflexivity. Qed.

(** After it. *)
Definition enter_kernel (m : machine) : machine :=
  rput RA after_kernel_main (set_csr STVEC trap_entry_addr (rput T0 trap_entry_addr m)).
Definition halt_code : list instr := [LABEL "halt"; WFI; J "halt"].

Lemma start_suffix k m :
  gpr m T0 = gpr m T1 →
  run (4 + k) start_code (after_label "clear_bss" start_code) m =
  Called "kernel_main" halt_code (enter_kernel m).
Proof.
  intros Heq. change (after_label "clear_bss" start_code) with
    (BEQ T0 T1 "clear_bss_done" :: SD X0 0 T0 :: ADDI T0 T0 8 :: J "clear_bss" ::
       LABEL "clear_bss_done" :: after_label "clear_bss_done" start_code).
  change (4 + k)%nat with (S (3 + k)). rewrite run_beq, !rget_gpr by done.
  by rewrite Heq, Z.eqb_refl.
Qed.

(** The whole of [_start] when the loop meets [__bss_end]. *)
Lemma start_run n m :
  block_ok bss_start (8 * Z.of_nat n) → bss_end = bss_start + 8 * Z.of_nat n →
  ∃ m1, exec (7 + (4 * n + 4)) start_code m = Called "kernel_main" halt_code (enter_kernel m1) ∧
    cleared (bss_start + 8 * Z.of_nat n) n (start_regs m) m1.
Proof.
  intros Hok Hend. unfold exec. rewrite start_prefix.
  destruct (clear_rounds n 4 (start_regs m)) as (m1 & Hcl & ->); [exact Hok| |].
  - change (gpr (start_regs m) T0) with bss_start. change (gpr (start_regs m) T1) with bss_end. lia.
  - exists m1. split; [|exact Hcl]. apply (start_suffix 0). rewrite (cl_t0 _ _ _ _ Hcl), (cl_gpr _ _ _ _ Hcl) by done.
    change (gpr (start_regs m) T1) with bss_end. by symmetry.
Qed.

Lemma halt_forever k m : run k start_code halt_code m = OutOfFuel m.
Proof.
  cut (∀ j, (j ≤ k)%nat → ∀ r, r ∈ [halt_code; [WFI; J "halt"]; [J "halt"]] →
    run j start_code r m = OutOfFuel m).
  { intros H. apply (H k); [done|by left]. }
  induction k as [|k IH]; intros j Hj r Hr; [by replace j with 0%nat by lia|].
  destruct j as [|j]; [done|]. rewrite !elem_of_cons in Hr.
  destruct Hr as [->|[->|[->|Hr]]]; [..|by apply not_elem_of_nil in Hr].
  - apply (IH j); [lia|]. right. by left.
  - apply (IH j); [lia|]. right. right. by left.
  - apply (IH j); [lia|]. right. by left.
Qed.
End Start.

(** C13: [_start] ends in the call of [kernel_main], in a number of steps that
    depends only on the size of the static data, when [__bss_start] is aligned and
    the size is a multiple of 8: interrupts are disabled and no software interrupt
    is pending, stack and global pointer
    are set, the trap vector is [trap_entry], every word of static data is zero,
    and no other word of memory, register or control register has changed.  If
    [kernel_main] ever returned, the hart would wait forever. *)
Theorem boot_enters_kernel {B : BootSymbols} (n : nat) (m : machine) :
  block_ok bss_start (8 * Z.of_nat n) → bss_end = bss_start + 8 * Z.of_nat n →
  ∃ m', exec (7 + (4 * n + 4)) start_code m = Called "kernel_main" halt_code m' ∧
    (∀ i, 0 <= i < Z.of_nat n → rd (ram m') (bss_start + 8 * i) = 0) ∧
    (∀ a, a < bss_start ∨ bss_end <= a → rd (ram m') a = rd (ram m) a) ∧
    gpr m' SP = stack_top ∧ gpr m' GP = global_pointer ∧ gpr m' RA = after_kernel_main ∧
    (∀ r, r ∉ [RA; SP; GP; T0; T1] → gpr m' r = gpr m r) ∧
    csrf m' SIE = 0 ∧ Z.testbit (csrf m' SIP) 1 = false ∧ csrf m' STVEC = trap_entry_addr ∧
    (∀ k, k ∉ [SIE; SIP; STVEC] → csrf m' k = csrf m k) ∧ priv m' = priv m ∧
    (∀ k m'', run k start_code halt_code m'' = OutOfFuel m'').
Proof.
  intros Hok Hend. destruct (start_run n m Hok Hend) as (m1 & Hrun & [_ Hg Hc Hp Hr]).
  exists (enter_kernel m1). split; [exact Hrun|]. unfold enter_kernel. cbn [gpr csrf priv ram rput set_csr].
  change (gpr (start_regs m) T0) with bss_start in Hr. rewrite Hc, Hp, Hr. repeat split.
  - intros i Hi. by apply zeroed_word.
  - intros a Ha. apply zeroed_other. lia.
  - rewrite !wr_ne by done. by rewrite Hg.
  - rewrite !wr_ne by done. by rewrite Hg.
  - intros r Hin. rewrite !not_elem_of_cons in Hin. destruct Hin as (H1 & H2 & H3 & H4 & H5 & _).
    rewrite !wr_ne, Hg by done. unfold start_regs. cbn [gpr rput set_csr]. by rewrite !wr_ne.
  - cbn [csrf start_regs rput set_csr csr_written]. rewrite wr_ne, wr_eq by done. by apply Z.clearbit_eq.
  - intros k Hin. rewrite !not_elem_of_cons in Hin. destruct Hin as (H1 & H2 & H3 & _).
    rewrite wr_ne by done. cbn [csrf start_regs rput set_csr]. by rewrite !wr_ne.
  - apply halt_forever.
Qed.

(** The loop compares for equality only.  When the size of the static data
    is no multiple of 8, which the linker script does not rule out since it aligns
    only the start of the section, [t0] steps over [__bss_end]: [_start] sets
    everything up to the end of RAM to zero, stack and heap included, ends in an
    access fault and never calls [kernel_main]. *)
Theorem boot_overruns_unaligned_bss {B : BootSymbols} (n : nat) (m : machine) :
  block_ok bss_start (8 * Z.of_nat n) → bss_start + 8 * Z.of_nat n = RAM_END →
  (bss_end - bss_start) mod 8 ≠ 0 →
  ∃ m', exec (7 + (4 * n + 2)) start_code m = Excepted m' ∧
    (∀ i, 0 <= i < Z.of_nat n → rd (ram m') (bss_start + 8 * i) = 0).
Proof.
  intros Hok Hend Hodd. unfold exec. rewrite start_prefix.
  destruct (clear_rounds n 2 (start_regs m)) as (m1 & [Ht Hg Hc Hp Hr] & ->); [exact Hok| |].
  - change (gpr (start_regs m) T0) with bss_start. change (gpr (start_regs m) T1) with bss_end.
    intros i Hi Heq. apply Hodd. rewrite <- Heq. Z.div_mod_to_equations; lia.
  - change (gpr (start_regs m) T0) with bss_start in *. rewrite Hend in Ht. exists m1. split.
    + change (after_label "clear_bss" start_code) with
        (BEQ T0 T1 "clear_bss_done" :: SD X0 0 T0 :: ADDI T0 T0 8 :: J "clear_bss" ::
           LABEL "clear_bss_done" :: after_label "clear_bss_done" start_code).
      rewrite run_beq, !rget_gpr, Ht, (Hg T1) by done.
      change (gpr (start_regs m) T1) with bss_end.
      rewrite (proj2 (Z.eqb_neq RAM_END bss_end)) by (intros He; apply Hodd; rewrite <- He, <- Hend; Z.div_mod_to_equations; lia).
      cbn [run]. by rewrite rget_gpr, Ht by done.
    + intros i Hi. rewrite Hr. by apply zeroed_word.
Qed.

(** ** Instances *)

Definition sample_symbols (size : Z) : BootSymbols := {|
  global_pointer := 0x80206800; stack_top := 0x80230000; bss_start := 0x80208000;
  bss_end := 0x80208000 + size; trap_entry_addr := 0x80200100; after_kernel_main := 0x80200050 |}.
Definition reset_machine : machine := Mach (λ _, 0) (λ _, 0) Supervisor ∅.

Lemma boot_witness :
  ∃ m', exec (7 + (4 * 2048 + 4)) (start_code (H := sample_symbols 16384)) reset_machine =
      Called "kernel_main" halt_code m' ∧ rd (ram m') (0x80208000 + 8 * 2047) = 0 ∧ gpr m' SP = 0x80230000.
Proof.
  destruct (boot_enters_kernel (B := sample_symbols 16384) 2048 reset_machine) as (m' & Hrun & Hz & _ & Hsp & _);
    [split; [done|]; cbn [bss_start sample_symbols]; unfold RAM_BASE, RAM_END; lia|done|].
  exists m'. split; [exact Hrun|]. split; [apply Hz; lia|exact Hsp].
Defined.

Lemma boot_overrun_witness :
  ∃ n m', exec (7 + (4 * n + 2)) (start_code (H := sample_symbols 16388)) reset_machine = Excepted m' ∧
    rd (ram m') (0x80208000 + 8 * 100000) = 0.
Proof.
  destruct (Z_of_nat_complete 16510976) as [n Hn]; [lia|]. exists n.
  destruct (boot_overruns_unaligned_bss (B := sample_symbols 16388) n reset_machine) as (m' & Hrun & Hz).
  - split; [done|]. cbn [bss_start sample_symbols]. unfold RAM_BASE, RAM_END. lia.
  - cbn [bss_start sample_symbols]. unfold RAM_END. lia.
  - done.
  - exists m'. split; [exact Hrun|]. apply Hz. lia.
Defined.
