(* ===== verification/FirstSwitch.v ===== *)
(** From reset to the first switch: [_start] of [bootloader/boot.S], the start of
    the scheduler and [swtch] put together, over the memory of the process
    tables. *)

From Stdlib Require Import String.
From S2P Require Import Prelude Machine Printf Mm Process Queues Scheduler SchedInv SchedOps SchedProps Riscv Swtch Boot.
Local Open Scope list_scope.
Local Open Scope Z_scope.

(** ** The process tables at the call of [kernel_main] *)

(** The linker puts the tables, which have no initialiser, into the static data. *)
Class TablesInBss {B : BootSymbols} {PL : ProcLayout} : Prop := {
  proc_table_in_bss : bss_start <= proc_table_addr ∧ proc_table_addr + 64 * 256 <= bss_end;
  idle_processes_in_bss : bss_start <= idle_processes_addr ∧ idle_processes_addr + 8 * 256 <= bss_end }.
Arguments TablesInBss : clear implicits.

(** Tables of the declared sizes, all contexts zero. *)
Record fresh (b : sstate) : Prop := {
  fr_table : length (proc_table (ps b)) = 64%nat;
  fr_idle : length (idle_processes (ps b)) = 8%nat;
  fr_context r p : lookup_proc r (ps b) = Some p → p_context p = context_zero }.

Lemma boot_fresh : fresh boot_sched.
Proof.
  constructor; [done|done|]. intros r p Hp.
  destruct r; cbn [lookup_proc ps boot_sched boot_table proc_table idle_processes] in Hp;
    by apply lookup_replicate in Hp as [-> _].
Qed.

(** A machine whose static data is clear holds the tables as the model starts
    with them. *)
Lemma cleared_holds {B : BootSymbols} {PL : ProcLayout} {PO : ProcLayoutOk PL} (T : TablesInBss B PL)
    (n : nat) (b : sstate) (m : machine) :
  bss_start mod 8 = 0 → bss_end = bss_start + 8 * Z.of_nat n →
  (∀ i, 0 <= i < Z.of_nat n → rd (ram m) (bss_start + 8 * i) = 0) →
  fresh b → holds (set_regs (ctx_of (gpr m)) b) m.
Proof.
  intros Hal Hend Hz [Ht Hi Hc]. constructor; cbn [regs set_regs ps]; [done| |done|done].
  intros r p Hp. rewrite (Hc _ _ Hp).
  assert (∃ j, ctx_addr r = bss_start + 8 * j ∧ 0 <= j ∧ j + 14 <= Z.of_nat n) as (j & -> & Hj & Hjn).
  { exists ((ctx_addr r - bss_start) / 8).
    pose proof proc_table_in_bss as [P1 P2]. pose proof idle_processes_in_bss as [I1 I2].
    pose proof proc_table_block as [A1 _]. pose proof idle_processes_block as [A2 _].
    unfold ctx_addr, SIZEOF_PROCESS, OFFSETOF_CONTEXT.
    destruct r as [i|i]; cbn [lookup_proc] in Hp; apply lookup_lt_Some in Hp; Z.div_mod_to_equations; lia. }
  assert (∀ i, 0 <= i < 14 → rd (ram m) (bss_start + 8 * j + 8 * i) = 0) as Hw.
  { intros i Hii. rewrite <- Z.add_assoc, <- Z.mul_add_distr_l. apply Hz. lia. }
  unfold read_ctx, context_zero.
  f_equal; [exact (Hw 0 ltac:(lia))|exact (Hw 1 ltac:(lia))|exact (Hw 2 ltac:(lia))|exact (Hw 3 ltac:(lia))
    |exact (Hw 4 ltac:(lia))|exact (Hw 5 ltac:(lia))|exact (Hw 6 ltac:(lia))|exact (Hw 7 ltac:(lia))
    |exact (Hw 8 ltac:(lia))|exact (Hw 9 ltac:(lia))|exact (Hw 10 ltac:(lia))|exact (Hw 11 ltac:(lia))
    |exact (Hw 12 ltac:(lia))|exact (Hw 13 ltac:(lia))].
Qed.

(** ** The first switch *)

(** C39: From reset to the first switch.  [_start] calls [kernel_main] with memory that
    holds the process tables as the model starts with them.  When the scheduler is
    started right after [scheduler_init], its first choice is the idle process,
    and the [swtch] it calls, with no context to save, loads the context nobody
    has written since: the machine jumps to address 0 with a stack pointer of 0,
    just as the model does. *)
Theorem first_switch_jumps_to_zero {B : BootSymbols} {PL : ProcLayout} {PO : ProcLayoutOk PL} (T : TablesInBss B PL)
    (n fuel : nat) (m : machine) (b s : sstate) (w w' : world) :
  block_ok bss_start (8 * Z.of_nat n) → bss_end = bss_start + 8 * Z.of_nat n →
  bss b → fresh b → scheduler_init b w = Ret tt s w' →
  ∃ m1, exec (7 + (4 * n + 4)) start_code m = Called "kernel_main" halt_code m1 ∧
    holds (set_regs (ctx_of (gpr m1)) b) m1 ∧
    ∃ s1 w1, scheduler (S fuel) s w' = Leave s1 w1 ∧ current (cpu0 s1) = Some (PIdle 0) ∧
      ∀ m2, gpr m2 A0 = 0 → gpr m2 A1 = ctx_addr (PIdle 0) →
        read_ctx (ram m2) (ctx_addr (PIdle 0)) = read_ctx (ram m1) (ctx_addr (PIdle 0)) →
        ∃ m3, exec swtch_fuel swtch_code m2 = Jumped 0 m3 ∧ ctx_of (gpr m3) = regs s1 ∧ gpr m3 SP = 0.
Proof.
  intros Hok Hend Hb Hf Hinit. destruct (start_run n m Hok Hend) as (m0 & Hrun & [_ _ _ _ Hr]).
  assert (holds (set_regs (ctx_of (gpr (enter_kernel m0))) b) (enter_kernel m0)) as Hh.
  { eapply cleared_holds; [done|apply Hok|exact Hend| |done].
    intros i Hi. cbn [ram enter_kernel rput set_csr]. rewrite Hr. by apply zeroed_word. }
  destruct (lookup_lt_is_Some_2 (idle_processes (ps b)) 0) as [p Hp]; [rewrite (fr_idle _ Hf); lia|].
  assert (lookup_proc (PIdle 0) (ps b) = Some p) as Hl by exact Hp.
  pose proof (fr_context _ Hf _ _ Hl) as Hz.
  destruct (scheduler_boot_jumps_to_zero b s w w' fuel Hb ltac:(by rewrite Hl; cbn; rewrite Hz) Hinit)
    as (s1 & w1 & Hs & Hcur & Hregs).
  exists (enter_kernel m0). split; [exact Hrun|]. split; [exact Hh|]. exists s1, w1.
  split; [done|]. split; [done|]. intros m2 H0 H1 Hctx.
  rewrite (hd_context _ _ Hh _ _ Hl), Hz in Hctx.
  assert (block_ok (ctx_addr (PIdle 0)) CTX_SIZE) as Hblk by (eapply ctx_addr_block; [exact Hh|by eexists]).
  assert (ctx_of (swtch_gpr m2) = context_zero) as Hg.
  { unfold swtch_gpr. rewrite H1, (block_ok_nonzero _ _ Hblk), ctx_of_restored. unfold swtch_ram.
    by rewrite H0. }
  rewrite swtch_run; [|by left|right; by rewrite H1]. eexists. split; [f_equal; exact (f_equal c_ra Hg)|].
  split; [cbn [gpr]; congruence|exact (f_equal c_sp Hg)].
Qed.

Definition sample_boot : BootSymbols := sample_symbols 18432.
Lemma sample_in_bss : TablesInBss sample_boot sample_tables.
Proof. constructor; cbn; lia. Qed.

Lemma first_switch_witness :
  ∃ m1 m3 s w' s1 w1,
    exec (7 + (4 * 2304 + 4)) (start_code (H := sample_boot)) reset_machine =
      Called "kernel_main" halt_code m1 ∧
    scheduler_init boot_sched (mkWorld [] []) = Ret tt s w' ∧ scheduler 1 s w' = Leave s1 w1 ∧
    exec swtch_fuel swtch_code
      (Mach (wr A0 0 (wr A1 (ctx_addr (PL := sample_tables) (PIdle 0)) (gpr m1))) (csrf m1) (priv m1) (ram m1)) =
      Jumped 0 m3 ∧ ctx_of (gpr m3) = regs s1 ∧ gpr m3 SP = 0.
Proof.
  destruct (wp_run scheduler_init _ boot_sched (mkWorld [] []) (wp_scheduler_init never boot_sched boot_bss))
    as ([] & s & w' & Hrun & _).
  destruct (first_switch_jumps_to_zero (PO := sample_tables_ok) sample_in_bss 2304 0 reset_machine boot_sched s
    (mkWorld [] []) w') as (m1 & Hboot & _ & s1 & w1 & Hs & _ & Hsw);
    [split; [done|cbn [bss_start sample_boot sample_symbols]; unfold RAM_BASE, RAM_END; lia]|done
    |exact boot_bss|exact boot_fresh|exact Hrun|].
  destruct (Hsw (Mach (wr A0 0 (wr A1 (ctx_addr (PL := sample_tables) (PIdle 0)) (gpr m1))) (csrf m1) (priv m1) (ram m1)))
    as (m3 & H3 & Hc & Hsp); [done|done|done|].
  exists m1, m3, s, w', s1, w1. split; [exact Hboot|]. split; [exact Hrun|]. split; [exact Hs|].
  split; [exact H3|]. split; [exact Hc|exact Hsp].
Defined.
