(* ===== verification/Preemption.v ===== *)
(** Preemption by the timer: [trap_entry] of [bootloader/boot.S], [trap_handler] of
    [kernel/trap/trap.c] and [swtch] of [kernel/process/swtch.S] put together. *)

From Stdlib Require Import String.
From S2P Require Import Prelude Machine Uart Printf Mm Process Queues Scheduler SchedInv SchedOps SchedProps Trap Riscv Swtch TrapEntry.
Local Open Scope string_scope.
Local Open Scope list_scope.
Local Open Scope Z_scope.

(** ** The handler's view of the machine *)

(** The control registers the C code reads and writes. *)
Definition csrs_of (m : machine) : csrs :=
  Csrs (csrf m SSTATUS) (csrf m SIE) (csrf m STVEC) (csrf m SEPC) (csrf m SCAUSE) (csrf m STVAL).

(** [scause] of a timer interrupt. *)
Definition TIMER : Z := 2 ^ 63 + 5.

(** The handler writes no control register, before it gives up the CPU and after
    it has been given it back. *)
Lemma zoomed_csr {A} (r : res sstate A) t a t' w :
  zoom_res trap_sched r t = Ret a t' w → t_csr t' = t_csr t.
Proof. destruct r; intros [=]; by subst. Qed.

Lemma timer_switch c s w t w' k :
  scause c = TIMER → trap_handler (TState c s) w = Switch t w' k →
  t_csr t = c ∧ ∀ t1 w1 t2 w2, k t1 w1 = Ret tt t2 w2 → t_csr t2 = t_csr t1.
Proof.
  intros Hc. rewrite timer_trap by done. unfold zoom. cbn [view trap_sched t_sched].
  destruct (sched_tick s w); intros [=]; subst. split; [done|]. intros t1 w1 t2 w2. apply zoomed_csr.
Qed.

(** Called in machine [m] on the scheduler's state [s], the handler comes to its
    call of [swtch] in machine [c], with [k] left to do: the model gives up the
    CPU, and the machine has the control registers of the model.  [sscratch] is
    named by no C code. *)
Record switches (m : machine) (s : sstate) (c : machine) (k : tstate → world → res tstate unit) : Prop := {
  sw_run : ∃ w t w', trap_handler (TState (csrs_of m) s) w = Switch t w' k ∧ csrs_of c = t_csr t;
  sw_scratch : csrf c SSCRATCH = csrf m SSCRATCH }.

(** Given the CPU back in machine [d], the handler that was called in machine [m]
    returns to [trap_entry] in machine [e]. *)
Record finishes (d : machine) (k : tstate → world → res tstate unit) (m e : machine) : Prop := {
  fi_run : ∃ s w t w', k (TState (csrs_of d) s) w = Ret tt t w' ∧ csrs_of e = t_csr t;
  fi_scratch : csrf e SSCRATCH = csrf d SSCRATCH;
  fi_returns : returns 0 m e }.

(** ** A switch there and back *)

(** C16: a process preempted through [trap_entry] does not come back where it was.
    [trap_entry] keeps the interrupted address and stack pointer in [sepc] and
    [sscratch] only, and [swtch] saves neither.  Let a timer interrupt at [pcA]
    in A make the handler switch to B, and a later one at [pcB] in B make it
    switch back to A, whose saved context was left alone.  Then the instructions
    of [swtch] return into A's handler, with A's registers, but with B's control
    registers; and when A's handler is done, [trap_entry] resumes at [pcB], on B's
    stack, with A's other callee-saved registers. *)
Theorem preempted_resumes_elsewhere (site pcA pcB target : Z) (mA mB c1 d1 c2 : machine) (sA sB : sstate)
    (kA kB : tstate → world → res tstate unit) :
  let m1 := entered site (take_trap TIMER pcA mA) in
  let m2 := entered site (take_trap TIMER pcB mB) in
  (* A's handler comes to [swtch(&A->context, &B->context)] *)
  switches m1 sA c1 kA → block_ok (gpr c1 A0) CTX_SIZE → ctx_ptr (gpr c1 A1) →
  exec swtch_fuel swtch_code c1 = Jumped target d1 →
  (* B's handler comes to [swtch(&B->context, &A->context)] *)
  switches m2 sB c2 kB → gpr c2 A1 = gpr c1 A0 → block_ok (gpr c2 A0) CTX_SIZE →
  gpr c2 A0 + CTX_SIZE <= gpr c1 A0 ∨ gpr c1 A0 + CTX_SIZE <= gpr c2 A0 →
  read_ctx (ram c2) (gpr c1 A0) = read_ctx (ram d1) (gpr c1 A0) →
  ∃ d2, exec swtch_fuel swtch_code c2 = Jumped (gpr c1 RA) d2 ∧ ctx_of (gpr d2) = ctx_of (gpr c1) ∧
    ∀ e, finishes d2 kA m1 e →
      ∃ m3, run 2 (trap_entry_code site) trap_exit_code e = Resumed pcB m3 ∧
        gpr m3 SP = gpr mB SP ∧ (∀ r, r ∈ callee_saved → r ≠ SP → gpr m3 r = gpr mA r).
Proof.
  intros m1 m2 [(wA & tA & wA' & HrunA & _) _] Hok Hnew Hout [(wB & tB & wB' & HrunB & HcB) HsB] HA1 HA0 Hd Hkept.
  destruct (swtch_back c1 d1 c2 target Hok Hnew Hout Hkept HA1) as (d2 & Hback & Hctx & Hcsr); [by right|].
  exists d2. split; [exact Hback|]. split; [exact Hctx|]. intros e [(s & w & t & w' & Hk & Hce) Hse [Hs _ _ _]].
  apply timer_switch in HrunA as [_ HA]; [|done]. apply timer_switch in HrunB as [HB _]; [|done].
  apply HA in Hk. assert (csrs_of e = csrs_of m2) as Heq.
  { rewrite Hce, Hk. cbn [t_csr]. unfold csrs_of at 1. rewrite Hcsr. rewrite <- HB. exact HcB. }
  rewrite trap_entry_exit. assert (csrf e SEPC = pcB) as -> by exact (f_equal sepc Heq).
  assert (csrf e SSCRATCH = gpr mB SP) as Hsp by (rewrite Hse, Hcsr, HsB; done).
  eexists. split; [reflexivity|]. split; [cbn [gpr sret rput]; by rewrite wr_eq|].
  intros r Hr Hne. cbn [gpr sret rput]. rewrite wr_ne, Hs by done.
  cbn [gpr m1 entered rput set_csr take_trap]. apply wr_ne. intros ->. by apply ra_not_saved in Hr.
Qed.

(** ** An instance: two processes that use up their slices *)

Definition sample_ready : sstate := demo SCHED_NORMAL [PProc 1] [] 7.

Lemma sample_tick_switches :
  ∃ s1 w1 k, sched_tick sample_ready (mkWorld [] []) = Switch s1 w1 k ∧
    ∃ s2 w2, k sample_ready (mkWorld [] []) = Ret tt s2 w2.
Proof.
  assert (match sched_tick sample_ready (mkWorld [] []) with
    | Switch _ _ k => match k sample_ready (mkWorld [] []) with Ret _ _ _ => true | _ => false end
    | _ => false end = true) as Hb by (vm_compute; reflexivity).
  destruct (sched_tick _ _) as [| | | |s1 w1 k|]; try discriminate.
  exists s1, w1, k. split; [done|]. destruct (k _ _) as [[] s2 w2| | | | |]; try discriminate. by exists s2, w2.
Qed.

(** The handler gives up the CPU, and returns when it is given back. *)
Lemma sample_switch m c :
  csrf m SCAUSE = TIMER → csrs_of c = csrs_of m → csrf c SSCRATCH = csrf m SSCRATCH →
  ∃ k, switches m sample_ready c k ∧
    ∀ d m' e, csrs_of e = csrs_of d → csrf e SSCRATCH = csrf d SSCRATCH → returns 0 m' e → finishes d k m' e.
Proof.
  intros Hm Hc Hs. destruct sample_tick_switches as (s1 & w1 & k & Hrun & s2 & w2 & Hk).
  eexists. split.
  - constructor; [|exact Hs]. eexists (mkWorld [] []), _, w1. split.
    + rewrite timer_trap by exact Hm. unfold zoom. cbn [view trap_sched t_sched]. rewrite Hrun. reflexivity.
    + exact Hc.
  - intros d m' e He Hse Hret. constructor; [|exact Hse|exact Hret].
    eexists sample_ready, (mkWorld [] []), _, w2. split.
    + cbn beta. cbn [view trap_sched t_sched]. rewrite Hk. reflexivity.
    + exact He.
Qed.

Definition ctxA : Z := ctx_addr (PL := sample_tables) (PProc 0).
Definition ctxB : Z := ctx_addr (PL := sample_tables) (PProc 1).

(** [m] about to call [swtch(old, new)]. *)
Definition calling (old new : Z) (m : machine) : machine := rput A0 old (rput A1 new m).

Lemma preempted_witness :
  let mA := interrupted Supervisor 0x80230000 0 in
  let mB := interrupted Supervisor 0x80231000 0 in
  let m1 := entered 0x80200108 (take_trap TIMER 0x80201000 mA) in
  let m2 := entered 0x80200108 (take_trap TIMER 0x80202000 mB) in
  let c2 := set_ram (swtch_ram (calling ctxA ctxB m1)) (calling ctxB ctxA m2) in
  ∃ d2 m3, exec swtch_fuel swtch_code c2 = Jumped 0x80200108 d2 ∧
    run 2 (trap_entry_code 0x80200108) trap_exit_code (Mach (gpr m1) (csrf d2) (priv m1) ∅) = Resumed 0x80202000 m3 ∧
    gpr m3 SP = 0x80231000.
Proof.
  intros mA mB m1 m2 c2. set (c1 := calling ctxA ctxB m1).
  destruct (sample_switch m1 c1) as (kA & HA & Hfin); [done|done|done|].
  destruct (sample_switch m2 c2) as (kB & HB & _); [done|done|done|].
  assert (block_ok ctxA CTX_SIZE ∧ block_ok ctxB CTX_SIZE) as [HokA HokB]
    by (split; (split; [done|vm_compute; split; discriminate])).
  destruct (preempted_resumes_elsewhere 0x80200108 0x80201000 0x80202000 (rget RA (Mach (swtch_gpr c1) (csrf c1) (priv c1) (swtch_ram c1)))
    mA mB c1 (Mach (swtch_gpr c1) (csrf c1) (priv c1) (swtch_ram c1)) c2 sample_ready sample_ready kA kB HA HokA)
    as (d2 & Hd2 & _ & Hend).
  - by right.
  - rewrite swtch_run; [done|by right|by right].
  - exact HB.
  - done.
  - exact HokB.
  - right. vm_compute. discriminate.
  - done.
  - destruct (Hend (Mach (gpr m1) (csrf d2) (priv m1) ∅)) as (m3 & Hrun & Hsp & _).
    { apply Hfin; [done|done|by constructor]. }
    exists d2, m3. split; [exact Hd2|]. split; [exact Hrun|exact Hsp].
Defined.
