(* ===== verification/Syscall.v ===== *)
(** System calls, [kernel/syscall/syscall.c].

    The handler gets addresses of the caller's buffers; that memory is a map
    from addresses to bytes, and an access to an address not in the map is one
    the kernel has no right to make. *)

From Stdlib Require Import String.
From S2P Require Import Prelude Machine Uart Printf Mm CString Process Queues Scheduler SchedInv SchedOps.
From S2P Require Import SchedProps Vfs Testdev Trap.
Local Open Scope string_scope.
Local Open Scope list_scope.
Local Open Scope Z_scope.

(** ** Numbers, [syscall.h] *)

Definition SYS_READ : Z := 0.
Definition SYS_WRITE : Z := 1.
Definition SYS_FORK : Z := 2.
Definition SYS_EXEC : Z := 3.
Definition SYS_EXIT : Z := 4.
Definition SYS_OPEN : Z := 5.
Definition SYS_CLOSE : Z := 6.
Definition SYS_GETPID : Z := 7.
Definition SYS_YIELD : Z := 8.
Definition SYSCALL_ERROR : Z := u64 (-1).

Section Syscall.
Context {D : Type} {L : Layout}.

(** The caller's memory, the scheduler and the file system. *)
Record ystate := YState { y_mem : gmap Z Z; y_sched : sstate; y_vfs : vfs_state D }.

Definition sys_mem : lens (gmap Z Z) ystate.
Proof. refine (Lens y_mem (λ m y, YState m (y_sched y) (y_vfs y)) _ _ _); by intros; destruct t. Defined.
Definition sys_sched : lens sstate ystate.
Proof. refine (Lens y_sched (λ s y, YState (y_mem y) s (y_vfs y)) _ _ _); by intros; destruct t. Defined.
Definition sys_vfs : lens (vfs_state D) ystate.
Proof. refine (Lens y_vfs (λ v y, YState (y_mem y) (y_sched y) v) _ _ _); by intros; destruct t. Defined.

(** [*(char* )p], [*(char* )p = c]. *)
Definition load_byte (p : Z) : K (gmap Z Z) Z := let* m := get in lift_opt (m !! p).
Definition store_byte (p c : Z) : K (gmap Z Z) unit := load_byte p ;; modify (<[p := c]>).

(** The loop of [SYS_READ], [n] rounds from index [i]; [len] is [i + n]. *)
Fixpoint read_loop (buf i len : Z) (n : nat) : K (gmap Z Z) Z :=
  match n with
  | O => ret len
  | S n' =>
      let* c := uart_getc in
      store_byte (u64 (buf + i)) c ;;
      if c =? LF then ret (i + 1) else read_loop buf (i + 1) len n'
  end.

(** The loop of [SYS_WRITE]. *)
Fixpoint write_loop (buf i : Z) (n : nat) : K (gmap Z Z) unit :=
  match n with
  | O => ret tt
  | S n' => let* c := load_byte (u64 (buf + i)) in uart_putc c ;; write_loop buf (i + 1) n'
  end.

(** The string at [p]: its bytes up to the terminator, or up to the first
    address that is not accessible; no more than all of memory. *)
Fixpoint string_at (m : gmap Z Z) (p : Z) (fuel : nat) : list Z :=
  match fuel with
  | O => []
  | S fuel' =>
      match m !! p with
      | None => []
      | Some c => if c =? 0 then [0] else c :: string_at m (p + 1) fuel'
      end
  end.

Definition user_string (p : Z) : K (gmap Z Z) (list Z) := gets (λ m, string_at m p (S (size m))).

Definition syscall_init : K ystate unit := ret tt.

Definition syscall_handler (num arg0 arg1 arg2 : Z) : K ystate Z :=
  if num =? SYS_READ then zoom sys_mem (read_loop arg0 0 arg1 (Z.to_nat arg1))
  else if num =? SYS_WRITE then zoom sys_mem (write_loop arg0 0 (Z.to_nat arg1)) ;; ret arg1
  else if num =? SYS_FORK then printf (ln "[SYSCALL] fork() not implemented") [] ;; ret SYSCALL_ERROR
  else if num =? SYS_EXEC then printf (ln "[SYSCALL] exec() not implemented") [] ;; ret SYSCALL_ERROR
  else if num =? SYS_EXIT then
    printf (ln "[SYSCALL] Process exit with code %u") [ANum (s32 arg0)] ;; ret 0
  else if num =? SYS_OPEN then
    let* path := zoom sys_mem (user_string arg0) in
    let* file := zoom sys_vfs (vfs_open path (u32 arg1)) in
    if file =? 0 then ret SYSCALL_ERROR else ret file
  else if num =? SYS_CLOSE then
    let* r := zoom sys_vfs (vfs_close arg0) in ret (u64 r)
  else if num =? SYS_GETPID then
    let* proc := zoom sys_sched current_proc in
    match proc with
    | Some r => let* p := zoom sys_sched (deref r) in ret (p_pid p)
    | None => ret 0
    end
  else if num =? SYS_YIELD then zoom sys_sched sched_yield ;; ret 0
  else printf (ln "[SYSCALL] Unknown syscall: %u") [ANum (s32 num)] ;; ret SYSCALL_ERROR.
End Syscall.
Arguments ystate : clear implicits.

(** ** Console input and output *)

(** The bytes a read of [n] takes from the input: up to and including the first
    newline, at most [n]; [None]: it waits for more. *)
Fixpoint line_of (n : nat) (input : list Z) : option (list Z) :=
  match n, input with
  | O, _ => Some []
  | S _, [] => None
  | S n', c :: input' => if u8 c =? LF then Some [LF] else cons (u8 c) <$> line_of n' input'
  end.

(** [m] with the bytes [bs] stored from [p] on. *)
Fixpoint store_at (m : gmap Z Z) (p : Z) (bs : list Z) : gmap Z Z :=
  match bs with [] => m | c :: bs' => store_at (<[p := c]> m) (p + 1) bs' end.

(** The [n] addresses from [p] on are accessible and do not wrap around. *)
Definition buffer_ok (m : gmap Z Z) (p : Z) (n : Z) : Prop :=
  0 <= p ∧ 0 <= n ∧ p + n <= 2 ^ 64 ∧ ∀ a, p <= a < p + n → is_Some (m !! a).

Lemma buffer_ok_insert m p n a c : buffer_ok m p n → buffer_ok (<[a := c]> m) p n.
Proof.
  intros (H1 & H2 & H3 & H4). split_and!; try done. intros b Hb. rewrite lookup_insert.
  case_decide; [by eexists|by apply H4].
Qed.

Lemma buffer_ok_tail m p n : buffer_ok m p n → 0 < n → buffer_ok m (p + 1) (n - 1).
Proof. intros (H1 & H2 & H3 & H4) Hn. split_and!; try lia. intros a Ha. apply H4. lia. Qed.

Lemma store_byte_run m p n c w :
  buffer_ok m p n → 0 < n → store_byte (u64 p) c m w = Ret tt (<[p := c]> m) w.
Proof.
  intros (H1 & H2 & H3 & H4) Hn. rewrite u64_id by (unfold is_u64; lia).
  unfold store_byte, load_byte, bind, get. simpl. destruct (H4 p) as [x Hx]; [lia|]. by rewrite Hx.
Qed.

Lemma read_loop_run buf i len n m w bs :
  buffer_ok m (buf + i) (Z.of_nat n) → len = i + Z.of_nat n → line_of n (w_in w) = Some bs →
  read_loop buf i len n m w =
    Ret (i + Z.of_nat (length bs)) (store_at m (buf + i) bs) (mkWorld (drop (length bs) (w_in w)) (w_tr w)).
Proof.
  intros Hb -> . revert i m w bs Hb. induction n as [|n IH]; intros i m w bs Hb Hl.
  { simpl in Hl. simplify_eq/=. by destruct w. }
  cbn [read_loop line_of] in *. destruct w as [[|c input] tr]; [done|]. cbn [w_in w_tr] in *.
  unfold bind at 1, uart_getc. simpl. unfold bind. rewrite (store_byte_run _ _ _ _ _ Hb) by lia. simpl.
  destruct (u8 c =? LF) eqn:Hlf.
  - apply Z.eqb_eq in Hlf. simplify_eq/=. by rewrite Hlf.
  - apply fmap_Some in Hl as (bs' & Hl & ->).
    pose proof (buffer_ok_tail _ _ _ Hb ltac:(lia)) as Hb'.
    rewrite Nat2Z.inj_succ in *. replace (i + Z.succ (Z.of_nat n)) with (i + 1 + Z.of_nat n) by lia.
    rewrite (IH (i + 1) _ (mkWorld input tr) bs').
    + simpl. rewrite Z.add_assoc. f_equal. lia.
    + rewrite Z.add_assoc. apply buffer_ok_insert. by replace (Z.of_nat n) with (Z.succ (Z.of_nat n) - 1) by lia.
    + done.
Qed.

Lemma lookup_store_at m p bs a :
  store_at m p bs !! a =
    if decide (p <= a < p + Z.of_nat (length bs)) then bs !! Z.to_nat (a - p) else m !! a.
Proof.
  revert m p. induction bs as [|c bs IH]; intros m p; simpl; [by case_decide; [lia|]|].
  rewrite IH. destruct (decide (a = p)) as [->|Hne].
  - rewrite decide_False, decide_True by lia. rewrite lookup_insert_eq. by rewrite Z.sub_diag.
  - rewrite lookup_insert_ne by done. repeat case_decide; try lia; [|done].
    replace (Z.to_nat (a - p)) with (S (Z.to_nat (a - (p + 1)))) by lia. done.
Qed.

Lemma write_loop_run buf i n m w bs :
  length bs = n → 0 <= buf + i → buf + i + Z.of_nat n <= 2 ^ 64 →
  (∀ k c, bs !! k = Some c → m !! (buf + i + Z.of_nat k) = Some c) →
  write_loop buf i n m w = Ret tt m (emits (map (λ c, EvPutc (u8 c)) bs) w).
Proof.
  revert i w bs. induction n as [|n IH]; intros i w bs Hl Hlo Hhi Hm; destruct bs as [|c bs]; try done.
  { by rewrite emits_nil. }
  cbn [write_loop]. rewrite u64_id by (unfold is_u64; lia).
  pose proof (Hm 0%nat c eq_refl) as Hc. rewrite Z.add_0_r in Hc.
  unfold bind, load_byte, get. simpl. unfold bind. simpl. rewrite Hc. simpl.
  unfold uart_putc, emit. simpl. rewrite (IH (i + 1) _ bs).
  - by rewrite emits_emits.
  - by injection Hl.
  - lia.
  - lia.
  - intros k x Hx. rewrite <- (Hm (S k) x Hx). f_equal. lia.
Qed.

Lemma line_length n input bs : line_of n input = Some bs → (length bs <= n)%nat.
Proof.
  revert input bs. induction n as [|n IH]; intros [|c input] bs Hl; simplify_eq/=; try lia.
  case_match; simplify_eq/=; [lia|]. apply fmap_Some in Hl as (bs' & Hl & ->). apply IH in Hl. simpl. lia.
Qed.

Lemma line_bytes n input bs : line_of n input = Some bs → map u8 bs = bs.
Proof.
  revert input bs. induction n as [|n IH]; intros [|c input] bs Hl; simplify_eq/=; try done.
  case_match; simplify_eq/=; [done|]. apply fmap_Some in Hl as (bs' & Hl & ->). simpl. rewrite (IH _ _ Hl).
  f_equal. unfold u8. apply Zmod_mod.
Qed.

(** Running a routine of the caller's memory. *)
Lemma zoom_mem_run {D A} (m : K (gmap Z Z) A) (y : ystate D) w a m' w' :
  m (y_mem y) w = Ret a m' w' → zoom sys_mem m y w = Ret a (YState m' (y_sched y) (y_vfs y)) w'.
Proof. intros Hm. unfold zoom. simpl. by rewrite Hm. Qed.

(** C34: [SYS_READ] on an accessible buffer takes bytes from the console
    up to and including the first newline, at most [len]; it stores exactly
    those from the buffer's start on and touches nothing else, leaves the rest
    of the input for later and returns their number. *)
Theorem sys_read_spec {D} {L : Layout} (y : ystate D) (w : world) (buf len arg2 : Z) (bs : list Z) :
  buffer_ok (y_mem y) buf len → line_of (Z.to_nat len) (w_in w) = Some bs →
  ∃ m', syscall_handler SYS_READ buf len arg2 y w =
      Ret (Z.of_nat (length bs)) (YState m' (y_sched y) (y_vfs y)) (mkWorld (drop (length bs) (w_in w)) (w_tr w)) ∧
    (∀ i c, bs !! i = Some c → m' !! (buf + Z.of_nat i) = Some c) ∧
    (∀ a, (a < buf ∨ buf + Z.of_nat (length bs) <= a) → m' !! a = y_mem y !! a) ∧
    Z.of_nat (length bs) <= len.
Proof.
  intros Hb Hl. pose proof Hb as (H1 & H2 & H3 & _). exists (store_at (y_mem y) buf bs). split_and!.
  - unfold syscall_handler. change (SYS_READ =? SYS_READ) with true. cbn match. apply zoom_mem_run.
    rewrite (read_loop_run buf 0 len (Z.to_nat len) _ w bs); [by rewrite Z.add_0_r|..|done].
    + by rewrite Z.add_0_r, Z2Nat.id.
    + lia.
  - intros i c Hi. rewrite lookup_store_at. apply lookup_lt_Some in Hi as Hlt. rewrite decide_True by lia.
    by replace (Z.to_nat (buf + Z.of_nat i - buf)) with i by lia.
  - intros a Ha. rewrite lookup_store_at. by rewrite decide_False by lia.
  - apply line_length in Hl. lia.
Qed.

Definition sample_buffer : gmap Z Z := store_at ∅ 4096 (replicate 16 7).

Lemma sample_buffer_ok : buffer_ok sample_buffer 4096 16.
Proof.
  split_and!; [lia..|]. intros a Ha. unfold sample_buffer. rewrite lookup_store_at, length_replicate.
  rewrite decide_True by lia. apply lookup_lt_is_Some_2. rewrite length_replicate. lia.
Qed.

Definition sample_sys : ystate testdev :=
  YState sample_buffer (demo SCHED_NORMAL [PProc 1] [] 7) boot_vfs.

Lemma sys_read_witness :
  ∃ m', syscall_handler (L := sample_layout) SYS_READ 4096 16 0 sample_sys (mkWorld [104; 105; 10; 120] []) =
      Ret 3 (YState m' (y_sched sample_sys) boot_vfs) (mkWorld [120] []) ∧
    (∀ i c, [104; 105; 10] !! i = Some c → m' !! (4096 + Z.of_nat i) = Some c) ∧
    (∀ a, (a < 4096 ∨ 4096 + 3 <= a) → m' !! a = sample_buffer !! a) ∧ 3 <= 16.
Proof.
  apply (sys_read_spec (L := sample_layout) sample_sys (mkWorld [104; 105; 10; 120] []) 4096 16 0 [104; 105; 10]).
  - apply sample_buffer_ok.
  - reflexivity.
Defined.

(** A line read with [SYS_READ] and written back with [SYS_WRITE]
    comes out on the console byte for byte, newline included and nothing added;
    both calls return its length. *)
Theorem sys_read_write_echo {D} {L : Layout} (y : ystate D) (w : world) (buf len : Z) (bs : list Z) :
  buffer_ok (y_mem y) buf len → line_of (Z.to_nat len) (w_in w) = Some bs →
  ∃ m', (let* n := syscall_handler SYS_READ buf len 0 in syscall_handler SYS_WRITE buf n 0) y w =
    Ret (Z.of_nat (length bs)) (YState m' (y_sched y) (y_vfs y))
      (emits (map EvPutc bs) (mkWorld (drop (length bs) (w_in w)) (w_tr w))).
Proof.
  intros Hb Hl. pose proof Hb as (H1 & H2 & H3 & _). exists (store_at (y_mem y) buf bs).
  pose proof (line_length _ _ _ Hl) as Hlen.
  unfold bind at 1, syscall_handler at 1. change (SYS_READ =? SYS_READ) with true. cbn match.
  erewrite zoom_mem_run.
  2:{ apply (read_loop_run buf 0 len (Z.to_nat len) _ w bs); [|lia|done]. by rewrite Z.add_0_r, Z2Nat.id. }
  cbn [bind_res]. unfold syscall_handler.
  change (SYS_WRITE =? SYS_READ) with false. change (SYS_WRITE =? SYS_WRITE) with true. cbn match.
  unfold bind at 1. erewrite zoom_mem_run.
  2:{ cbn [y_mem]. apply (write_loop_run buf 0 _ _ _ bs); [lia|lia|lia|].
      intros k c Hk. apply lookup_lt_Some in Hk as Hlt. rewrite lookup_store_at, decide_True by lia.
      by replace (Z.to_nat (buf + 0 + Z.of_nat k - (buf + 0))) with k by lia. }
  cbn [bind_res]. unfold ret. rewrite Z.add_0_r, Z.add_0_l. do 2 f_equal.
  rewrite <- (line_bytes _ _ _ Hl) at 2. by rewrite map_map.
Qed.

Lemma sys_echo_witness :
  ∃ m', (let* n := syscall_handler (L := sample_layout) SYS_READ 4096 16 0 in
         syscall_handler (L := sample_layout) SYS_WRITE 4096 n 0) sample_sys (mkWorld [104; 105; 10; 120] []) =
    Ret 3 (YState m' (y_sched sample_sys) boot_vfs)
      (emits [EvPutc 104; EvPutc 105; EvPutc 10] (mkWorld [120] [])).
Proof.
  apply (sys_read_write_echo (L := sample_layout) sample_sys (mkWorld [104; 105; 10; 120] []) 4096 16 [104; 105; 10]).
  - apply sample_buffer_ok.
  - reflexivity.
Defined.

(** ** Safety *)

Section Safety.
Context {D : Type} {L : Layout} {LO : LayoutOk L} (ops : file_ops D) {DL : DriverLaws ops}.

Definition sys_ok (y : ystate D) : Prop := sched_ok (y_sched y) ∧ vfs_inv ops (y_vfs y).

(** What a caller owes: accessible buffers, terminated paths, handles it was
    given. *)
Definition args_ok (y : ystate D) (num arg0 arg1 : Z) : Prop :=
  (num = SYS_WRITE → buffer_ok (y_mem y) arg0 arg1) ∧
  (num = SYS_OPEN → terminated (string_at (y_mem y) arg0 (S (size (y_mem y)))) = true) ∧
  (num = SYS_CLOSE → valid_handle ops (y_vfs y) arg0).

Lemma wp_vfs_part {A} (m : K (vfs_state D) A) Q H (y : ystate D) :
  wp m (λ a v, Q a (YState (y_mem y) (y_sched y) v)) (λ v, H (YState (y_mem y) (y_sched y) v)) (y_vfs y) →
  wp (zoom sys_vfs m) Q H y.
Proof. intros Hm. by apply wp_zoom. Qed.

Lemma wp_write_loop buf len Q H (m : gmap Z Z) :
  buffer_ok m buf len → Q tt m → wp (write_loop buf 0 (Z.to_nat len)) Q H m.
Proof.
  intros (H1 & H2 & H3 & H4) HQ w.
  assert (∃ bs, length bs = Z.to_nat len ∧
    ∀ k c, bs !! k = Some c → m !! (buf + 0 + Z.of_nat k) = Some c) as (bs & Hl & Hbs).
  { exists ((λ k, default 0 (m !! (buf + 0 + Z.of_nat k))) <$> seq 0 (Z.to_nat len)).
    rewrite length_fmap, length_seq. split; [done|]. intros k c Hk.
    rewrite list_lookup_fmap in Hk. apply fmap_Some in Hk as (j & Hk & ->). apply lookup_seq in Hk as [-> Hlt].
    destruct (H4 (buf + 0 + Z.of_nat k)) as [x Hx]; [lia|]. simpl. by rewrite Hx. }
  rewrite (write_loop_run buf 0 (Z.to_nat len) m w bs); [done|done|lia|lia|done].
Qed.

(** C20: for a caller whose arguments are in order (an accessible buffer for
    [SYS_WRITE], a terminated path for [SYS_OPEN], NULL or a handle it was given
    for [SYS_CLOSE]: the handler checks none of this), every system call but the
    waiting [SYS_READ] returns or gives up the CPU without an access outside an object, and keeps the invariants of the
    scheduler and of the file system at every hand-over and on return; [open]
    returns the error value or a usable handle, and an unknown number, [fork] or
    [exec] returns the error value and changes nothing. *)
Theorem syscall_safe (y : ystate D) (num arg0 arg1 arg2 : Z) :
  sys_ok y → num ≠ SYS_READ → args_ok y num arg0 arg1 →
  wps (syscall_handler num arg0 arg1 arg2)
    (λ r y', sys_ok y' ∧
      (num = SYS_OPEN → r = SYSCALL_ERROR ∨ valid_handle ops (y_vfs y') r) ∧
      (num = SYS_FORK ∨ num = SYS_EXEC ∨ SYS_YIELD < num → r = SYSCALL_ERROR ∧ y' = y)) sys_ok sys_ok y.
Proof.
  intros Hok Hnr (Hw & Ho & Hc). pose proof Hok as [Hs Hv].
  unfold syscall_handler. rewrite (proj2 (Z.eqb_neq num SYS_READ) Hnr).
  unfold SYS_WRITE, SYS_FORK, SYS_EXEC, SYS_EXIT, SYS_OPEN, SYS_CLOSE, SYS_GETPID, SYS_YIELD in *.
  destruct (Z.eqb_spec num 1) as [->|H1].
  { apply wps_of_wp, wp_bind, wp_zoom, wp_write_loop; [by apply Hw|]. apply wp_ret. destruct y.
    split_and!; try done; lia. }
  destruct (Z.eqb_spec num 2) as [->|H2]; [|destruct (Z.eqb_spec num 3) as [->|H3]].
  1,2: apply wps_of_wp, wp_bind; wp_printf; by apply wp_ret.
  destruct (Z.eqb_spec num 4) as [->|H4].
  { apply wps_of_wp, wp_bind. wp_printf. apply wp_ret. split_and!; try done; lia. }
  destruct (Z.eqb_spec num 5) as [->|H5].
  { apply wps_of_wp, wp_bind, wp_zoom, wp_gets, wp_bind, wp_vfs_part. cbn [y_vfs y_mem y_sched put view sys_mem].
    specialize (Ho eq_refl). apply text_terminated in Ho as [t Ht].
    eapply wp_mono; [by apply (wp_vfs_open ops _ t _ never)| |done]. intros p v [(Hv' & _ & Hp) _].
    destruct (p =? 0); apply wp_ret; (split; [done|split; [auto|lia]]). }
  destruct (Z.eqb_spec num 6) as [->|H6].
  { apply wps_of_wp, wp_bind, wp_vfs_part. eapply wp_mono; [apply (wp_vfs_close ops _ never); [done|by apply Hc]| |done].
    intros r v [Hv' _]. apply wp_ret. split_and!; try done; lia. }
  destruct (Z.eqb_spec num 7) as [->|H7].
  { apply wps_of_wp. pose proof (sched_ok_inv _ Hs) as Hi. unfold current_proc.
    apply wp_bind, wp_zoom, wp_bind, wp_gets. change (view sys_sched y) with (y_sched y).
    rewrite (proj2 (si_one_cpu _ _ _ Hi)).
    apply wp_bind, (wp_get_cpu 0 (cpu0 (y_sched y))); [by apply (si_arr _ _ _ Hi)|]. apply wp_ret.
    destruct (current (cpu0 (y_sched y))) as [r|] eqn:Hcur.
    2:{ apply wp_ret. destruct y. split_and!; try done; lia. }
    destruct (si_current _ _ _ Hi r Hcur) as (_ & p & Hp & _).
    apply wp_bind, wp_zoom. unfold deref. apply wp_bind, wp_gets, (wp_lift_opt _ p); [done|].
    apply wp_ret. destruct y. split_and!; try done; lia. }
  destruct (Z.eqb_spec num 8) as [->|H8].
  { apply wps_bind. eapply wps_mono.
    - apply (wps_zoom sys_sched sched_ok (λ y, vfs_inv ops (y_vfs y))); [done|done|by apply wps_yield_ok].
    - intros _ y' [Hs' Hv']. apply wps_ret. split_and!; try done; lia.
    - done.
    - done. }
  apply wps_of_wp, wp_bind. wp_printf. apply wp_ret. split_and!; try done; lia.
Qed.

Lemma write_loop_faults buf i n (m : gmap Z Z) w (k : nat) :
  (k < n)%nat → m !! u64 (buf + i + Z.of_nat k) = None → ∃ w', write_loop buf i n m w = Fault m w'.
Proof.
  revert i k w. induction n as [|n IH]; intros i k w Hk Hm; [lia|]. cbn [write_loop]. unfold load_byte, bind, get.
  cbn [bind_res]. destruct (m !! u64 (buf + i)) as [c|] eqn:Hc; cbn [lift_opt bind_res]; [|by eexists].
  destruct k as [|k]; [by rewrite Z.add_0_r, Hc in Hm|].
  apply (IH (i + 1) k); [lia|]. by replace (buf + (i + 1) + Z.of_nat k) with (buf + i + Z.of_nat (S k)) by lia.
Qed.

(** The handler trusts its caller: a [SYS_WRITE] whose buffer has an address the
    caller cannot access makes the kernel itself access it. *)
Theorem sys_write_trusts_pointer (y : ystate D) (w : world) (arg0 arg1 arg2 : Z) (k : nat) :
  Z.of_nat k < arg1 → y_mem y !! u64 (arg0 + Z.of_nat k) = None →
  ∃ w', syscall_handler SYS_WRITE arg0 arg1 arg2 y w = Fault y w'.
Proof.
  intros Hk Hm. destruct (write_loop_faults arg0 0 (Z.to_nat arg1) (y_mem y) w k) as [w' Hw];
    [lia|by rewrite Z.add_0_r|].
  exists w'. unfold syscall_handler. change (SYS_WRITE =? SYS_READ) with false. change (SYS_WRITE =? SYS_WRITE) with true.
  cbv iota. unfold bind, zoom. change (view sys_mem y) with (y_mem y). rewrite Hw. cbn. by destruct y.
Qed.
End Safety.

Lemma syscall_safe_witness :
  sys_ok (L := sample_layout) testdev_ops sample_sys ∧
  wps (syscall_handler (L := sample_layout) SYS_YIELD 0 0 0)
    (λ r y', sys_ok (L := sample_layout) testdev_ops y' ∧
      (SYS_YIELD = SYS_OPEN → r = SYSCALL_ERROR ∨ valid_handle testdev_ops (y_vfs y') r) ∧
      (SYS_YIELD = SYS_FORK ∨ SYS_YIELD = SYS_EXEC ∨ SYS_YIELD < SYS_YIELD → r = SYSCALL_ERROR ∧ y' = sample_sys))
    (sys_ok (L := sample_layout) testdev_ops) (sys_ok (L := sample_layout) testdev_ops) sample_sys.
Proof.
  assert (sys_ok (L := sample_layout) testdev_ops sample_sys) as Hok by (split; [by apply demo_ok|apply boot_vfs_inv]).
  split; [exact Hok|]. apply (syscall_safe (L := sample_layout) testdev_ops sample_sys SYS_YIELD 0 0 0); done.
Defined.
