(* ===== verification/Plic.v ===== *)
(** The interrupt controller and the clock: [drivers/plic/plic.c] and
    [drivers/rtc/rtc.c].

    The devices are parameters: a state [D] and what a 32-bit read or write at
    an address does to it. *)

From S2P Require Import Prelude Machine.

Class Mmio (D : Type) := { mmio_read : Z → D → Z * D; mmio_write : Z → Z → D → D }.

Definition PLIC_BASE : Z := 0x0C000000.
Definition PLIC_PRIORITY (id : Z) : Z := u64 (PLIC_BASE + u32 (id * 4)).
Definition PLIC_ENABLE (hart : Z) : Z := PLIC_BASE + 0x2000 + hart * 0x80.
Definition PLIC_THRESHOLD (hart : Z) : Z := PLIC_BASE + 0x200000 + hart * 0x1000.
Definition PLIC_CLAIM (hart : Z) : Z := PLIC_BASE + 0x200004 + hart * 0x1000.
Definition RTC_BASE : Z := 0x101000.

Section Plic.
Context {D : Type} {M : Mmio D}.

(** A volatile load and store. *)
Definition load32 (addr : Z) : K D Z := λ d w, let (v, d') := mmio_read addr d in Ret v d' w.
Definition store32 (addr v : Z) : K D unit := λ d w, Ret tt (mmio_write addr v d) (emits [EvMmio addr v] w).

Definition plic_init : K D unit := store32 (PLIC_THRESHOLD 0) 0.

(** The address of [enable[irq / 32]]. *)
Definition enable_word (irq : Z) : Z := PLIC_ENABLE 0 + 4 * (irq / 32).

Definition plic_enable (irq : Z) : K D unit :=
  store32 (PLIC_PRIORITY irq) 1 ;;
  let* v := load32 (enable_word irq) in
  store32 (enable_word irq) (Z.lor v (u32 (Z.shiftl 1 (irq mod 32)))).

Definition plic_disable (irq : Z) : K D unit :=
  let* v := load32 (enable_word irq) in
  store32 (enable_word irq) (Z.land v (u32 (Z.lnot (Z.shiftl 1 (irq mod 32))))).

Definition plic_claim : K D Z := load32 (PLIC_CLAIM 0).
Definition plic_complete (irq : Z) : K D unit := store32 (PLIC_CLAIM 0) irq.

Definition rtc_init : K D unit := ret tt.
Definition rtc_get_time : K D Z := load32 RTC_BASE.
End Plic.

(** ** The documented behaviour of the enable registers

    [enabled d i]: source [i] is enabled for hart 0.  Bits of sources the
    controller does not have read as 0; reading has no effect, writing a word
    sets the bits of its sources, and priorities are separate. *)
Class PlicLaws (D : Type) {M : Mmio D} := {
  implemented : Z → bool;
  enabled : D → Z → bool;
  read_enable : ∀ d j, 0 <= j < 32 →
    snd (mmio_read (PLIC_ENABLE 0 + 4 * j) d) = d ∧
    ∀ i, 0 <= i < 32 → Z.testbit (fst (mmio_read (PLIC_ENABLE 0 + 4 * j) d)) i = enabled d (32 * j + i);
  write_enable : ∀ d j v k, 0 <= j < 32 → 0 <= k < 1024 →
    enabled (mmio_write (PLIC_ENABLE 0 + 4 * j) v d) k =
      if k / 32 =? j then implemented k && Z.testbit v (k mod 32) else enabled d k;
  write_priority : ∀ d i v k, 0 <= i < 1024 → 0 <= k < 1024 → enabled (mmio_write (PLIC_BASE + 4 * i) v d) k = enabled d k;
  enabled_implemented : ∀ d k, enabled d k = true → implemented k = true }.

Section Sources.
Context {D : Type} {M : Mmio D} {PL : PlicLaws D}.

(** The word of a source and the bit in it. *)
Lemma source_word k : 0 <= k < 1024 → 0 <= k / 32 < 32 ∧ 0 <= k mod 32 < 32 ∧ k = 32 * (k / 32) + k mod 32.
Proof. intros Hk. Z.div_mod_to_equations. lia. Qed.

Lemma priority_address irq : 0 <= irq < 1024 → PLIC_PRIORITY irq = PLIC_BASE + 4 * irq.
Proof. intros Hi. unfold PLIC_PRIORITY, PLIC_BASE. rewrite u32_id, u64_id by (unfold is_u64, is_u32; lia). lia. Qed.

Lemma bit_of_mask a i : 0 <= a < 32 → 0 <= i < 32 → Z.testbit (u32 (Z.shiftl 1 a)) i = (i =? a).
Proof.
  intros Ha Hi. unfold u32. change 4294967296 with (2 ^ 32). rewrite Z.mod_pow2_bits_low by lia.
  rewrite Z.shiftl_1_l, Z.pow2_bits_eqb by lia. apply Z.eqb_sym.
Qed.

Lemma bit_of_nmask a i : 0 <= a < 32 → 0 <= i < 32 → Z.testbit (u32 (Z.lnot (Z.shiftl 1 a))) i = negb (i =? a).
Proof.
  intros Ha Hi. unfold u32. change 4294967296 with (2 ^ 32). rewrite Z.mod_pow2_bits_low by lia.
  rewrite Z.lnot_spec, Z.shiftl_1_l, Z.pow2_bits_eqb by lia. by rewrite Z.eqb_sym.
Qed.

(** A read-modify-write of the word of [irq]. *)
Lemma update_word irq (f : Z → Z) (g : bool → bool) d w :
  0 <= irq < 1024 →
  (∀ v i, 0 <= i < 32 → Z.testbit (f v) i = if i =? irq mod 32 then g (Z.testbit v i) else Z.testbit v i) →
  ∃ d' w', (let* v := load32 (enable_word irq) in store32 (enable_word irq) (f v)) d w = Ret tt d' w' ∧
    ∀ k, 0 <= k < 1024 →
      enabled d' k = if k =? irq then implemented k && g (enabled d k) else enabled d k.
Proof.
  intros Hirq Hf. destruct (source_word irq Hirq) as (Hj & Hb & Hsplit).
  destruct (read_enable d (irq / 32) Hj) as [Hd Hbits]. unfold bind, load32, enable_word.
  destruct (mmio_read _ d) as [v d0] eqn:Hr. simpl in Hd, Hbits. subst d0.
  eexists _, _. split; [reflexivity|]. intros k Hk. destruct (source_word k Hk) as (Hkj & Hkb & Hks).
  rewrite write_enable by done. destruct (Z.eqb_spec (k / 32) (irq / 32)) as [He|Hne].
  - rewrite Hf by done. assert (Z.testbit v (k mod 32) = enabled d k) as Hv.
    { rewrite Hbits by done. f_equal. lia. }
    rewrite Hv. destruct (Z.eqb_spec (k mod 32) (irq mod 32)), (Z.eqb_spec k irq); try lia; [done|].
    destruct (enabled d k) eqn:Hen; [by rewrite (enabled_implemented d k Hen)|by rewrite andb_false_r].
  - destruct (Z.eqb_spec k irq); [by subst|done].
Qed.

Lemma plic_enable_run irq d w :
  0 <= irq < 1024 →
  ∃ d' w', plic_enable irq d w = Ret tt d' w' ∧
    ∀ k, 0 <= k < 1024 → enabled d' k = if k =? irq then implemented k else enabled d k.
Proof.
  intros Hirq. unfold plic_enable, bind at 1, store32 at 1. cbn [bind_res].
  destruct (update_word irq (λ v, Z.lor v (u32 (Z.shiftl 1 (irq mod 32)))) (λ _, true)
    (mmio_write (PLIC_PRIORITY irq) 1 d) (emits [EvMmio (PLIC_PRIORITY irq) 1] w) Hirq) as (d' & w' & Hrun & Hen).
  - intros v i Hi. rewrite Z.lor_spec, bit_of_mask by (try apply source_word; done || lia).
    case_match; [apply orb_true_r|apply orb_false_r].
  - exists d', w'. split; [exact Hrun|]. intros k Hk. rewrite (Hen k Hk), andb_true_r.
    by rewrite priority_address, write_priority.
Qed.

Lemma plic_disable_run irq d w :
  0 <= irq < 1024 →
  ∃ d' w', plic_disable irq d w = Ret tt d' w' ∧
    ∀ k, 0 <= k < 1024 → enabled d' k = if k =? irq then false else enabled d k.
Proof.
  intros Hirq.
  destruct (update_word irq (λ v, Z.land v (u32 (Z.lnot (Z.shiftl 1 (irq mod 32))))) (λ _, false) d w Hirq)
    as (d' & w' & Hrun & Hen).
  - intros v i Hi. rewrite Z.land_spec, bit_of_nmask by (try apply source_word; done || lia).
    case_match; [apply andb_false_r|apply andb_true_r].
  - exists d', w'. split; [exact Hrun|]. intros k Hk. by rewrite (Hen k Hk), andb_false_r.
Qed.

(** ** Sequences of calls *)

(** [(true, i)] enables source [i], [(false, i)] disables it. *)
Definition plic_op (o : bool * Z) : K D unit := if fst o then plic_enable (snd o) else plic_disable (snd o).
Fixpoint plic_ops (os : list (bool * Z)) : K D unit :=
  match os with [] => ret tt | o :: os' => plic_op o ;; plic_ops os' end.

(** The set of enabled sources after the calls. *)
Definition enabled_set (os : list (bool * Z)) (A : gset Z) : gset Z :=
  foldl (λ A (o : bool * Z), if fst o then A ∪ {[snd o]} else A ∖ {[snd o]}) A os.

(** C37: the enable registers implement a set of interrupt sources: from a
    controller whose enabled sources are the set [A], after any sequence of
    enable and disable calls on sources it has, a source is enabled exactly when
    it is in the set obtained by adding and removing; no call touches the bit of
    another source. *)
Theorem plic_refines_set (os : list (bool * Z)) (d : D) (A : gset Z) (w : world) :
  Forall (λ o : bool * Z, 0 <= snd o < 1024 ∧ implemented (snd o) = true) os →
  (∀ k, 0 <= k < 1024 → enabled d k = bool_decide (k ∈ A)) →
  ∃ d' w', plic_ops os d w = Ret tt d' w' ∧
    ∀ k, 0 <= k < 1024 → enabled d' k = bool_decide (k ∈ enabled_set os A).
Proof.
  intros Hos. revert d A w. induction Hos as [|[b i] os [Hi Himp] Hos IH]; intros d A w Hd.
  { exists d, w. done. }
  assert (∃ d1 w1, plic_op (b, i) d w = Ret tt d1 w1 ∧ ∀ k, 0 <= k < 1024 →
    enabled d1 k = bool_decide (k ∈ if b then A ∪ {[i]} else A ∖ {[i]})) as (d1 & w1 & Hrun & Hd1).
  { unfold plic_op. simpl in *. destruct b.
    - destruct (plic_enable_run i d w Hi) as (d1 & w1 & Hrun & Hen). exists d1, w1. split; [done|].
      intros k Hk. rewrite Hen, Hd by done. destruct (Z.eqb_spec k i) as [->|Hne].
      + rewrite Himp. symmetry. apply bool_decide_eq_true. set_solver.
      + apply bool_decide_ext. set_solver.
    - destruct (plic_disable_run i d w Hi) as (d1 & w1 & Hrun & Hen). exists d1, w1. split; [done|].
      intros k Hk. rewrite Hen, Hd by done. destruct (Z.eqb_spec k i) as [->|Hne].
      + symmetry. apply bool_decide_eq_false. set_solver.
      + apply bool_decide_ext. set_solver. }
  destruct (IH d1 _ w1 Hd1) as (d2 & w2 & Hrun2 & Hd2). exists d2, w2. split; [|exact Hd2].
  cbn [plic_ops]. unfold bind. rewrite Hrun. exact Hrun2.
Qed.
End Sources.

(** ** A controller with plain registers *)

Definition plain_word (d : gmap Z Z) (j : Z) : Z := default 0 (d !! (PLIC_ENABLE 0 + 4 * j)).

#[local] Instance plain_mmio : Mmio (gmap Z Z) :=
  {| mmio_read a d := (default 0 (d !! a), d); mmio_write a v d := <[a := v]> d |}.

#[local] Instance plain_plic : PlicLaws (gmap Z Z).
Proof.
  refine {| implemented := λ _, true; enabled := λ d k, Z.testbit (plain_word d (k / 32)) (k mod 32) |}.
  - intros d j Hj. split; [done|]. intros i Hi. simpl. unfold plain_word.
    replace ((32 * j + i) / 32) with j by (Z.div_mod_to_equations; lia).
    by replace ((32 * j + i) mod 32) with i by (Z.div_mod_to_equations; lia).
  - intros d j v k Hj Hk. simpl. unfold plain_word. destruct (Z.eqb_spec (k / 32) j) as [->|Hne].
    + by rewrite lookup_insert_eq.
    + by rewrite lookup_insert_ne by lia.
  - intros d i v k Hi Hk. simpl. unfold plain_word, PLIC_ENABLE, PLIC_BASE.
    rewrite lookup_insert_ne; [done|]. Z.div_mod_to_equations. lia.
  - done.
Defined.

Lemma plic_refines_set_witness :
  ∃ d' w', plic_ops [(true, 10); (true, 33); (false, 10)] (∅ : gmap Z Z) (mkWorld [] []) = Ret tt d' w' ∧
    ∀ k, 0 <= k < 1024 →
      enabled d' k = bool_decide (k ∈ enabled_set [(true, 10); (true, 33); (false, 10)] ∅).
Proof.
  apply (plic_refines_set [(true, 10); (true, 33); (false, 10)] (∅ : gmap Z Z) ∅ (mkWorld [] [])).
  - repeat (apply Forall_cons; split; [split; [simpl; lia|done]|]). by apply Forall_nil.
  - intros k _. simpl. unfold plain_word. rewrite lookup_empty. simpl. by rewrite Z.bits_0.
Defined.
