(* ===== verification/Shell.v ===== *)
(** The shell's line editor and command recogniser, [run_shell] of
    [kernel/main.c]. *)

From Stdlib Require Import String Ascii.
From S2P Require Import Prelude Machine Uart Printf CString.
Local Open Scope string_scope.
Local Open Scope list_scope.
Local Open Scope Z_scope.

Definition SHELL_BUFFER_SIZE : Z := 128.

(** ** Reading a line *)

Section ReadLine.
Context {S : Type}.

(** Backspace or delete; a printable character. *)
Definition is_erase (c : Z) : bool := (c =? 8) || (c =? 127).
Definition is_printable (c : Z) : bool := (32 <=? c) && (c <? 127).

(** The inner [while (1)], on [buffer] and [pos]: it ends with the line.  Each
    round takes a byte of input; [fuel] rounds at most. *)
Fixpoint line_loop (fuel : nat) (buffer : list Z) (pos : Z) : K S (list Z * Z) :=
  match fuel with
  | O => λ s w, Spin s w
  | Datatypes.S fuel' =>
      let* c := uart_getc in
      if (c =? CR) || (c =? LF) then
        let* b := lift_opt (arr_set buffer pos 0) in
        printf [LF; 0] [] ;; ret (b, pos)
      else if is_erase c then
        if 0 <? pos then printf [8; 32; 8; 0] [] ;; line_loop fuel' buffer (pos - 1)
        else line_loop fuel' buffer pos
      else if is_printable c then
        if pos <? SHELL_BUFFER_SIZE - 1 then
          let* b := lift_opt (arr_set buffer pos c) in
          uart_putc c ;; line_loop fuel' b (pos + 1)
        else line_loop fuel' buffer pos
      else line_loop fuel' buffer pos
  end.

(** Every round takes a byte of input, and waits forever when none is left. *)
Definition read_line (buffer : list Z) : K S (list Z * Z) := λ s w,
  line_loop (Datatypes.S (length (w_in w))) buffer 0 s w.

(** ** Recognising a command *)

(** [buffer[i] == c0 && buffer[i+1] == c1 && ...]; [None]: outside the buffer. *)
Fixpoint bytes_match (buffer : list Z) (i : Z) (cs : list Z) : option bool :=
  match cs with
  | [] => Some true
  | c :: cs' => b ← arr_get buffer i; if (b : Z) =? c then bytes_match buffer (i + 1) cs' else Some false
  end.
End ReadLine.

Inductive command :=
  | CmdHelp | CmdPs | CmdSched | CmdInfo | CmdTestdev | CmdTest | CmdEcho | CmdReboot | CmdUnknown.

#[export] Instance command_eq_dec : EqDecision command.
Proof. solve_decision. Defined.

(** The chain of [if]s. *)
Definition parse_command (buffer : list Z) (pos : Z) : option command :=
  help ← bytes_match buffer 0 (lit "help");
  if (help : bool) then Some CmdHelp else
  ps ← bytes_match buffer 0 (lit "ps");
  if (ps : bool) then Some CmdPs else
  sched ← bytes_match buffer 0 (lit "sched");
  if (sched : bool) then Some CmdSched else
  info ← bytes_match buffer 0 (lit "info");
  if (info : bool) then Some CmdInfo else
  testdev ← bytes_match buffer 0 (lit "testdev");
  if (testdev : bool) then Some CmdTestdev else
  test ← bytes_match buffer 0 (lit "test");
  if (test : bool) then Some CmdTest else
  echo ← bytes_match buffer 0 (chars "echo");
  space ← (if (echo : bool) && (4 <? pos) then bytes_match buffer 4 [ch " "%char] else Some false);
  if (space : bool) then Some CmdEcho else
  reboot ← bytes_match buffer 0 (lit "reboot");
  if (reboot : bool) then Some CmdReboot else Some CmdUnknown.

(** ** What the user typed *)

(** The line as edited so far, after one more key. *)
Definition edit_key (t : list Z) (c : Z) : list Z :=
  if is_erase c then removelast t
  else if is_printable c && (Z.of_nat (length t) <? SHELL_BUFFER_SIZE - 1) then t ++ [c] else t.

Definition edited (keys : list Z) : list Z := foldl edit_key [] keys.

(** The command a line stands for. *)
Definition command_of (t : list Z) : command :=
  if decide (t = chars "help") then CmdHelp
  else if decide (t = chars "ps") then CmdPs
  else if decide (t = chars "sched") then CmdSched
  else if decide (t = chars "info") then CmdInfo
  else if decide (t = chars "testdev") then CmdTestdev
  else if decide (t = chars "test") then CmdTest
  else if decide (chars "echo " `prefix_of` t) then CmdEcho
  else if decide (t = chars "reboot") then CmdReboot
  else CmdUnknown.

(** [buffer] begins with [t]. *)
Definition holds (buffer t : list Z) : Prop :=
  length buffer = 128%nat ∧ (length t <= 127)%nat ∧ take (length t) buffer = t ∧ Forall (λ c, c ≠ 0) t.

Lemma holds_add b t c :
  holds b t → (length t < 127)%nat → c ≠ 0 → holds (<[length t := c]> b) (t ++ [c]).
Proof.
  intros (Hl & Ht & Htk & Hz) Hlt Hc. split_and!.
  - by rewrite length_insert.
  - rewrite length_app. simpl. lia.
  - rewrite length_app, Nat.add_1_r, take_insert_S by lia. by rewrite Htk.
  - apply Forall_app. split; [done|]. by apply Forall_singleton.
Qed.

Lemma holds_erase b t : holds b t → holds b (removelast t).
Proof.
  intros (Hl & Ht & Htk & Hz). rewrite removelast_firstn_len. split_and!.
  - done.
  - rewrite length_take. lia.
  - rewrite length_take, Nat.min_l by lia. trans (take (pred (length t)) (take (length t) b)); [|by rewrite Htk].
    rewrite take_take. f_equal. lia.
  - by apply Forall_take.
Qed.

(** The text of a terminated line. *)
Lemma text_closed b t : holds b t → text (<[length t := 0]> b) = Some t.
Proof.
  intros (Hl & Ht & Htk & Hz).
  assert (∀ t b, take (length t) b = t → (length t < length b)%nat → Forall (λ c, c ≠ 0) t →
    text (<[length t := 0]> b) = Some t) as Hgen; [|by apply Hgen; [|lia|]].
  clear. induction t as [|c t IH]; intros [|x b] Htk Hl Hz; simplify_eq/=; try lia; [done|].
  apply Forall_cons_1 in Hz as [Hc Hz]. rewrite (proj2 (Z.eqb_neq _ _) Hc).
  rewrite IH by (done || lia). simpl. congruence.
Qed.

Section Editor.
Context {S : Type}.

(** The keys up to the end of the line are taken one by one. *)
Lemma line_loop_run fuel b t keys nl rest (s : S) tr :
  holds b t → Forall (λ c, 0 <= c < 256 ∧ c ≠ CR ∧ c ≠ LF) keys → nl = CR ∨ nl = LF →
  (length keys < fuel)%nat →
  ∃ b' tr', line_loop fuel b (Z.of_nat (length t)) s (mkWorld (keys ++ nl :: rest) tr) =
      Ret (b', Z.of_nat (length (foldl edit_key t keys))) s (mkWorld rest tr') ∧
    holds b' (foldl edit_key t keys) ∧ text b' = Some (foldl edit_key t keys).
Proof.
  intros Hb Hkeys Hnl. revert fuel b t tr Hb.
  induction Hkeys as [|c keys (Hc & Hcr & Hlf) Hkeys IH]; intros fuel b t tr Hb Hfuel;
    (destruct fuel as [|fuel]; [simpl in Hfuel; lia|]); cbn [line_loop app foldl].
  - pose proof Hb as (Hl & Ht & _).
    destruct (printf_prints (S := S) [LF; 0] [] eq_refl) as [out Hout].
    unfold bind at 1, uart_getc. cbn [bind_res w_in w_tr].
    assert (u8 nl = nl) as -> by (by destruct Hnl as [-> | ->]).
    rewrite (proj2 (orb_true_iff _ _)) by (rewrite !Z.eqb_eq; done).
    rewrite arr_set_some, Nat2Z.id by lia. unfold lift_opt, bind, ret. cbn [bind_res]. rewrite Hout.
    eexists _, _. split; [reflexivity|]. split; [|by apply text_closed].
    destruct Hb as (_ & _ & Htk & Hz). split_and!; [by rewrite length_insert|done| |done].
    by rewrite take_insert_ge by lia.
  - pose proof Hb as (Hl & Ht & _). simpl in Hfuel.
    unfold bind at 1, uart_getc. cbn [bind_res w_in w_tr].
    assert (u8 c = c) as -> by (unfold u8; by apply Z.mod_small).
    rewrite (proj2 (Z.eqb_neq c CR) Hcr), (proj2 (Z.eqb_neq c LF) Hlf). cbn [orb].
    unfold edit_key at 2 4 6. destruct (is_erase c).
    + destruct (Z.ltb_spec 0 (Z.of_nat (length t))) as [Hpos|Hpos].
      * destruct (printf_prints (S := S) [8; 32; 8; 0] [] eq_refl) as [out Hout].
        unfold bind. rewrite Hout. cbn [bind_res].
        replace (Z.of_nat (length t) - 1) with (Z.of_nat (length (removelast t)))
          by (rewrite removelast_firstn_len, length_take; lia).
        apply IH; [by apply holds_erase|lia].
      * destruct t; [|simpl in Hpos; lia]. apply (IH fuel b []); [done|lia].
    + destruct (is_printable c) eqn:Hp; [|apply IH; [done|lia]]. cbn [andb].
      destruct (Z.ltb_spec (Z.of_nat (length t)) (SHELL_BUFFER_SIZE - 1)) as [Hlt|Hge]; [|apply IH; [done|lia]].
      unfold SHELL_BUFFER_SIZE in Hlt. rewrite arr_set_some, Nat2Z.id by lia.
      unfold lift_opt, bind, ret, uart_putc, emit. cbn [bind_res].
      replace (Z.of_nat (length t) + 1) with (Z.of_nat (length (t ++ [c]))) by (rewrite length_app; simpl; lia).
      apply IH; [|lia]. apply holds_add; [done|lia|]. unfold is_printable in Hp. lia.
Qed.

(** Bounds on what the editor can produce. *)
Lemma edited_short keys : (length (edited keys) <= 127)%nat.
Proof.
  unfold edited. assert (∀ t, (length t <= 127)%nat → (length (foldl edit_key t keys) <= 127)%nat) as H;
    [|by apply H; simpl; lia].
  induction keys as [|c keys IH]; intros t Ht; simpl; [done|]. apply IH. unfold edit_key, SHELL_BUFFER_SIZE.
  destruct (is_erase c); [rewrite removelast_firstn_len, length_take; lia|].
  destruct (is_printable c && _) eqn:Hc; [|done]. rewrite length_app. simpl. lia.
Qed.

Lemma read_line_run (buffer keys rest : list Z) (nl : Z) (s : S) (tr : list event) :
  length buffer = 128%nat → Forall (λ c, 0 <= c < 256 ∧ c ≠ CR ∧ c ≠ LF) keys → nl = CR ∨ nl = LF →
  ∃ b' tr', read_line buffer s (mkWorld (keys ++ nl :: rest) tr) =
      Ret (b', Z.of_nat (length (edited keys))) s (mkWorld rest tr') ∧
    length b' = 128%nat ∧ text b' = Some (edited keys) ∧ (length (edited keys) <= 127)%nat.
Proof.
  intros Hlen Hkeys Hnl. unfold read_line. cbn [w_in].
  destruct (line_loop_run (Datatypes.S (length (keys ++ nl :: rest))) buffer [] keys nl rest s tr)
    as (b' & tr' & Hrun & Hb & Ht); [|done|done| |].
  - split_and!; [done|simpl; lia|done|by apply Forall_nil].
  - rewrite length_app. simpl. lia.
  - exists b', tr'. split_and!; [exact Hrun|apply Hb|exact Ht|apply edited_short].
Qed.

(** C35: whatever the shell's 128-byte buffer holds and whatever is
    typed before the end of the line (printable keys, erase keys on an empty
    line, control characters, more than 127 characters), the editor takes
    exactly the keys of the line, never writes outside the buffer, and leaves the
    edited line in it, terminated, with its length. *)
Theorem read_line_spec (buffer keys rest : list Z) (nl : Z) (s : S) (tr : list event) :
  length buffer = 128%nat → Forall (λ c, 0 <= c < 256 ∧ c ≠ CR ∧ c ≠ LF) keys → nl = CR ∨ nl = LF →
  ∃ b' tr', read_line buffer s (mkWorld (keys ++ nl :: rest) tr) =
      Ret (b', Z.of_nat (length (edited keys))) s (mkWorld rest tr') ∧
    length b' = 128%nat ∧ text b' = Some (edited keys) ∧ (length (edited keys) <= 127)%nat.
Proof. apply read_line_run. Qed.
End Editor.

Lemma read_line_witness :
  ∃ b' tr', read_line (replicate 128 65) tt (mkWorld ([104; 127; 127; 112; 1; 115] ++ 13 :: [120]) []) =
      Ret (b', 2) tt (mkWorld [120] tr') ∧
    length b' = 128%nat ∧ text b' = Some [112; 115] ∧ (2 <= 127)%nat.
Proof.
  apply (read_line_spec (replicate 128 65) [104; 127; 127; 112; 1; 115] [120] 13 tt []).
  - reflexivity.
  - repeat (apply Forall_cons; split; [by vm_compute|]). by apply Forall_nil.
  - by left.
Defined.

(** ** The recogniser *)

(** Comparing with a name and its terminator. *)
Lemma match_lit buffer i name t :
  text (drop i buffer) = Some t → Forall (λ c, c ≠ 0) name →
  bytes_match buffer (Z.of_nat i) (name ++ [0]) = Some (bool_decide (t = name)).
Proof.
  revert i t. induction name as [|c name IH]; intros i t Ht Hz; simpl.
  - rewrite arr_get_nat. rewrite <- (Nat.add_0_r i) at 1. rewrite <- lookup_drop.
    destruct (drop i buffer) as [|x l]; [done|]. simpl in *.
    destruct (Z.eqb_spec x 0); [by simplify_eq|]. apply fmap_Some in Ht as (t' & _ & ->). done.
  - apply Forall_cons_1 in Hz as [Hc Hz].
    rewrite arr_get_nat. rewrite <- (Nat.add_0_r i) at 1. rewrite <- lookup_drop.
    destruct (drop i buffer) as [|x l] eqn:Hd; [done|]. simpl in *.
    destruct (Z.eqb_spec x c) as [->|Hne].
    + rewrite (proj2 (Z.eqb_neq c 0) Hc) in Ht. apply fmap_Some in Ht as (t' & Ht & ->).
      replace (Z.of_nat i + 1) with (Z.of_nat (S i)) by lia. rewrite (IH (S i) t'); [|..|done].
      * f_equal. apply bool_decide_ext. naive_solver.
      * by rewrite <- Nat.add_1_r, <- drop_drop, Hd.
    + f_equal. symmetry. apply bool_decide_eq_false. destruct (Z.eqb_spec x 0); [by simplify_eq|].
      apply fmap_Some in Ht as (t' & _ & ->). naive_solver.
Qed.

(** Comparing with a prefix. *)
Lemma match_prefix buffer i name t :
  text (drop i buffer) = Some t → Forall (λ c, c ≠ 0) name →
  bytes_match buffer (Z.of_nat i) name = Some (bool_decide (name `prefix_of` t)).
Proof.
  revert i t. induction name as [|c name IH]; intros i t Ht Hz; simpl.
  - done.
  - apply Forall_cons_1 in Hz as [Hc Hz].
    rewrite arr_get_nat. rewrite <- (Nat.add_0_r i) at 1. rewrite <- lookup_drop.
    destruct (drop i buffer) as [|x l] eqn:Hd; [done|]. simpl in *.
    destruct (Z.eqb_spec x c) as [->|Hne].
    + rewrite (proj2 (Z.eqb_neq c 0) Hc) in Ht. apply fmap_Some in Ht as (t' & Ht & ->).
      replace (Z.of_nat i + 1) with (Z.of_nat (S i)) by lia. rewrite (IH (S i) t'); [|..|done].
      * f_equal. apply bool_decide_ext. split; [by apply prefix_cons|by apply prefix_cons_inv_2].
      * by rewrite <- Nat.add_1_r, <- drop_drop, Hd.
    + f_equal. symmetry. apply bool_decide_eq_false. destruct (Z.eqb_spec x 0); simplify_eq.
      * intros Hp. by apply prefix_nil_inv in Hp.
      * apply fmap_Some in Ht as (t' & _ & ->). intros Hp. by apply prefix_cons_inv_1 in Hp.
Qed.

Lemma text_drop a b l : text l = Some (a ++ b) → text (drop (length a) l) = Some b.
Proof.
  revert l. induction a as [|c a IH]; intros [|x l] Ht; simplify_eq/=; try done.
  destruct (Z.eqb_spec x 0); simplify_eq/=. apply fmap_Some in Ht as (t & Ht & He). simplify_eq/=. by apply IH.
Qed.

(** The test for [echo]. *)
Lemma match_echo buffer t :
  text buffer = Some t →
  (echo ← bytes_match buffer 0 (chars "echo");
   if (echo : bool) && (4 <? Z.of_nat (length t)) then bytes_match buffer 4 [ch " "%char] else Some false) =
  Some (bool_decide (chars "echo " `prefix_of` t)).
Proof.
  intros Ht. change 0 with (Z.of_nat 0) at 1.
  rewrite (match_prefix buffer 0 (chars "echo") t Ht) by (repeat constructor; done). cbn [mbind option_bind].
  destruct (decide (chars "echo" `prefix_of` t)) as [[t2 ->]|Hno].
  - rewrite bool_decide_true by (by exists t2). pose proof (text_drop (chars "echo") t2 buffer Ht) as Hd.
    rewrite length_app. change (length (chars "echo")) with 4%nat in *. cbn [andb].
    destruct (Z.ltb_spec 4 (Z.of_nat (4 + length t2))) as [Hlt|Hge].
    + change 4 with (Z.of_nat 4). rewrite (match_prefix buffer 4 _ t2 Hd) by (repeat constructor; done).
      f_equal. apply bool_decide_ext. change (chars "echo ") with (chars "echo" ++ [ch " "%char]).
      split; [by apply prefix_app|by apply prefix_app_inv].
    + destruct t2; [|simpl in Hge; lia]. rewrite app_nil_r. by vm_compute.
  - rewrite bool_decide_false by done. cbn [andb]. f_equal. symmetry. apply bool_decide_eq_false.
    intros Hp. apply Hno. trans (chars "echo "); [by exists [ch " "%char]|done].
Qed.

Lemma parse_command_text (buffer t : list Z) :
  text buffer = Some t →
  parse_command buffer (Z.of_nat (length t)) = Some (command_of t).
Proof.
  intros Ht. unfold parse_command, command_of, lit.
  assert (∀ n, Forall (λ c, c ≠ 0) n → bytes_match buffer 0 (n ++ [0]) = Some (bool_decide (t = n))) as Hm
    by (intros n Hn; by apply (match_lit buffer 0)).
  rewrite !Hm by (repeat constructor; done). cbn [mbind option_bind].
  do 6 (case_bool_decide; [by rewrite decide_True by done|]; rewrite decide_False by done).
  pose proof (match_echo buffer t Ht) as He.
  destruct (bytes_match buffer 0 (chars "echo")) as [echo|]; [|done]. cbn [mbind option_bind] in *. rewrite He.
  clear He. cbn [mbind option_bind]. do 2 (case_bool_decide; [by rewrite decide_True by done|]; rewrite decide_False by done).
  done.
Qed.

(** C36: on a buffer that holds the line [t], the chain of byte comparisons
    picks the command whose name [t] is ([echo] when [t] begins with "echo "), and
    never looks outside the buffer; bytes left over from longer lines do not
    matter. *)
Theorem parse_command_spec (buffer t : list Z) :
  text buffer = Some t →
  parse_command buffer (Z.of_nat (length t)) = Some (command_of t).
Proof. apply parse_command_text. Qed.

Lemma parse_command_witness :
  text (chars "ps" ++ 0 :: replicate 125 65) = Some (chars "ps") ∧
  parse_command (chars "ps" ++ 0 :: replicate 125 65) 2 = Some CmdPs.
Proof.
  split; [reflexivity|]. apply (parse_command_spec (chars "ps" ++ 0 :: replicate 125 65) (chars "ps")). reflexivity.
Defined.
