(* ===== verification/Kernel.v ===== *)
(** The kernel as a whole: the state of all components together and the
    start-up sequence of [kernel_main] in [kernel/main.c]. *)

From Stdlib Require Import String.
From S2P Require Import Prelude Machine Uart Printf Frames Mm Vm PageTable Mapping KernelMap Process Queues.
From S2P Require Import Scheduler SchedInv SchedOps SchedProps SchedTypes CString SimpleFs Vfs Testdev Trap.
Local Open Scope string_scope.
Local Open Scope list_scope.
Local Open Scope Z_scope.

(** ** State: one memory manager shared by all *)

Record kstate := KState {
  k_vm : vm_state; k_csr : csrs; k_sched : sstate;
  k_devices : list (device testdev); k_next_ino : Z;
  k_files : gmap Z file_t; k_inodes : gmap Z (inode_t testdev); k_testdev : testdev;
  k_superblock : sfs_superblock; k_sfs_inodes : list sfs_inode; k_data_blocks : Z }.

Definition kvm : lens vm_state kstate.
Proof.
  refine (Lens k_vm (λ v k, KState v (k_csr k) (k_sched k) (k_devices k) (k_next_ino k) (k_files k) (k_inodes k)
    (k_testdev k) (k_superblock k) (k_sfs_inodes k) (k_data_blocks k)) _ _ _); by intros; destruct t.
Defined.
Definition kcsr : lens csrs kstate.
Proof.
  refine (Lens k_csr (λ c k, KState (k_vm k) c (k_sched k) (k_devices k) (k_next_ino k) (k_files k) (k_inodes k)
    (k_testdev k) (k_superblock k) (k_sfs_inodes k) (k_data_blocks k)) _ _ _); by intros; destruct t.
Defined.
Definition ksched : lens sstate kstate.
Proof.
  refine (Lens k_sched (λ s k, KState (k_vm k) (k_csr k) s (k_devices k) (k_next_ino k) (k_files k) (k_inodes k)
    (k_testdev k) (k_superblock k) (k_sfs_inodes k) (k_data_blocks k)) _ _ _); by intros; destruct t.
Defined.
Definition kvfs : lens (vfs_state testdev) kstate.
Proof.
  refine (Lens (λ k, Vfs (vm_mm (k_vm k)) (k_devices k) (k_next_ino k) (k_files k) (k_inodes k) (k_testdev k))
    (λ v k, KState (VM (vf_mm v) (kernel_pagetable (k_vm k))) (k_csr k) (k_sched k) (devices v) (next_ino v)
      (v_files v) (v_inodes v) (vf_dev v) (k_superblock k) (k_sfs_inodes k) (k_data_blocks k)) _ _ _);
    [by intros [] []|by intros [[] ? ? ? ? ? ? ? ? ? ?]|by intros [] [] []].
Defined.
Definition ksfs : lens sfs_state kstate.
Proof.
  refine (Lens (λ k, Sfs (vm_mm (k_vm k)) (k_superblock k) (k_sfs_inodes k) (k_data_blocks k))
    (λ s k, KState (VM (sf_mm s) (kernel_pagetable (k_vm k))) (k_csr k) (k_sched k) (k_devices k) (k_next_ino k)
      (k_files k) (k_inodes k) (k_testdev k) (superblock s) (inodes s) (data_blocks s)) _ _ _);
    [by intros [] []|by intros [[] ? ? ? ? ? ? ? ? ? ?]|by intros [] [] []].
Defined.
Definition ktestdev : lens testdev kstate.
Proof.
  refine (Lens k_testdev (λ d k, KState (k_vm k) (k_csr k) (k_sched k) (k_devices k) (k_next_ino k) (k_files k)
    (k_inodes k) d (k_superblock k) (k_sfs_inodes k) (k_data_blocks k)) _ _ _); by intros; destruct t.
Defined.

(** ** Start-up *)

Section Start.
Context {L : Layout}.

Definition print_banner {S} : K S unit :=
  printf [LF; 0] [] ;;
  printf (ln "====================================") [] ;;
  printf (ln "  RISC-V 64-bit Embedded OS") [] ;;
  printf (ln "  Version 1.0") [] ;;
  printf (ln "====================================") [] ;;
  printf [LF; 0] [].

Definition show_system_info : K csrs unit :=
  printf (LF :: ln "[INFO] System Information:") [] ;;
  printf (ln "  Architecture: RISC-V 64-bit (RV64IMAC)") [] ;;
  printf (ln "  Privilege Mode: Supervisor (S-mode)") [] ;;
  printf (ln "  Page Size: %d bytes") [ANum PAGE_SIZE] ;;
  let* st := r_sstatus in
  let* e := r_sie in
  let* v := r_stvec in
  printf (ln "  sstatus: %p") [ANum st] ;;
  printf (ln "  sie:     %p") [ANum e] ;;
  printf (ln "  stvec:   %p") [ANum v] ;;
  printf [LF; 0] [].

(** [kernel_main] up to the self tests; [trap_entry]: the trap vector. *)
Definition kernel_start (trap_entry : Z) : K kstate unit :=
  uart_init ;;
  print_banner ;;
  printf (ln "[KERNEL] Starting RISC-V OS kernel...") [] ;;
  printf (ln "[KERNEL] Kernel loaded at 0x80200000") [] ;;
  zoom kvm (zoom mm_lens mm_init) ;;
  zoom kvm vm_init ;;
  zoom kvm kvminithart ;;
  zoom kcsr (trap_init trap_entry) ;;
  zoom ksched scheduler_init ;;
  zoom kvfs vfs_init ;;
  zoom ksfs sfs_init ;;
  zoom ksfs (sfs_format 256) ;;
  zoom ktestdev testdev_init ;;
  zoom kvfs testdev_register ;;
  zoom kcsr show_system_info.
End Start.

(** ** The page-table code leaves the heap alone *)

Lemma heap_load a : frames heap_current (load a).
Proof. intros s w. unfold load. by destruct (ram_word a). Qed.
Lemma heap_store a v : frames heap_current (store a v).
Proof. intros s w. unfold store. by destruct (ram_word a). Qed.
#[export] Hint Resolve heap_load heap_store : frames.

Lemma heap_alloc_page : frames heap_current alloc_page.
Proof. unfold alloc_page. frames; by apply frames_modify || (apply frames_for_from; frames). Qed.
#[export] Hint Resolve heap_alloc_page : frames.

Lemma heap_walk_down level p va alloc : frames heap_current (walk_down level p va alloc).
Proof. revert p. induction level as [|level IH]; intros p; cbn [walk_down]; frames. Qed.

Lemma heap_walk p va alloc : frames heap_current (walk p va alloc).
Proof. unfold walk. case_match; [by eauto with frames|apply heap_walk_down]. Qed.
#[export] Hint Resolve heap_walk : frames.

Lemma heap_mappages_loop fuel p a last pa perm : frames heap_current (mappages_loop fuel p a last pa perm).
Proof. revert a pa. induction fuel as [|fuel IH]; intros a pa; cbn [mappages_loop]; frames. Qed.

Lemma heap_mappages p va size pa perm : frames heap_current (mappages p va size pa perm).
Proof. unfold mappages. case_match; [by eauto with frames|apply heap_mappages_loop]. Qed.

(** The heap pointer, from the state of the page-table code. *)
Definition vm_heap (v : vm_state) : Z := heap_current (vm_mm v).

Lemma heap_kvm_map p va size pa perm msg : terminated msg = true → frames vm_heap (kvm_map p va size pa perm msg).
Proof.
  intros Hm. unfold kvm_map. apply frames_bind; [|intros r; case_match; by eauto with frames].
  apply (frames_zoom mm_lens _ heap_current); [done|apply heap_mappages].
Qed.

Lemma heap_vm_init : frames vm_heap vm_init.
Proof.
  unfold vm_init, kvminit. apply frames_bind; [by apply frames_printf|intros _].
  apply frames_bind; [apply (frames_zoom mm_lens _ heap_current); [done|apply heap_alloc_page]|intros p].
  apply frames_bind; [by apply frames_modify|intros _].
  apply frames_bind; [case_match; by eauto with frames|intros _].
  apply frames_bind; [by apply frames_printf|intros _].
  do 4 (apply frames_bind; [by apply heap_kvm_map|intros _]). by apply frames_printf.
Qed.

(** ** The state the start-up sequence leaves *)

(** Static data before [kernel_main]: the arrays have their sizes, the process
    records are well typed, nothing is open, and there is one CPU; otherwise the
    contents do not matter. *)
Record kernel_bss (k : kstate) : Prop := {
  kb_sched : bss (k_sched k) ∧ typed (k_sched k);
  kb_devices : length (k_devices k) = 16%nat ∧ Forall (λ d, length (d_name d) = 32%nat) (k_devices k);
  kb_files : k_files k = ∅ ∧ k_inodes k = ∅;
  kb_testdev : Z.of_nat (length (testdev_buffer (k_testdev k))) = TESTDEV_SIZE;
  kb_sfs : sfs_bss (view ksfs k) }.

Record kernel_ready {L : Layout} (entry : Z) (k : kstate) : Prop := {
  kr_paging : ∃ l, has_map (kernel_pagetable (k_vm k)) kernel_map (vm_mm (k_vm k)) l ∧ 300 <= Z.of_nat (length l);
  kr_traps : stvec (k_csr k) = entry ∧ Z.testbit (sie (k_csr k)) 5 = true ∧ Z.testbit (sstatus (k_csr k)) 1 = true;
  kr_sched : sched_ok (k_sched k) ∧ current (cpu0 (k_sched k)) = None ∧ tracked (k_sched k) = [];
  kr_typed : typed (k_sched k);
  kr_vfs : vfs_inv testdev_ops (view kvfs k) ∧ registered (view kvfs k) (chars "testdev");
  kr_testdev : contents (k_testdev k) = [];
  kr_sfs : sfs_repr (view ksfs k) ∅ ∧ k_data_blocks k = heap_start;
  kr_heap : heap_current (vm_mm (k_vm k)) = heap_start + 2 ^ 20 }.

Section Boot.
Context {L : Layout} {LO : LayoutOk L}.

Lemma wp_paging v :
  wp (zoom mm_lens mm_init) (λ _ v1, wp vm_init
    (λ _ v', (∃ l, has_map (kernel_pagetable v') kernel_map (vm_mm v') l ∧ 300 <= Z.of_nat (length l)) ∧
      vm_heap v' = heap_start) never v1) never v.
Proof.
  apply wp_zoom, wp_mm_init. intros s Hfl Hh.
  eapply wp_mono; [apply (wp_frames vm_heap); [apply heap_vm_init|]| |done].
  - unfold vm_init. apply wp_bind. wp_printf. apply (wp_kvminit _ all_pages (λ _ v', ∃ l,
      has_map (kernel_pagetable v') kernel_map (vm_mm v') l ∧ 300 <= Z.of_nat (length l))); [done| |].
    + rewrite length_all_pages. pose proof n_pages_eq. lia.
    + intros s' root l' Hm _ Hl. exists l'. split; [done|]. rewrite length_all_pages in Hl. pose proof n_pages_eq. lia.
  - intros _ v' [Hm Heq]. split; [exact Hm|]. by rewrite Heq.
Qed.

Lemma has_map_heap root f s l h : has_map root f s l → has_map root f (set_heap_current h s) l.
Proof. intros [Hf Hi Hx]. constructor; [|done|done]. destruct Hf. by constructor. Qed.

(** The device registry after [vfs_init]. *)
Lemma wp_vfs_init (Q : unit → vfs_state testdev → Prop) H s :
  Q tt (set_devices ((λ d, Device (d_name d) (d_ops d) 0) <$> devices s) s) → wp vfs_init Q H s.
Proof. intros HQ. unfold vfs_init. apply wp_bind. wp_printf. apply wp_bind, wp_modify. by wp_printf. Qed.

Lemma wp_trap_init entry (Q : unit → csrs → Prop) H c :
  (∀ c', stvec c' = entry → Z.testbit (sie c') 5 = true → Z.testbit (sstatus c') 1 = true → Q tt c') →
  wp (trap_init entry) Q H c.
Proof.
  intros HQ. unfold trap_init, w_stvec, w_sie, w_sstatus, r_sie, r_sstatus, r_stvec.
  apply wp_bind. wp_printf. do 2 (apply wp_bind, wp_bind, wp_modify, wp_emit, wp_bind, wp_gets).
  apply wp_bind, wp_bind, wp_modify, wp_emit, wp_bind, wp_gets. wp_printf.
  apply HQ; cbn [stvec sie sstatus]; [done|..].
  - rewrite !Z.lor_spec. change (Z.testbit SIE_STIE 5) with true. by rewrite orb_true_r.
  - rewrite Z.lor_spec. change (Z.testbit SSTATUS_SIE 1) with true. by rewrite orb_true_r.
Qed.

Lemma wp_show_system_info (Q : unit → csrs → Prop) H c : Q tt c → wp show_system_info Q H c.
Proof.
  intros HQ. unfold show_system_info, r_sstatus, r_sie, r_stvec. do 4 (apply wp_bind; wp_printf).
  do 3 (apply wp_bind, wp_gets). do 3 (apply wp_bind; wp_printf). by wp_printf.
Qed.

Lemma wp_print_banner {S} (Q : unit → S → Prop) H s : Q tt s → wp print_banner Q H s.
Proof. intros HQ. unfold print_banner. do 5 (apply wp_bind; wp_printf). by wp_printf. Qed.

(** The registry [vfs_init] leaves is empty and well formed. *)
Lemma cleared_devices (dv : list (device testdev)) :
  Forall (λ d, length (d_name d) = 32%nat) dv →
  Forall (device_ok testdev_ops) ((λ d, Device (d_name d) (d_ops d) 0) <$> dv).
Proof. intros Hd. apply Forall_fmap. eapply Forall_impl; [exact Hd|]. intros d Hl. by split. Qed.

(** From the scheduler on: file systems and test device. *)
Lemma wp_files_start entry (Q : unit → kstate → Prop) H v c sc dv ni td sb si db :
  (∃ l, has_map (kernel_pagetable v) kernel_map (vm_mm v) l ∧ 300 <= Z.of_nat (length l)) → vm_heap v = heap_start →
  stvec c = entry ∧ Z.testbit (sie c) 5 = true ∧ Z.testbit (sstatus c) 1 = true →
  sched_ok sc ∧ current (cpu0 sc) = None ∧ tracked sc = [] → typed sc →
  length dv = 16%nat → Forall (λ d, length (d_name d) = 32%nat) dv →
  Z.of_nat (length (testdev_buffer td)) = TESTDEV_SIZE →
  sfs_bss (Sfs (vm_mm v) sb si db) →
  (∀ k', kernel_ready entry k' → Q tt k') →
  wp (zoom kvfs vfs_init ;; zoom ksfs sfs_init ;; zoom ksfs (sfs_format 256) ;;
      zoom ktestdev testdev_init ;; zoom kvfs testdev_register ;; zoom kcsr show_system_info) Q H
    (KState v c sc dv ni ∅ ∅ td sb si db).
Proof.
  intros (l & Hmap & Hlen) Hheap Htrap Hsched Htyped Hdl Hdn Htd Hsfs HQ.
  apply wp_bind, wp_zoom, wp_vfs_init. cbn.
  apply wp_bind, wp_zoom. eapply wp_mono; [apply (wp_sfs_init never); exact Hsfs| |done].
  intros _ [m1 sb1 si1 db1] (Hm1 & Hb1 & Hz1). cbn in *. subst m1.
  assert (heap_ok (vm_mm v)) as Hhok.
  { unfold vm_heap in Hheap. unfold heap_ok, heap_end. rewrite Hheap. pose proof heap_start_aligned.
    split; [lia|]. Z.div_mod_to_equations; lia. }
  apply wp_bind, wp_zoom. eapply wp_mono; [apply (wp_sfs_format 256 never); exact Hhok| |done].
  intros r [m2 sb2 si2 db2] (Hi2 & Hs2 & Hsz).
  cbn [sf_mm superblock inodes data_blocks view put ksfs k_vm k_superblock k_sfs_inodes k_data_blocks vm_mm
    kernel_pagetable k_csr k_sched k_devices k_next_ino k_files k_inodes k_testdev] in *.
  unfold vm_heap in Hheap. rewrite Hheap in Hsz. change (round8 (u32 (256 * 4096))) with 1048576 in Hsz.
  change (u32 (256 * 4096) =? 0) with false in Hsz. cbn [orb] in Hsz.
  rewrite (proj2 (Z.ltb_ge heap_end _)) in Hsz by (unfold heap_end; lia). destruct Hsz as (_ & -> & ->). subst si2 sb2.
  apply wp_bind, wp_zoom. unfold testdev_init. apply wp_modify.
  apply wp_bind, wp_zoom. unfold testdev_register. cbn.
  match goal with |- wp _ _ _ ?x => set (s3 := x) end.
  assert (vfs_inv testdev_ops s3) as Hinv.
  { constructor; [by apply cleared_devices| |done|done|split; [done|simpl; unfold TESTDEV_SIZE; lia]].
    unfold heap_ok, heap_end. simpl. pose proof heap_start_aligned. split; [lia|]. Z.div_mod_to_equations; lia. }
  eapply wp_mono; [apply (wp_register testdev_ops _ (chars "testdev") never); [exact Hinv|done]| |done].
  intros r' [m4 dv4 ni4 f4 n4 d4] (Hinv4 & _ & [Hm4 Hd4] & Hr' & Hreg & _). cbn in Hm4, Hd4. subst m4 d4.
  apply wp_zoom, wp_show_system_info, HQ. constructor.
  - exists l. split; [by apply has_map_heap|done].
  - exact Htrap.
  - exact Hsched.
  - exact Htyped.
  - split; [exact Hinv4|]. apply Hreg, Hr'. destruct dv; [done|]. by apply Exists_cons_hd.
  - done.
  - split; [|done]. by apply empty_repr.
  - done.
Qed.

Lemma wp_kernel_start entry (Q : unit → kstate → Prop) H k :
  kernel_bss k → (∀ k', kernel_ready entry k' → Q tt k') → wp (kernel_start entry) Q H k.
Proof.
  intros [[Hsched Htyped] [Hdl Hdn] [Hf Hn] Htd Hsfs] HQ. unfold kernel_start.
  apply wp_bind, wp_ret, wp_bind, wp_print_banner. do 2 (apply wp_bind; wp_printf).
  apply wp_bind, wp_zoom. eapply wp_mono; [apply wp_paging| |done]. intros [] v1 Hv1.
  apply wp_bind, wp_zoom. rewrite view_put. eapply wp_mono; [exact Hv1| |done].
  intros _ v2 [(l & Hmap & Hlen) Hheap]. rewrite Machine.put_put.
  apply wp_bind, wp_zoom. unfold kvminithart. apply wp_bind, wp_gets, wp_bind, wp_emit, wp_bind, wp_emit. wp_printf.
  rewrite put_view.
  apply wp_bind, wp_zoom, wp_trap_init. intros c' Hst Hsie Hss.
  apply wp_bind, wp_zoom. eapply wp_mono; [exact (wp_preserves typed _ _ never _ typed_init Htyped
    (wp_scheduler_init never _ Hsched))| |done].
  intros _ sc [(cp & Hinv & Hcur & _) Htyped'].
  destruct k as [vm csr sc0 dv ni fl ino td sb si db].
  cbn [view put kvm kcsr ksched k_vm k_csr k_sched k_devices k_next_ino k_files k_inodes k_testdev k_superblock
    k_sfs_inodes k_data_blocks] in *. subst fl ino.
  destruct (sched_inv_abs _ _ _ Hinv) as [Ha Hc].
  apply (wp_files_start entry); try done.
  - by exists l.
  - split; [by eexists _, _|]. unfold tracked, running. by rewrite <- Ha, <- Hc, Hcur.
Qed.
End Boot.

(** C4: from any contents of RAM and of the static tables, the start-up
    sequence of [kernel_main] (memory, paging, traps, scheduler, file systems, test
    device) runs to the end without panic or fault, and leaves every component in
    its invariant at once: the kernel page table maps exactly RAM and the devices,
    the trap vector is set with timer interrupts on, the scheduler has no process,
    the simple file system is empty with its megabyte of blocks reserved at the
    start of the heap, and the test device is registered, empty, and can be opened. *)
Theorem kernel_start_ready {L : Layout} {LO : LayoutOk L} (entry : Z) (k : kstate) (w : world) :
  kernel_bss k → ∃ k' w', kernel_start entry k w = Ret tt k' w' ∧ kernel_ready entry k'.
Proof.
  intros Hb. destruct (wp_run (kernel_start entry) (λ _ k', kernel_ready entry k') k w)
    as ([] & k' & w' & Hrun & Hk); [|by exists k', w'].
  by apply wp_kernel_start.
Qed.

(** Static data as the loader leaves it. *)
Definition boot_kernel : kstate :=
  KState (VM boot_mm 0) (Csrs 0 0 0 0 0 0) boot_sched (replicate 16 (Device (replicate 32 0) None 0)) 1 ∅ ∅
    (Testdev (replicate 1024 0) 0) (SB 0 0 0 0 0 0) (inodes sample_sfs) 0.

Lemma kernel_start_witness :
  ∃ k' w', kernel_start (L := sample_layout) 0x80200100 boot_kernel boot_world = Ret tt k' w' ∧
    kernel_ready (L := sample_layout) 0x80200100 k'.
Proof.
  apply (kernel_start_ready (L := sample_layout) 0x80200100 boot_kernel boot_world).
  constructor; [exact (conj boot_bss boot_typed)| |done|done|exact sample_sfs_bss].
  split; [done|]. by apply Forall_replicate.
Defined.
