(* ===== verification/Main.v ===== *)
(** [kernel/main.c]: self tests, shell commands and [kernel_main] on the state
    of the whole kernel.

    The line editor and the recognition of commands are in [Shell.v], the
    start-up sequence in [Kernel.v]. *)

From Stdlib Require Import String Ascii.
From S2P Require Import Prelude Machine Uart Printf Frames Mm Vm PageTable Mapping KernelMap Process Queues.
From S2P Require Import Scheduler SchedInv SchedOps SchedProps CString SimpleFs Vfs Testdev Trap Shell Kernel.
Local Open Scope string_scope.
Local Open Scope list_scope.
Local Open Scope Z_scope.

Definition QEMU_VIRT_TEST : Z := 0x100000.

(** [while (s[len] != 0) len++]; [None]: past the end of the array. *)
Fixpoint strlen (s : list Z) : option Z :=
  match s with
  | [] => None
  | c :: s' => if c =? 0 then Some 0 else n ← strlen s'; Some (n + 1)
  end.

Section Main.
Context {L : Layout}.

(** The memory manager. *)
Definition kmm {A} (m : K mm_state A) : K kstate A := zoom kvm (zoom mm_lens m).

(** The process table inside the scheduler's state. *)
Definition sched_ps : lens pstate sstate.
Proof. refine (Lens ps (λ t s, set_ps t s) _ _ _); by intros; destruct t. Defined.

Definition kproc {A} (f : pstate → A * pstate) : K kstate A :=
  zoom ksched (zoom sched_ps (λ t w, let (a, t') := f t in Ret a t' w)).

(** ** Self tests *)

Definition test_vm : K kstate unit :=
  printf (ln "[TEST] Testing virtual memory...") [] ;;
  let* pt := kmm vm_create_user_pagetable in
  if pt =? 0 then printf (ln "[TEST] Failed to create user page table") []
  else
    printf (ln "[TEST] Created user page table at %p") [ANum pt] ;;
    let pa := 0x80100000 in
    let* r := kmm (mappages pt 0x1000 PAGE_SIZE pa (Z.lor (Z.lor PTE_R PTE_W) PTE_U)) in
    if negb (r =? 0) then printf (ln "[TEST] Failed to map page") []
    else
      printf (ln "[TEST] Mapped VA 0x1000 -> PA %p") [ANum pa] ;;
      let* pa2 := kmm (walkaddr pt 0x1000) in
      if negb (pa2 =? pa) then
        printf (ln "[TEST] Address translation failed: got %p, expected %p") [ANum pa2; ANum pa]
      else
        printf (ln "[TEST] Address translation verified") [] ;;
        kmm (vm_free 3 pt) ;;
        printf (ln "[TEST] Virtual memory test PASSED") [].

(** The loop that copies [name] into [p->name]. *)
Definition set_name (name : list Z) (p : process) : process :=
  Process_ (p_pid p) (p_state p) (p_pagetable p) (p_context p) (p_kernel_sp p) (p_user_sp p)
    (list_inserts 0 name (p_name p)) (p_priority p) (p_dynamic_priority p) (p_policy p) (p_queue_level p)
    (p_time_slice p) (p_cpu_affinity p) (p_cpu_id p) (p_stats p).

(** One process of [test_scheduler]: allocated, named, given a priority and for
    the last one a policy, and reported. *)
Definition test_process (failed msg name : list Z) (priority : Z) (policy : option sched_policy)
    (rest : option procref → K kstate unit) : K kstate unit :=
  let* p := kproc process_alloc in
  match p with
  | None => printf failed []
  | Some r =>
      zoom ksched (
        upd r (set_name name) ;;
        sched_set_priority p priority ;;
        match policy with None => ret tt | Some pol => sched_set_policy p pol end ;;
        let* q := deref r in
        printf msg [AStr (p_name q); ANum (p_pid q); ANum (p_priority q)]) ;;
      rest p
  end.

Definition test_scheduler : K kstate unit :=
  printf (ln "[TEST] Testing scheduler...") [] ;;
  test_process (ln "[TEST] Failed to allocate process 1")
    (ln "[TEST] Allocated process: %s (PID %lu, Priority: %d)") (lit "test1") PRIORITY_DEFAULT None (λ p1,
  test_process (ln "[TEST] Failed to allocate process 2")
    (ln "[TEST] Allocated process: %s (PID %lu, Priority: %d)") (lit "test2") (PRIORITY_NORMAL_MIN + 10) None (λ p2,
  test_process (ln "[TEST] Failed to allocate process 3")
    (ln "[TEST] Allocated RT process: %s (PID %lu, Priority: %d, Policy: FIFO)") (lit "rt_test") 50
    (Some SCHED_FIFO) (λ p3,
  zoom ksched (sched_add p1 ;; sched_add p2 ;; sched_add p3) ;;
  printf (ln "[TEST] Added processes to scheduler") [] ;;
  zoom ksched sched_print_stats ;;
  printf (ln "[TEST] Scheduler test PASSED") []))).

Definition test_filesystem : K kstate unit :=
  printf (ln "[TEST] Testing file system...") [] ;;
  let* ino := zoom ksfs (sfs_create (lit "testfile") VFS_FILE) in
  if ino <=? 0 then printf (ln "[TEST] Failed to create file") []
  else
    printf (ln "[TEST] Created file 'testfile' with inode %d") [ANum ino] ;;
    let* r := zoom ksfs (sfs_delete (lit "testfile")) in
    if negb (r =? 0) then printf (ln "[TEST] Failed to delete file") []
    else
      printf (ln "[TEST] Deleted file 'testfile'") [] ;;
      printf (ln "[TEST] File system test PASSED") [].

Definition run_tests : K kstate unit :=
  printf (LF :: ln "========================================") [] ;;
  printf (ln "  Running System Tests") [] ;;
  printf (chars "========================================" ++ [LF; LF; 0]) [] ;;
  test_vm ;;
  printf [LF; 0] [] ;;
  test_scheduler ;;
  printf [LF; 0] [] ;;
  test_filesystem ;;
  printf [LF; 0] [] ;;
  printf (ln "========================================") [] ;;
  printf (ln "  All Tests Completed") [] ;;
  printf (chars "========================================" ++ [LF; LF; 0]) [].

Definition test_memory : K kstate unit :=
  printf (ln "[TEST] Testing memory allocation...") [] ;;
  let* page1 := kmm alloc_page in
  let* page2 := kmm alloc_page in
  printf (ln "[TEST] Allocated pages: %p, %p") [ANum page1; ANum page2] ;;
  let* ptr1 := kmm (kmalloc 256) in
  let* ptr2 := kmm (kmalloc 512) in
  printf (ln "[TEST] Allocated heap: %p, %p") [ANum ptr1; ANum ptr2] ;;
  kmm (free_page page1) ;;
  kmm (free_page page2) ;;
  printf (ln "[TEST] Memory test completed") [].

(** ** Shell commands *)

Definition cmd_help : K kstate unit :=
  printf (ln "Available commands:") [] ;;
  printf (ln "  help     - Show this help message") [] ;;
  printf (ln "  info     - Show system information") [] ;;
  printf (ln "  test     - Run memory test") [] ;;
  printf (ln "  testdev  - Test VFS device driver") [] ;;
  printf (ln "  ps       - Show process statistics") [] ;;
  printf (ln "  sched    - Show scheduler statistics") [] ;;
  printf (ln "  echo     - Echo back the input") [] ;;
  printf (ln "  reboot   - Reboot the system") [].

Definition cmd_ps : K kstate unit :=
  printf (LF :: ln "[PS] Process List:") [] ;;
  printf (ln "========================================") [] ;;
  let* curr := zoom ksched current_proc in
  match curr with
  | Some _ => zoom ksched (zoom sched_ps (process_print_stats curr))
  | None => printf (ln "No current process") []
  end ;;
  printf (ln "========================================") [].

(** [file->inode->ops->seek(file, 0)], if there is one. *)
Definition seek_start (p : Z) : K (vfs_state testdev) Z :=
  let* f := get_file p in
  let* n := get_vinode (f_inode f) in
  let* ops := lift_opt (n_ops n) in
  match fo_seek ops with
  | None => ret 0
  | Some g => let* r := zoom vfs_dev (g f 0) in put_file p (snd r) ;; ret (fst r)
  end.

(** The [testdev] command; [read_buf] is the local array of 65 bytes. *)
Definition cmd_testdev (read_buf : list Z) : K kstate unit :=
  printf (ln "[TEST] Testing /testdev device") [] ;;
  let* file := zoom kvfs (vfs_open (lit "/testdev") 0) in
  if file =? 0 then printf (ln "[TEST] Failed to open /testdev") []
  else
    let test_data := lit "Hello from VFS test!" in
    let* data_len := lift_opt (strlen test_data) in
    let* written := zoom kvfs (vfs_write file test_data data_len) in
    if written <? 0 then printf (ln "[TEST] Failed to write data") [] ;; zoom kvfs (vfs_close file) ;; ret tt
    else
      printf (ln "[TEST] Wrote %d bytes") [ANum written] ;;
      let* seek_ret := zoom kvfs (seek_start file) in
      if negb (seek_ret =? 0) then printf (ln "[TEST] Failed to seek") [] ;; zoom kvfs (vfs_close file) ;; ret tt
      else
        let* r := zoom kvfs (vfs_read file 64) in
        let buf := snd r ++ drop (length (snd r)) read_buf in
        if fst r <? 0 then printf (ln "[TEST] Failed to read data") [] ;; zoom kvfs (vfs_close file) ;; ret tt
        else
          (if (0 <? fst r) && (fst r <? 65) then
             let* b := lift_opt (arr_set buf (fst r) 0) in
             printf (ln "[TEST] Read %d bytes: %s") [ANum (fst r); AStr b]
           else ret tt) ;;
          zoom kvfs (vfs_close file) ;;
          printf (ln "[TEST] Test completed") [].

(** A 32-bit store through the page table in force: a page fault when the
    address is not mapped. *)
Definition store_device (a v : Z) : K kstate unit := λ k w,
  match xlate (mem (vm_mm (k_vm k))) (kernel_pagetable (k_vm k)) a with
  | Some _ => Ret tt k (emits [EvMmio a v] w)
  | None => Fault k w
  end.

Definition cmd_reboot : K kstate unit :=
  printf (ln "Rebooting...") [] ;; store_device QEMU_VIRT_TEST 0x5555.

Definition exec_command (buffer read_buf : list Z) (c : command) : K kstate unit :=
  match c with
  | CmdHelp => cmd_help
  | CmdPs => cmd_ps
  | CmdSched => zoom ksched sched_print_stats
  | CmdInfo => zoom kcsr show_system_info
  | CmdTestdev => cmd_testdev read_buf
  | CmdTest => test_memory
  | CmdEcho => printf (ln "%s") [AStr (drop 5 buffer)]
  | CmdReboot => cmd_reboot
  | CmdUnknown =>
      printf (ln "Unknown command: %s") [AStr buffer] ;;
      printf (ln "Type 'help' for available commands") []
  end.

(** One round of the shell's [while (1)]: the buffer for the next one. *)
Definition shell_round (buffer read_buf : list Z) : K kstate (list Z) :=
  printf (chars "> " ++ [0]) [] ;;
  let* line := read_line buffer in
  if snd line =? 0 then ret (fst line)
  else
    let* c := lift_opt (parse_command (fst line) (snd line)) in
    exec_command (fst line) read_buf c ;;
    ret (fst line).

Fixpoint shell_loop (fuel : nat) (buffer read_buf : list Z) : K kstate unit :=
  match fuel with
  | O => λ s w, Spin s w
  | S fuel' => let* b := shell_round buffer read_buf in shell_loop fuel' b read_buf
  end.

(** [buffer] and [read_buf]: the uninitialised local arrays. *)
Definition run_shell (fuel : nat) (buffer read_buf : list Z) : K kstate unit :=
  printf (ln "[SHELL] Starting simple shell") [] ;;
  printf (ln "Type 'help' for available commands") [] ;;
  shell_loop fuel buffer read_buf.

Definition kernel_main (entry : Z) (fuel : nat) (buffer read_buf : list Z) : K kstate unit :=
  kernel_start entry ;;
  run_tests ;;
  test_memory ;;
  run_shell fuel buffer read_buf ;;
  panic (lit "Kernel main returned").
End Main.
