(* ===== verification/KernelInv.v ===== *)
(** The invariant of the running kernel, and the commands and self tests of
    [kernel/main.c] that keep it. *)

From Stdlib Require Import String Ascii.
From S2P Require Import Prelude Machine Uart Printf Frames Mm Vm PageTable Mapping VmFree KernelMap Process Queues.
From S2P Require Import Scheduler SchedInv SchedOps SchedProps SchedTypes CString SimpleFs Vfs Testdev Trap Shell Kernel Main.
Local Open Scope string_scope.
Local Open Scope list_scope.
Local Open Scope Z_scope.

(** ** The invariant of the running kernel *)

(** What page tables and free list depend on. *)
Definition pages_of (s : mm_state) : gmap Z Z * Z * Z := (mem s, free_pages s, num_free_pages s).

Section Invariant.
Context {L : Layout} {LO : LayoutOk L}.

(** Paging, scheduler (no process has been started), file systems. *)
Record kinv (k : kstate) : Prop := {
  ki_paging : ∃ l, has_map (kernel_pagetable (k_vm k)) kernel_map (vm_mm (k_vm k)) l;
  ki_sched : sched_ok (k_sched k) ∧ current (cpu0 (k_sched k)) = None;
  ki_typed : typed (k_sched k);
  ki_vfs : vfs_inv testdev_ops (view kvfs k);
  ki_sfs : ∃ m, sfs_repr (view ksfs k) m }.

Lemma has_map_pages root f s s' l : pages_of s' = pages_of s → has_map root f s l → has_map root f s' l.
Proof.
  intros [= Hm Hf Hn] [[Hc Hnd Hpg Hnum] Hi Hx]. constructor; [constructor|..]; rewrite ?Hm, ?Hf, ?Hn; done.
Qed.

(** The memory manager's part of a file-system state. *)
Definition vfs_pages (v : vfs_state testdev) : gmap Z Z * Z * Z := pages_of (vf_mm v).

Lemma pages_kmalloc n : frames pages_of (kmalloc n).
Proof. unfold kmalloc. frames. Qed.

Lemma vfs_kmalloc n : frames vfs_pages (zoom vfs_mm (kmalloc n)).
Proof. by apply (frames_zoom vfs_mm _ pages_of); [|apply pages_kmalloc]. Qed.

Lemma vfs_kfree p : frames vfs_pages (zoom vfs_mm (kfree p)).
Proof. by apply (frames_zoom vfs_mm _ pages_of). Qed.

Lemma vfs_driver {A} (m : K testdev A) : frames vfs_pages (zoom vfs_dev m).
Proof. by apply frames_zoom_other. Qed.

Lemma vfs_put_file p f : frames vfs_pages (put_file p f).
Proof. by apply frames_modify. Qed.

Lemma vfs_put_vinode p n : frames vfs_pages (put_vinode p n).
Proof. by apply frames_modify. Qed.

Lemma vfs_get_file p : frames vfs_pages (get_file p).
Proof. unfold get_file. frames. Qed.

Lemma vfs_get_vinode p : frames vfs_pages (get_vinode p).
Proof. unfold get_vinode. frames. Qed.
#[local] Hint Resolve vfs_kmalloc vfs_kfree vfs_driver vfs_put_file vfs_put_vinode vfs_get_file vfs_get_vinode : frames.

Lemma pages_destroy_inode p : frames vfs_pages (vfs_destroy_inode p).
Proof. unfold vfs_destroy_inode. frames. Qed.
#[local] Hint Resolve pages_destroy_inode : frames.

Lemma pages_create_inode t : frames vfs_pages (vfs_create_inode t).
Proof. unfold vfs_create_inode. frames. Qed.
#[local] Hint Resolve pages_create_inode : frames.

Lemma pages_open path flags : frames vfs_pages (vfs_open path flags).
Proof. unfold vfs_open. frames. Qed.

Lemma pages_close p : frames vfs_pages (vfs_close p).
Proof. unfold vfs_close. frames. Qed.

Lemma pages_read p n : frames vfs_pages (vfs_read p n).
Proof. unfold vfs_read. frames. Qed.

Lemma pages_write p b n : frames vfs_pages (vfs_write p b n).
Proof. unfold vfs_write. frames. Qed.

Lemma pages_seek p : frames vfs_pages (seek_start p).
Proof. unfold seek_start. frames. Qed.

(** A file-system call inside the kernel. *)
Lemma wp_kvfs {A} (m : K (vfs_state testdev) A) (P : A → vfs_state testdev → Prop) (Q : A → kstate → Prop) k :
  kinv k → frames vfs_pages m →
  wp m (λ a v, vfs_inv testdev_ops v ∧ P a v) never (view kvfs k) →
  (∀ a k', kinv k' → P a (view kvfs k') → Q a k') →
  wp (zoom kvfs m) Q never k.
Proof.
  intros [[l Hmap] Hs Hty Hv [mp Hsfs]] Hf Hm HQ. apply wp_zoom.
  eapply wp_mono; [apply (wp_frames vfs_pages m _ never _ Hf Hm)| |done].
  intros a v [[Hv' HP] Hpg]. apply HQ; [|by rewrite view_put]. constructor.
  - exists l. by eapply has_map_pages.
  - done.
  - done.
  - by rewrite view_put.
  - exists mp. destruct Hsfs. by constructor.
Qed.

Lemma wp_seek_start p (v : vfs_state testdev) :
  vfs_inv testdev_ops v → valid_handle testdev_ops v p → p ≠ 0 →
  wp (seek_start p) (λ r v', vfs_inv testdev_ops v' ∧ keeps_handles testdev_ops v v') never v.
Proof.
  intros Hi Hh Hp. destruct (handle_file testdev_ops v p Hi Hh Hp) as (f & n & Hf & Hn & Ho & Hd).
  unfold seek_start, get_file, get_vinode. apply wp_bind, wp_bind, wp_gets, (wp_lift_opt _ f); [done|].
  apply wp_bind, wp_bind, wp_gets, (wp_lift_opt _ n); [done|]. apply wp_bind, (wp_lift_opt _ testdev_ops); [done|].
  cbn [fo_seek testdev_ops]. apply wp_bind, wp_zoom. unfold testdev_seek. change (TESTDEV_SIZE <? 0) with false.
  apply wp_ret, wp_bind, wp_modify, wp_ret. cbn [fst snd].
  destruct (driver_step testdev_ops v p f n (vf_dev v) (File (f_inode f) 0 (f_flags f)) Hi Hf Hn Ho)
    as (Hi' & Hk & _); [|done].
  pose proof (vi_driver _ _ Hi) as Hdi. split; [done|]. split; [apply drv_le_refl|]. split; [|done].
  by apply drv_fresh.
Qed.

Lemma terminated_set b i : 0 <= i < Z.of_nat (length b) → terminated (<[Z.to_nat i := 0]> b) = true.
Proof.
  intros Hi. assert (Z.to_nat i < length b)%nat as Hlt by lia. clear Hi. generalize dependent (Z.to_nat i).
  induction b as [|c b IH]; intros n Hn; simpl in *; [lia|]. destruct n as [|n]; simpl; [done|].
  rewrite IH by lia. apply orb_true_r.
Qed.

(** Closing and returning, on every path of the [testdev] command. *)
Lemma wp_close_file {A} p (x : A) (Q : A → kstate → Prop) k :
  kinv k → valid_handle testdev_ops (view kvfs k) p → (∀ k', kinv k' → Q x k') →
  wp (zoom kvfs (vfs_close p) ;; ret x) Q never k.
Proof.
  intros Hk Hh HQ. apply wp_bind, (wp_kvfs _ (λ _ _, True)); [done|apply pages_close| |].
  - eapply wp_mono; [apply (wp_vfs_close testdev_ops p never); [apply Hk|done]|naive_solver|done].
  - intros r k' Hk' _. by apply wp_ret, HQ.
Qed.

Lemma wp_cmd_testdev read_buf (Q : unit → kstate → Prop) k :
  kinv k → length read_buf = 65%nat → (∀ k', kinv k' → Q tt k') → wp (cmd_testdev read_buf) Q never k.
Proof.
  intros Hk Hbuf HQ. unfold cmd_testdev. apply wp_bind. wp_printf. apply wp_bind.
  apply (wp_kvfs _ (λ p v, valid_handle testdev_ops v p)); [done|apply pages_open| |].
  { eapply wp_mono; [apply (wp_vfs_open testdev_ops _ (chars "/testdev") _ never); [apply Hk|done]| |done].
    by intros p v [(Hi & _ & Hv) _]. }
  intros p k1 Hk1 Hh1. destruct (Z.eqb_spec p 0) as [->|Hp]; [wp_printf; by apply HQ|].
  apply wp_bind, (wp_lift_opt _ 20); [done|]. apply wp_bind.
  apply (wp_kvfs _ (λ _ v, valid_handle testdev_ops v p)); [done|apply pages_write| |].
  { eapply wp_mono; [apply (wp_vfs_write testdev_ops p _ _ never); [apply Hk1|done|vm_compute; done|done]| |done].
    intros r v [Hi Hkeep]. split; [done|by apply Hkeep]. }
  intros written k2 Hk2 Hh2. destruct (written <? 0); [apply wp_bind; wp_printf; by apply wp_close_file|].
  apply wp_bind. wp_printf. apply wp_bind.
  apply (wp_kvfs _ (λ _ v, valid_handle testdev_ops v p)); [done|apply pages_seek| |].
  { eapply wp_mono; [apply wp_seek_start; [apply Hk2|done|done]| |done].
    intros r v [Hi Hkeep]. split; [done|by apply Hkeep]. }
  intros sr k3 Hk3 Hh3. destruct (negb (sr =? 0)); [apply wp_bind; wp_printf; by apply wp_close_file|].
  apply wp_bind.
  apply (wp_kvfs _ (λ r v, valid_handle testdev_ops v p ∧ (length (snd r) <= 64)%nat)); [done|apply pages_read| |].
  { eapply wp_mono; [apply (wp_vfs_read testdev_ops p _ never); [apply Hk3|done|done]| |done].
    intros r v (Hi & Hkeep & Hl). split; [done|split; [by apply Hkeep|lia]]. }
  intros r k4 Hk4 [Hh4 Hl]. destruct (fst r <? 0); [apply wp_bind; wp_printf; by apply wp_close_file|].
  apply wp_bind.
  assert (wp (if (0 <? fst r) && (fst r <? 65) then
      let* b := lift_opt (arr_set (snd r ++ drop (length (snd r)) read_buf) (fst r) 0) in
      printf (ln "[TEST] Read %d bytes: %s") [ANum (fst r); AStr b] else ret tt)
    (λ _ k', k' = k4) never k4) as Hshow.
  { destruct (Z.ltb_spec 0 (fst r)), (Z.ltb_spec (fst r) 65); simpl; try by apply wp_ret.
    assert (length (snd r ++ drop (length (snd r)) read_buf) = 65%nat) as Hlb
      by (rewrite length_app, length_drop; lia).
    rewrite arr_set_some by lia. apply wp_bind, wp_ret, wp_printf; [|done].
    pose proof (terminated_set (snd r ++ drop (length (snd r)) read_buf) (fst r) ltac:(lia)) as Ht.
    generalize dependent (<[Z.to_nat (fst r) := 0]> (snd r ++ drop (length (snd r)) read_buf)). intros b Ht.
    cbv -[terminated]. by rewrite Ht. }
  eapply wp_mono; [exact Hshow| |done]. intros _ k5 ->.
  apply wp_bind, (wp_kvfs _ (λ _ _, True)); [done|apply pages_close| |].
  - eapply wp_mono; [apply (wp_vfs_close testdev_ops p never); [apply Hk4|done]|naive_solver|done].
  - intros r' k' Hk' _. wp_printf. by apply HQ.
Qed.

(** *** Reports *)

Lemma wp_sched_print_stats (Q : unit → sstate → Prop) s :
  sched_ok s → current (cpu0 s) = None → Q tt s → wp sched_print_stats Q never s.
Proof.
  intros Hok Hc HQ. pose proof (sched_ok_inv s Hok) as Hi. pose proof (si_queues _ _ _ Hi) as Hq.
  unfold sched_print_stats. do 2 (apply wp_bind; wp_printf). apply wp_bind, wp_gets.
  rewrite (proj1 (si_one_cpu _ _ _ Hi)). apply wp_bind.
  eapply wp_mono; [apply (wp_for_up (λ _ s', s' = s)); [lia| |done]| |done].
  { intros j s' Hj ->. apply wp_bind. wp_printf. assert (j = 0) as -> by lia.
    apply wp_bind, (wp_get_cpu 0 (cpu0 s)); [by apply (si_arr _ _ _ Hi)|]. do 2 (apply wp_bind; wp_printf).
    rewrite Hc. apply wp_bind. destruct (0 <? _); [wp_printf|apply wp_ret]; by apply wp_ret. }
  intros [] s' ->. apply wp_bind. wp_printf. apply wp_bind, wp_gets, wp_bind. wp_printf. apply wp_bind.
  eapply wp_mono; [apply (wp_for_up (λ _ s', s' = s)); [done| |done]| |done].
  { intros j s' Hj ->. unfold NUM_QUEUE_LEVELS in Hj.
    destruct (arr_get_some queue_time_slices j) as [sl Hsl]; [simpl; lia|].
    assert (length (levels (abs s)) = 4%nat) as Hl4 by apply (qr_four _ _ _ Hq).
    destruct (lookup_lt_is_Some_2 (levels (abs s)) (Z.to_nat j)) as [lv Hlv]; [lia|].
    rewrite <- (Z2Nat.id j) at 1 by lia. apply wp_bind, (wp_get_queue _ lv (abs s)); [done|done|]. intros q _.
    apply wp_bind, (wp_lift_opt _ sl); [done|]. by wp_printf. }
  intros [] s' ->. by wp_printf.
Qed.

Lemma wp_cmd_ps (Q : unit → kstate → Prop) k : kinv k → Q tt k → wp cmd_ps Q never k.
Proof.
  intros Hk HQ. destruct (ki_sched _ Hk) as [Hok Hc]. pose proof (sched_ok_inv _ Hok) as Hi.
  unfold cmd_ps, current_proc. do 2 (apply wp_bind; wp_printf). apply wp_bind, wp_zoom, wp_bind, wp_gets.
  change (view ksched k) with (k_sched k). rewrite (proj2 (si_one_cpu _ _ _ Hi)).
  apply wp_bind, (wp_get_cpu 0 (cpu0 (k_sched k))); [by apply (si_arr _ _ _ Hi)|]. apply wp_ret. rewrite Hc.
  change (put ksched (k_sched k) k) with (put ksched (view ksched k) k). rewrite put_view.
  apply wp_bind. wp_printf. by wp_printf.
Qed.

(** *** Borrowing pages and giving them back *)

(** [s] comes from [s0], whose free list was [l0], by taking pages: [own] are
    out, [l] are still free, and only free pages of [s0] were written to. *)
Record borrowed (s0 : mm_state) (l0 own : list Z) (s : mm_state) (l : list Z) : Prop := {
  bo_free : freelist s l;
  bo_sub : ∀ x, x ∈ own ∨ x ∈ l → x ∈ l0;
  bo_nodup : NoDup (own ++ l);
  bo_mem : same_but l0 (mem s0) (mem s) }.

Lemma borrowed_start s l : freelist s l → borrowed s l [] s l.
Proof. intros Hf. constructor; [done| |apply Hf|done]. intros x [Hx|Hx]; [by apply elem_of_nil in Hx|done]. Qed.

Lemma borrowed_heap s0 l0 own s l h : borrowed s0 l0 own s l → borrowed s0 l0 own (set_heap_current h s) l.
Proof. intros [[Hc Hnd Hp Hn] Hs Hd Hm]. constructor; [by constructor|done|done|done]. Qed.

(** The pages that are out, [p] being one unless it is NULL. *)
Definition held (p : Z) (own : list Z) : list Z := if p =? 0 then own else p :: own.

Lemma wp_borrow s0 l0 own s l (Q : Z → mm_state → Prop) H :
  borrowed s0 l0 own s l →
  (∀ p s' l', borrowed s0 l0 (held p own) s' l' → heap_current s' = heap_current s → Q p s') →
  wp alloc_page Q H s.
Proof.
  intros [Hf Hs Hd Hm] HQ. destruct l as [|p l].
  - apply wp_alloc_page_empty; [done|]. by apply (HQ 0 s []).
  - pose proof (fl_pages _ _ Hf) as Hpg. apply Forall_cons_1 in Hpg as [Hp _].
    apply (wp_alloc_page _ p l); [done|]. intros s' Hf' Hh _ Hout. apply (HQ p s' l); [|done].
    unfold held. rewrite (proj2 (Z.eqb_neq p 0)) by eauto with pages. constructor; [done| | |].
    + intros x [Hx|Hx]; apply Hs; [apply elem_of_cons in Hx as [->|Hx]; [right; by left|by left]|right; by right].
    + apply (NoDup_Permutation_proper _ _ (Permutation_middle own l p)). done.
    + intros a Ha. rewrite Hout; [by apply Hm|]. apply Ha, Hs. right. by left.
Qed.

Lemma wp_give_back s0 l0 p own s l (Q : unit → mm_state → Prop) H :
  borrowed s0 l0 own s l → freelist s0 l0 → p = 0 ∨ p ∈ own →
  (∀ s' l' own', borrowed s0 l0 own' s' l' → held p own' ≡ₚ own → heap_current s' = heap_current s → Q tt s') →
  wp (free_page p) Q H s.
Proof.
  intros Hb Hf0 Hown HQ. destruct (Z.eqb_spec p 0) as [->|Hp]; [apply wp_ret; by apply (HQ s l own)|].
  destruct Hown as [?|Hown]; [done|]. destruct (proj1 (elem_of_Permutation _ _) Hown) as [own' Hperm].
  destruct Hb as [Hf Hs Hd Hm]. rewrite Hperm in Hd. simpl in Hd. apply NoDup_cons in Hd as [Hpn Hd].
  rewrite not_elem_of_app in Hpn. destruct Hpn as [Hpo Hpl].
  assert (p ∈ l0) as Hp0 by (apply Hs; by left).
  assert (is_page p) as Hpg by (pose proof (fl_pages _ _ Hf0) as Hall; rewrite Forall_forall in Hall; auto).
  apply (wp_free_page _ p l); [done|done|done|]. intros Hf'. apply (HQ _ (p :: l) own'); [|by unfold held; case_match; [lia|]|done].
  constructor; [done| | |].
  - intros x [Hx|Hx]; [apply Hs; left; rewrite Hperm; by right|]. apply elem_of_cons in Hx as [->|Hx]; [done|]. apply Hs. by right.
  - apply (NoDup_Permutation_proper _ _ (Permutation_middle own' l p)). apply NoDup_cons.
    split; [by rewrite not_elem_of_app|done].
  - intros a Ha. simpl. rewrite rd_insert_ne; [by apply Hm|]. intros <-. by apply (Ha p Hp0), in_page_self.
Qed.

(** A page table is untouched when only free pages were written to. *)
Lemma has_map_same root f s0 l0 s l :
  has_map root f s0 l0 → freelist s l → (∀ x, x ∈ l → x ∈ l0) → same_but l0 (mem s0) (mem s) → has_map root f s l.
Proof.
  intros [Hf0 Hi Hx] Hf Hs Hm.
  assert (∀ path p i, tpath path → index i → tbl (mem s0) root path = Some p →
    entry (mem s) p i = entry (mem s0) p i) as He.
  { intros path p i Hp Hi' Ht. destruct (pi_page _ _ _ Hi _ _ Hp Ht) as [Hpg Hnf].
    apply (same_but_entry l0); [done|done|apply Hf0|done|done]. }
  assert (∀ path, tpath path → tbl (mem s) root path = tbl (mem s0) root path) as Ht.
  { apply tbl_agree. intros path p i Hl Hfp Hi' Hp. apply (He path); [split; [lia|done]|done|done]. }
  constructor; [done| |].
  - constructor.
    + intros path p Hp. rewrite Ht by done. intros Hq. destruct (pi_page _ _ _ Hi _ _ Hp Hq) as [Hpg Hnf].
      split; [done|]. intros Hin. by apply Hnf, Hs.
    + intros path path' p Hp Hp'. rewrite !Ht by done. by apply (pi_inj _ _ _ Hi).
  - intros va Hva. rewrite <- (Hx va Hva). unfold xlate, leaf. case_match; [done|].
    rewrite Ht by apply tpath_va. destruct (tbl (mem s0) root (vpath va)) as [t|] eqn:Htb; [simpl|done].
    by rewrite (He (vpath va)) by first [apply tpath_va|apply PX_range; lia|done].
Qed.

(** A change of the memory manager that keeps the kernel's invariant. *)
Record mm_keeps (k : kstate) (s : mm_state) : Prop := {
  mk_map : ∃ l, has_map (kernel_pagetable (k_vm k)) kernel_map s l;
  mk_heap : heap_ok s ∧ heap_current (vm_mm (k_vm k)) <= heap_current s }.

Lemma kinv_mm k s : kinv k → mm_keeps k s → kinv (put kvm (VM s (kernel_pagetable (k_vm k))) k).
Proof.
  intros [_ Hs Ht Hv [mp [A B C D]]] [Hmap [Hh Hle]]. constructor; [done|done|done| |].
  - exact (vfs_inv_mm testdev_ops (view kvfs k) s Hv Hh Hle).
  - exists mp. by constructor.
Qed.

(** The kernel [k] with the memory manager in state [s]. *)
Definition with_mm (k : kstate) (s : mm_state) : kstate := put kvm (VM s (kernel_pagetable (k_vm k))) k.

Lemma with_mm_id k : with_mm k (vm_mm (k_vm k)) = k.
Proof. by destruct k as [[] ? ? ? ? ? ? ? ? ? ?]. Qed.

Lemma wp_kmm {A} (m : K mm_state A) (Q : A → kstate → Prop) k s :
  wp m (λ a s', Q a (with_mm k s')) never s → wp (kmm m) Q never (with_mm k s).
Proof. intros Hm. by apply wp_zoom, wp_zoom. Qed.

(** A small block from the heap. *)
Lemma wp_small_block n s (Q : Z → mm_state → Prop) H :
  heap_ok s → 0 < n <= 4096 →
  (∀ p h, heap_ok (set_heap_current h s) → heap_current s <= h → Q p (set_heap_current h s)) →
  wp (kmalloc n) Q H s.
Proof.
  intros Hh Hn HQ. pose proof heap_end_below_ram_end. pose proof heap_start_above_image.
  apply wp_kmalloc; [done|unfold sane_size, heap_end in *; lia|lia|].
  assert (0 <= round8 n) by (unfold round8; Z.div_mod_to_equations; lia).
  destruct (Z.leb_spec (heap_current s + round8 n) heap_end).
  - apply HQ; [|lia]. apply heap_ok_bump; [done|lia|done].
  - pose proof (HQ 0 (heap_current s)) as Hq. destruct s. apply Hq; [done|lia].
Qed.

(** The pages a caller still has after returning one of two. *)
Lemma held_one p1 p2 own : held p1 own ≡ₚ held p2 (held p1 []) → p2 = 0 ∨ p2 ∈ own.
Proof.
  unfold held. destruct (Z.eqb_spec p2 0); [by left|]. destruct (Z.eqb_spec p1 0); intros Hp; right.
  - rewrite Hp. apply list_elem_of_here.
  - assert (own ≡ₚ [p2]) as ->; [|apply list_elem_of_here]. apply (Permutation_cons_inv (a := p1)).
    rewrite Hp. apply Permutation_swap.
Qed.

Lemma wp_test_memory (Q : unit → kstate → Prop) k :
  kinv k → (∀ k', kinv k' → Q tt k') → wp test_memory Q never k.
Proof.
  intros Hk HQ. destruct (ki_paging _ Hk) as [l0 Hmap]. pose proof (hm_free _ _ _ _ Hmap) as Hf0.
  pose proof (vi_heap _ _ (ki_vfs _ Hk)) as Hh0. simpl in Hh0. set (s0 := vm_mm (k_vm k)) in *.
  unfold test_memory. apply wp_bind. wp_printf. rewrite <- (with_mm_id k). fold s0.
  apply wp_bind, wp_kmm, (wp_borrow s0 l0 [] s0 l0); [by apply borrowed_start|]. intros p1 s1 l1 Hb1 Hh1.
  apply wp_bind, wp_kmm, (wp_borrow s0 l0 (held p1 []) s1 l1); [done|]. intros p2 s2 l2 Hb2 Hh2.
  apply wp_bind. wp_printf.
  assert (heap_ok s2) as Hok2 by (unfold heap_ok in *; by rewrite Hh2, Hh1).
  apply wp_bind, wp_kmm, wp_small_block; [done|lia|]. intros a1 h1 Hok3 Hle1.
  apply wp_bind, wp_kmm, wp_small_block; [done|lia|]. intros a2 h2 Hok4 Hle2. cbn [heap_current set_heap_current] in Hle2.
  apply wp_bind. wp_printf. apply (borrowed_heap _ _ _ _ _ h1), (borrowed_heap _ _ _ _ _ h2) in Hb2.
  apply wp_bind, wp_kmm. eapply wp_give_back; [exact Hb2|done| |].
  { unfold held. destruct (Z.eqb_spec p1 0); [by left|right]. destruct (p2 =? 0); set_solver. }
  intros s5 l5 own5 Hb5 Hown Hh5. apply wp_bind, wp_kmm. eapply wp_give_back; [exact Hb5|done| |].
  { by eapply held_one. }
  intros s6 l6 own6 Hb6 _ Hh6. wp_printf. apply HQ, kinv_mm; [done|]. constructor.
  - exists l6. eapply (has_map_same _ _ s0 l0); [done|apply Hb6| |apply Hb6].
    intros x Hx. apply (bo_sub _ _ _ _ _ Hb6). by right.
  - cbn [heap_current set_heap_current] in Hh5. unfold heap_ok in *. fold s0. cbn [heap_current set_heap_current] in Hok4.
    rewrite Hh6, Hh5. split; [exact Hok4|lia].
Qed.
End Invariant.
