(* ===== verification/SelfTest.v ===== *)
(** The self tests of [kernel/main.c]: [run_tests] keeps the invariant of the
    running kernel. *)

From Stdlib Require Import String Ascii.
From S2P Require Import Prelude Machine Uart Printf Frames Mm Vm PageTable Mapping VmFree KernelMap Process Queues.
From S2P Require Import Scheduler SchedInv SchedOps SchedProps SchedTypes CString SimpleFs Vfs Testdev Trap Shell Kernel Main KernelInv.
Local Open Scope string_scope.
Local Open Scope list_scope.
Local Open Scope Z_scope.

Section SelfTest.
Context {L : Layout} {LO : LayoutOk L}.

(** ** Virtual memory *)

(** The line a test ends with. *)
Definition last_line (m : list Z * list arg) : K kstate unit := printf (fst m) (snd m).
Definition said (msg : string) : list Z * list arg := (ln msg, []).

Lemma becomes_said msg (Q : _ → kstate → Prop) k : Q (said msg) k → becomes (printf (ln msg) []) last_line Q k.
Proof. exact (becomes_here last_line Q k (said msg)). Qed.

Lemma last_line_wp m (Q : unit → kstate → Prop) k : call_ok (fst m) (snd m) = true → Q tt k → wp (last_line m) Q never k.
Proof. intros Hm HQ. by apply wp_printf. Qed.

(** The test keeps the invariant and changes nothing but the memory manager; with
    four free pages it ends with the line that says so. *)
Definition vm_tested (k : kstate) (l0 : list Z) (m : list Z * list arg) (k' : kstate) : Prop :=
  kinv k' ∧ call_ok (fst m) (snd m) = true ∧ (∃ s, k' = with_mm k s) ∧
  ((4 <= length l0)%nat → m = said "[TEST] Virtual memory test PASSED").

Lemma vm_test_end k l0 msg args s l :
  kinv k → has_map (kernel_pagetable (k_vm k)) kernel_map (vm_mm (k_vm k)) l0 →
  freelist s l → (∀ x, x ∈ l → x ∈ l0) → same_but l0 (mem (vm_mm (k_vm k))) (mem s) →
  heap_current s = heap_current (vm_mm (k_vm k)) → call_ok msg args = true →
  ((4 <= length l0)%nat → (msg, args) = said "[TEST] Virtual memory test PASSED") →
  becomes (printf msg args) last_line (vm_tested k l0) (with_mm k s).
Proof.
  intros Hk Hmap Hf Hs Hm Hh Hc Hp. pose proof (vi_heap _ _ (ki_vfs _ Hk)) as Hh0. simpl in Hh0.
  apply (becomes_here last_line _ _ (msg, args)). split; [|split; [done|]; split; [by eexists|done]].
  apply kinv_mm; [done|]. constructor.
  - exists l. by apply (has_map_same _ _ (vm_mm (k_vm k)) l0).
  - unfold heap_ok in *. rewrite Hh. split; [done|lia].
Qed.

Lemma test_vm_run k l0 :
  kinv k → has_map (kernel_pagetable (k_vm k)) kernel_map (vm_mm (k_vm k)) l0 →
  becomes test_vm last_line (vm_tested k l0) k.
Proof.
  intros Hk Hmap. pose proof (hm_free _ _ _ _ Hmap) as Hf0. pose proof (vm_test_end k l0) as Hdone.
  set (s0 := vm_mm (k_vm k)) in *. unfold test_vm. apply becomes_bind. wp_printf. rewrite <- (with_mm_id k). fold s0.
  apply becomes_bind, wp_kmm, (wp_create_table l0); [done| |].
  { intros ->. apply (Hdone _ _ s0 []); try done. simpl. lia. }
  intros p l1 s1 -> Hp Hfl1 Hz Hinv Hh1 Hs1. rewrite (proj2 (Z.eqb_neq _ _)) by eauto with pages.
  apply becomes_bind. wp_printf. apply becomes_bind, wp_kmm.
  eapply wp_mono; [apply (wp_mappages p 0x1000 PAGE_SIZE 0x80100000 _ l1 s1); [done|done|]| |].
  { unfold range_ok. vm_compute. split_and!; done. }
  2:{ intros s2 (x & _ & _ & Hx). rewrite (fresh_xlate _ p x Hz) in Hx. by destruct Hx. }
  intros r s2 (l2 & n & Hm & Hcost & Hres). cbv zeta in *.
  pose proof (md_grows _ _ _ _ _ _ _ _ _ Hm) as Hg. pose proof (md_heap _ _ _ _ _ _ _ _ _ Hm) as Hh2.
  change (0x1000 / 4096) with 1 in *. change (span 0x1000 PAGE_SIZE) with 0 in *.
  assert (map_cost (mem s1) p 1 0 <= 2) as Hc2 by (unfold map_cost; change ((1 + 0) / 512 - 1 / 512) with 0; case_match; lia).
  destruct Hres as [[-> ->]|(-> & _ & ->)]; cbn [Z.eqb negb].
  2:{ apply (Hdone _ _ s2 []); [done|done|apply Hm| | |congruence|done|intros ?; exfalso; cbn [length] in *; lia].
    - intros x Hx. by apply elem_of_nil in Hx.
    - intros a Ha. rewrite (mapped_fresh_frame _ _ _ _ _ _ _ _ _ Hz Hm) by done. apply Hs1.
      intros q ->%list_elem_of_singleton. apply Ha, list_elem_of_here. }
  apply becomes_bind. wp_printf. apply becomes_bind, wp_kmm, (wp_walkaddr p 0x1000 l2); [apply Hm|apply Hg|lia|].
  rewrite (md_xlate _ _ _ _ _ _ _ _ _ Hm) by lia. change (PTE2PA _ =? _) with true. cbn [negb].
  apply becomes_bind. wp_printf.
  apply becomes_bind, wp_kmm, (wp_free_table p l2); [apply Hm|apply Hg| |].
  { apply (md_shaped _ _ _ _ _ _ _ _ _ Hm); [done|by apply fresh_shaped]. }
  intros s3 Hf3.
  destruct (table_pages_back s0 p l1 s1 _ _ _ _ s2 l2 s3 Hf0 Hz Hs1 Hm Hf3) as (l3 & H1 & H2 & H3).
  apply (Hdone _ _ s3 l3); [done|done|done|by intros x; rewrite H2|done| |done|done].
  destruct Hf3 as (_ & -> & _). congruence.
Qed.

Lemma wp_test_vm (Q : unit → kstate → Prop) k :
  kinv k → (∀ k', kinv k' → Q tt k') → wp test_vm Q never k.
Proof.
  intros Hk HQ. destruct (ki_paging _ Hk) as [l0 Hmap].
  apply (becomes_wp _ _ _ _ _ _ (test_vm_run k l0 Hk Hmap)). intros m k' (Hk' & Hm & _). by apply last_line_wp; [|apply HQ].
Qed.

(** ** Scheduler *)

(** Processes that are allocated but neither running nor queued. *)
Definition spare (s : sstate) (out : list procref) : Prop :=
  NoDup out ∧ Forall (λ r, (∃ i p, r = PProc i ∧ lookup_proc r (ps s) = Some p ∧ p_state p ≠ PROC_UNUSED) ∧
    r ∉ tracked s) out.

(** What the test keeps of the scheduler. *)
Record test_inv (s : sstate) (out : list procref) : Prop := {
  ti_ok : sched_ok s;
  ti_none : current (cpu0 s) = None;
  ti_typed : typed s;
  ti_spare : spare s out }.

Lemma test_inv_put s out i p p' :
  test_inv s out → lookup_proc (PProc i) (ps s) = Some p → p_state p' = p_state p → proc_typed p' →
  test_inv (set_ps (put_proc (PProc i) p' (ps s)) s) out.
Proof.
  intros [Hok Hn Ht [Hnd Hsp]] Hp Hst Hty. constructor; [by eapply sched_ok_put|done| |split; [done|]].
  - unfold typed in *. cbn [ps set_ps]. by apply typed_update.
  - eapply Forall_impl; [exact Hsp|]. intros r [(j & q & -> & Hq & Hu) Hnt]. split; [|exact Hnt].
    cbn [ps set_ps]. rewrite lookup_put by eauto. case_decide as Hd; [injection Hd as <-|by eauto 6].
    simplify_eq. exists i, p'. split_and!; [done|done|congruence].
Qed.

Lemma test_inv_alloc s out i :
  test_inv s out → first_unused (proc_table (ps s)) = Some i →
  test_inv (set_ps (snd (process_alloc (ps s))) s) (PProc i :: out).
Proof.
  intros [Hok Hn Ht [Hnd Hsp]] Hf. destruct (process_alloc_some _ i Hf) as (p & Hp & Hst & Ha).
  assert (∀ r, lookup_proc r (snd (process_alloc (ps s))) =
    lookup_proc r (put_proc (PProc i) (fresh_process (next_pid (ps s)) (global_ticks (ps s)) p) (ps s))) as Hl
    by (intros r; rewrite Ha; by destruct r).
  constructor; [by apply sched_ok_alloc|done|by apply typed_alloc|]. split.
  - apply NoDup_cons. split; [|done]. intros Hin. rewrite Forall_forall in Hsp.
    destruct (Hsp _ Hin) as [(j & q & [= <-] & Hq & Hu) _]. congruence.
  - apply Forall_cons. split.
    + split; [exists i, (fresh_process (next_pid (ps s)) (global_ticks (ps s)) p)|].
      * cbn [ps set_ps]. rewrite Hl, (lookup_put_eq _ _ p) by done. done.
      * change (tracked (set_ps (snd (process_alloc (ps s))) s)) with (tracked s). intros Hin.
        pose proof (sched_ok_inv s Hok) as Hi. unfold tracked, running in Hin. rewrite Hn in Hin. simpl in Hin.
        destruct (si_queued _ _ _ Hi _ Hin) as (j & q & [= <-] & Hq & Hrun). congruence.
    + eapply Forall_impl; [exact Hsp|]. intros r [(j & q & -> & Hq & Hu) Hnt]. split; [|exact Hnt].
      cbn [ps set_ps]. rewrite Hl, lookup_put by eauto. case_decide as Hd; [|by eauto 6].
      injection Hd as <-. exfalso. congruence.
Qed.

(** Queueing one of them. *)
Lemma wp_add_spare r out (Q : unit → sstate → Prop) s :
  test_inv s (r :: out) → (∀ s', test_inv s' out → Q tt s') → wp (sched_add (Some r)) Q never s.
Proof.
  intros [Hok Hn Ht [Hnd Hsp]] HQ. apply Forall_cons_1 in Hsp as [[(i & p & -> & Hp & Hu) Hnt] Hsp].
  apply NoDup_cons in Hnd as [Hni Hnd].
  eapply wp_mono; [apply (wp_preserves typed _ _ never _ (typed_sched_add _) Ht
    (wp_sched_add_inv i p never s Hok Hp Hnt))| |done].
  intros [] s' [(Hok' & Hcpu & Hps & Had) Ht']. apply HQ. constructor; [done| |done|split; [done|]].
  { unfold cpu0. by rewrite Hcpu. }
  assert (∀ x, x ∈ tracked s' → x = PProc i ∨ x ∈ tracked s) as Htr.
  { intros x. unfold tracked, cpu0. rewrite Hcpu. rewrite !elem_of_app. fold (cpu0 s).
    intros [Hx|Hx]; [by auto|]. destruct (decide (p_policy p = SCHED_IDLE)) as [Hid|Hid].
    - unfold admits in Had. rewrite Hid in Had. rewrite Had in Hx. auto.
    - rewrite (admits_queued _ _ _ _ _ Had Hid) in Hx. apply elem_of_cons in Hx. tauto. }
  apply Forall_forall. intros x Hx. rewrite Forall_forall in Hsp. destruct (Hsp x Hx) as [(j & q & -> & Hq & Hqu) Hxt].
  assert (i ≠ j) by (intros ->; done). split.
  - exists j, q. rewrite Hps, lookup_put by eauto. rewrite decide_False by congruence. done.
  - intros Hin. destruct (Htr _ Hin); [congruence|done].
Qed.

(** *** One process of the test *)

Lemma terminated_at b (j : nat) : b !! j = Some 0 → terminated b = true.
Proof.
  revert j. induction b as [|c b IH]; intros [|j] Hj; simplify_eq/=; [done|]. rewrite (IH j Hj). apply orb_true_r.
Qed.

Lemma terminated_name cs l : (length cs < length l)%nat → terminated (list_inserts 0 (cs ++ [0]) l) = true.
Proof.
  intros Hl. apply (terminated_at _ (length cs)). rewrite list_lookup_inserts by (rewrite ?length_app; simpl; lia).
  rewrite Nat.sub_0_r, lookup_app_r by lia. by rewrite Nat.sub_diag.
Qed.

Lemma prioritised_typed pr p : proc_typed p → proc_typed (prioritised pr p).
Proof.
  intros []. unfold prioritised, PRIORITY_MIN, PRIORITY_MAX, PRIORITY_RT_MAX, PRIORITY_NORMAL_MIN. cbv zeta.
  destruct (Z.leb_spec (Z.max 0 (Z.min 139 pr)) 99); constructor; simpl; try done; try lia.
  rewrite Z.quot_div_nonneg by lia. Z.div_mod_to_equations; lia.
Qed.

(** The process before it is queued. *)
Definition prepared (name : list Z) (pr : Z) (pol : option sched_policy) (p : process) : process :=
  match pol with None => λ q, q | Some pol => set_policy pol end (prioritised pr (set_name name p)).

Lemma prepared_fields name pr pol p :
  proc_typed p → proc_typed (prepared name pr pol p) ∧ p_state (prepared name pr pol p) = p_state p ∧
  p_name (prepared name pr pol p) = list_inserts 0 name (p_name p).
Proof.
  intros Hp. assert (proc_typed (set_name name p)) as Hn
    by (destruct Hp; constructor; simpl; rewrite ?length_inserts; done).
  apply (prioritised_typed pr) in Hn. unfold prepared. split.
  - destruct pol; [|done]. destruct Hn. by constructor.
  - unfold prioritised. cbv zeta. destruct pol; by case_match.
Qed.

Lemma wp_prepare i p name pr pol msg (Q : unit → sstate → Prop) s :
  lookup_proc (PProc i) (ps s) = Some p →
  (∀ a b, call_ok msg [AStr (p_name (prepared name pr pol p)); ANum a; ANum b] = true) →
  Q tt (set_ps (put_proc (PProc i) (prepared name pr pol p) (ps s)) s) →
  wp (upd (PProc i) (set_name name) ;;
      sched_set_priority (Some (PProc i)) pr ;;
      match pol with None => ret tt | Some pol => sched_set_policy (Some (PProc i)) pol end ;;
      let* q := deref (PProc i) in
      printf msg [AStr (p_name q); ANum (p_pid q); ANum (p_priority q)]) Q never s.
Proof.
  intros Hp Hmsg HQ. apply wp_bind, (wp_upd _ p); [done|].
  apply wp_bind. eapply wp_set_priority; [by eapply lookup_put_eq|]. rewrite set_ps_put_put.
  apply wp_bind. destruct pol as [pol|].
  - apply (wp_upd _ (prioritised pr (set_name name p))); [by eapply lookup_put_eq|]. rewrite set_ps_put_put.
    apply wp_bind. eapply wp_deref; [by eapply lookup_put_eq|]. apply wp_printf; [apply Hmsg|done].
  - apply wp_ret, wp_bind. eapply wp_deref; [by eapply lookup_put_eq|]. apply wp_printf; [apply Hmsg|done].
Qed.

Lemma kinv_sched k s : kinv k → sched_ok s → current (cpu0 s) = None → typed s → kinv (put ksched s k).
Proof. intros [Hp _ _ Hv [mp [A B C D]]] Ho Hn Ht. constructor; try done. exists mp. by constructor. Qed.

Lemma kinv_test k out : kinv k → spare (k_sched k) out → test_inv (k_sched k) out.
Proof. intros Hk Hs. destruct (ki_sched _ Hk). constructor; try done. apply Hk. Qed.

(** After it: one more process is there, and only the scheduler has changed. *)
Definition proc_states (k : kstate) : list proc_state := p_state <$> proc_table (ps (k_sched k)).

Record process_made (k : kstate) (out : list procref) (i : nat) (k' : kstate) : Prop := {
  pm_inv : kinv k';
  pm_spare : spare (k_sched k') (PProc i :: out);
  pm_states : proc_states k' = <[i := PROC_RUNNABLE]> (proc_states k);
  pm_only : ∃ s, k' = put ksched s k }.

Lemma states_put i p' t :
  p_state <$> proc_table (put_proc (PProc i) p' t) = <[i := p_state p']> (p_state <$> proc_table t).
Proof.
  cbn [put_proc update_proc proc_table]. apply list_eq. intros j.
  rewrite list_lookup_fmap, list_lookup_alter, list_lookup_insert, length_fmap, list_lookup_fmap.
  destruct (decide (i = j)) as [->|Hne].
  - destruct (proc_table t !! j) as [q|] eqn:Hq.
    + rewrite decide_True by (split; [done|by eapply lookup_lt_Some]). done.
    + rewrite decide_False; [done|]. intros [_ Hlt]. apply lookup_lt_is_Some_2 in Hlt as [q Hq']. congruence.
  - rewrite decide_False by naive_solver. done.
Qed.

Lemma test_process_run failed msg cs pr pol rest out i k :
  kinv k → spare (k_sched k) out → (∀ n a b, terminated n = true → call_ok msg [AStr n; ANum a; ANum b] = true) →
  (length cs < 32)%nat → first_unused (proc_table (ps (k_sched k))) = Some i →
  becomes (test_process failed msg (cs ++ [0]) pr pol rest) (λ _ : unit, rest (Some (PProc i)))
    (λ _, process_made k out i) k.
Proof.
  intros Hk Hsp Hmsg Hcs Hf. pose proof (kinv_test _ _ Hk Hsp) as Hti.
  pose proof (test_inv_alloc _ _ i Hti Hf) as Ha. destruct (process_alloc_some _ i Hf) as (p0 & Hp0 & _ & Hal).
  unfold test_process, kproc. apply becomes_bind, wp_zoom, wp_zoom. intros w.
  change (view sched_ps (view ksched k)) with (ps (k_sched k)). change (put sched_ps) with (λ t s, set_ps t s).
  rewrite Hal. split; [|done]. rewrite Hal in Ha. cbn [snd] in Ha.
  set (t' := PState _ _ _ _) in *. set (s1 := set_ps t' (k_sched k)) in *.
  pose proof Ha as [Hok Hn Ht [_ Hs1]]. apply Forall_cons_1 in Hs1 as [[(j & p & [= <-] & Hp & _) _] _].
  destruct (prepared_fields (cs ++ [0]) pr pol p) as (Hpt & Hps & Hpn); [by eapply typed_lookup|].
  apply becomes_bind, wp_zoom. rewrite view_put. apply (wp_prepare i p); [done| |].
  { intros a b. apply Hmsg. rewrite Hpn. apply terminated_name. rewrite (pt_name p); [done|]. by eapply typed_lookup. }
  rewrite Machine.put_put. destruct (test_inv_put _ _ i p _ Ha Hp Hps Hpt) as [Hok2 Hn2 Ht2 Hs2].
  apply (becomes_here (λ _ : unit, rest (Some (PProc i))) _ _ tt). constructor; [by apply kinv_sched|exact Hs2| |by eexists].
  unfold proc_states. cbn [k_sched put ksched ps set_ps]. rewrite states_put, Hps.
  assert (p_state <$> proc_table (ps s1) = <[i := PROC_RUNNABLE]> (proc_states k)) as Hst
    by exact (states_put i (fresh_process (next_pid (ps (k_sched k))) (global_ticks (ps (k_sched k))) p0) (ps (k_sched k))).
  etrans; [exact (f_equal (<[i:=p_state p]>) Hst)|].
  replace (p_state p) with PROC_RUNNABLE; [by rewrite list_insert_insert_eq|].
  assert (Some (p_state p) = Some PROC_RUNNABLE) as [= <-]; [|done].
  change (lookup_proc (PProc i) (ps s1)) with (proc_table (ps s1) !! i) in Hp.
  transitivity ((p_state <$> proc_table (ps s1)) !! i); [by rewrite list_lookup_fmap, Hp|].
  rewrite Hst. apply list_lookup_insert_eq. unfold proc_states. rewrite length_fmap. by eapply lookup_lt_Some.
Qed.

Lemma test_process_fails failed msg name pr pol rest k :
  first_unused (proc_table (ps (k_sched k))) = None →
  becomes (test_process failed msg name pr pol rest) (λ _ : unit, printf failed []) (λ _ k', k' = k) k.
Proof.
  intros Hf. unfold test_process, kproc. apply becomes_bind, wp_zoom, wp_zoom. intros w.
  change (view sched_ps (view ksched k)) with (ps (k_sched k)). change (put sched_ps) with (λ t s, set_ps t s).
  unfold process_alloc. rewrite Hf. split; [|done]. apply (becomes_here (λ _ : unit, printf failed []) _ _ tt).
  by destruct k as [? ? [] ? ? ? ? ? ? ? ?].
Qed.

Lemma wp_test_process failed msg cs pr pol rest out (Q : unit → kstate → Prop) k :
  kinv k → spare (k_sched k) out → call_ok failed [] = true →
  (∀ n a b, terminated n = true → call_ok msg [AStr n; ANum a; ANum b] = true) → (length cs < 32)%nat →
  (∀ k', kinv k' → Q tt k') →
  (∀ i k', kinv k' → spare (k_sched k') (PProc i :: out) → wp (rest (Some (PProc i))) Q never k') →
  wp (test_process failed msg (cs ++ [0]) pr pol rest) Q never k.
Proof.
  intros Hk Hsp Hfail Hmsg Hcs HQ Hrest. destruct (first_unused (proc_table (ps (k_sched k)))) as [i|] eqn:Hf.
  - eapply becomes_wp; [by eapply (test_process_run _ _ _ _ _ _ out i)|]. intros _ k' [Hk' Hs' _ _]. by apply Hrest.
  - eapply becomes_wp; [by apply test_process_fails|]. intros _ k' ->. apply wp_printf; [done|by apply HQ].
Qed.

(** A message about a process: the [%lu] takes no argument. *)
Ltac process_msg := intros ? ? ? Hterm; cbv -[terminated]; by rewrite Hterm.

(** From the three processes on: they are queued, and the test has passed. *)
Definition test_queue (p1 p2 p3 : option procref) : K kstate unit :=
  zoom ksched (sched_add p1 ;; sched_add p2 ;; sched_add p3) ;;
  printf (ln "[TEST] Added processes to scheduler") [] ;;
  zoom ksched sched_print_stats ;;
  printf (ln "[TEST] Scheduler test PASSED") [].

Lemma test_queue_run i1 i2 i3 k :
  kinv k → spare (k_sched k) [PProc i3; PProc i2; PProc i1] →
  becomes (test_queue (Some (PProc i1)) (Some (PProc i2)) (Some (PProc i3))) last_line
    (λ m k', m = said "[TEST] Scheduler test PASSED" ∧ kinv k' ∧ ∃ s, k' = put ksched s k) k.
Proof.
  intros Hk [Hnd Hf].
  assert (spare (k_sched k) [PProc i1; PProc i2; PProc i3]) as H3.
  { assert ([PProc i1; PProc i2; PProc i3] ≡ₚ [PProc i3; PProc i2; PProc i1]) as Hp by solve_Permutation.
    split; by rewrite Hp. }
  unfold test_queue. apply becomes_bind, wp_zoom. change (view ksched k) with (k_sched k).
  apply wp_bind, (wp_add_spare _ [PProc i2; PProc i3]); [by apply kinv_test|]. intros s4 H4.
  apply wp_bind, (wp_add_spare _ [PProc i3]); [done|]. intros s5 H5.
  apply (wp_add_spare _ []); [done|]. intros s6 [Hok Hn Ht _].
  apply becomes_bind. wp_printf. apply becomes_bind, wp_zoom. rewrite view_put.
  apply wp_sched_print_stats; [done|done|]. rewrite Machine.put_put.
  apply becomes_said. split; [done|]. split; [by apply kinv_sched|by eexists].
Qed.

Lemma spare_nil s : spare s [].
Proof. split; [apply NoDup_nil_2|by apply Forall_nil]. Qed.

Lemma wp_test_scheduler (Q : unit → kstate → Prop) k :
  kinv k → (∀ k', kinv k' → Q tt k') → wp test_scheduler Q never k.
Proof.
  intros Hk HQ. unfold test_scheduler. apply wp_bind. wp_printf. pose proof (spare_nil (k_sched k)) as H0.
  apply (wp_test_process _ _ (chars "test1") _ _ _ []); [done|done|done|process_msg|simpl; lia|done|]. intros i1 k1 Hk1 H1.
  apply (wp_test_process _ _ (chars "test2") _ _ _ [PProc i1]); [done|done|done|process_msg|simpl; lia|done|].
  intros i2 k2 Hk2 H2.
  apply (wp_test_process _ _ (chars "rt_test") _ _ _ [PProc i2; PProc i1]);
    [done|done|done|process_msg|simpl; lia|done|]. intros i3 k3 Hk3 H3.
  apply (becomes_wp _ _ _ _ _ _ (test_queue_run i1 i2 i3 k3 Hk3 H3)). intros m k' (-> & Hk' & _).
  apply last_line_wp; [reflexivity|by apply HQ].
Qed.

(** With an empty process table the slots are taken in order. *)
Lemma test_scheduler_passes k :
  kinv k → proc_states k = replicate 64 PROC_UNUSED →
  becomes test_scheduler last_line
    (λ m k', m = said "[TEST] Scheduler test PASSED" ∧ kinv k' ∧ ∃ s, k' = put ksched s k) k.
Proof.
  intros Hk H0. unfold test_scheduler. apply becomes_bind. wp_printf. pose proof (spare_nil (k_sched k)) as Hs0.
  assert (∀ k' (i : nat), (i < 3)%nat → proc_states k' = replicate i PROC_RUNNABLE ++ replicate (64 - i) PROC_UNUSED →
    first_unused (proc_table (ps (k_sched k'))) = Some i) as Hnext.
  { intros k' i Hi Hst. apply first_unused_state; unfold proc_states in Hst; rewrite Hst.
    - by do 3 (destruct i as [|i]; [done|]); lia.
    - intros j Hj. rewrite lookup_app_l by (rewrite length_replicate; lia).
      intros [Hr _]%lookup_replicate. done. }
  eapply becomes_trans; [eapply (test_process_run _ _ (chars "test1") _ _ _ [] 0 k);
    [done|done|process_msg|simpl; lia|by apply Hnext; [lia|]]|]. intros _ k1 [Hk1 Hs1 Ht1 [s1 He1]]. rewrite H0 in Ht1.
  eapply becomes_trans; [eapply (test_process_run _ _ (chars "test2") _ _ _ [PProc 0] 1 k1);
    [done|done|process_msg|simpl; lia|by apply Hnext; [lia|]]|]. intros _ k2 [Hk2 Hs2 Ht2 [s2 He2]]. rewrite Ht1 in Ht2.
  eapply becomes_trans; [eapply (test_process_run _ _ (chars "rt_test") _ _ _ [PProc 1; PProc 0] 2 k2);
    [done|done|process_msg|simpl; lia|by apply Hnext; [lia|]]|]. intros _ k3 [Hk3 Hs3 _ [s3 He3]].
  eapply becomes_mono; [by apply (test_queue_run 0 1 2 k3)|]. intros m k' (-> & Hk' & s & ->).
  split; [done|]. split; [done|]. exists s. by rewrite He3, He2, He1, !Machine.put_put.
Qed.

(** ** File system *)

Lemma kinv_sfs k s m : kinv k → sfs_repr s m → sf_mm s = vm_mm (k_vm k) → kinv (put ksfs s k).
Proof.
  intros [Hp Hs Ht Hv _] Hr Hmm. constructor; simpl; rewrite ?Hmm; try done. exists m. destruct Hr. by constructor.
Qed.

Lemma test_filesystem_run k m :
  kinv k → sfs_repr (view ksfs k) m →
  becomes test_filesystem last_line (λ msg k', kinv k' ∧ call_ok (fst msg) (snd msg) = true ∧
    (m = ∅ → msg = said "[TEST] File system test PASSED")) k.
Proof.
  intros Hk Hr. unfold test_filesystem. apply becomes_bind. wp_printf.
  apply becomes_bind, wp_zoom. eapply wp_mono; [by apply (wp_sfs_create _ (chars "testfile") _ m never)| |done].
  intros ino s1 (-> & Hr1 & Hm1). pose proof (kinv_sfs k s1 _ Hk Hr1 Hm1) as Hk1.
  destruct (_ <=? 0) eqn:Hc.
  { apply becomes_said. split; [done|]. split; [done|]. by intros ->. }
  apply becomes_bind. wp_printf. apply becomes_bind, wp_zoom. rewrite view_put.
  eapply wp_mono; [apply (wp_sfs_delete _ (chars "testfile") _ never _ Hr1); reflexivity| |done].
  intros r s2 (-> & Hr2 & Hm2). rewrite Machine.put_put.
  assert (kinv (put ksfs s2 k)) as Hk2 by (eapply kinv_sfs; [done|done|by rewrite Hm2, Hm1]).
  destruct (negb _) eqn:Hd.
  { apply becomes_said. split; [done|]. split; [done|]. by intros ->. }
  apply becomes_bind. wp_printf. by apply becomes_said.
Qed.

Lemma wp_test_filesystem (Q : unit → kstate → Prop) k :
  kinv k → (∀ k', kinv k' → Q tt k') → wp test_filesystem Q never k.
Proof.
  intros Hk HQ. destruct (ki_sfs _ Hk) as [m Hr]. apply (becomes_wp _ _ _ _ _ _ (test_filesystem_run k m Hk Hr)).
  intros msg k' (Hk' & Hc & _). by apply last_line_wp; [|apply HQ].
Qed.

Lemma wp_run_tests (Q : unit → kstate → Prop) k :
  kinv k → (∀ k', kinv k' → Q tt k') → wp run_tests Q never k.
Proof.
  intros Hk HQ. unfold run_tests. do 3 (apply wp_bind; wp_printf).
  apply wp_bind, wp_test_vm; [done|]. intros k1 Hk1. apply wp_bind. wp_printf.
  apply wp_bind, wp_test_scheduler; [done|]. intros k2 Hk2. apply wp_bind. wp_printf.
  apply wp_bind, wp_test_filesystem; [done|]. intros k3 Hk3. do 3 (apply wp_bind; wp_printf). wp_printf. by apply HQ.
Qed.
Lemma ready_inv entry k : kernel_ready entry k → kinv k.
Proof.
  intros [(l & Hp & _) _ [Ho [Hn _]] Ht [Hv _] _ [Hs _] _]. constructor; try done; [by exists l|by exists ∅].
Qed.
(** ** All tests together *)

(** What follows each test in [run_tests]. *)
Definition after_files : K kstate unit :=
  printf [LF; 0] [] ;;
  printf (ln "========================================") [] ;;
  printf (ln "  All Tests Completed") [] ;;
  printf (chars "========================================" ++ [LF; LF; 0]) [].
Definition after_scheduler : K kstate unit := printf [LF; 0] [] ;; test_filesystem ;; after_files.
Definition after_vm : K kstate unit := printf [LF; 0] [] ;; test_scheduler ;; after_scheduler.

(** The start-up sequence does not touch the process table. *)
Definition ktable (k : kstate) : list process := proc_table (ps (k_sched k)).

Lemma table_scheduler_init : frames (λ s, proc_table (ps s)) scheduler_init.
Proof.
  unfold scheduler_init, init_idle_process, upd_cpu, get_queue, put_queue, upd, deref.
  frames; by apply frames_modify.
Qed.

Lemma table_kernel_start entry : frames ktable (kernel_start entry).
Proof.
  unfold kernel_start, print_banner, uart_init.
  frames; (apply (frames_zoom ksched _ (λ s, proc_table (ps s))); [done|exact table_scheduler_init]) ||
    (apply frames_zoom_other; [done|by intros []]).
Qed.
End SelfTest.

(** C7: The kernel passes its own tests.  Started with an empty process table
    (static data as the boot code clears it) and any contents of RAM, the start-up
    sequence completes, and the run of [run_tests] comes to the line that reports
    the virtual-memory test as passed, then to that of the scheduler test, then to
    that of the file-system test, and returns with all invariants in force. *)
Theorem self_tests_pass {L : Layout} {LO : LayoutOk L} (entry : Z) (k : kstate) (w : world) :
  kernel_bss k → Forall (λ p, p_state p = PROC_UNUSED) (ktable k) →
  ∃ k0 w0 k1 w1 k2 w2 k3 w3 k4 w4,
    kernel_start entry k w = Ret tt k0 w0 ∧
    run_tests k0 w0 = (printf (ln "[TEST] Virtual memory test PASSED") [] ;; after_vm) k1 w1 ∧
    (printf (ln "[TEST] Virtual memory test PASSED") [] ;; after_vm) k1 w1 =
      (printf (ln "[TEST] Scheduler test PASSED") [] ;; after_scheduler) k2 w2 ∧
    (printf (ln "[TEST] Scheduler test PASSED") [] ;; after_scheduler) k2 w2 =
      (printf (ln "[TEST] File system test PASSED") [] ;; after_files) k3 w3 ∧
    (printf (ln "[TEST] File system test PASSED") [] ;; after_files) k3 w3 = Ret tt k4 w4 ∧ kinv k4.
Proof.
  intros Hb Hun.
  destruct (wp_run (kernel_start entry) (λ _ k0, kernel_ready entry k0 ∧ ktable k0 = ktable k) k w)
    as ([] & k0 & w0 & R0 & Hr & Ht).
  { apply (wp_frames ktable); [apply table_kernel_start|]. by apply wp_kernel_start. }
  pose proof (ready_inv _ _ Hr) as Hk0. destruct (kr_paging _ _ Hr) as (l0 & Hmap & Hlen).
  assert (proc_states k0 = replicate 64 PROC_UNUSED) as Hst.
  { unfold proc_states. change (proc_table (ps (k_sched k0))) with (ktable k0). rewrite Ht.
    pose proof (bss_table _ (proj1 (kb_sched _ Hb))) as Htab. rewrite <- Htab. clear -Hun. unfold ktable in *.
    induction Hun as [|p l Hp _ IH]; [done|]. cbn [fmap list_fmap length replicate]. by rewrite Hp, IH. }
  assert (becomes run_tests (λ m, last_line m ;; after_vm) (vm_tested k0 l0) k0) as B1.
  { unfold run_tests. do 3 (apply becomes_bind; wp_printf). by apply becomes_then, test_vm_run. }
  destruct (B1 w0) as (m1 & k1 & w1 & R1 & (Hk1 & _ & [s1 ->] & Hm1) & _). rewrite Hm1 in R1 by lia. clear Hm1 m1 B1.
  assert (becomes (last_line (said "[TEST] Virtual memory test PASSED") ;; after_vm) (λ m, last_line m ;; after_scheduler)
    (λ m k2, m = said "[TEST] Scheduler test PASSED" ∧ kinv k2 ∧ ∃ s, k2 = put ksched s (with_mm k0 s1)) (with_mm k0 s1)) as B2.
  { apply becomes_bind. unfold last_line, said. wp_printf. unfold after_vm. apply becomes_bind. wp_printf.
    by apply becomes_then, test_scheduler_passes. }
  destruct (B2 w1) as (m2 & k2 & w2 & R2 & (-> & Hk2 & [s2 ->]) & _). clear B2.
  set (k2' := put ksched s2 (with_mm k0 s1)) in *.
  assert (sfs_repr (view ksfs k2') ∅) as Hs.
  { destruct (kr_sfs _ _ Hr) as [[A B C D] _]. by constructor. }
  assert (becomes (last_line (said "[TEST] Scheduler test PASSED") ;; after_scheduler) (λ m, last_line m ;; after_files)
    (λ m k3, m = said "[TEST] File system test PASSED" ∧ kinv k3) k2') as B3.
  { apply becomes_bind. unfold last_line, said. wp_printf. unfold after_scheduler. apply becomes_bind. wp_printf.
    apply becomes_then. eapply becomes_mono; [by apply (test_filesystem_run k2' ∅)|]. naive_solver. }
  destruct (B3 w2) as (m3 & k3 & w3 & R3 & (-> & Hk3) & _). clear B3.
  destruct (wp_run (last_line (said "[TEST] File system test PASSED") ;; after_files) (λ _, kinv) k3 w3)
    as ([] & k4 & w4 & R4 & Hk4).
  { apply wp_bind. unfold last_line, said. wp_printf. unfold after_files. do 3 (apply wp_bind; wp_printf). by wp_printf. }
  by exists k0, w0, (with_mm k0 s1), w1, k2', w2, k3, w3, k4, w4.
Qed.

Lemma self_tests_pass_witness :
  ∃ k0 w0 k1 w1, kernel_start (L := sample_layout) 0x80200100 boot_kernel boot_world = Ret tt k0 w0 ∧
    run_tests k0 w0 = (printf (ln "[TEST] Virtual memory test PASSED") [] ;; after_vm) k1 w1.
Proof.
  destruct (self_tests_pass (L := sample_layout) 0x80200100 boot_kernel boot_world)
    as (k0 & w0 & k1 & w1 & _ & _ & _ & _ & _ & _ & R0 & R1 & _).
  - constructor; [exact (conj boot_bss boot_typed)| |done|done|exact sample_sfs_bss].
    split; [done|]. by apply Forall_replicate.
  - by apply Forall_replicate.
  - exists k0, w0, k1, w1. split; [exact R0|exact R1].
Defined.
