(* ===== verification/Session.v ===== *)
(** Sessions: the shell of [kernel/main.c] and the whole of [kernel_main], for
    any lines typed at the console. *)

From Stdlib Require Import String Ascii.
From S2P Require Import Prelude Machine Uart Printf Frames Mm Vm PageTable Mapping VmFree KernelMap Process Queues.
From S2P Require Import Scheduler SchedInv SchedOps SchedProps SchedTypes CString SimpleFs Vfs Testdev Trap Shell Kernel Main KernelInv SelfTest.
Local Open Scope string_scope.
Local Open Scope list_scope.
Local Open Scope Z_scope.

(** ** What is typed *)

(** A line: keys other than carriage return and line feed, then one of these. *)
Record line := Line { keys : list Z; newline : Z }.

Definition line_ok (x : line) : Prop :=
  Forall (λ c, 0 <= c < 256 ∧ c ≠ CR ∧ c ≠ LF) (keys x) ∧ (newline x = CR ∨ newline x = LF).

(** The bytes of a session. *)
Definition typed_in (ls : list line) : list Z := concat ((λ x, keys x ++ [newline x]) <$> ls).

(** What the editor makes of the line is not the command [reboot]. *)
Definition harmless (x : line) : Prop := line_ok x ∧ command_of (edited (keys x)) ≠ CmdReboot.

Section Session.
Context {L : Layout} {LO : LayoutOk L}.

Lemma wp_exec_command buffer read_buf t (Q : unit → kstate → Prop) k :
  kinv k → length read_buf = 65%nat → text buffer = Some t → command_of t ≠ CmdReboot →
  (∀ k', kinv k' → Q tt k') → wp (exec_command buffer read_buf (command_of t)) Q never k.
Proof.
  intros Hk Hrb Ht Hc HQ.
  assert (terminated buffer = true) as Hterm by (apply text_terminated; by rewrite Ht).
  destruct (command_of t) eqn:Hcmd; cbn [exec_command].
  - unfold cmd_help. do 8 (apply wp_bind; wp_printf). wp_printf. by apply HQ.
  - apply wp_cmd_ps; [done|by apply HQ].
  - destruct (ki_sched _ Hk). apply wp_zoom, wp_sched_print_stats; [done|done|]. rewrite put_view. by apply HQ.
  - apply wp_zoom, wp_show_system_info. rewrite put_view. by apply HQ.
  - by apply wp_cmd_testdev.
  - by apply wp_test_memory.
  - assert (terminated (drop 5 buffer) = true) as Hd.
    { unfold command_of in Hcmd. repeat case_decide; try done.
      match goal with H : prefix _ t |- _ => destruct H as [t' ->] end.
      apply text_terminated. change 5%nat with (length (chars "echo ")). rewrite (text_drop (chars "echo ") t'); done. }
    apply wp_printf; [|by apply HQ]. generalize dependent (drop 5 buffer). intros b Hd. cbv -[terminated]. by rewrite Hd.
  - done.
  - apply wp_bind, wp_printf; [cbv -[terminated]; by rewrite Hterm|]. wp_printf. by apply HQ.
Qed.

(** The prompt, and the line the editor reads. *)
Lemma round_start buffer read_buf x rest tr k :
  length buffer = 128%nat → line_ok x →
  ∃ b' tr', length b' = 128%nat ∧ text b' = Some (edited (keys x)) ∧
    shell_round buffer read_buf k (mkWorld (keys x ++ newline x :: rest) tr) =
      (if Z.of_nat (length (edited (keys x))) =? 0 then ret b'
       else exec_command b' read_buf (command_of (edited (keys x))) ;; ret b') k (mkWorld rest tr').
Proof.
  intros Hb [Hx Hn]. unfold shell_round.
  destruct (printf_prints (S := kstate) (chars "> " ++ [0]) [] eq_refl) as [out Hout].
  destruct (read_line_run buffer (keys x) rest (newline x) k (rev_append (map EvPutc out) tr) Hb Hx Hn)
    as (b' & tr' & Hrun & Hlen & Ht & _).
  exists b', tr'. split_and!; [done|done|]. unfold bind at 1. rewrite Hout. cbn [bind_res].
  unfold bind at 1, emits. cbn [w_in w_tr]. rewrite Hrun. cbn [bind_res fst snd].
  case_match; [done|]. by rewrite (parse_command_text b' _ Ht).
Qed.

Lemma round_run buffer read_buf x rest tr k :
  kinv k → length buffer = 128%nat → length read_buf = 65%nat → harmless x →
  ∃ b' k' tr', kinv k' ∧ length b' = 128%nat ∧
    shell_round buffer read_buf k (mkWorld (keys x ++ newline x :: rest) tr) = Ret b' k' (mkWorld rest tr').
Proof.
  intros Hk Hb Hrb [Hx Hc]. destruct (round_start buffer read_buf x rest tr k Hb Hx) as (b' & tr' & Hlen & Ht & ->).
  destruct (_ =? 0); [by exists b', k, tr'|].
  destruct (wp_run_in (exec_command b' read_buf (command_of (edited (keys x)))) (λ _, kinv) k (mkWorld rest tr'))
    as ([] & k' & [inp tr2] & Hrun & Hk' & Hin); [by eapply wp_exec_command|]. simpl in Hin. subst inp.
  exists b', k', tr2. unfold bind. by rewrite Hrun.
Qed.

Lemma session_run ls n buffer read_buf rest tr k :
  kinv k → length buffer = 128%nat → length read_buf = 65%nat → Forall harmless ls →
  ∃ b' k' tr', kinv k' ∧ length b' = 128%nat ∧
    shell_loop (length ls + n) buffer read_buf k (mkWorld (typed_in ls ++ rest) tr) =
    shell_loop n b' read_buf k' (mkWorld rest tr').
Proof.
  intros Hk Hb Hrb Hls. revert buffer tr k Hk Hb. induction Hls as [|x ls Hx _ IH]; intros buffer tr k Hk Hb.
  { by exists buffer, k, tr. }
  unfold typed_in. cbn [fmap list_fmap concat length Nat.add shell_loop]. rewrite <- !app_assoc. cbn [app].
  destruct (round_run buffer read_buf x (typed_in ls ++ rest) tr k Hk Hb Hrb Hx) as (b1 & k1 & tr1 & Hk1 & Hb1 & Hrun).
  unfold bind. unfold typed_in in Hrun. rewrite Hrun. by apply IH.
Qed.
End Session.

(** C1: from any contents of RAM and typed static data, and whatever the
    shell's uninitialised arrays hold, [kernel_main] starts up, runs its self
    tests and the memory test, and serves any sequence of lines typed at the
    console (any keys, erase keys and control characters included, any length, any
    of the commands but [reboot], unknown ones too): it never faults, panics or
    stops, takes exactly the bytes of those lines, and is back at its prompt with
    paging, scheduler, process records and both file systems in their invariants. *)
Theorem kernel_main_serves {L : Layout} {LO : LayoutOk L} (entry : Z) (k : kstate) (buffer read_buf : list Z)
    (ls : list line) (n : nat) (rest : list Z) (tr : list event) :
  kernel_bss k → length buffer = 128%nat → length read_buf = 65%nat → Forall harmless ls →
  ∃ b' k' tr', kernel_main entry (length ls + n) buffer read_buf k (mkWorld (typed_in ls ++ rest) tr) =
      (shell_loop n b' read_buf ;; panic (lit "Kernel main returned")) k' (mkWorld rest tr') ∧ kinv k'.
Proof.
  intros Hb Hbl Hrb Hls. set (w0 := mkWorld (typed_in ls ++ rest) tr).
  destruct (wp_run_in (kernel_start entry) (λ _ k1, kernel_ready entry k1) k w0)
    as ([] & k1 & w1 & R1 & Hk1%ready_inv & I1); [by apply wp_kernel_start|].
  destruct (wp_run_in run_tests (λ _, kinv) k1 w1) as ([] & k2 & w2 & R2 & Hk2 & I2); [by apply wp_run_tests|].
  destruct (wp_run_in test_memory (λ _, kinv) k2 w2) as ([] & k3 & w3 & R3 & Hk3 & I3); [by apply wp_test_memory|].
  destruct (wp_run_in (printf (ln "[SHELL] Starting simple shell") []) (λ _ k4, k4 = k3) k3 w3)
    as ([] & k4 & w4 & R4 & -> & I4); [by wp_printf|].
  destruct (wp_run_in (printf (ln "Type 'help' for available commands") []) (λ _ k4, k4 = k3) k3 w4)
    as ([] & k5 & [inp tr5] & R5 & -> & I5); [by wp_printf|].
  assert (inp = typed_in ls ++ rest) as -> by (simpl in I5; by rewrite I5, I4, I3, I2, I1).
  destruct (session_run ls n buffer read_buf rest tr5 k3 Hk3 Hbl Hrb Hls) as (b' & k' & tr' & Hk' & _ & R6).
  exists b', k', tr'. split; [|done]. unfold kernel_main, run_shell.
  rewrite (bind_run _ _ _ _ _ _ _ R1), (bind_run _ _ _ _ _ _ _ R2), (bind_run _ _ _ _ _ _ _ R3).
  unfold bind at 1. rewrite (bind_run _ _ _ _ _ _ _ R4), (bind_run _ _ _ _ _ _ _ R5), R6. done.
Qed.

(** A session: erased letters, a test of the device driver, an unknown command. *)
Definition sample_session : list line :=
  [Line (chars "hx" ++ [127] ++ chars "elp") CR; Line (chars "testdev") LF; Line [] CR; Line (chars "echo hi") CR;
   Line (chars "rebootx") CR].

Lemma sample_harmless : Forall harmless sample_session.
Proof.
  assert (∀ x, forallb (λ c, (0 <=? c) && (c <? 256) && negb (c =? CR) && negb (c =? LF)) (keys x) = true →
    newline x = CR ∨ newline x = LF → command_of (edited (keys x)) ≠ CmdReboot → harmless x) as Hd.
  { intros x Hf Hn Hc. split; [split; [|done]|done]. apply Forall_forall. intros c Hin%list_elem_of_In.
    apply (proj1 (forallb_forall _ _) Hf) in Hin. lia. }
  repeat apply Forall_cons_2; try apply Forall_nil_2; apply Hd; vm_compute; auto; discriminate.
Qed.

Lemma kernel_main_serves_witness :
  ∃ k' tr', kernel_main (L := sample_layout) 0x80200100 5 (replicate 128 7) (replicate 65 0) boot_kernel
      (mkWorld (typed_in sample_session) []) = Spin k' (mkWorld [] tr') ∧
    kinv (L := sample_layout) k'.
Proof.
  destruct (kernel_main_serves (L := sample_layout) 0x80200100 boot_kernel (replicate 128 7) (replicate 65 0)
    sample_session 0 [] []) as (b' & k' & tr' & Hrun & Hk').
  - constructor; [exact (conj boot_bss boot_typed)| |done|done|exact sample_sfs_bss].
    split; [done|]. by apply Forall_replicate.
  - reflexivity.
  - reflexivity.
  - exact sample_harmless.
  - rewrite app_nil_r in Hrun. exists k', tr'. split; [exact Hrun|exact Hk'].
Defined.

(** Typing [reboot] prints "Rebooting..." and then stores to the QEMU test
    device at [0x100000], which the kernel page table does not map: the shell
    takes a page fault instead of powering the machine off. *)
Theorem reboot_faults {L : Layout} {LO : LayoutOk L} (buffer read_buf : list Z) (x : line) (rest : list Z)
    (tr : list event) (k : kstate) :
  kinv k → length buffer = 128%nat → line_ok x → edited (keys x) = chars "reboot" →
  ∃ tr', shell_round buffer read_buf k (mkWorld (keys x ++ newline x :: rest) tr) = Fault k (mkWorld rest tr').
Proof.
  intros Hk Hb Hx Hr. destruct (round_start buffer read_buf x rest tr k Hb Hx) as (b' & tr' & _ & _ & ->).
  rewrite Hr. change (Z.of_nat (length (chars "reboot")) =? 0) with false. cbn iota.
  change (command_of (chars "reboot")) with CmdReboot. cbn [exec_command]. unfold cmd_reboot.
  destruct (printf_prints (S := kstate) (ln "Rebooting...") [] eq_refl) as [out Hout].
  destruct (ki_paging _ Hk) as [l [_ _ Hxl]].
  unfold bind at 1, bind at 1. rewrite Hout. cbn [bind_res]. unfold store_device.
  rewrite (Hxl QEMU_VIRT_TEST) by done. change (kernel_map (QEMU_VIRT_TEST / 4096)) with (@None Z).
  cbn [bind_res]. eexists. reflexivity.
Qed.

(** A kernel in its invariant: the one that was just started. *)
Lemma booted_inv : ∃ k, kinv (L := sample_layout) k.
Proof.
  destruct (wp_run (kernel_start (L := sample_layout) 0) (λ _ k1, kernel_ready (L := sample_layout) 0 k1) boot_kernel boot_world)
    as ([] & k & w & _ & Hk%ready_inv).
  { apply wp_kernel_start; [|done]. constructor; [exact (conj boot_bss boot_typed)| |done|done|exact sample_sfs_bss].
    split; [done|]. by apply Forall_replicate. }
  by exists k.
Qed.

Lemma reboot_faults_witness :
  ∃ k tr', shell_round (L := sample_layout) (replicate 128 7) (replicate 65 0) k
    (mkWorld (typed_in [Line (chars "reboot") CR]) []) = Fault k (mkWorld [] tr').
Proof.
  destruct booted_inv as [k Hk].
  exists k. apply (reboot_faults (L := sample_layout) (replicate 128 7) (replicate 65 0) (Line (chars "reboot") CR) [] [] k).
  - exact Hk.
  - reflexivity.
  - split; [|by left]. repeat (apply Forall_cons_2; [vm_compute; repeat split; discriminate|]). by apply Forall_nil_2.
  - reflexivity.
Defined.
