(* ===== verification/Interrupts.v ===== *)
(** An interrupt while the shell waits for input: [trap_entry] of
    [bootloader/boot.S] and [trap_handler] of [kernel/trap/trap.c] on the state of
    the whole kernel and the registers of the interrupted code. *)

From Stdlib Require Import String Ascii.
From S2P Require Import Prelude Machine Uart Printf Frames Mm Vm PageTable Mapping VmFree KernelMap Process Queues.
From S2P Require Import Scheduler SchedInv SchedOps SchedProps SchedTypes CString SimpleFs Vfs Testdev Trap Shell Kernel Main KernelInv SelfTest Session.
From S2P Require Import Riscv Swtch TrapEntry Preemption.
Local Open Scope string_scope.
Local Open Scope list_scope.
Local Open Scope Z_scope.

(** ** The handler on the kernel's state *)

Definition ktrap : lens tstate kstate.
Proof.
  refine (Lens (λ k, TState (k_csr k) (k_sched k))
    (λ t k, KState (k_vm k) (t_csr t) (t_sched t) (k_devices k) (k_next_ino k) (k_files k) (k_inodes k)
      (k_testdev k) (k_superblock k) (k_sfs_inodes k) (k_data_blocks k)) _ _ _);
    [by intros [] []|by intros []|by intros [] [] []].
Defined.

Definition kticks (k : kstate) : Z := global_ticks (ps (k_sched k)).

Section Handler.
Context {L : Layout} {LO : LayoutOk L}.

(** The kernel's invariant does not speak of the control registers. *)
Lemma kinv_trap c s k :
  kinv k → sched_ok s → current (cpu0 s) = None → typed s → kinv (put ktrap (TState c s) k).
Proof.
  intros [Hp _ _ Hv [mp [A B C D]]] Ho Hcur Ht. constructor; try done. exists mp. by constructor.
Qed.

(** At a prompt no process runs: every interrupt returns. *)
Lemma wp_handler c k :
  kinv k → 2 ^ 63 <= scause c < 2 ^ 64 →
  wp (zoom ktrap trap_handler) (λ _ k', kinv k' ∧ k_csr k' = c ∧
    kticks k' = if scause c =? TIMER then u64 (kticks k + 1) else kticks k) never (put kcsr c k).
Proof.
  intros Hk Hc. pose proof (ki_sched _ Hk) as [Hok Hn]. pose proof (ki_typed _ Hk) as Hty. apply wp_zoom.
  change (view ktrap (put kcsr c k)) with (TState c (k_sched k)).
  assert (∀ s, put ktrap (TState c s) (put kcsr c k) = put ktrap (TState c s) k) as Hput by done.
  destruct (Z.eqb_spec (scause c) TIMER) as [Ht|Ht].
  - intros w. rewrite timer_trap by done. revert w.
    apply (wp_zoom trap_sched). eapply wp_mono;
      [exact (wp_preserves typed _ _ never _ typed_tick Hty (wp_tick_none never _ Hok Hn))| |done].
    intros [] s' [(Hok' & Hn' & Hti) Hty']. cbn [put trap_sched t_csr]. rewrite Hput.
    split; [by apply kinv_trap|]. split; [done|exact Hti].
  - apply wp_other_interrupt; [unfold is_u64; simpl; lia|simpl; lia|exact Ht|].
    rewrite Hput. split; [by apply kinv_trap|done].
Qed.
End Handler.

(** ** From the interrupt to the return *)

(** C8: an interrupt (timer, software, external or unknown) that arrives while the
    shell waits at its prompt, through [trap_entry].  The entry calls the handler;
    the handler returns without fault or panic, takes no input, writes no control
    register, keeps the invariants of paging, scheduler and file systems, and
    advances the tick counter by one for a timer interrupt and not at all
    otherwise: the kernel's data are as the shell expects them.  The registers are
    not: when the handler returns by the calling convention, the interrupted code
    goes on where it was, in its mode, with its interrupt enable and its
    callee-saved registers, but with the return address of [trap_entry]'s own call
    in [ra], so that a leaf routine such as [uart_getc] returns into
    [trap_entry].  The kernel's control registers are those of the machine [m]. *)
Theorem interrupt_at_prompt {L : Layout} {LO : LayoutOk L} (site cause pc : Z) (m : machine) (k : kstate) (w : world) :
  kinv k → 2 ^ 63 <= cause < 2 ^ 64 →
  let m1 := entered site (take_trap cause pc m) in
  exec 2 (trap_entry_code site) (take_trap cause pc m) = Called "trap_handler" trap_exit_code m1 ∧
  ∃ k' w', zoom ktrap trap_handler (put kcsr (csrs_of m1) k) w = Ret tt k' w' ∧ w_in w' = w_in w ∧
    kinv k' ∧ k_csr k' = csrs_of m1 ∧
    kticks k' = (if cause =? TIMER then u64 (kticks k + 1) else kticks k) ∧
    ∀ m2, returns 0 m1 m2 → csrs_of m2 = k_csr k' → csrf m2 SSCRATCH = csrf m1 SSCRATCH →
      ∃ m3, run 2 (trap_entry_code site) trap_exit_code m2 = Resumed pc m3 ∧
        priv m3 = priv m ∧ Z.testbit (csrf m3 SSTATUS) 1 = Z.testbit (csrf m SSTATUS) 1 ∧
        (∀ r, r ∈ callee_saved → gpr m3 r = gpr m r) ∧
        gpr m3 RA = site ∧ exec 1 [RET] m3 = Jumped site m3.
Proof.
  intros Hk Hc m1. split; [apply trap_entry_call|].
  destruct (wp_run_in _ _ (put kcsr (csrs_of m1) k) w (wp_handler (csrs_of m1) k Hk Hc))
    as ([] & k' & w' & Hrun & (Hk' & Hcsr & Ht) & Hin).
  exists k', w'. split; [exact Hrun|]. split; [exact Hin|]. split; [exact Hk'|]. split; [exact Hcsr|].
  split; [exact Ht|]. intros m2 Hret Heq Hscr. rewrite Hcsr in Heq.
  destruct (trap_entry_back site cause pc m m2 Hret) as (m3 & Hres & Hp & Hi & Hs & Hra).
  { intros q Hq. rewrite !elem_of_cons, elem_of_nil in Hq. destruct Hq as [->|[->|[->|[]]]];
      [exact (f_equal sepc Heq)|exact (f_equal sstatus Heq)|exact Hscr]. }
  exists m3. split; [exact Hres|]. split; [exact Hp|]. split; [exact Hi|]. split; [exact Hs|]. split; [exact Hra|].
  cbn [exec run]. by rewrite rget_gpr, Hra by done.
Qed.

(** The kernel after start-up, interrupted at its first prompt. *)
Lemma interrupt_at_prompt_witness :
  let m1 := entered 0x80200108 (take_trap TIMER 0x80201000 (interrupted Supervisor 0x80230000 0)) in
  ∃ k k' w' m3, zoom ktrap trap_handler (put kcsr (csrs_of m1) k) boot_world = Ret tt k' w' ∧
    kinv (L := sample_layout) k' ∧ kticks k' = u64 (kticks k + 1) ∧
    run 2 (trap_entry_code 0x80200108) trap_exit_code (clobbered m1) = Resumed 0x80201000 m3 ∧
    exec 1 [RET] m3 = Jumped 0x80200108 m3.
Proof.
  intros m1.
  destruct booted_inv as [k Hk].
  destruct (interrupt_at_prompt (L := sample_layout) 0x80200108 TIMER 0x80201000 (interrupted Supervisor 0x80230000 0)
    k boot_world Hk) as (_ & k' & w' & Hrun & _ & Hk' & Hcsr & Ht & Hret); [unfold TIMER; lia|].
  destruct (Hret (clobbered m1)) as (m3 & Hres & _ & _ & _ & _ & Hra);
    [apply clobbered_returns|by rewrite Hcsr|done|].
  exists k, k', w', m3. split; [exact Hrun|]. split; [exact Hk'|]. split; [exact Ht|]. split; [exact Hres|exact Hra].
Defined.
